(* ===== verification/_CoqProject ===== *)
-Q . S2P
Prelude.v
SplitTypes.v
Assign.v
Workload.v
AssignProofs.v
PlanProofs.v
PlanLoop.v
RowSpec.v
SharedKv.v
SharedKvProofs.v
Metadata.v
SasMeta.v
MetaProofs.v
SasProofs.v
KvqMeta.v
KvqProofs.v
QliMeta.v
QliProofs.v
Fixtures.v
SasTheorems.v
KvqTheorems.v
QliTheorems.v
FdSplit.v
SwaKernel.v
SwaProofs.v
SwaRun.v
SwaTheorems.v
SwaCube.v
SwaCubeProofs.v
SwaCubeTheorems.v
Ascend.v
Tensor.v
NgramKernel.v
NgramSpec.v
NgramGolden.v
NgramProofs.v
NgramRun.v
NgramChunk.v
NgramBatch.v
NgramCall.v
NgramTheorems.v
GatherKernel.v
GatherTheorems.v
StoreKernel.v
StoreTheorems.v
CacheTheorems.v
EagleKernel.v
EagleProofs.v
EagleTheorems.v
ReshapeKernel.v
ReshapeProofs.v
ReshapeTheorems.v
LoadKernel.v
LoadTheorems.v
HostPool.v
HostPoolProofs.v
HostPoolOps.v
HostPoolRun.v
HostPoolTheorems.v
