(* ===== verification/Prelude.v ===== *)
(** * Ascend operators of vLLM: core splitting, sliding-window attention, draft inputs, KV cache

    vLLM-Ascend runs its sparse-attention and indexer operators on the AI cores
    of an Ascend NPU.  Before such an operator starts, a metadata kernel runs on
    the AICPU: from the sequence lengths of a batch it decides which core works
    on which rows of the attention matrix and writes the decision into a tensor
    that every core reads.  A mistake there loses rows, computes them twice, or
    lets one core delay all others.  This development models the three metadata
    kernels of the repository, the AI-core kernel that consumes the metadata of
    sliding-window attention, the two operators of speculative decoding that
    prepare draft tokens (n-gram proposer, EAGLE inputs), and the operators that
    store and move keys and values in the paged cache, with the registry of host
    memory that one of them reads from, and proves what they promise.

    ** The program

    - src/csrc/attention/sparse_attn_sharedkv_metadata/op_kernel_aicpu:
      SparseAttnSharedkvMetadataCpuKernel, called SAS below;
    - src/csrc/attention/kv_quant_sparse_attn_sharedkv_metadata/op_kernel_aicpu:
      KvQuantSparseAttnSharedkvMetadataCpuKernel, KVQ;
    - src/csrc/attention/vllm_quant_lightning_indexer_metadata/op_kernel_aicpu:
      VllmQuantLightningIndexerMetadataCpuKernel, QLI;
    - the metadata layouts (op_kernel/..._metadata.h of the three operators) and
      the attribute helpers src/csrc/common/aicpu/cpu_context_util.h;
    - src/csrc/attention/sparse_attn_sharedkv/op_kernel/arch32: the
      sliding-window kernel of an AI core (sparse_attn_sharedkv_swa_kernel.h) and
      the loads of its cube block (sparse_attn_sharedkv_swa_block_cube.h);
    - src/csrc/attention/ngram_spec_decode: the kernel of the n-gram proposer and
      its tiling function;
    - src/csrc/moe/copy_and_expand_eagle_inputs, with its binding in
      src/csrc/torch_binding.cpp: the inputs of the EAGLE draft model;
    - src/csrc/attention/store_kv_block, reshape_and_cache_bnsd,
      kv_cache_block_gather and load_index_kv_cache: groups of tokens into the
      slots of a cache, sequences head by head into its pages, pages from one
      cache to another, keys and scales of the indexer out of its slots;
    - src/csrc/kv_cache_block_gather_binding.cpp: the Torch binding of
      kv_cache_block_gather, which keeps a registry of pools in host memory.

    Compute of a kernel is Prepare (read tensors and attributes, ParamsCheck,
    ParamsInit), BalanceSchedule and GenMetaData.  BalanceSchedule cuts every
    sequence into rows of [mBaseSize_] (token, head) pairs and blocks of
    [s2BaseSize_] keys (CalcSplitInfo), computes the cost of every row
    (CalcCostInfo, over CalcBatchCache and CalcS1GCache) and runs CalcSplitPlan,
    which gives each core in turn whole batches (AssignByBatch), then rows
    (AssignByRow), then, in builds with flash-decode, single blocks
    (AssignByBlock, ForceAssign) until its cost limit is reached.

    An AI core of the sliding-window kernel reads its interval from the metadata
    (InitCalcParamsEach), walks over batches, rows and blocks (ProcessBalance)
    and sends one task per block through a pipeline of stages
    (PreloadPipeline); for each task the cube block copies keys and values from
    the (paged) cache to L1.  The n-gram proposer runs on the vector cores: each
    takes some rows of the batch, appends the sampled tokens, looks for an
    earlier occurrence of the last tokens and proposes what follows it.  The
    EAGLE operator lays out, for every request, accepted, sampled, drafted and
    rejected tokens.  The cache operators deal groups, pieces of sequences or
    pages to the vector cores, each of which copies through its own buffer.
    The pages that kv_cache_block_gather reads are in host memory.  A pool of them
    is registered with the ACL runtime, which maps it for the device; every
    registration is a lease with a handle, leases share mappings, and the last
    release of a mapping waits for the device and unregisters it.  The binding of
    the operator resolves its source through the registry, asks the tiling
    function and launches the kernel.

    ** The files

    - Prelude: the result monad [res] with the faults out-of-bounds, division by
      zero and out-of-fuel; the judgement [returns] of total correctness;
      machine widths; vectors; loops; finite sums; record update; tactics.
    - SplitTypes: the structs of the three headers, tensors and attributes.
    - Assign: the engine that the three kernels share textually, over the
      interface [SplitKernel] of what a kernel supplies (sizes, caches, costs).
    - Workload: the abstract side: a workload (rows with cost and blocks per
      batch), a plan (where each core ends) and its contract [PlanOk].
    - AssignProofs, PlanProofs, PlanLoop: [RowModel] and [KernelModel], what a
      kernel promises to the engine, and the proof against them that the engine
      computes the costs of the workload, terminates within its fuel, never
      leaves a vector, and produces a plan that meets the contract
      ([schedule_returns], [ScheduleOk]).
    - RowSpec: segments of tokens, masks, cost of a row, without machine words.
    - SharedKv, SharedKvProofs: the row model of SAS and KVQ (window part and
      compressed part) and the proof that it is a [RowModel].
    - Metadata, MetaProofs: the output tensor as the AICPU writes it and as the
      AI cores read it through GetAttrAbsIndex.
    - SasMeta / SasProofs / SasTheorems, KvqMeta / KvqProofs / KvqTheorems,
      QliMeta / QliProofs / QliTheorems: for each kernel the checks,
      initialisation, assignment of one core, schedule, metadata and Compute;
      the proof that it meets the interfaces; the theorems.
    - FdSplit: the distribution of reduction tasks over the vector cores.
    - Fixtures: concrete contexts on which theorems are instantiated.
    - SwaKernel, SwaProofs, SwaRun, SwaTheorems: the control of the
      sliding-window kernel as a trace of stages and of cleared rows; what a
      core does with an interval; the theorems, some of them about the scheduler
      and the kernel together.
    - SwaCube, SwaCubeProofs, SwaCubeTheorems: the copies of keys and values
      (DataCopyPA over block tables, ComputeMm1, ComputeMm2).
    - Ascend: the transfers and the comparison of the AscendC library as a class
      [AscendC] with the class of its laws [AscendCLaws], and an implementation
      that meets them.
    - NgramKernel: tiling and kernel of the n-gram proposer.  NgramSpec: n-grams,
      occurrences and the outputs of a row without buffers.  NgramGolden: the
      golden of the repository's tests for a row.  NgramProofs (a row
      in the buffer), NgramRun (transfers, a block of rows), NgramChunk (a row
      longer than the buffer), NgramBatch (the loop of a core), NgramCall (tiling
      and all blocks), NgramTheorems.
    - Tensor: what loops of transfers leave of a tensor ([outside]), and tensors
      that several cores write in disjoint places in any order ([wrote],
      [apart], [run_list]); the clients of this file are the operators below.
    - GatherKernel / GatherTheorems, StoreKernel / StoreTheorems: tiling, kernel
      and theorems of kv_cache_block_gather and store_kv_block; CacheTheorems:
      the two one after the other.
    - EagleKernel (shape inference, tiling, kernel, binding), EagleProofs (the
      reference [Golden] and one request), EagleTheorems (a call).
    - ReshapeKernel, ReshapeProofs (pieces of sequences, where a core starts, one
      piece), ReshapeTheorems (all cores).
    - LoadKernel, LoadTheorems: load_index_kv_cache over tensors of bytes, with
      the transfers it uses as the class [AscendBytes].
    - HostPool: the registry and the binding as computations in a monad [M] with
      a state that survives exceptions; what the ACL runtime answers during an
      operation is an environment [Env], its calls are recorded.  HostPoolProofs:
      a weakest-precondition calculus and the invariant [Inv]; HostPoolOps: all
      outcomes of a registration and of a release ([Registers], [Releases]);
      HostPoolRun: histories of calls ([reachable]), and the class [Quiet] of
      calls that change nothing; HostPoolTheorems.

    ** Correspondence

    A kernel object is a record with the source's members; a routine that
    changes members takes and returns the record.  [uint32_t] arithmetic wraps
    ([u32]), [int64_t] is two's complement ([i64]).  An access outside a vector
    or table, and a division by zero, is a [Fault], so that a theorem
    [returns m Q] says that the code runs to its end without undefined
    behaviour, with a result in [Q].  Routines keep the source's names.

    ** What the theorems show

    - For every call that Prepare accepts and whose sizes are in range ([Sane]:
      what the checks leave to the caller), the metadata assigns every row to
      exactly one core (or pair of cores), in consecutive intervals, without
      idle cores (when there is work), and no core exceeds its share by more than
      half a row:
      [sas_rows_partitioned], [sas_load_balanced], [sas_intervals_chain] and
      their KVQ and QLI counterparts.
    - The schedule refines the abstract split for any number of cores:
      [sas_schedule_refines]; the row and cost routines compute the
      specification: [sas_row_computed], [sas_costs_recorded],
      [qli_row_computed].
    - No row is split between cores, so that no reduction is needed:
      [sas_no_reduction]; SplitFD, which distributes reductions, is correct when
      every task carries the average load: [fd_rows_reduced_once].
    - Prepare is total, and a rejected call leaves the output alone: [sas_prepare_total], [sas_reject_untouched],
      [kvq_prepare_total], [qli_prepare_total], [qli_ratio_exact].
    - Inputs that the checks let through and that fault or lose work:
      [sas_zero_heads_fault], [sas_core_count_fault], [kvq_single_core_lost],
      [kvq_single_core_fault], [kvq_pairs_fault], [qli_core_count_fault],
      [fd_small_task_fault].
    - The scheduler and the sliding-window kernel together compute every score
      exactly once: [swa_each_key_once]; a core issues exactly the tasks of its
      interval and all of them complete: [swa_core_run], [swa_stages_complete];
      they are as many as the scheduler counted, its interval is read back as
      written, and the workspaces are disjoint: [swa_predicted_work],
      [swa_interval_roundtrip], [swa_workspace_disjoint].
    - The cube block loads exactly the keys of a task, they fit, and DataCopyPA
      follows the block table: [swa_task_loads], [swa_core_loads],
      [swa_tiles_fit], [data_copy_pa_rows]; [swa_window_pieces] shows where wide
      windows would go wrong.
    - A call of the n-gram proposer, in any order of its blocks, computes the
      golden of the repository's tests for rows beyond the buffer and for rows in
      which only the shortest n-gram occurs: [ngram_call_golden]; what the drafts
      are otherwise: [ngram_drafts_continue], [ngram_short_rows_longest],
      [ngram_long_rows_shortest]; blocks partition the batch and do not disturb
      each other: [ngram_rows_partition], [ngram_block_frame].
      [ngram_short_rows_diverge] shows a call that differs from the golden,
      [ngram_stale_mask] and [ngram_far_match_missed] inputs on which the vector
      search misses occurrences.
    - A call of the EAGLE operator returns the reference: [eagle_golden]; what
      its indices and its mapping mean: [eagle_new_tokens],
      [eagle_hidden_pairs]; the slots fill the inferred shape exactly:
      [eagle_slots_partition].  [eagle_long_request_fault] shows what a request
      beyond the buffers does.
    - The cache operators put every token or page where it belongs and change
      nothing else, in any order of the cores: [store_groups],
      [reshape_tokens], [reshape_other_slots], [gather_pages],
      [gather_roundtrip], [store_then_gather], [load_rows]; the tiling function of
      store_kv_block computes its reference: [store_tiling_exact].  Calls that lose or overwrite data:
      [store_tail_lost], [store_buffer_bytes], [reshape_pad_overwrites],
      [load_small_dim_fault].
    - The registry keeps its invariant in every history of calls, whatever the
      runtime answers: [pool_invariant]; it refines an abstract table of leases:
      [pool_refines]; a pool that is leased resolves, at memory that is still
      registered: [pool_lease_resolves]; releases undo registrations, and calls
      that throw change nothing: [pool_roundtrip], [pool_errors_atomic].  Binding,
      tiling and kernel together: [gather_call_pages].  [load_again_true],
      [peak_below_current], [borrowed_covered] and [registration_lost] show where
      the answers of the module are not what a caller expects.

    ** Fuel

    AssignByBatch gets one round per batch and head, AssignByRow and its inner
    loop one round per row of the batch, AssignByBlock one per block of the row.
    [schedule_returns] proves that none of them runs out.  DataCopyPA gets one
    round per row, the loop over the blocks of the n-gram proposer one per row of
    the core; [data_copy_pa_rows] and [ngram_call_golden] prove that this is
    enough.  CopyBlock of the page gather gets one round per element of a page,
    which [gather_pages] proves to be enough.  All other loops are bounded by
    their own counters.

    ** Not modelled

    The AICPU framework (tensors, attributes) is an input; logging is dropped.
    Of the AI-core kernels the arithmetic of the cube and vector units and the
    flags between the pipes of a core are left out (in the sliding-window kernel
    also InitBuffers and InitOutputSingleCore, which only call AscendC).  The
    transfers of AscendC are classes with laws, and the local tensors that a
    queue or a buffer hands out hold arbitrary values.  Cores run one after the
    other, in any order; the proofs show that they write disjoint places.  The
    copies of the EAGLE operator that read beyond an input find arbitrary values
    there.  Of the binding of kv_cache_block_gather the ACL runtime and the dynamic
    linker are inputs, ACLNN is a parameter that asks the tiling function, tensors
    have the properties that the code looks at, and the mutex makes every call one
    step; descriptors, workspace and stream are left out.  The number of cache rows in the tiling function of
    reshape_and_cache_bnsd and its flag copyFromBatchStart are computed and never
    used, and are left out.  The other numerical kernels, the other operators,
    the host-side registration and the Python code are outside the
    development. *)

From Stdlib Require Export ZArith Lia.
From stdpp Require Export base list option strings numbers.

#[global] Open Scope Z_scope.

(** ** Faults and the result monad

    The AICPU kernels are C++ that runs on unchecked memory.  A read or write
    outside a [std::vector] or array, a division by zero and a loop that does
    not stop within the fuel the model grants are the three ways in which a
    modelled routine fails to produce a value. *)

Inductive fault :=
  | OutOfBounds
  | DivByZero
  | OutOfFuel.

Inductive res (A : Type) :=
  | Ok (a : A)
  | Fault (e : fault).
Arguments Ok {A} a.
Arguments Fault {A} e.

#[global] Instance res_ret : MRet res := fun A a => Ok a.
#[global] Instance res_bind : MBind res := fun A B f m =>
  match m with Ok a => f a | Fault e => Fault e end.

#[global] Instance fault_eq_dec : EqDecision fault.
Proof. solve_decision. Defined.

(** Total-correctness judgement: the routine returns, and its value satisfies
    the postcondition. *)
Definition returns {A} (m : res A) (Q : A -> Prop) : Prop :=
  exists a, m = Ok a /\ Q a.

Section returns_rules.
Context {A B : Type}.

Lemma returns_ok (a : A) (Q : A -> Prop) : Q a -> returns (Ok a) Q.
Proof. intros H. exists a. auto. Qed.

Lemma returns_bind (m : res A) (f : A -> res B) (Q : B -> Prop) :
  returns m (fun a => returns (f a) Q) -> returns (m ≫= f) Q.
Proof. intros (a & -> & H). exact H. Qed.

Lemma returns_mono (m : res A) (P Q : A -> Prop) :
  returns m P -> (forall a, P a -> Q a) -> returns m Q.
Proof. intros (a & E & H) HPQ. exists a. auto. Qed.

Lemma returns_bind_mono (m : res A) (f : A -> res B) (P : A -> Prop) (Q : B -> Prop) :
  returns m P -> (forall a, P a -> returns (f a) Q) -> returns (m ≫= f) Q.
Proof. intros H K. apply returns_bind. eapply returns_mono; eauto. Qed.

Lemma returns_bind2 {C : Type} (m : res C) (g : C -> res A) (f : A -> res B) P (Q : B -> Prop) :
  returns (m ≫= g) P -> (forall a, P a -> returns (f a) Q) ->
  returns (m ≫= fun c => g c ≫= f) Q.
Proof.
  intros H K. destruct m as [c|e]; [|by destruct H as (? & ? & _)].
  by eapply returns_bind_mono.
Qed.

Lemma returns_if (c : bool) (m n : res A) (Q : A -> Prop) :
  (c = true -> returns m Q) -> (c = false -> returns n Q) ->
  returns (if c then m else n) Q.
Proof. destruct c; auto. Qed.
End returns_rules.

(** ** Machine integers

    A [uint32_t] or [int64_t] value is a [Z]; the C++ conversions to a width
    are written out.  Unsigned arithmetic wraps, signed conversion is two's
    complement. *)

Definition u32 (z : Z) : Z := z mod 2 ^ 32.
Definition u64 (z : Z) : Z := z mod 2 ^ 64.
Definition i32 (z : Z) : Z := (z + 2 ^ 31) mod 2 ^ 32 - 2 ^ 31.
Definition i64 (z : Z) : Z := (z + 2 ^ 63) mod 2 ^ 64 - 2 ^ 63.

Definition INT64_MAX : Z := 2 ^ 63 - 1.

Lemma u32_id z : 0 <= z < 2 ^ 32 -> u32 z = z.
Proof. apply Z.mod_small. Qed.

Lemma u64_id z : 0 <= z < 2 ^ 64 -> u64 z = z.
Proof. apply Z.mod_small. Qed.

Lemma i64_id z : - 2 ^ 63 <= z < 2 ^ 63 -> i64 z = z.
Proof. intros H. unfold i64. rewrite Z.mod_small by lia. lia. Qed.

Lemma i32_id z : - 2 ^ 31 <= z < 2 ^ 31 -> i32 z = z.
Proof. intros H. unfold i32. rewrite Z.mod_small by lia. lia. Qed.

Lemma u32_range z : 0 <= u32 z < 2 ^ 32.
Proof. apply Z.mod_pos_bound. lia. Qed.

Lemma i64_range z : - 2 ^ 63 <= i64 z < 2 ^ 63.
Proof. unfold i64. pose proof (Z.mod_pos_bound (z + 2 ^ 63) (2 ^ 64)). lia. Qed.

Create Rewrite HintDb width.
#[export] Hint Rewrite u32_id u64_id i64_id i32_id using lia : width.

(** Division by a value that may be zero: unsigned, and signed truncated. *)
Definition udiv (a b : Z) : res Z := if b =? 0 then Fault DivByZero else Ok (a / b).
Definition umod (a b : Z) : res Z := if b =? 0 then Fault DivByZero else Ok (a mod b).
Definition sdiv (a b : Z) : res Z := if b =? 0 then Fault DivByZero else Ok (Z.quot a b).
Definition smod (a b : Z) : res Z := if b =? 0 then Fault DivByZero else Ok (Z.rem a b).

Lemma udiv_ok a b : b <> 0 -> udiv a b = Ok (a / b).
Proof. unfold udiv. intros H. by rewrite (proj2 (Z.eqb_neq b 0)). Qed.
Lemma umod_ok a b : b <> 0 -> umod a b = Ok (a mod b).
Proof. unfold umod. intros H. by rewrite (proj2 (Z.eqb_neq b 0)). Qed.
Lemma sdiv_ok a b : b <> 0 -> sdiv a b = Ok (Z.quot a b).
Proof. unfold sdiv. intros H. by rewrite (proj2 (Z.eqb_neq b 0)). Qed.
Lemma smod_ok a b : b <> 0 -> smod a b = Ok (Z.rem a b).
Proof. unfold smod. intros H. by rewrite (proj2 (Z.eqb_neq b 0)). Qed.
#[export] Hint Rewrite udiv_ok umod_ok sdiv_ok smod_ok using lia : width.

(** Linear arithmetic with divisions and remainders. *)
Ltac ediv := Z.to_euclidean_division_equations; lia.

Lemma quot_nonneg_div a b : 0 <= a -> 0 < b -> Z.quot a b = a / b.
Proof. intros. by apply Z.quot_div_nonneg. Qed.

Lemma quot_range a n : 0 <= a -> 0 < n -> 0 <= Z.quot a n <= a.
Proof.
  intros Ha Hn. rewrite quot_nonneg_div by done.
  split; [by apply Z.div_pos|]. apply Z.div_le_upper_bound; nia.
Qed.

Lemma quot2_range a : 0 <= a -> 0 <= Z.quot a 2 <= a.
Proof. intros. ediv. Qed.

Lemma quot2_mono a b : 0 <= a <= b -> Z.quot a 2 <= Z.quot b 2.
Proof. intros. apply Z.quot_le_mono; lia. Qed.

(** ** Vectors: [operator[]] of [std::vector] and C arrays *)

Definition vget {A} (l : list A) (i : Z) : res A :=
  if i <? 0 then Fault OutOfBounds
  else match l !! Z.to_nat i with Some x => Ok x | None => Fault OutOfBounds end.

Definition vset {A} (l : list A) (i : Z) (x : A) : res (list A) :=
  if (i <? 0) || (Z.of_nat (length l) <=? i) then Fault OutOfBounds
  else Ok (<[Z.to_nat i := x]> l).

(** The value a vector holds at an index, with a default for the model's
    specifications. *)
Definition vat (l : list Z) (i : Z) : Z := default 0 (l !! Z.to_nat i).

Lemma vget_ok (l : list Z) i :
  0 <= i < Z.of_nat (length l) -> vget l i = Ok (vat l i).
Proof.
  intros H. unfold vget, vat. rewrite (proj2 (Z.ltb_ge i 0)) by lia.
  destruct (lookup_lt_is_Some_2 l (Z.to_nat i)) as [x ->]; [lia|done].
Qed.

Lemma vset_ok {A} (l : list A) i x :
  0 <= i < Z.of_nat (length l) -> vset l i x = Ok (<[Z.to_nat i := x]> l).
Proof.
  intros H. unfold vset.
  by rewrite (proj2 (Z.ltb_ge i 0)), (proj2 (Z.leb_gt _ i)) by lia.
Qed.

Lemma vat_insert_eq (l : list Z) i x :
  0 <= i < Z.of_nat (length l) -> vat (<[Z.to_nat i := x]> l) i = x.
Proof. intros H. unfold vat. rewrite list_lookup_insert_eq by lia. done. Qed.

Lemma vat_insert_ne (l : list Z) i j x :
  0 <= i -> 0 <= j -> i <> j -> vat (<[Z.to_nat i := x]> l) j = vat l j.
Proof. intros. unfold vat. rewrite list_lookup_insert_ne by lia. done. Qed.

(** Writing entry [b] extends what holds of the entries before it. *)
Lemma vat_insert_upto (l : list Z) (f : Z -> Z) b :
  0 <= b < Z.of_nat (length l) -> (forall i, 0 <= i < b -> vat l i = f i) ->
  forall i, 0 <= i < b + 1 -> vat (<[Z.to_nat b := f b]> l) i = f i.
Proof.
  intros Hb Hf i Hi. destruct (decide (i = b)) as [->|].
  - by rewrite vat_insert_eq by lia.
  - rewrite vat_insert_ne by lia. apply Hf. lia.
Qed.

Lemma seq_snoc b : 0 <= b -> seq 0 (Z.to_nat (b + 1)) = seq 0 (Z.to_nat b) ++ [Z.to_nat b].
Proof. intros. replace (Z.to_nat (b + 1)) with (Z.to_nat b + 1)%nat by lia. by rewrite seq_app. Qed.

Lemma vat_replicate n x i : 0 <= i < Z.of_nat n -> vat (replicate n x) i = x.
Proof. intros H. unfold vat. rewrite lookup_replicate_2 by lia. done. Qed.

Lemma returns_vget (l : list Z) i (Q : Z -> Prop) :
  0 <= i < Z.of_nat (length l) -> Q (vat l i) -> returns (vget l i) Q.
Proof. intros Hi HQ. rewrite vget_ok by done. by apply returns_ok. Qed.

Lemma returns_vset {A} (l : list A) i x (Q : list A -> Prop) :
  0 <= i < Z.of_nat (length l) -> Q (<[Z.to_nat i := x]> l) -> returns (vset l i x) Q.
Proof. intros Hi HQ. rewrite vset_ok by done. by apply returns_ok. Qed.

(** ** Loops

    [for (i = lo; i < lo + n; i++) body] over a state. *)
Fixpoint for_loop {S : Type} (n : nat) (i : Z) (body : Z -> S -> res S) (s : S) : res S :=
  match n with
  | O => Ok s
  | Datatypes.S n' => s' ← body i s; for_loop n' (i + 1) body s'
  end.

Lemma for_loop_returns {S} (P : Z -> S -> Prop) n lo body s :
  P lo s ->
  (forall i s, lo <= i < lo + Z.of_nat n -> P i s -> returns (body i s) (P (i + 1))) ->
  returns (for_loop n lo body s) (P (lo + Z.of_nat n)).
Proof.
  revert lo s. induction n as [|n IH]; intros lo s Hs Hbody; simpl for_loop.
  - apply returns_ok. by replace (lo + Z.of_nat 0) with lo by lia.
  - eapply returns_bind_mono; [apply Hbody; [lia|done]|]. intros s' Hs'.
    replace (lo + Z.of_nat (Datatypes.S n)) with (lo + 1 + Z.of_nat n) by lia.
    apply IH; [done|]. intros i s'' Hi. apply Hbody. lia.
Qed.

(** [for (i = 0; i < n; i++) body]. *)
Definition for_range {S : Type} (n : Z) (body : Z -> S -> res S) (s : S) : res S :=
  for_loop (Z.to_nat n) 0 body s.

Lemma for_range_returns {S} (P : Z -> S -> Prop) n body s :
  0 <= n ->
  P 0 s ->
  (forall i s, 0 <= i < n -> P i s -> returns (body i s) (P (i + 1))) ->
  returns (for_range n body s) (P n).
Proof.
  intros Hn Hs Hbody. unfold for_range.
  replace n with (0 + Z.of_nat (Z.to_nat n)) at 2 by lia.
  apply for_loop_returns; [done|]. intros i s' Hi. apply Hbody. lia.
Qed.

(** A loop whose body says whether to go round again; [fuel] bounds the number
    of rounds. *)
Fixpoint while_loop {S : Type} (fuel : nat) (step : S -> res (bool * S)) (s : S) : res S :=
  match fuel with
  | O => Fault OutOfFuel
  | Datatypes.S f =>
      '(again, s') ← step s;
      if again : bool then while_loop f step s' else Ok s'
  end.

(** Total correctness of a loop: an invariant, a measure that every further
    round decreases, and enough fuel for the measure. *)
Lemma while_loop_returns {S} (I Q : S -> Prop) (m : S -> nat) step :
  (forall s, I s -> returns (step s)
     (fun '(again, s') => if again : bool then I s' /\ (m s' < m s)%nat else Q s')) ->
  forall fuel s, I s -> (m s < fuel)%nat -> returns (while_loop fuel step s) Q.
Proof.
  intros Hstep fuel. induction fuel as [|fuel IH]; intros s HI Hm; [lia|].
  simpl while_loop. eapply returns_bind_mono; [by apply Hstep|].
  intros [[] s']; simpl.
  - intros [HI' Hm']. apply IH; [done|lia].
  - intros HQ. by apply returns_ok.
Qed.

(** [for (i = lo; i < lo + n; i++)] with a body that may leave the loop. *)
Fixpoint for_break {S : Type} (n : nat) (i : Z) (body : Z -> S -> res (bool * S)) (s : S) : res S :=
  match n with
  | O => Ok s
  | Datatypes.S n' =>
      '(go, s') ← body i s;
      if go : bool then for_break n' (i + 1) body s' else Ok s'
  end.

Lemma for_break_returns {S} (P : Z -> S -> Prop) (Q : S -> Prop) n lo body s :
  P lo s ->
  (forall i s, lo <= i < lo + Z.of_nat n -> P i s ->
     returns (body i s) (fun '(go, s') => if go : bool then P (i + 1) s' else Q s')) ->
  (forall s, P (lo + Z.of_nat n) s -> Q s) ->
  returns (for_break n lo body s) Q.
Proof.
  revert lo s. induction n as [|n IH]; intros lo s Hs Hbody Hend; simpl for_break.
  - apply returns_ok, Hend. by replace (lo + Z.of_nat 0) with lo by lia.
  - eapply returns_bind_mono; [apply Hbody; [lia|done]|]. intros [[] s'] Hs'; [|by apply returns_ok].
    apply IH; [done| |].
    + intros i s'' Hi. apply Hbody. lia.
    + intros s'' Hs''. apply Hend. by replace (lo + Z.of_nat (Datatypes.S n)) with (lo + 1 + Z.of_nat n) by lia.
Qed.

(** [for (i = lo; i < hi; i += step)] with a body that may leave the loop. *)
Definition for_step {S : Type} (lo hi step : Z) (body : Z -> S -> res (bool * S)) (s : S) : res S :=
  for_break (Z.to_nat ((hi - lo + step - 1) / step)) 0 (fun q => body (lo + q * step)) s.

Lemma for_step_returns {S} (P : Z -> S -> Prop) (Q : S -> Prop) lo hi step body s :
  0 < step -> P lo s ->
  (forall i s, lo <= i < hi -> P i s ->
     returns (body i s) (fun '(go, s') => if go : bool then P (i + step) s' else Q s')) ->
  (forall i s, hi <= i < hi + step \/ i = lo -> hi <= i -> P i s -> Q s) ->
  returns (for_step lo hi step body s) Q.
Proof.
  intros Hst Hs Hbody Hend. unfold for_step.
  pose proof (Z.div_mod (hi - lo + step - 1) step ltac:(lia)).
  pose proof (Z.mod_pos_bound (hi - lo + step - 1) step Hst). set (n := (hi - lo + step - 1) / step) in *.
  apply (for_break_returns (fun q s => P (lo + q * step) s)).
  - by rewrite Z.mul_0_l, Z.add_0_r.
  - intros q s' Hq HP. eapply returns_mono; [apply Hbody; [nia|done]|]. intros [[] s''] H'; [|done].
    by replace (lo + (q + 1) * step) with (lo + q * step + step) by lia.
  - intros s' HP. rewrite Z.add_0_l in HP. destruct (Z.le_gt_cases n 0).
    + replace (Z.of_nat (Z.to_nat n)) with 0 in HP by lia. rewrite Z.mul_0_l, Z.add_0_r in HP.
      apply (Hend lo); [by right|nia|done].
    + rewrite Z2Nat.id in HP by lia. apply (Hend (lo + n * step)); [left; lia|lia|done].
Qed.

(** ** Lists over an integer interval *)

Lemma seqZ_snoc m n : 0 <= n -> seqZ m (n + 1) = seqZ m n ++ [m + n].
Proof. intros H. by rewrite seqZ_app by lia. Qed.

(** The lists [f i] for [lo <= i < hi], one after the other. *)
Definition span_flat {A} (f : Z -> list A) (lo hi : Z) : list A := concat (f <$> seqZ lo (hi - lo)).

Lemma span_flat_empty {A} (f : Z -> list A) lo hi : hi <= lo -> span_flat f lo hi = [].
Proof. intros H. unfold span_flat. by rewrite seqZ_nil by lia. Qed.

Lemma span_flat_split {A} (f : Z -> list A) lo mid hi :
  lo <= mid <= hi -> span_flat f lo hi = span_flat f lo mid ++ span_flat f mid hi.
Proof.
  intros H. unfold span_flat. replace (hi - lo) with (mid - lo + (hi - mid)) by lia.
  rewrite seqZ_app, fmap_app, concat_app by lia. by replace (lo + (mid - lo)) with mid by lia.
Qed.

Lemma span_flat_one {A} (f : Z -> list A) i : span_flat f i (i + 1) = f i.
Proof.
  unfold span_flat. rewrite seqZ_cons by lia. replace (Z.pred (i + 1 - i)) with 0 by lia.
  cbn. by rewrite app_nil_r.
Qed.

Lemma span_flat_snoc {A} (f : Z -> list A) lo i :
  lo <= i -> span_flat f lo (i + 1) = span_flat f lo i ++ f i.
Proof. intros H. by rewrite (span_flat_split f lo i), span_flat_one by lia. Qed.

Lemma span_flat_ext {A} (f g : Z -> list A) lo hi :
  (forall i, lo <= i < hi -> f i = g i) -> span_flat f lo hi = span_flat g lo hi.
Proof.
  intros H. unfold span_flat. f_equal. apply list_fmap_ext. intros j i [-> Hj]%lookup_seqZ.
  apply H. lia.
Qed.

Lemma span_flat_length {A} (f : Z -> list A) lo i hi :
  lo <= i < hi -> (length (span_flat f lo i) + length (f i) <= length (span_flat f lo hi))%nat.
Proof.
  intros H. rewrite (span_flat_split f lo (i + 1) hi), span_flat_snoc, !length_app by lia. lia.
Qed.

Lemma elem_of_span_flat {A} (f : Z -> list A) lo hi x :
  x ∈ span_flat f lo hi <-> exists i, lo <= i < hi /\ x ∈ f i.
Proof.
  unfold span_flat. rewrite list_elem_of_In, in_concat. split.
  - intros (l & Hl & Hx). apply list_elem_of_In, list_elem_of_fmap in Hl as (i & -> & Hi).
    apply elem_of_seqZ in Hi. exists i. split; [lia|by apply list_elem_of_In].
  - intros (i & Hi & Hx). exists (f i). split; [|by apply list_elem_of_In].
    apply list_elem_of_In, list_elem_of_fmap. exists i. split; [done|]. apply elem_of_seqZ. lia.
Qed.

Lemma span_flat_nil {A} (f : Z -> list A) lo hi : (forall i, lo <= i < hi -> f i = []) -> span_flat f lo hi = [].
Proof.
  intros H. unfold span_flat. rewrite (list_fmap_ext _ (fun _ => []) (seqZ lo (hi - lo))).
  - by induction (seqZ lo (hi - lo)).
  - intros i x [-> Hi]%lookup_seqZ. apply H. lia.
Qed.

Lemma span_flat_length_le {A B} (f : Z -> list A) (g : Z -> list B) lo hi lo' hi' :
  lo' <= lo -> hi <= hi' -> (forall i, lo <= i < hi -> (length (f i) <= length (g i))%nat) ->
  (length (span_flat f lo hi) <= length (span_flat g lo' hi'))%nat.
Proof.
  intros H1 H2 H. destruct (Z.le_gt_cases hi lo) as [|Hlt]; [rewrite span_flat_empty by lia; cbn; lia|].
  rewrite (span_flat_split g lo' lo hi'), (span_flat_split g lo hi hi'), !length_app by lia.
  enough (length (span_flat f lo hi) <= length (span_flat g lo hi))%nat by lia. clear H1 H2 lo' hi'.
  unfold span_flat. assert (Hl : forall x, x ∈ seqZ lo (hi - lo) -> lo <= x < hi)
    by (intros x Hx%elem_of_seqZ; lia).
  induction (seqZ lo (hi - lo)) as [|x l IH]; [done|]. cbn. rewrite !length_app.
  pose proof (H x (Hl x ltac:(left))). specialize (IH ltac:(intros y Hy; apply Hl; by right)). lia.
Qed.

(** A map of lists that respects concatenation passes through the interval. *)
Lemma span_flat_hom {A B} (h : list A -> list B) (f : Z -> list A) lo hi :
  h [] = [] -> (forall a b, h (a ++ b) = h a ++ h b) ->
  h (span_flat f lo hi) = span_flat (fun i => h (f i)) lo hi.
Proof.
  intros H0 Happ. unfold span_flat. induction (seqZ lo (hi - lo)) as [|x l IH]; [done|].
  cbn. by rewrite Happ, IH.
Qed.

(** Number of elements that satisfy a test. *)
Definition count {A} (P : A -> bool) (l : list A) : nat := length (List.filter P l).

Lemma count_app {A} (P : A -> bool) l l' : count P (l ++ l') = (count P l + count P l')%nat.
Proof. unfold count. by rewrite List.filter_app, length_app. Qed.

Lemma count_fmap {A B} (f : A -> B) (P : B -> bool) l : count P (f <$> l) = count (fun x => P (f x)) l.
Proof. unfold count. induction l as [|x l IH]; [done|]. cbn. destruct (P (f x)); cbn; by rewrite IH. Qed.

Lemma count_ext {A} (P Q : A -> bool) l : (forall x, x ∈ l -> P x = Q x) -> count P l = count Q l.
Proof.
  unfold count. induction l as [|x l IH]; intros H; [done|]. cbn. rewrite (H x) by left.
  destruct (Q x); cbn; rewrite IH; try done; intros y Hy; apply H; by right.
Qed.

(** If only the list of index [i0] has such elements, they are the count. *)
Lemma count_span {A} (P : A -> bool) (f : Z -> list A) i0 n lo hi :
  (forall i, lo <= i < hi -> count P (f i) = if i =? i0 then n else O) ->
  count P (span_flat f lo hi) = if (lo <=? i0) && (i0 <? hi) then n else O.
Proof.
  destruct (Z.le_gt_cases hi lo) as [Hle|Hgt].
  { intros _. rewrite span_flat_empty by lia. destruct (Z.leb_spec lo i0), (Z.ltb_spec i0 hi); done || lia. }
  intros H. assert (Hm : forall k, 0 <= k -> lo + k <= hi ->
    count P (span_flat f lo (lo + k)) = if (lo <=? i0) && (i0 <? lo + k) then n else O).
  { apply (natlike_ind (fun k => lo + k <= hi -> _)).
    - intros _. rewrite span_flat_empty by lia. destruct (Z.leb_spec lo i0), (Z.ltb_spec i0 (lo + 0)); done || lia.
    - intros k Hk IH Hhi. unfold Z.succ. rewrite Z.add_assoc, span_flat_snoc, count_app, IH, H by lia.
      destruct (Z.leb_spec lo i0), (Z.ltb_spec i0 (lo + k)), (Z.ltb_spec i0 (lo + k + 1)), (Z.eqb_spec (lo + k) i0);
        cbn; lia. }
  specialize (Hm (hi - lo) ltac:(lia) ltac:(lia)). by replace (lo + (hi - lo)) with hi in Hm by lia.
Qed.

(** The same for the elements of an interval. *)
Lemma count_seqZ (P : Z -> bool) i0 n :
  (forall i, 0 <= i < n -> P i = (i =? i0)) ->
  count P (seqZ 0 n) = if (0 <=? i0) && (i0 <? n) then 1%nat else O.
Proof.
  intros H. replace (seqZ 0 n) with (span_flat (fun i => [i]) 0 n).
  - rewrite (count_span P _ i0 1%nat); [done|]. intros i Hi. unfold count. cbn. rewrite H by done.
    by destruct (i =? i0).
  - unfold span_flat. rewrite Z.sub_0_r. by induction (seqZ 0 n) as [|x l IH]; cbn; [|rewrite IH].
Qed.

(** ** Finite sums over an integer interval *)

Fixpoint sum_from (f : Z -> Z) (lo : Z) (n : nat) : Z :=
  match n with
  | O => 0
  | S n' => f lo + sum_from f (lo + 1) n'
  end.

(** [sumZ f lo hi] is the sum of [f] over [lo <= i < hi]. *)
Definition sumZ (f : Z -> Z) (lo hi : Z) : Z := sum_from f lo (Z.to_nat (hi - lo)).

Lemma sumZ_empty f lo hi : hi <= lo -> sumZ f lo hi = 0.
Proof. intros H. unfold sumZ. by replace (Z.to_nat (hi - lo)) with O by lia. Qed.

Lemma sumZ_first f lo hi : lo < hi -> sumZ f lo hi = f lo + sumZ f (lo + 1) hi.
Proof.
  intros H. unfold sumZ.
  replace (Z.to_nat (hi - lo)) with (S (Z.to_nat (hi - (lo + 1)))) by lia. done.
Qed.

Lemma sumZ_split f lo mid hi :
  lo <= mid <= hi -> sumZ f lo hi = sumZ f lo mid + sumZ f mid hi.
Proof.
  intros H. remember (Z.to_nat (mid - lo)) as n eqn:En.
  revert lo H En. induction n as [|n IH]; intros lo H En.
  - replace mid with lo by lia. rewrite (sumZ_empty f lo lo) by lia. lia.
  - rewrite (sumZ_first f lo hi), (sumZ_first f lo mid) by lia.
    rewrite (IH (lo + 1)) by lia. lia.
Qed.

Lemma sumZ_last f lo hi : lo < hi -> sumZ f lo hi = sumZ f lo (hi - 1) + f (hi - 1).
Proof.
  intros H. rewrite (sumZ_split f lo (hi - 1) hi) by lia.
  rewrite (sumZ_first f (hi - 1) hi), (sumZ_empty f (hi - 1 + 1) hi) by lia. lia.
Qed.

Lemma sumZ_snoc f lo hi : lo <= hi -> sumZ f lo (hi + 1) = sumZ f lo hi + f hi.
Proof. intros H. rewrite sumZ_last by lia. by replace (hi + 1 - 1) with hi by lia. Qed.

Lemma sumZ_ext f g lo hi :
  (forall i, lo <= i < hi -> f i = g i) -> sumZ f lo hi = sumZ g lo hi.
Proof.
  remember (Z.to_nat (hi - lo)) as n eqn:En. revert lo En.
  induction n as [|n IH]; intros lo En H.
  - rewrite !sumZ_empty by lia. done.
  - rewrite (sumZ_first f), (sumZ_first g) by lia. rewrite (H lo) by lia.
    f_equal. apply IH; [lia|]. intros. apply H. lia.
Qed.

Lemma span_flat_length_sum {A} (f : Z -> list A) lo hi :
  Z.of_nat (length (span_flat f lo hi)) = sumZ (fun i => Z.of_nat (length (f i))) lo hi.
Proof.
  remember (Z.to_nat (hi - lo)) as n eqn:En. revert lo En. induction n as [|n IH]; intros lo En.
  - by rewrite span_flat_empty, sumZ_empty by lia.
  - rewrite (span_flat_split f lo (lo + 1) hi), span_flat_one, length_app, sumZ_first by lia.
    rewrite Nat2Z.inj_add, IH by lia. done.
Qed.

Lemma sumZ_nonneg f lo hi : (forall i, lo <= i < hi -> 0 <= f i) -> 0 <= sumZ f lo hi.
Proof.
  remember (Z.to_nat (hi - lo)) as n eqn:En. revert lo En.
  induction n as [|n IH]; intros lo En H.
  - rewrite sumZ_empty by lia. done.
  - rewrite sumZ_first by lia. pose proof (H lo ltac:(lia)).
    enough (0 <= sumZ f (lo + 1) hi) by lia. apply IH; [lia|]. intros. apply H. lia.
Qed.

Lemma sumZ_zero f lo hi : (forall i, lo <= i < hi -> f i = 0) -> sumZ f lo hi = 0.
Proof.
  remember (Z.to_nat (hi - lo)) as n eqn:En. revert lo En.
  induction n as [|n IH]; intros lo En H.
  - by rewrite sumZ_empty by lia.
  - rewrite sumZ_first, H by lia. apply IH; [lia|]. intros. apply H. lia.
Qed.

Lemma sumZ_term_le f lo hi i :
  (forall j, lo <= j < hi -> 0 <= f j) -> lo <= i < hi -> f i <= sumZ f lo hi.
Proof.
  intros H Hi. rewrite (sumZ_split f lo i hi), (sumZ_first f i hi) by lia.
  pose proof (sumZ_nonneg f lo i) as H1. pose proof (sumZ_nonneg f (i + 1) hi) as H2.
  specialize (H1 ltac:(intros; apply H; lia)). specialize (H2 ltac:(intros; apply H; lia)). lia.
Qed.

Lemma sumZ_scale c f g lo hi :
  (forall i, lo <= i < hi -> f i <= c * g i) -> sumZ f lo hi <= c * sumZ g lo hi.
Proof.
  remember (Z.to_nat (hi - lo)) as n eqn:En. revert lo En.
  induction n as [|n IH]; intros lo En H.
  - rewrite !sumZ_empty by lia. lia.
  - rewrite (sumZ_first f), (sumZ_first g) by lia. pose proof (H lo ltac:(lia)).
    specialize (IH (lo + 1) ltac:(lia) ltac:(intros; apply H; lia)). lia.
Qed.

Lemma sumZ_zero_inv f lo hi :
  (forall j, lo <= j < hi -> 0 <= f j) -> sumZ f lo hi = 0 ->
  forall i, lo <= i < hi -> f i = 0.
Proof.
  intros H E i Hi. pose proof (sumZ_term_le f lo hi i H Hi). specialize (H i Hi). lia.
Qed.

(** A positive sum of non-negative terms has a positive term. *)
Lemma sumZ_pos_witness f lo hi :
  0 < sumZ f lo hi -> exists i, lo <= i < hi /\ 0 < f i.
Proof.
  remember (Z.to_nat (hi - lo)) as n eqn:En. revert lo En.
  induction n as [|n IH]; intros lo En H.
  - rewrite sumZ_empty in H by lia. lia.
  - rewrite sumZ_first in H by lia. destruct (decide (0 < f lo)) as [Hp|Hp].
    + exists lo. lia.
    + destruct (IH (lo + 1)) as (i & Hi & Hf); [lia..|]. exists i. lia.
Qed.

Lemma forallb_false_inv {A} (f : A -> bool) l :
  forallb f l = false -> exists x, x ∈ l /\ f x = false.
Proof.
  induction l as [|a l IH]; simpl; [done|]. destruct (f a) eqn:E; simpl.
  - intros H. destruct (IH H) as (x & Hx & Hf). exists x. split; [by right|done].
  - intros _. exists a. split; [by left|done].
Qed.

(** ** Record update

    [r <| field := v |>] for the state records of the kernels.  A record type
    declares its eta-expansion once; the setter of a field is computed from it. *)

Class Eta (R : Type) := eta_expand : R -> R.
Class Setter {R T : Type} (p : R -> T) := update_field : (T -> T) -> R -> R.
Arguments update_field {R T} p {_} f r.

Ltac build_setter p :=
  lazymatch type of p with
  | ?R -> ?T =>
      let inst := constr:(_ : Eta R) in
      let body := eval red in inst in
      lazymatch eval pattern p in body with
      | ?k _ => exact (fun f : T -> T => k (fun r => f (p r)))
      end
  end.
#[export] Hint Extern 1 (Setter ?p) => build_setter p : typeclass_instances.

Declare Scope record_scope.
Delimit Scope record_scope with record.
#[global] Open Scope record_scope.

Notation "r <| p := v |>" := (update_field p (fun _ => v) r)
  (at level 1, p at level 200, left associativity) : record_scope.

(** ** Tactics of the development *)

(** Decide a boolean test on integers in the goal or the context by its
    propositional meaning. *)
Ltac zify_tests :=
  repeat match goal with
  | H : (_ =? _) = true |- _ => apply Z.eqb_eq in H
  | H : (_ =? _) = false |- _ => apply Z.eqb_neq in H
  | H : (_ <? _) = true |- _ => apply Z.ltb_lt in H
  | H : (_ <? _) = false |- _ => apply Z.ltb_ge in H
  | H : (_ <=? _) = true |- _ => apply Z.leb_le in H
  | H : (_ <=? _) = false |- _ => apply Z.leb_gt in H
  | H : negb _ = true |- _ => apply negb_true_iff in H
  | H : negb _ = false |- _ => apply negb_false_iff in H
  | H : _ && _ = true |- _ => apply andb_true_iff in H; destruct H
  | H : _ || _ = false |- _ => apply orb_false_iff in H; destruct H
  end.

(** One step of a total-correctness goal: a vector access leaves its bounds
    check when [lia] does not see it. *)
Ltac vec_bounds := rewrite ?length_insert, ?length_replicate in *; try lia.

Ltac returns_step :=
  lazymatch goal with
  | |- returns (Ok _) _ => apply returns_ok
  | |- returns (mret _) _ => apply returns_ok
  | |- returns (mbind _ _) _ => apply returns_bind
  | |- returns (vget _ _) _ => apply returns_vget; [vec_bounds|]
  | |- returns (vset _ _ _) _ => apply returns_vset; [vec_bounds|]
  | |- returns (if _ then _ else _) _ => apply returns_if; intros ?; zify_tests
  end.

(** Unfold a chain of early returns [if c then return false] that was passed. *)
Ltac checks H :=
  repeat match type of H with
  | (if ?c then false else _) = true => let E := fresh "E" in destruct c eqn:E; [done|]
  end.

(** The chain as a proposition: an early return, a check under a guard, and a
    disjunction with a failed test. *)
Lemma early_return (c e : bool) : (if c then false else e) = true <-> c = false /\ e = true.
Proof. destruct c; split; [done|by intros []|done|by intros []]. Qed.

Lemma guarded_check (c e : bool) : (if c then e else true) = true <-> (c = true -> e = true).
Proof. destruct c; split; try done; auto. Qed.

Lemma bool_impl (c : bool) (P : Prop) : c = false \/ P <-> (c = true -> P).
Proof. destruct c; split; [intros [|H]; done|auto|done|by left]. Qed.
