(* ===== verification/SplitTypes.v ===== *)
(** * Data of the core-splitting module

    The structs that the three AICPU metadata kernels
    (sparse_attn_sharedkv_metadata, kv_quant_sparse_attn_sharedkv_metadata,
    vllm_quant_lightning_indexer_metadata) declare in their headers with the
    same fields.  Where one header has a field the others lack, the record has
    it and the comment says whose it is; the kernels that lack it never touch
    it.  The context of the AICPU framework (tensors and attributes) comes
    first: it is an input of the kernels. *)

From S2P Require Import Prelude.

(** ** Kernel context: tensors and attributes

    [Tensor] is what the kernels read of an AICPU tensor: the [int32_t] data
    behind [GetData()] ([None] for a null pointer) and [GetDimSize(0)] of
    [GetTensorShape()] ([None] for a null shape). *)
Record Tensor := mkTensor {
  GetData : option (list Z);
  GetDimSize0 : option Z
}.

Record AttrValue := mkAttrValue {
  GetInt : Z;
  GetString : string;
  GetBool : bool
}.

(** [Input(i)], [Output(i)] and [GetAttr(name)] of [CpuKernelContext]; [None]
    is a null pointer. *)
Record CpuKernelContext := mkCpuKernelContext {
  Input : Z -> option Tensor;
  Output : Z -> option Tensor;
  GetAttr : string -> option AttrValue
}.

Definition KERNEL_STATUS_OK : Z := 0.
Definition KERNEL_STATUS_PARAM_INVALID : Z := 1.

(** [GetAttrValue]: a required attribute; the flag is false and the variable
    keeps its value when the attribute is missing.  [get] is the accessor with
    the [static_cast] to the variable's type. *)
Definition GetAttrValue {A} (get : AttrValue -> A) (ctx : CpuKernelContext)
    (name : string) (value : A) : bool * A :=
  match GetAttr ctx name with
  | None => (false, value)
  | Some attr => (true, get attr)
  end.

(** [GetAttrValueOpt]: an optional attribute. *)
Definition GetAttrValueOpt {A} (get : AttrValue -> A) (ctx : CpuKernelContext)
    (name : string) (value : A) : A :=
  match GetAttr ctx name with
  | None => value
  | Some attr => get attr
  end.

Definition GetInt32 (a : AttrValue) : Z := i32 (GetInt a).
Definition GetUint32 (a : AttrValue) : Z := u32 (GetInt a).
Definition GetInt64 (a : AttrValue) : Z := i64 (GetInt a).

(** [t != nullptr && t->GetData() != nullptr], giving the data. *)
Definition tensor_data (t : option Tensor) : option (list Z) :=
  match t with Some t => GetData t | None => None end.

Definition isInvalid (t : option Tensor) : bool :=
  match tensor_data t with Some _ => false | None => true end.

Lemma isInvalid_false t : isInvalid t = false <-> is_Some (tensor_data t).
Proof. unfold isInvalid. destruct (tensor_data t); split; [by eexists|done|done|by intros []]. Qed.

(** ** Enumerations *)

Inductive SparseMode :=
  | DEFAULT_MASK
  | ALL_MASK
  | LEFT_UP_CAUSAL
  | RIGHT_DOWN_CAUSAL
  | BAND
  | SPARSE_BUTT.

#[global] Instance SparseMode_eq_dec : EqDecision SparseMode.
Proof. solve_decision. Defined.

Definition SparseMode_value (m : SparseMode) : Z :=
  match m with
  | DEFAULT_MASK => 0
  | ALL_MASK => 1
  | LEFT_UP_CAUSAL => 2
  | RIGHT_DOWN_CAUSAL => 3
  | BAND => 4
  | SPARSE_BUTT => 5
  end.

(** [static_cast<SparseMode>(mode)] for the [uint8_t] enum; a value that names
    no enumerator takes the default branch everywhere, as [SPARSE_BUTT] does. *)
Definition to_SparseMode (mode : Z) : SparseMode :=
  match mode mod 2 ^ 8 with
  | 0 => DEFAULT_MASK
  | 1 => ALL_MASK
  | 2 => LEFT_UP_CAUSAL
  | 3 => RIGHT_DOWN_CAUSAL
  | 4 => BAND
  | _ => SPARSE_BUTT
  end.

Lemma to_SparseMode_u32 z : to_SparseMode (u32 z) = to_SparseMode z.
Proof.
  unfold to_SparseMode, u32. by rewrite (Z.mod_mod_divide z (2 ^ 32) (2 ^ 8)) by (exists (2 ^ 24); lia).
Qed.

Inductive ValidSocVersion :=
  | ASCEND910
  | ASCEND950
  | RESERVED_VERSION.

#[global] Instance ValidSocVersion_eq_dec : EqDecision ValidSocVersion.
Proof. solve_decision. Defined.

(** ** Small helpers of the headers *)

Definition FA_TOLERANCE_RATIO : Z := 2.

Definition Clip (value minValue maxValue : Z) : Z :=
  if value <? minValue then minValue
  else if value >? maxValue then maxValue
  else value.

(** [IsWithinTolerance<int64_t>]. *)
Definition IsWithinTolerance (limit tolerance value : Z) : bool :=
  i64 (limit + tolerance) >=? value.

(** [std::string::find(pat) != npos]. *)
Fixpoint string_contains (pat s : string) : bool :=
  String.prefix pat s ||
  match s with
  | EmptyString => false
  | String.String _ s' => string_contains pat s'
  end.

(** [BlockCost<int64_t>]: a square table.  It is indexed by the enumerators of
    the kernel's [BlockType] only, so no access is out of range. *)
Definition BlockCost := Z -> Z -> Z.

Definition tset (t : BlockCost) (i j v : Z) : BlockCost :=
  fun i' j' => if (i' =? i) && (j' =? j) then v else t i' j'.

(** ** Results of the split *)

Record FlashDecodeResult := mkFlashDecodeResult {
  fdUsedVecNum : Z;
  fdBN2Idx : list Z;
  fdMIdx : list Z;
  fdWorkspaceIdx : list Z;
  fdS2SplitNum : list Z;
  fdMSize : list Z;
  fdIdx : list Z;
  fdMStart : list Z;
  fdMNum : list Z
}.
#[global] Instance FlashDecodeResult_eta : Eta FlashDecodeResult := fun r =>
  mkFlashDecodeResult (fdUsedVecNum r) (fdBN2Idx r) (fdMIdx r) (fdWorkspaceIdx r)
    (fdS2SplitNum r) (fdMSize r) (fdIdx r) (fdMStart r) (fdMNum r).

(** [std::vector<uint32_t> v(n)]. *)
Definition zeros (n : Z) : list Z := replicate (Z.to_nat n) 0.

Definition new_FlashDecodeResult (aicNum aivNum : Z) : FlashDecodeResult :=
  mkFlashDecodeResult 0 (zeros aicNum) (zeros aicNum) (zeros aicNum) (zeros aicNum)
    (zeros aicNum) (zeros aivNum) (zeros aivNum) (zeros aivNum).

(** [maxS2GBaseNum] is a field of the kv_quant kernel only; [sr_s2End] is
    [s2End]. *)
Record SplitResult := mkSplitResult {
  usedCoreNum : Z;
  bN2End : list Z;
  gS1End : list Z;
  sr_s2End : list Z;
  firstFdDataWorkspaceIdx : list Z;
  maxCost : Z;
  numOfFdHead : Z;
  maxS2SplitNum : Z;
  maxS2GBaseNum : Z;
  fdRes : FlashDecodeResult
}.
#[global] Instance SplitResult_eta : Eta SplitResult := fun r =>
  mkSplitResult (usedCoreNum r) (bN2End r) (gS1End r) (sr_s2End r)
    (firstFdDataWorkspaceIdx r) (maxCost r) (numOfFdHead r) (maxS2SplitNum r)
    (maxS2GBaseNum r) (fdRes r).

Definition new_SplitResult (aicNum aivNum : Z) : SplitResult :=
  mkSplitResult 0 (zeros aicNum) (zeros aicNum) (zeros aicNum) (zeros aicNum) 0 0 0 0
    (new_FlashDecodeResult aicNum aivNum).

(** ** Split information and costs of the batches *)

Record SplitInfo := mkSplitInfo {
  s1GBaseNum : list Z;
  s2BaseNum : list Z;
  s1GTailSize : list Z;
  s2TailSize : list Z;
  isKvSeqAllZero : bool
}.
#[global] Instance SplitInfo_eta : Eta SplitInfo := fun r =>
  mkSplitInfo (s1GBaseNum r) (s2BaseNum r) (s1GTailSize r) (s2TailSize r) (isKvSeqAllZero r).

Definition new_SplitInfo (batchSize : Z) : SplitInfo :=
  mkSplitInfo (zeros batchSize) (zeros batchSize) (zeros batchSize) (zeros batchSize) true.

Record CostInfo := mkCostInfo {
  bN2CostOfEachBatch : list Z;
  bN2BlockOfEachBatch : list Z;
  bN2LastBlockCostOfEachBatch : list Z;
  totalBlockNum : Z;
  totalCost : Z;
  maxS1GCost : Z
}.
#[global] Instance CostInfo_eta : Eta CostInfo := fun r =>
  mkCostInfo (bN2CostOfEachBatch r) (bN2BlockOfEachBatch r) (bN2LastBlockCostOfEachBatch r)
    (totalBlockNum r) (totalCost r) (maxS1GCost r).

Definition new_CostInfo (batchSize : Z) : CostInfo :=
  mkCostInfo (zeros batchSize) (zeros batchSize) (zeros batchSize) 0 0 0.

Record SplitContext := mkSplitContext {
  splitInfo : SplitInfo;
  costInfo : CostInfo
}.
#[global] Instance SplitContext_eta : Eta SplitContext := fun r =>
  mkSplitContext (splitInfo r) (costInfo r).

Definition new_SplitContext (batchSize : Z) : SplitContext :=
  mkSplitContext (new_SplitInfo batchSize) (new_CostInfo batchSize).

(** ** Caches of the assignment *)

Record BatchCache := mkBatchCache {
  bc_bIdx : Z;
  s1Size : Z;
  s2Size : Z;
  preTokenLeftUp : Z;
  nextTokenLeftUp : Z;
  bc_typeCost : BlockCost
}.
#[global] Instance BatchCache_eta : Eta BatchCache := fun r =>
  mkBatchCache (bc_bIdx r) (s1Size r) (s2Size r) (preTokenLeftUp r) (nextTokenLeftUp r)
    (bc_typeCost r).

Definition new_BatchCache : BatchCache := mkBatchCache 0 0 0 0 0 (fun _ _ => 0).

Record CoreCache := mkCoreCache {
  costLimit : Z;
  cost : Z;
  block : Z
}.
#[global] Instance CoreCache_eta : Eta CoreCache := fun r =>
  mkCoreCache (costLimit r) (cost r) (block r).

Definition new_CoreCache : CoreCache := mkCoreCache 0 0 0.

(** [AssignContext], over the row cache of the kernel.  [curFdDataNum] is a
    field of the sparse_attn kernel, [preFdDataNum] of the other two. *)
Record AssignContext {S1G : Type} := mkAssignContext {
  curBIdx : Z;
  curBN2Idx : Z;
  curS1GIdx : Z;
  curS2Idx : Z;
  curCoreIdx : Z;
  unassignedCost : Z;
  ac_usedCoreNum : Z;
  curKvSplitPart : Z;
  curFdDataNum : Z;
  preFdDataNum : Z;
  bN2Cost : Z;
  bN2Block : Z;
  isFinished : bool;
  batchCache : BatchCache;
  s1GCache : S1G;
  coreCache : CoreCache
}.
Arguments AssignContext : clear implicits.
Arguments mkAssignContext {S1G}.
#[global] Instance AssignContext_eta {S1G} : Eta (AssignContext S1G) := fun r =>
  mkAssignContext (curBIdx r) (curBN2Idx r) (curS1GIdx r) (curS2Idx r) (curCoreIdx r)
    (unassignedCost r) (ac_usedCoreNum r) (curKvSplitPart r) (curFdDataNum r)
    (preFdDataNum r) (bN2Cost r) (bN2Block r) (isFinished r) (batchCache r)
    (s1GCache r) (coreCache r).

Definition new_AssignContext {S1G} (s : S1G) : AssignContext S1G :=
  mkAssignContext 0 0 0 0 0 0 0 1 1 0 0 0 false new_BatchCache s new_CoreCache.
