(* ===== verification/Assign.v ===== *)
(** * The assignment engine shared by the metadata kernels

    The three AICPU kernels contain the same routines for distributing the
    rows of all batches over the cores: the batch costs (CalcBatchCost,
    CalcCostInfo), the cursor (UpdateCursor), the greedy assignment by batch
    and by row (AssignByBatch, AssignByRow), the lagging reduction record
    (IsNeedRecordFDInfo), the loop over the cores (CalcSplitPlan) and the
    schedule around it (BalanceSchedule).  They differ in the row model they
    call.  [SplitKernel] is that interface: what
    a kernel gives to the engine. *)

From S2P Require Import Prelude SplitTypes.

(** [K] is the kernel object, [S1G] its row cache.  The caches are computed
    from the [splitInfo] part of the context only. *)
Class SplitKernel (K S1G : Type) := {
  sk_batchSize : K -> Z;
  sk_kvHeadNum : K -> Z;
  sk_GetS1SeqSize : K -> Z -> res Z;
  sk_GetS2SeqSize : K -> Z -> res Z;
  sk_CalcSplitInfo : K -> SplitInfo -> res SplitInfo;
  sk_CalcBatchCache : K -> Z -> SplitInfo -> BatchCache -> res BatchCache;
  sk_CalcS1GCache : K -> Z -> SplitInfo -> BatchCache -> S1G -> res S1G;
  (** a new local row cache; what the row computation keeps in members of the
      kernel object is carried over *)
  sk_fresh : S1G -> S1G;
  sk_s1GCost : S1G -> Z;
  sk_s1GBlock : S1G -> Z;
  sk_s1GLastBlockCost : S1G -> Z;
  sk_s2Start : S1G -> Z;
  sk_s2End : S1G -> Z;
  (** the S2 index UpdateCursor moves to on a new row *)
  sk_cursorS2 : K -> S1G -> Z;
  (** the comparison [s1GCost > maxS1GCost], at the width of the kernel's
      [maxS1GCost] *)
  sk_cost_gt : Z -> Z -> bool
}.

Section Engine.
Context {K S1G : Type} `{SK : SplitKernel K S1G}.
Implicit Types (k : K) (ac : AssignContext S1G) (sg : S1G) (ci : CostInfo).

(** [batchSize_ * kvHeadNum_], an [int32_t] product compared with a
    [uint32_t] index. *)
Definition bn2_total k : Z := u32 (i32 (sk_batchSize k * sk_kvHeadNum k)).

(** ** Costs of the batches *)

Definition CalcBatchCost_row k (bIdx : Z) (si : SplitInfo) (bCache : BatchCache)
    (s1GIdx : Z) (st : S1G * CostInfo) : res (S1G * CostInfo) :=
  let '(sg, ci) := st in
  sg ← sk_CalcS1GCache k s1GIdx si bCache sg;
  c ← vget (bN2CostOfEachBatch ci) bIdx;
  cs ← vset (bN2CostOfEachBatch ci) bIdx (i64 (c + sk_s1GCost sg));
  n ← vget (bN2BlockOfEachBatch ci) bIdx;
  ns ← vset (bN2BlockOfEachBatch ci) bIdx (u32 (n + sk_s1GBlock sg));
  let ci := ci <| bN2CostOfEachBatch := cs |> <| bN2BlockOfEachBatch := ns |> in
  let ci := if sk_cost_gt (sk_s1GCost sg) (maxS1GCost ci)
            then ci <| maxS1GCost := sk_s1GCost sg |> else ci in
  if sk_s1GBlock sg >? 0 then
    ls ← vset (bN2LastBlockCostOfEachBatch ci) bIdx (sk_s1GLastBlockCost sg);
    Ok (sg, ci <| bN2LastBlockCostOfEachBatch := ls |>)
  else Ok (sg, ci).

Definition CalcBatchCost k (bIdx : Z) (si : SplitInfo) (st : S1G * CostInfo)
    : res (S1G * CostInfo) :=
  let '(sg, ci) := st in
  cs ← vset (bN2CostOfEachBatch ci) bIdx 0;
  ns ← vset (bN2BlockOfEachBatch ci) bIdx 0;
  ls ← vset (bN2LastBlockCostOfEachBatch ci) bIdx 0;
  let ci := ci <| bN2CostOfEachBatch := cs |> <| bN2BlockOfEachBatch := ns |>
               <| bN2LastBlockCostOfEachBatch := ls |> in
  s1 ← sk_GetS1SeqSize k bIdx;
  s2 ← (if s1 =? 0 then Ok 0 else sk_GetS2SeqSize k bIdx);
  if (s1 =? 0) || (s2 =? 0) then Ok (sg, ci)
  else
    bCache ← sk_CalcBatchCache k bIdx si new_BatchCache;
    rows ← vget (s1GBaseNum si) bIdx;
    for_range rows (CalcBatchCost_row k bIdx si bCache) (sk_fresh sg, ci).

Definition CalcCostInfo_batch k (si : SplitInfo) (bIdx : Z) (st : S1G * CostInfo)
    : res (S1G * CostInfo) :=
  '(sg, ci) ← CalcBatchCost k bIdx si st;
  c ← vget (bN2CostOfEachBatch ci) bIdx;
  n ← vget (bN2BlockOfEachBatch ci) bIdx;
  Ok (sg, ci <| totalCost := i64 (totalCost ci + i64 (c * sk_kvHeadNum k)) |>
             <| totalBlockNum := u32 (totalBlockNum ci + u32 (n * u32 (sk_kvHeadNum k))) |>).

Definition CalcCostInfo k (ctx : SplitContext) (sg : S1G) : res (S1G * SplitContext) :=
  let si := splitInfo ctx in
  if isKvSeqAllZero si then
    Ok (sg, ctx <| costInfo := (costInfo ctx) <| totalCost := 0 |> <| totalBlockNum := 0 |> |>)
  else
    '(sg, ci) ← for_range (u32 (sk_batchSize k)) (CalcCostInfo_batch k si) (sg, costInfo ctx);
    Ok (sg, ctx <| costInfo := ci |>).

(** ** The cursor *)

Definition UpdateCursor k (ctx : SplitContext) ac : res (AssignContext S1G) :=
  let updateS1G := curS2Idx ac >=? sk_s2End (s1GCache ac) in
  let ac := if updateS1G
            then ac <| curS2Idx := 0 |> <| curS1GIdx := u32 (curS1GIdx ac + 1) |>
            else ac in
  rows ← vget (s1GBaseNum (splitInfo ctx)) (curBIdx ac);
  let ac := if curS1GIdx ac >=? rows
            then ac <| curS1GIdx := 0 |> <| curBN2Idx := u32 (curBN2Idx ac + 1) |>
            else ac in
  if curBN2Idx ac =? bn2_total k then
    Ok (ac <| curS1GIdx := 0 |> <| curS2Idx := 0 |> <| isFinished := true |>)
  else
    b ← udiv (curBN2Idx ac) (u32 (sk_kvHeadNum k));
    let updateBatch := negb (b =? curBIdx ac) in
    let ac := if updateBatch then ac <| curBIdx := b |> <| curS1GIdx := 0 |> else ac in
    ac ← (if updateBatch then
            bc ← sk_CalcBatchCache k (curBIdx ac) (splitInfo ctx) (batchCache ac);
            c ← vget (bN2CostOfEachBatch (costInfo ctx)) (curBIdx ac);
            n ← vget (bN2BlockOfEachBatch (costInfo ctx)) (curBIdx ac);
            Ok (ac <| batchCache := bc |> <| bN2Cost := c |> <| bN2Block := n |>)
          else Ok ac);
    if updateS1G || updateBatch then
      sg ← sk_CalcS1GCache k (curS1GIdx ac) (splitInfo ctx) (batchCache ac) (s1GCache ac);
      Ok (ac <| s1GCache := sg |> <| curS2Idx := sk_cursorS2 k sg |>)
    else Ok ac.

(** ** Assignment by whole batches *)

(** The loop test: an empty batch always fits, another one when the core
    stays within the tolerance of its limit. *)
Definition batch_fits (ctx : SplitContext) ac : res bool :=
  if bN2Cost ac =? 0 then Ok true
  else
    last ← vget (bN2LastBlockCostOfEachBatch (costInfo ctx)) (curBIdx ac);
    Ok (IsWithinTolerance (costLimit (coreCache ac)) (Z.quot last FA_TOLERANCE_RATIO)
          (i64 (cost (coreCache ac) + bN2Cost ac))).

Definition AssignByBatch_step k (ctx : SplitContext) ac : res (bool * AssignContext S1G) :=
  fits ← batch_fits ctx ac;
  if negb fits then Ok (false, ac)
  else
    let core := coreCache ac in
    let ac := ac <| coreCache := core <| cost := i64 (cost core + bN2Cost ac) |>
                                      <| block := u32 (block core + bN2Block ac) |> |>
                 <| curBN2Idx := u32 (curBN2Idx ac + 1) |> in
    if curBN2Idx ac =? bn2_total k then
      Ok (false, ac <| curS1GIdx := 0 |> <| curS2Idx := 0 |> <| isFinished := true |>)
    else
      b ← udiv (curBN2Idx ac) (u32 (sk_kvHeadNum k));
      ac ← (if negb (b =? curBIdx ac) then
              bc ← sk_CalcBatchCache k b (splitInfo ctx) (batchCache ac);
              Ok (ac <| curBIdx := b |> <| batchCache := bc |>)
            else Ok ac);
      c ← vget (bN2CostOfEachBatch (costInfo ctx)) (curBIdx ac);
      n ← vget (bN2BlockOfEachBatch (costInfo ctx)) (curBIdx ac);
      sg ← sk_CalcS1GCache k 0 (splitInfo ctx) (batchCache ac) (s1GCache ac);
      Ok (true, ac <| bN2Cost := c |> <| bN2Block := n |> <| curS1GIdx := 0 |>
                   <| s1GCache := sg |> <| curS2Idx := sk_s2Start sg |>).

(** Every round passes one BN2 index, so their number is enough fuel. *)
Definition AssignByBatch k (ctx : SplitContext) ac : res (AssignContext S1G) :=
  if isFinished ac then Ok ac
  else while_loop (S (Z.to_nat (bn2_total k))) (AssignByBatch_step k ctx) ac.

(** ** Assignment by rows *)

(** [do { curS1GIdx++; CalcS1GCache } while (s1GBlock == 0)]. *)
Definition next_row_step k (ctx : SplitContext) ac : res (bool * AssignContext S1G) :=
  let ac := ac <| curS1GIdx := u32 (curS1GIdx ac + 1) |> in
  sg ← sk_CalcS1GCache k (curS1GIdx ac) (splitInfo ctx) (batchCache ac) (s1GCache ac);
  Ok (sk_s1GBlock sg =? 0, ac <| s1GCache := sg |>).

Definition row_fuel (ctx : SplitContext) ac : nat :=
  S (Z.to_nat (vat (s1GBaseNum (splitInfo ctx)) (curBIdx ac))).

Definition row_fits ac : bool :=
  IsWithinTolerance (costLimit (coreCache ac))
    (Z.quot (sk_s1GLastBlockCost (s1GCache ac)) FA_TOLERANCE_RATIO)
    (i64 (cost (coreCache ac) + sk_s1GCost (s1GCache ac))).

Definition AssignByRow_step k (ctx : SplitContext) ac : res (bool * AssignContext S1G) :=
  if negb (row_fits ac) then Ok (false, ac)
  else
    let core := coreCache ac in
    let sg := s1GCache ac in
    let ac := ac
      <| coreCache := core <| cost := i64 (cost core + sk_s1GCost sg) |>
                           <| block := u32 (block core + sk_s1GBlock sg) |> |>
      <| bN2Cost := if bN2Cost ac >? sk_s1GCost sg then i64 (bN2Cost ac - sk_s1GCost sg) else 0 |>
      <| bN2Block := if bN2Block ac >? sk_s1GBlock sg then u32 (bN2Block ac - sk_s1GBlock sg) else 0 |> in
    ac ← while_loop (row_fuel ctx ac) (next_row_step k ctx) ac;
    Ok (true, ac <| curS2Idx := sk_s2Start (s1GCache ac) |>).

(** Every round passes at least one row of the batch. *)
Definition AssignByRow k (ctx : SplitContext) ac : res (AssignContext S1G) :=
  if isFinished ac then Ok ac
  else while_loop (row_fuel ctx ac) (AssignByRow_step k ctx) ac.

(** ** Reduction records *)

Definition IsNeedRecordFDInfo ac (splitRes : SplitResult) : res bool :=
  if curCoreIdx ac =? 0 then Ok false
  else if curKvSplitPart ac <=? 1 then Ok false
  else
    b ← vget (bN2End splitRes) (u32 (curCoreIdx ac - 1));
    if negb (curBN2Idx ac =? b) then Ok true
    else
      g ← vget (gS1End splitRes) (u32 (curCoreIdx ac - 1));
      Ok (negb (curS1GIdx ac =? g)).

(** ** The loop over the cores *)

(** [plan_loop] runs [step] for the cores from [i] on; the flag is set when
    the loop is left by the early [return] on [maxCost > costLimit]. *)
Fixpoint plan_loop (n : nat) (i : Z) (limit : Z)
    (step : AssignContext S1G -> SplitResult -> res (AssignContext S1G * SplitResult))
    ac (result : SplitResult) : res (bool * AssignContext S1G * SplitResult) :=
  match n with
  | O => Ok (false, ac, result)
  | S n' =>
      if maxCost result >? limit then Ok (true, ac, result)
      else if isFinished ac || (unassignedCost ac <=? 0) then Ok (false, ac, result)
      else
        '(ac, result) ← step (ac <| curCoreIdx := i |>) result;
        plan_loop n' (i + 1) limit step ac result
  end.

Definition CalcSplitPlan k (coreNum limit : Z) (ctx : SplitContext)
    (step : AssignContext S1G -> SplitResult -> res (AssignContext S1G * SplitResult))
    (sg : S1G) (result : SplitResult) : res SplitResult :=
  if coreNum =? 0 then Ok result
  else
    let result := result <| maxCost := 0 |> <| usedCoreNum := 0 |> in
    let ac := new_AssignContext (sk_fresh sg) in
    let ac := ac <| unassignedCost := totalCost (costInfo ctx) |> in
    c ← vget (bN2CostOfEachBatch (costInfo ctx)) (curBIdx ac);
    n ← vget (bN2BlockOfEachBatch (costInfo ctx)) (curBIdx ac);
    bc ← sk_CalcBatchCache k (curBIdx ac) (splitInfo ctx) (batchCache ac);
    sg ← sk_CalcS1GCache k (curS1GIdx ac) (splitInfo ctx) bc (s1GCache ac);
    let ac := ac <| bN2Cost := c |> <| bN2Block := n |> <| batchCache := bc |>
                 <| s1GCache := sg |> <| curS2Idx := sk_s2Start sg |> in
    '(returned, ac, result) ← plan_loop (Z.to_nat coreNum) 0 limit step ac result;
    if returned : bool then Ok result
    else Ok (result <| usedCoreNum := u32 (curCoreIdx ac + 1) |>).

(** ** The schedule

    [step] is the kernel's assignment of one core, [splitFD] its distribution
    of the reduction tasks, with the guard under which it is called. *)
Definition BalanceSchedule k (coreNum : Z)
    (step : SplitContext -> AssignContext S1G -> SplitResult -> res (AssignContext S1G * SplitResult))
    (splitFD : SplitResult -> res SplitResult)
    (sg : S1G) (r : SplitResult) : res SplitResult :=
  let ctx := new_SplitContext (u32 (sk_batchSize k)) in
  si ← sk_CalcSplitInfo k (splitInfo ctx);
  let ctx := ctx <| splitInfo := si |> in
  if isKvSeqAllZero si then
    v1 ← vset (bN2End r) 0 (bn2_total k);
    v2 ← vset (gS1End r) 0 0;
    v3 ← vset (sr_s2End r) 0 0;
    Ok (r <| usedCoreNum := 1 |> <| bN2End := v1 |> <| gS1End := v2 |> <| sr_s2End := v3 |>)
  else
    '(sg, ctx) ← CalcCostInfo k ctx sg;
    let r := r <| maxCost := INT64_MAX |> <| usedCoreNum := 1 |> in
    r ← CalcSplitPlan k coreNum (maxCost r) ctx (step ctx) sg r;
    r ← splitFD r;
    Ok (r <| usedCoreNum := Z.max (usedCoreNum r) 1 |>).
End Engine.
