(* ===== verification/Workload.v ===== *)
(** * Workloads and plans: what a split has to achieve

    The abstract specification of the core split, with no machine integers and
    no caches.  A workload is a sequence of batches, each a sequence of S1G
    rows with a cost and a number of S2 blocks.  A plan cuts the rows, in
    order, into one interval per used core.  [PlanOk] is the contract the
    assignment engine is proved to meet; the partition theorem is derived from
    the contract alone. *)

From S2P Require Import Prelude.

(** ** Workloads *)

Record Workload := mkWorkload {
  wl_nb : Z;                (** number of batches *)
  wl_rows : Z -> Z;         (** rows of a batch *)
  wl_cost : Z -> Z -> Z;    (** cost of a row *)
  wl_blk : Z -> Z -> Z;     (** S2 blocks of a row *)
  wl_last : Z -> Z -> Z     (** cost of the last block of a row *)
}.

Section Sums.
Context (wl : Workload).
Implicit Types (w : Z -> Z -> Z).

(** Weight of the rows of batch [b] from row [r] on. *)
Definition row_sum w (b r : Z) : Z := sumZ (w b) r (wl_rows wl b).

(** Weight of a whole batch. *)
Definition batch_sum w (b : Z) : Z := row_sum w b 0.

(** Weight of everything from position [(b, r)] on; the end of the workload
    is position [(wl_nb, 0)]. *)
Definition rest w (b r : Z) : Z :=
  if b <? wl_nb wl then row_sum w b r + sumZ (batch_sum w) (b + 1) (wl_nb wl) else 0.

Definition total w : Z := sumZ (batch_sum w) 0 (wl_nb wl).

Lemma rest_next_batch w b :
  0 <= b < wl_nb wl -> sumZ (batch_sum w) (b + 1) (wl_nb wl) = rest w (b + 1) 0.
Proof.
  intros Hb. unfold rest. destruct (Z.ltb_spec (b + 1) (wl_nb wl)).
  - rewrite sumZ_first by lia. done.
  - by rewrite sumZ_empty by lia.
Qed.

Lemma rest_at w b r :
  0 <= b < wl_nb wl -> rest w b r = row_sum w b r + rest w (b + 1) 0.
Proof.
  intros Hb. rewrite <- rest_next_batch by done. unfold rest.
  by rewrite (proj2 (Z.ltb_lt _ _)) by lia.
Qed.

Lemma rest_end w : rest w (wl_nb wl) 0 = 0.
Proof. unfold rest. by rewrite Z.ltb_irrefl. Qed.

Lemma rest_start w : 0 < wl_nb wl -> rest w 0 0 = total w.
Proof.
  intros H. unfold total. rewrite rest_at, <- rest_next_batch by lia.
  rewrite (sumZ_first (batch_sum w) 0) by lia. done.
Qed.

(** The first row leaves the sum. *)
Lemma row_sum_step w b r :
  r < wl_rows wl b -> row_sum w b r = w b r + row_sum w b (r + 1).
Proof. apply sumZ_first. Qed.

Lemma total_scale c w w' :
  (forall b r, 0 <= b < wl_nb wl -> w b r <= c * w' b r) -> total w <= c * total w'.
Proof.
  intros H. apply sumZ_scale. intros b Hb. apply sumZ_scale. intros r Hr. by apply H.
Qed.

(** Rows without weight can be skipped. *)
Lemma row_sum_skip w b r r' :
  r <= r' <= wl_rows wl b -> (forall j, r <= j < r' -> w b j = 0) ->
  row_sum w b r = row_sum w b r'.
Proof.
  intros Hr Hz. unfold row_sum. rewrite (sumZ_split (w b) r r') by lia.
  by rewrite (sumZ_zero (w b) r r' Hz).
Qed.
End Sums.

(** ** Positions *)

(** Positions are compared by batch first, then by row. *)
Definition lexlt (p q : Z * Z) : Prop :=
  p.1 < q.1 \/ (p.1 = q.1 /\ p.2 < q.2).
Definition lexle (p q : Z * Z) : Prop := p = q \/ lexlt p q.

#[global] Instance lexlt_dec p q : Decision (lexlt p q).
Proof. unfold lexlt. apply _. Defined.

Lemma lexlt_irrefl p : ~ lexlt p p.
Proof. destruct p. unfold lexlt. simpl. lia. Qed.
Lemma lexlt_trans p q r : lexlt p q -> lexlt q r -> lexlt p r.
Proof. destruct p, q, r. unfold lexlt. simpl. lia. Qed.
Lemma lexle_lt_trans p q r : lexle p q -> lexlt q r -> lexlt p r.
Proof. intros [->|H]; [done|]. by apply lexlt_trans. Qed.
Lemma lexle_refl p : lexle p p.
Proof. by left. Qed.
Lemma lexle_trans p q r : lexle p q -> lexle q r -> lexle p r.
Proof. intros [->|H]; [done|]. intros [<-|K]; [by right|]. right. by eapply lexlt_trans. Qed.
Lemma lexle_ne p q : lexle p q -> p <> q -> lexlt p q.
Proof. by intros [->|H]. Qed.
Lemma lexlt_total p q : lexlt p q \/ p = q \/ lexlt q p.
Proof.
  destruct p as [a b], q as [c d]. unfold lexlt. simpl.
  destruct (decide ((a, b) = (c, d))) as [E|E]; [auto|].
  destruct (decide (a = c)) as [->|]; [|lia].
  destruct (decide (b = d)) as [->|]; [done|lia].
Qed.

Create HintDb lex.
#[export] Hint Resolve lexle_refl lexlt_trans lexle_lt_trans lexle_trans : lex.

(** ** Well-formed workloads

    Every weight is non-negative, a row has a positive
    cost exactly when it has blocks, the last block is part of the row, and the
    totals stay far from the widths of the counters. *)
Record WorkloadOk (wl : Workload) : Prop := {
  wl_nb_range : 0 < wl_nb wl < 2 ^ 31;
  wl_rows_range : forall b, 0 <= b < wl_nb wl -> 0 <= wl_rows wl b < 2 ^ 31;
  wl_blk_nonneg : forall b r, 0 <= b < wl_nb wl -> 0 <= wl_blk wl b r;
  wl_blk_pos : forall b r, 0 <= b < wl_nb wl -> 0 < wl_blk wl b r -> 0 < wl_cost wl b r;
  wl_blk_zero : forall b r, 0 <= b < wl_nb wl -> wl_blk wl b r = 0 ->
    wl_cost wl b r = 0 /\ wl_last wl b r = 0;
  wl_last_range : forall b r, 0 <= b < wl_nb wl -> 0 <= wl_last wl b r <= wl_cost wl b r;
  wl_outside : forall b r, 0 <= b < wl_nb wl -> wl_rows wl b <= r -> wl_blk wl b r = 0;
  wl_total_cost : total wl (wl_cost wl) < 2 ^ 62;
  wl_total_blk : total wl (wl_blk wl) < 2 ^ 32
}.

Section WellFormed.
Context (wl : Workload) (OK : WorkloadOk wl).

Lemma wl_cost_nonneg b r : 0 <= b < wl_nb wl -> 0 <= wl_cost wl b r.
Proof. intros Hb. pose proof (wl_last_range _ OK b r Hb). lia. Qed.

Lemma row_sum_nonneg w b r :
  0 <= b < wl_nb wl -> (forall r, 0 <= w b r) -> 0 <= row_sum wl w b r.
Proof. intros Hb Hw. apply sumZ_nonneg. auto. Qed.

Lemma row_sum_mono w b r r' :
  (forall j, 0 <= w b j) -> r <= r' -> row_sum wl w b r' <= row_sum wl w b r.
Proof.
  intros Hw Hr. unfold row_sum. destruct (decide (r' <= wl_rows wl b)).
  - rewrite (sumZ_split _ r r') by lia.
    enough (0 <= sumZ (w b) r r') by lia. apply sumZ_nonneg. auto.
  - rewrite (sumZ_empty _ r') by lia. apply sumZ_nonneg. auto.
Qed.

Lemma rest_nonneg w b r :
  (forall b r, 0 <= b < wl_nb wl -> 0 <= w b r) -> 0 <= b -> 0 <= rest wl w b r.
Proof.
  intros Hw Hb. unfold rest. case_match; [|done]. zify_tests.
  apply Z.add_nonneg_nonneg.
  - apply row_sum_nonneg; [lia|]. intros. apply Hw. lia.
  - apply sumZ_nonneg. intros i Hi. apply row_sum_nonneg; [lia|]. intros. apply Hw. lia.
Qed.

Lemma rest_le_total w b r :
  (forall b r, 0 <= b < wl_nb wl -> 0 <= w b r) ->
  0 <= b <= wl_nb wl -> 0 <= r -> rest wl w b r <= total wl w.
Proof.
  intros Hw Hb Hr.
  assert (Hbs : forall i, 0 <= i < wl_nb wl -> 0 <= batch_sum wl w i).
  { intros i Hi. apply row_sum_nonneg; [done|]. intros. by apply Hw. }
  unfold total. destruct (decide (b = wl_nb wl)) as [->|Hne].
  { unfold rest. rewrite Z.ltb_irrefl. by apply sumZ_nonneg. }
  rewrite rest_at, <- rest_next_batch by lia.
  rewrite (sumZ_split _ 0 b) by lia. rewrite (sumZ_first _ b) by lia.
  enough (0 <= sumZ (batch_sum wl w) 0 b /\ row_sum wl w b r <= batch_sum wl w b) by lia.
  split; [apply sumZ_nonneg; intros; apply Hbs; lia|].
  unfold batch_sum, row_sum. destruct (decide (r <= wl_rows wl b)) as [Hle|Hgt].
  - rewrite (sumZ_split _ 0 r) by lia.
    enough (0 <= sumZ (w b) 0 r) by lia. apply sumZ_nonneg. intros. apply Hw. lia.
  - rewrite (sumZ_empty _ r) by lia. apply sumZ_nonneg. intros. apply Hw. lia.
Qed.

(** What is left shrinks as the position advances. *)
Lemma rest_mono w b r b' r' :
  (forall b r, 0 <= b < wl_nb wl -> 0 <= w b r) ->
  0 <= b -> 0 <= r -> 0 <= r' -> 0 <= b' <= wl_nb wl -> lexle (b, r) (b', r') ->
  rest wl w b' r' <= rest wl w b r.
Proof.
  intros Hw Hb Hr Hr' Hb' Hle.
  destruct Hle as [[= -> ->]|[Hlt|[Heq Hlt]]]; simpl in *; [lia| |].
  - assert (Hn : 0 <= rest wl w b' r') by (apply rest_nonneg; [done|lia]).
    transitivity (rest wl w b' 0).
    + unfold rest. destruct (b' <? wl_nb wl) eqn:E; [|done]. zify_tests.
      enough (row_sum wl w b' r' <= row_sum wl w b' 0) by lia.
      apply row_sum_mono; [intros; apply Hw; lia|lia].
    + unfold rest at 2. rewrite (proj2 (Z.ltb_lt b _)) by lia.
      pose proof (row_sum_nonneg w b r ltac:(lia) ltac:(intros; apply Hw; lia)) as H0.
      pose proof (sumZ_split (batch_sum wl w) (b + 1) b' (wl_nb wl) ltac:(lia)) as ->.
      pose proof (sumZ_nonneg (batch_sum wl w) (b + 1) b') as H1.
      specialize (H1 ltac:(intros i Hi; apply row_sum_nonneg; [lia|intros; apply Hw; lia])).
      unfold rest. destruct (b' <? wl_nb wl) eqn:E; zify_tests.
      * rewrite (sumZ_first _ b') by lia. unfold batch_sum in *. lia.
      * rewrite (sumZ_empty _ b') by lia. lia.
  - subst b'. unfold rest. destruct (b <? wl_nb wl) eqn:E; [|done]. zify_tests.
    enough (row_sum wl w b r' <= row_sum wl w b r) by lia.
    apply row_sum_mono; [intros; apply Hw; lia|lia].
Qed.

Lemma row_le_rest w b r :
  (forall b r, 0 <= b < wl_nb wl -> 0 <= w b r) ->
  0 <= b < wl_nb wl -> row_sum wl w b r <= rest wl w b r.
Proof.
  intros Hw Hb. rewrite rest_at by done.
  pose proof (rest_nonneg w (b + 1) 0 Hw). lia.
Qed.

Lemma cost_rest_bound b r :
  0 <= b <= wl_nb wl -> 0 <= r -> 0 <= rest wl (wl_cost wl) b r < 2 ^ 62.
Proof.
  intros Hb Hr. pose proof (wl_total_cost _ OK).
  assert (forall b r, 0 <= b < wl_nb wl -> 0 <= wl_cost wl b r) as Hc
    by (intros; by apply wl_cost_nonneg).
  pose proof (rest_nonneg _ b r Hc). pose proof (rest_le_total _ b r Hc). lia.
Qed.

Lemma blk_rest_bound b r :
  0 <= b <= wl_nb wl -> 0 <= r -> 0 <= rest wl (wl_blk wl) b r < 2 ^ 32.
Proof.
  intros Hb Hr. pose proof (wl_total_blk _ OK).
  assert (forall b r, 0 <= b < wl_nb wl -> 0 <= wl_blk wl b r) as Hc
    by (intros; by apply (wl_blk_nonneg _ OK)).
  pose proof (rest_nonneg _ b r Hc). pose proof (rest_le_total _ b r Hc). lia.
Qed.

Lemma row_sum_cost_range b r :
  0 <= b < wl_nb wl -> 0 <= r ->
  0 <= row_sum wl (wl_cost wl) b r <= rest wl (wl_cost wl) b r.
Proof.
  intros Hb Hr. split.
  - apply row_sum_nonneg; [done|]. intros. by apply wl_cost_nonneg.
  - apply row_le_rest; [|done]. intros. by apply wl_cost_nonneg.
Qed.

Lemma row_sum_blk_range b r :
  0 <= b < wl_nb wl -> 0 <= r ->
  0 <= row_sum wl (wl_blk wl) b r <= rest wl (wl_blk wl) b r.
Proof.
  intros Hb Hr. split.
  - apply row_sum_nonneg; [done|]. intros. by apply (wl_blk_nonneg _ OK).
  - apply row_le_rest; [|done]. intros. by apply (wl_blk_nonneg _ OK).
Qed.

(** A row's cost is at most what is left of its batch. *)
Lemma row_cost_le b r :
  0 <= b < wl_nb wl -> 0 <= r ->
  wl_cost wl b r <= row_sum wl (wl_cost wl) b r.
Proof.
  intros Hb Hr. destruct (decide (r < wl_rows wl b)) as [Hlt|Hge].
  - rewrite row_sum_step by done.
    enough (0 <= row_sum wl (wl_cost wl) b (r + 1)) by lia.
    apply row_sum_nonneg; [done|]. intros. by apply wl_cost_nonneg.
  - destruct (wl_blk_zero _ OK b r) as [-> _]; [done|apply (wl_outside _ OK); lia|].
    apply row_sum_nonneg; [done|]. intros. by apply wl_cost_nonneg.
Qed.

Lemma row_blk_le b r :
  0 <= b < wl_nb wl -> 0 <= r ->
  wl_blk wl b r <= row_sum wl (wl_blk wl) b r.
Proof.
  intros Hb Hr. destruct (decide (r < wl_rows wl b)) as [Hlt|Hge].
  - rewrite row_sum_step by done.
    enough (0 <= row_sum wl (wl_blk wl) b (r + 1)) by lia.
    apply row_sum_nonneg; [done|]. intros. by apply (wl_blk_nonneg _ OK).
  - rewrite (wl_outside _ OK) by lia.
    apply row_sum_nonneg; [done|]. intros. by apply (wl_blk_nonneg _ OK).
Qed.

(** Work left in a batch is in a row with blocks. *)
Lemma work_left b r :
  0 <= b < wl_nb wl -> 0 <= r -> 0 < row_sum wl (wl_cost wl) b r ->
  exists r', r <= r' < wl_rows wl b /\ 0 < wl_blk wl b r'.
Proof.
  intros Hb Hr Hpos. destruct (sumZ_pos_witness _ _ _ Hpos) as (r' & Hr' & Hc).
  exists r'. split; [done|].
  pose proof (wl_blk_nonneg _ OK b r' Hb).
  destruct (decide (wl_blk wl b r' = 0)) as [E|]; [|lia].
  destruct (wl_blk_zero _ OK b r' Hb E). lia.
Qed.
End WellFormed.

(** A position at which a core may stop before the end of the workload: the
    start of a row of some batch (of row 0 when the batch has no rows). *)
Definition pos_ok (wl : Workload) (b r : Z) : Prop :=
  0 <= b < wl_nb wl /\ 0 <= r < Z.max 1 (wl_rows wl b).

(** ** Plans *)

(** A plan for [n] cores gives the position where each core ends. *)
Record Plan := mkPlan {
  pl_n : Z;
  pl_end : Z -> Z * Z
}.

Definition pl_start (p : Plan) (i : Z) : Z * Z :=
  if i =? 0 then (0, 0) else pl_end p (i - 1).

(** Row [(b, r)] belongs to core [i]. *)
Definition in_core (p : Plan) (i : Z) (b r : Z) : Prop :=
  lexle (pl_start p i) (b, r) /\ lexlt (b, r) (pl_end p i).

(** Weight assigned to core [i]. *)
Definition core_work (wl : Workload) (w : Z -> Z -> Z) (p : Plan) (i : Z) : Z :=
  rest wl w (pl_start p i).1 (pl_start p i).2 - rest wl w (pl_end p i).1 (pl_end p i).2.

(** The load limit of core [i]: an equal share of what is left, but never less
    than the largest row. *)
Definition core_limit (wl : Workload) (maxRow coreNum : Z) (p : Plan) (i : Z) : Z :=
  Z.max (Z.quot (rest wl (wl_cost wl) (pl_start p i).1 (pl_start p i).2) (coreNum - i)) maxRow.

(** The intervals follow each other from the first row to the end. *)
Record PlanShape (wl : Workload) (coreNum : Z) (p : Plan) : Prop := {
  plan_n : 1 <= pl_n p <= coreNum;
  plan_end_ok : forall i, 0 <= i < pl_n p - 1 ->
    pos_ok wl (pl_end p i).1 (pl_end p i).2;
  plan_last : pl_end p (pl_n p - 1) = (wl_nb wl, 0);
  plan_increasing : forall i, 0 <= i < pl_n p -> lexlt (pl_start p i) (pl_end p i)
}.

(** The contract of a split over [coreNum] cores whose largest row costs
    [maxRow]. *)
Record PlanOk (wl : Workload) (maxRow coreNum : Z) (p : Plan) : Prop := {
  plan_shape : PlanShape wl coreNum p;
  (** no core is idle *)
  plan_busy : forall i, 0 <= i < pl_n p -> 0 < core_work wl (wl_cost wl) p i;
  (** no core exceeds its limit by more than half a row *)
  plan_bounded : forall i, 0 <= i < pl_n p ->
    core_work wl (wl_cost wl) p i <= core_limit wl maxRow coreNum p i + Z.quot maxRow 2;
  (** a core that stops early has no room for the next row *)
  plan_saturated : forall i, 0 <= i < pl_n p - 1 ->
    let '(b, r) := pl_end p i in
    core_limit wl maxRow coreNum p i < core_work wl (wl_cost wl) p i + wl_cost wl b r
}.

(** [m] is the cost of the most expensive row. *)
Definition is_max_row (wl : Workload) (m : Z) : Prop :=
  (forall b r, 0 <= b < wl_nb wl -> 0 <= r -> wl_cost wl b r <= m) /\
  exists b r, 0 <= b < wl_nb wl /\ 0 <= r < wl_rows wl b /\ wl_cost wl b r = m.

Section Partition.
Context (wl : Workload) (coreNum : Z) (p : Plan).
Context (P : PlanShape wl coreNum p).

Lemma plan_start_next i : 0 <= i -> pl_start p (i + 1) = pl_end p i.
Proof.
  intros Hi. unfold pl_start. rewrite (proj2 (Z.eqb_neq _ _)) by lia.
  by replace (i + 1 - 1) with i by lia.
Qed.

(** Ends grow with the core index. *)
Lemma plan_end_mono i j :
  0 <= i -> i < j < pl_n p -> lexlt (pl_end p i) (pl_end p j).
Proof.
  intros Hi. remember (Z.to_nat (j - i)) as d eqn:Ed. revert j Ed.
  induction d as [|d IH]; intros j Ed Hj; [lia|].
  assert (Hstep : lexlt (pl_end p (j - 1)) (pl_end p j)).
  { pose proof (plan_increasing _ _ _ P j ltac:(lia)) as H.
    replace j with (j - 1 + 1) in H at 1 by lia. by rewrite plan_start_next in H by lia. }
  destruct (decide (i = j - 1)) as [E|E]; [by rewrite E|].
  eapply lexlt_trans; [apply (IH (j - 1)); lia|done].
Qed.

(** Every position from [(0, 0)] up to the end of core [i] is in some core
    up to [i]. *)
Lemma plan_covers i b r :
  0 <= i < pl_n p -> 0 <= b -> 0 <= r -> lexlt (b, r) (pl_end p i) ->
  exists j, 0 <= j <= i /\ in_core p j b r.
Proof.
  intros Hi Hb Hr. remember (Z.to_nat i) as d eqn:Ed. revert i Hi Ed.
  induction d as [|d IH]; intros i Hi Ed Hlt.
  - exists i. replace i with 0 in * by lia. split; [lia|]. split; [|done].
    unfold pl_start. simpl. unfold lexle, lexlt; simpl.
    destruct (decide ((0, 0) = (b, r))) as [E|E]; [by left|].
    right. destruct (decide (b = 0)) as [->|]; [|lia].
    right. split; [done|]. destruct (decide (r = 0)) as [->|]; [done|lia].
  - destruct (decide (lexlt (b, r) (pl_end p (i - 1)))) as [Hin|Hout].
    + destruct (IH (i - 1)) as (j & Hj & Hc); [lia|lia|done|]. exists j. split; [lia|done].
    + exists i. split; [lia|]. split; [|done].
      replace i with (i - 1 + 1) by lia. rewrite plan_start_next by lia.
      destruct (lexlt_total (b, r) (pl_end p (i - 1))) as [?|[->|?]]; [done|by left|by right].
Qed.

Lemma plan_disjoint i j b r :
  0 <= i < j -> j < pl_n p -> in_core p i b r -> ~ in_core p j b r.
Proof.
  intros Hi Hj [_ Hlt] [Hle _].
  assert (lexle (pl_end p i) (pl_start p j)) as Hij.
  { replace j with (j - 1 + 1) by lia. rewrite plan_start_next by lia.
    destruct (decide (i = j - 1)) as [->|]; [by left|]. right. apply plan_end_mono; lia. }
  apply (lexlt_irrefl (b, r)). destruct Hij as [E|E].
  - rewrite <- E in Hle. destruct Hle as [E'|E'].
    + by rewrite E' in Hlt.
    + by eapply lexlt_trans.
  - destruct Hle as [E'|E'].
    + rewrite E' in E. by eapply lexlt_trans.
    + eapply lexlt_trans; [done|]. by eapply lexlt_trans.
Qed.

(** Every row of the workload belongs to exactly one core. *)
Lemma plan_partition b r :
  0 <= b < wl_nb wl -> 0 <= r ->
  exists i, 0 <= i < pl_n p /\ in_core p i b r /\
    forall j, 0 <= j < pl_n p -> in_core p j b r -> j = i.
Proof.
  intros Hb Hr. pose proof (plan_n _ _ _ P).
  destruct (plan_covers (pl_n p - 1) b r) as (i & Hi & Hin); [lia..| |].
  { rewrite (plan_last _ _ _ P). left. simpl. lia. }
  exists i. split; [lia|]. split; [done|]. intros j Hj Hin'.
  destruct (Z.lt_trichotomy i j) as [Hlt|[->|Hlt]]; [|done|].
  - exfalso. eapply plan_disjoint; [| |exact Hin|exact Hin']; lia.
  - exfalso. eapply plan_disjoint; [| |exact Hin'|exact Hin]; lia.
Qed.

(** The works of the cores add up to the whole workload. *)
Lemma plan_work_sum w i :
  0 < wl_nb wl -> 0 <= i <= pl_n p ->
  sumZ (core_work wl w p) 0 i = total wl w - rest wl w (pl_start p i).1 (pl_start p i).2.
Proof.
  intros Hnb Hi. remember (Z.to_nat i) as d eqn:Ed. revert i Hi Ed.
  induction d as [|d IH]; intros i Hi Ed.
  - replace i with 0 by lia. rewrite sumZ_empty by lia.
    unfold pl_start. simpl. rewrite rest_start by done. lia.
  - rewrite sumZ_last by lia. rewrite (IH (i - 1)) by lia.
    assert (pl_start p i = pl_end p (i - 1)) as ->.
    { replace i with (i - 1 + 1) at 1 by lia. apply plan_start_next. lia. }
    unfold core_work. lia.
Qed.

Lemma plan_work_total w :
  0 < wl_nb wl -> sumZ (core_work wl w p) 0 (pl_n p) = total wl w.
Proof.
  intros Hnb. pose proof (plan_n _ _ _ P). rewrite plan_work_sum by lia.
  replace (pl_n p) with (pl_n p - 1 + 1) by lia. rewrite plan_start_next by lia.
  rewrite (plan_last _ _ _ P). simpl. rewrite rest_end. lia.
Qed.
End Partition.

(** Work of an interval as a sum over its rows. *)
Lemma rest_diff (wl : Workload) w b0 g0 b1 g1 :
  0 <= b0 -> 0 <= g0 -> lexlt (b0, g0) (b1, g1) -> b1 <= wl_nb wl -> 0 <= g1 ->
  (b1 = wl_nb wl -> g1 = 0) -> (b0 < wl_nb wl -> g0 <= wl_rows wl b0) ->
  (b1 < wl_nb wl -> g1 <= wl_rows wl b1) -> (forall b, 0 <= b < wl_nb wl -> 0 <= wl_rows wl b) ->
  rest wl w b0 g0 - rest wl w b1 g1 =
  sumZ (fun b => sumZ (w b) (if b =? b0 then g0 else 0) (if b =? b1 then g1 else wl_rows wl b)) b0 (b1 + 1).
Proof.
  intros Hb0 Hg0 Hlt Hb1 Hg1 He H0 H1 Hr. unfold lexlt in Hlt. cbn in Hlt.
  set (f := fun b => _). assert (b0 < wl_nb wl) by lia. specialize (H0 H).
  assert (E1 : rest wl w b1 g1 = (if b1 <? wl_nb wl then row_sum wl w b1 g1 else 0) + sumZ (batch_sum wl w) (b1 + 1) (wl_nb wl)).
  { unfold rest. destruct (Z.ltb_spec b1 (wl_nb wl)); [done|]. by rewrite sumZ_empty by lia. }
  rewrite E1. unfold rest. rewrite (proj2 (Z.ltb_lt b0 _)) by done.
  destruct (Z.eq_dec b0 b1) as [<-|Hne].
  - rewrite (proj2 (Z.ltb_lt b0 _)) by done. rewrite (sumZ_first f), (sumZ_empty f) by lia.
    unfold f, row_sum. rewrite Z.eqb_refl. specialize (H1 H).
    rewrite (sumZ_split (w b0) g0 g1 (wl_rows wl b0)) by lia. lia.
  - rewrite (sumZ_first f), (sumZ_last f) by lia. replace (b1 + 1 - 1) with b1 by lia.
    rewrite (sumZ_ext f (batch_sum wl w) (b0 + 1) b1).
    2: { intros b Hb. unfold f. by rewrite (proj2 (Z.eqb_neq b b0)), (proj2 (Z.eqb_neq b b1)) by lia. }
    unfold f. rewrite !Z.eqb_refl, (proj2 (Z.eqb_neq b0 b1)), (proj2 (Z.eqb_neq b1 b0)) by lia.
    destruct (Z.ltb_spec b1 (wl_nb wl)) as [Hlb|Hge].
    + specialize (H1 Hlb). rewrite (sumZ_split (batch_sum wl w) (b0 + 1) b1 (wl_nb wl)), (sumZ_first _ b1 (wl_nb wl)) by lia.
      unfold batch_sum at 2, row_sum. rewrite (sumZ_split (w b1) 0 g1 (wl_rows wl b1)) by lia. lia.
    + rewrite He by lia. rewrite (sumZ_empty (w b1)), (sumZ_empty _ (b1 + 1)) by lia.
      replace b1 with (wl_nb wl) by lia. unfold row_sum. lia.
Qed.
