(* ===== verification/AssignProofs.v ===== *)
(** * Correctness of the assignment engine

    [RowModel] states what a kernel's row computation promises: its caches hold
    the costs of a workload.  Against that interface the engine is proved to
    compute the batch costs ([CalcCostInfo_returns]) and to produce a plan that
    meets [PlanOk] ([plan_loop_returns], [CalcSplitPlan_returns]); every loop
    stops within its fuel and every vector access is in range. *)

From S2P Require Import Prelude SplitTypes Assign Workload.

(** ** The row-model interface *)

Section Interface.
Context {K S1G : Type} `{SK : SplitKernel K S1G}.

(** The row cache describes row [r] of batch [b]. *)
Record row_cache (wl : Workload) (b r : Z) (sg : S1G) : Prop := {
  rc_cost : sk_s1GCost sg = wl_cost wl b r;
  rc_blk : sk_s1GBlock sg = wl_blk wl b r;
  rc_last : sk_s1GLastBlockCost sg = wl_last wl b r;
  rc_start : sk_s2Start sg = 0
}.

Class RowModel (k : K) (si : SplitInfo) (wl : Workload) := {
  rm_wl : WorkloadOk wl;
  rm_batch : Z -> BatchCache -> Prop;
  rm_batchSize : sk_batchSize k = wl_nb wl;
  rm_heads : sk_kvHeadNum k = 1;
  rm_rows_len : Z.of_nat (length (s1GBaseNum si)) = wl_nb wl;
  rm_rows : forall b, 0 <= b < wl_nb wl -> vat (s1GBaseNum si) b = wl_rows wl b;
  rm_CalcBatchCache : forall b bc, 0 <= b < wl_nb wl ->
    returns (sk_CalcBatchCache k b si bc) (rm_batch b);
  rm_fresh : forall sg, sk_s2Start (sk_fresh sg) = 0;
  rm_CalcS1GCache : forall b r bc sg, pos_ok wl b r -> rm_batch b bc -> sk_s2Start sg = 0 ->
    returns (sk_CalcS1GCache k r si bc sg) (row_cache wl b r);
  rm_GetS1SeqSize : forall b, 0 <= b < wl_nb wl ->
    returns (sk_GetS1SeqSize k b) (fun s1 => s1 = 0 -> forall r, 0 <= r -> wl_blk wl b r = 0);
  rm_GetS2SeqSize : forall b, 0 <= b < wl_nb wl ->
    returns (sk_GetS2SeqSize k b) (fun s2 => s2 = 0 -> forall r, 0 <= r -> wl_blk wl b r = 0);
  rm_cost_gt : forall a b, 0 <= a < 2 ^ 62 -> 0 <= b < 2 ^ 62 -> sk_cost_gt a b = (a >? b)
}.

(** What a kernel promises about its basic-block split: it yields a row model
    of the workload, and the all-empty flag says whether there is work. *)
Class KernelModel (k : K) (wl : Workload) := {
  km_batch : sk_batchSize k = wl_nb wl;
  km_heads : sk_kvHeadNum k = 1;
  km_range : 0 < wl_nb wl < 2 ^ 31;
  km_rows : forall b, 0 <= b < wl_nb wl -> 0 <= wl_rows wl b < 2 ^ 31;
  km_split : returns (sk_CalcSplitInfo k (new_SplitInfo (wl_nb wl))) (fun si =>
    (exists _ : RowModel k si wl, True) /\
    (if isKvSeqAllZero si then total wl (wl_cost wl) = 0 else 0 < total wl (wl_cost wl)))
}.
End Interface.

(** ** The batch costs *)

Section BatchCosts.
Context (wl : Workload) (OK : WorkloadOk wl).
Implicit Types (ci : CostInfo).

(** The recorded last-block cost of a batch belongs to its last row with
    blocks among the first [r]. *)
Definition last_upto ci (b r : Z) : Prop :=
  forall q, 0 <= q < r -> 0 < wl_blk wl b q ->
    (forall j, q < j < r -> wl_blk wl b j = 0) ->
    vat (bN2LastBlockCostOfEachBatch ci) b = wl_last wl b q.

(** The entries of batch [b] after its first [r] rows. *)
Record batch_entry ci (b r : Z) : Prop := {
  be_cost : vat (bN2CostOfEachBatch ci) b = sumZ (wl_cost wl b) 0 r;
  be_blk : vat (bN2BlockOfEachBatch ci) b = sumZ (wl_blk wl b) 0 r;
  be_last : last_upto ci b r;
  be_last_range : 0 <= vat (bN2LastBlockCostOfEachBatch ci) b <= maxS1GCost ci
}.

Record lengths_ok ci : Prop := {
  len_cost : Z.of_nat (length (bN2CostOfEachBatch ci)) = wl_nb wl;
  len_blk : Z.of_nat (length (bN2BlockOfEachBatch ci)) = wl_nb wl;
  len_last : Z.of_nat (length (bN2LastBlockCostOfEachBatch ci)) = wl_nb wl
}.

(** The cost record after the batches before [b] and the first [r] rows of
    batch [b]. *)
Record cost_upto ci (b r : Z) : Prop := {
  cu_len : lengths_ok ci;
  cu_done : forall b', 0 <= b' < b -> batch_entry ci b' (wl_rows wl b');
  cu_total : totalCost ci = sumZ (batch_sum wl (wl_cost wl)) 0 b;
  cu_max : forall b' r', (0 <= b' < b /\ 0 <= r' < wl_rows wl b') \/ (b' = b /\ 0 <= r' < r) ->
    wl_cost wl b' r' <= maxS1GCost ci;
  cu_max_is : maxS1GCost ci = 0 \/ exists b' r',
    ((0 <= b' < b /\ 0 <= r' < wl_rows wl b') \/ (b' = b /\ 0 <= r' < r)) /\
    wl_cost wl b' r' = maxS1GCost ci;
  cu_max_le : 0 <= maxS1GCost ci <=
    sumZ (batch_sum wl (wl_cost wl)) 0 b + sumZ (wl_cost wl b) 0 r
}.

(** The finished cost record. *)
Record CostOk ci : Prop := {
  co_len : lengths_ok ci;
  co_cost : forall b, 0 <= b < wl_nb wl ->
    vat (bN2CostOfEachBatch ci) b = batch_sum wl (wl_cost wl) b;
  co_blk : forall b, 0 <= b < wl_nb wl ->
    vat (bN2BlockOfEachBatch ci) b = batch_sum wl (wl_blk wl) b;
  co_last : forall b, 0 <= b < wl_nb wl -> last_upto ci b (wl_rows wl b);
  co_last_range : forall b, 0 <= b < wl_nb wl ->
    0 <= vat (bN2LastBlockCostOfEachBatch ci) b <= maxS1GCost ci;
  co_total : totalCost ci = total wl (wl_cost wl);
  co_max : forall b r, 0 <= b < wl_nb wl -> 0 <= r -> wl_cost wl b r <= maxS1GCost ci;
  co_max_is : maxS1GCost ci = 0 \/ exists b r,
    0 <= b < wl_nb wl /\ 0 <= r < wl_rows wl b /\ wl_cost wl b r = maxS1GCost ci;
  co_max_le : 0 <= maxS1GCost ci <= total wl (wl_cost wl)
}.

Lemma batch_entry_frame ci ci' b b' r :
  0 <= b -> 0 <= b' -> b <> b' ->
  vat (bN2CostOfEachBatch ci') b' = vat (bN2CostOfEachBatch ci) b' ->
  vat (bN2BlockOfEachBatch ci') b' = vat (bN2BlockOfEachBatch ci) b' ->
  vat (bN2LastBlockCostOfEachBatch ci') b' = vat (bN2LastBlockCostOfEachBatch ci) b' ->
  maxS1GCost ci <= maxS1GCost ci' ->
  batch_entry ci b' r -> batch_entry ci' b' r.
Proof.
  intros Hb Hb' Hne Ec En El Hmax [Hc Hn Hl Hr]. split.
  - congruence.
  - congruence.
  - intros q Hq Hpos Hz. rewrite El. by apply Hl.
  - rewrite El. lia.
Qed.

Lemma partial_cost_range b r :
  0 <= b < wl_nb wl -> 0 <= r <= wl_rows wl b ->
  0 <= sumZ (batch_sum wl (wl_cost wl)) 0 b + sumZ (wl_cost wl b) 0 r <= total wl (wl_cost wl)
  /\ 0 <= sumZ (wl_cost wl b) 0 r <= total wl (wl_cost wl).
Proof.
  intros Hb Hr.
  pose proof (rest_nonneg wl (wl_cost wl) b r ltac:(intros; by apply wl_cost_nonneg) ltac:(lia)).
  pose proof (sumZ_nonneg (batch_sum wl (wl_cost wl)) 0 b) as H0.
  pose proof (sumZ_nonneg (wl_cost wl b) 0 r) as H1.
  specialize (H0 ltac:(intros; apply row_sum_nonneg; [lia|intros; apply wl_cost_nonneg; [done|lia]])).
  specialize (H1 ltac:(intros; by apply wl_cost_nonneg)).
  assert (total wl (wl_cost wl) =
    sumZ (batch_sum wl (wl_cost wl)) 0 b + sumZ (wl_cost wl b) 0 r + rest wl (wl_cost wl) b r).
  { unfold total. rewrite (sumZ_split _ 0 b) by lia. rewrite (sumZ_first _ b) by lia.
    rewrite rest_at, <- rest_next_batch by lia. unfold batch_sum at 2, row_sum.
    rewrite (sumZ_split (wl_cost wl b) 0 r) by lia. lia. }
  lia.
Qed.

Lemma partial_blk_range b r :
  0 <= b < wl_nb wl -> 0 <= r <= wl_rows wl b ->
  0 <= sumZ (wl_blk wl b) 0 r < 2 ^ 32.
Proof.
  intros Hb Hr. split; [apply sumZ_nonneg; intros; by apply (wl_blk_nonneg _ OK)|].
  pose proof (blk_rest_bound wl OK b 0 ltac:(lia) ltac:(lia)).
  pose proof (row_sum_blk_range wl OK b 0 Hb ltac:(lia)) as Hs.
  unfold row_sum in Hs. rewrite (sumZ_split _ 0 r) in Hs by lia.
  pose proof (sumZ_nonneg (wl_blk wl b) r (wl_rows wl b)) as H1.
  specialize (H1 ltac:(intros; by apply (wl_blk_nonneg _ OK))). lia.
Qed.
End BatchCosts.

Section CostRoutines.
Context {K S1G : Type} `{SK : SplitKernel K S1G}.
Context (k : K) (si : SplitInfo) (wl : Workload) `{RM : !RowModel k si wl}.
Implicit Types (sg : S1G) (ci : CostInfo).

Let OK : WorkloadOk wl := rm_wl.

(** Batches before [b] are complete, batch [b] is complete up to row [r]. *)
Definition batch_upto (b r : Z) (st : S1G * CostInfo) : Prop :=
  cost_upto wl st.2 b r /\ batch_entry wl st.2 b r.

(** Inside the loop over the rows. *)
Definition row_upto (b r : Z) (st : S1G * CostInfo) : Prop :=
  batch_upto b r st /\ sk_s2Start st.1 = 0.

Lemma last_upto_step ci b r :
  0 <= r -> wl_blk wl b r = 0 -> last_upto wl ci b r -> last_upto wl ci b (r + 1).
Proof.
  intros Hr0 Hz H q Hq Hpos Hrest. apply H; [|done|].
  - destruct (decide (q = r)) as [->|]; lia.
  - intros j Hj. apply Hrest. lia.
Qed.

Lemma last_upto_new ci b r :
  0 <= r -> 0 < wl_blk wl b r ->
  vat (bN2LastBlockCostOfEachBatch ci) b = wl_last wl b r -> last_upto wl ci b (r + 1).
Proof.
  intros Hr0 Hpos E q Hq Hq' Hrest. destruct (decide (q = r)) as [->|]; [done|].
  specialize (Hrest r ltac:(lia)). lia.
Qed.

(** The record [ci'] after one more row of batch [b]. *)
Lemma batch_upto_step sg sg' ci ci' b r :
  0 <= b < wl_nb wl -> 0 <= r < wl_rows wl b ->
  lengths_ok wl ci' ->
  batch_upto b r (sg, ci) ->
  (forall b', 0 <= b' -> b' <> b ->
     vat (bN2CostOfEachBatch ci') b' = vat (bN2CostOfEachBatch ci) b' /\
     vat (bN2BlockOfEachBatch ci') b' = vat (bN2BlockOfEachBatch ci) b' /\
     vat (bN2LastBlockCostOfEachBatch ci') b' = vat (bN2LastBlockCostOfEachBatch ci) b') ->
  vat (bN2CostOfEachBatch ci') b =
    i64 (vat (bN2CostOfEachBatch ci) b + wl_cost wl b r) ->
  vat (bN2BlockOfEachBatch ci') b =
    u32 (vat (bN2BlockOfEachBatch ci) b + wl_blk wl b r) ->
  vat (bN2LastBlockCostOfEachBatch ci') b =
    (if wl_blk wl b r >? 0 then wl_last wl b r
     else vat (bN2LastBlockCostOfEachBatch ci) b) ->
  totalCost ci' = totalCost ci ->
  maxS1GCost ci' = Z.max (maxS1GCost ci) (wl_cost wl b r) ->
  batch_upto b (r + 1) (sg', ci').
Proof.
  intros Hb Hr Hlen [[_ Hdone Htot Hmax Hmis Hmle] [Ec En El Elr]] Hother Ec' En' El' Et Em.
  simpl in *.
  destruct (partial_cost_range wl OK b (r + 1) Hb ltac:(lia)) as [_ Hcr].
  pose proof (partial_blk_range wl OK b (r + 1) Hb ltac:(lia)) as Hbr.
  pose proof (wl_total_cost wl OK).
  rewrite sumZ_snoc in Hcr by lia. rewrite sumZ_snoc in Hbr by lia.
  pose proof (wl_last_range _ OK b r Hb). pose proof (wl_blk_nonneg _ OK b r Hb).
  split; split; simpl.
  - done.
  - intros b' Hb'. eapply batch_entry_frame with (b := b); try apply Hother; try lia.
    by apply Hdone.
  - congruence.
  - intros b' r' Hcase. rewrite Em.
    destruct (decide (b' = b /\ r' = r)) as [[-> ->]|]; [lia|].
    enough (wl_cost wl b' r' <= maxS1GCost ci) by lia. apply Hmax. lia.
  - rewrite Em. destruct (decide (maxS1GCost ci < wl_cost wl b r)).
    + right. exists b, r. lia.
    + destruct Hmis as [|(b' & r' & Hin & E)]; [left; lia|]. right. exists b', r'. lia.
  - rewrite sumZ_snoc by lia.
    rewrite Em. pose proof (sumZ_nonneg (wl_cost wl b) 0 r) as Hs.
    specialize (Hs ltac:(intros; by apply wl_cost_nonneg)).
    pose proof (sumZ_nonneg (batch_sum wl (wl_cost wl)) 0 b) as Hs2.
    specialize (Hs2 ltac:(intros; apply row_sum_nonneg; [lia|intros; apply wl_cost_nonneg; [done|lia]])).
    lia.
  - rewrite sumZ_snoc by lia.
    rewrite Ec', i64_id; lia.
  - rewrite sumZ_snoc by lia.
    rewrite En', u32_id; lia.
  - destruct (Z.gtb_spec (wl_blk wl b r) 0) as [Hp|Hp].
    + apply last_upto_new; [lia|lia|done].
    + apply last_upto_step; [lia|lia|]. intros q. rewrite El'. apply El.
  - rewrite El', Em. destruct (Z.gtb_spec (wl_blk wl b r) 0); lia.
Qed.

Lemma CalcBatchCost_row_returns b r bCache st :
  0 <= b < wl_nb wl -> 0 <= r < wl_rows wl b -> rm_batch (si := si) b bCache ->
  row_upto b r st ->
  returns (CalcBatchCost_row k b si bCache r st) (row_upto b (r + 1)).
Proof.
  intros Hb Hr Hbc [Hst Hs0]. destruct st as [sg ci]. unfold CalcBatchCost_row.
  pose proof Hst as [[[Hl1 Hl2 Hl3] _ _ _ _ Hmle] _]. simpl in *.
  returns_step. eapply returns_mono; [apply (rm_CalcS1GCache b r); [split; lia|done|done]|].
  intros sg' [Rc Rb Rl Rs]. rewrite Rc, Rb, Rl.
  destruct (partial_cost_range wl OK b r Hb ltac:(lia)) as [Hpr _].
  pose proof (wl_total_cost wl OK).
  pose proof (cost_rest_bound wl OK b r ltac:(lia) ltac:(lia)).
  pose proof (row_cost_le wl OK b r Hb ltac:(lia)).
  pose proof (row_sum_cost_range wl OK b r Hb ltac:(lia)).
  pose proof (wl_cost_nonneg wl OK b r Hb).
  repeat (returns_step; cbn -[vat Z.to_nat]);
    rewrite ?rm_cost_gt in * by lia;
    try (destruct (Z.gtb_spec (wl_cost wl b r) (maxS1GCost ci)); cbn; vec_bounds).
  all: (split; [|exact Rs]).
  all: eapply (batch_upto_step sg); try exact Hst; try done; cbn -[vat Z.to_nat].
  all: try (by split; cbn; vec_bounds).
  all: try (intros b' Hb' Hne; rewrite ?vat_insert_ne by lia; done).
  all: rewrite ?vat_insert_eq by lia; try done; try lia.
  all: by rewrite H4.
Qed.

Lemma batch_upto_zero st b r :
  0 <= b < wl_nb wl -> 0 <= r <= wl_rows wl b ->
  (forall r, 0 <= r -> wl_blk wl b r = 0) ->
  batch_upto b 0 st -> batch_upto b r st.
Proof.
  intros Hb Hr Hz [[Hlen Hdone Htot Hmax Hmis Hmle] [Ec En El Elr]].
  assert (Hc : sumZ (wl_cost wl b) 0 r = 0).
  { apply sumZ_zero. intros i Hi. apply (wl_blk_zero _ OK); [done|]. apply Hz. lia. }
  assert (Hn : sumZ (wl_blk wl b) 0 r = 0) by (apply sumZ_zero; intros; apply Hz; lia).
  rewrite (sumZ_empty _ 0 0) in * by lia. split; split; try done.
  - intros b' r' [H|[-> Hr']]; [apply Hmax; by left|].
    destruct (wl_blk_zero _ OK b r' Hb) as [-> _]; [apply Hz; lia|lia].
  - destruct Hmis as [|(b' & r' & Hin & E)]; [by left|]. right. exists b', r'. lia.
  - by rewrite Hc.
  - by rewrite Ec.
  - by rewrite En.
  - intros q Hq Hpos. rewrite Hz in Hpos by lia. lia.
Qed.

(** Resetting the entries of batch [b] starts it. *)
Lemma batch_upto_start sg ci b :
  0 <= b < wl_nb wl -> cost_upto wl ci b 0 ->
  batch_upto b 0 (sg, ci <| bN2CostOfEachBatch := <[Z.to_nat b := 0]> (bN2CostOfEachBatch ci) |>
    <| bN2BlockOfEachBatch := <[Z.to_nat b := 0]> (bN2BlockOfEachBatch ci) |>
    <| bN2LastBlockCostOfEachBatch := <[Z.to_nat b := 0]> (bN2LastBlockCostOfEachBatch ci) |>).
Proof.
  intros Hb [[Hl1 Hl2 Hl3] Hdone Htot Hmax Hmis Hmle].
  split; split; cbn -[vat Z.to_nat]; try done.
  - split; cbn; vec_bounds.
  - intros b' Hb'. eapply batch_entry_frame with (b := b) (ci := ci);
      cbn -[vat Z.to_nat]; rewrite ?vat_insert_ne by lia; try done; try lia. by apply Hdone.
  - by rewrite vat_insert_eq, sumZ_empty by lia.
  - by rewrite vat_insert_eq, sumZ_empty by lia.
  - intros q Hq. lia.
  - rewrite vat_insert_eq by lia. lia.
Qed.

Lemma CalcBatchCost_returns b st :
  0 <= b < wl_nb wl -> cost_upto wl st.2 b 0 ->
  returns (CalcBatchCost k b si st) (batch_upto b (wl_rows wl b)).
Proof.
  intros Hb Hst. destruct st as [sg ci]. unfold CalcBatchCost.
  pose proof Hst as [[Hl1 Hl2 Hl3] _ _ _ _ _]. simpl in *.
  pose proof (wl_rows_range _ OK b Hb).
  assert (forall sg', batch_upto b 0 (sg', _)) as Hstart
    by (intros sg'; apply (batch_upto_start sg' ci b Hb Hst)).
  do 6 (returns_step; cbn -[Z.to_nat]).
  returns_step. eapply returns_mono; [by apply rm_GetS1SeqSize|]. intros s1 Hs1. cbn beta.
  returns_step. eapply (returns_mono _ (fun s2 => s1 <> 0 -> s2 = 0 ->
    forall r, 0 <= r -> wl_blk wl b r = 0)).
  { returns_step; [returns_step; done|]. eapply returns_mono; [by apply rm_GetS2SeqSize|]. auto. }
  intros s2 Hs2. cbn beta. apply returns_if; intros Hz.
  - apply returns_ok. apply batch_upto_zero; [done|lia| |by apply Hstart].
    intros r Hr. apply orb_true_iff in Hz as [Hz|Hz]; zify_tests; [auto|].
    destruct (decide (s1 = 0)); auto.
  - returns_step. eapply returns_mono; [by apply rm_CalcBatchCache|]. intros bc Hbc. cbn beta.
    do 2 returns_step; [rewrite rm_rows_len; lia|]. rewrite rm_rows by done.
    eapply returns_mono.
    { apply (for_range_returns (fun r => row_upto b r)); [lia| |].
      - split; [apply Hstart|apply rm_fresh].
      - intros r st Hr. by apply CalcBatchCost_row_returns. }
    by intros st [Hst' _].
Qed.

Lemma cost_upto_next st b :
  0 <= b < wl_nb wl -> batch_upto b (wl_rows wl b) st ->
  cost_upto wl (st.2 <| totalCost := i64 (totalCost st.2 +
      i64 (vat (bN2CostOfEachBatch st.2) b * sk_kvHeadNum k)) |>
    <| totalBlockNum := u32 (totalBlockNum st.2 +
      u32 (vat (bN2BlockOfEachBatch st.2) b * u32 (sk_kvHeadNum k))) |>) (b + 1) 0.
Proof.
  intros Hb [[Hlen Hdone Htot Hmax Hmis Hmle] He]. destruct st as [sg ci]. simpl in *.
  pose proof (wl_rows_range _ OK b Hb). pose proof (wl_total_cost wl OK).
  destruct (partial_cost_range wl OK b (wl_rows wl b) Hb ltac:(lia)) as [Hp1 Hp2].
  assert (Hsum : sumZ (batch_sum wl (wl_cost wl)) 0 (b + 1) =
    sumZ (batch_sum wl (wl_cost wl)) 0 b + sumZ (wl_cost wl b) 0 (wl_rows wl b))
    by (rewrite sumZ_snoc by lia; done).
  split; cbn -[vat sumZ].
  - destruct Hlen. by split.
  - intros b' Hb'. destruct (decide (b' = b)) as [->|Hne].
    + destruct He as [E1 E2 E3 E4]. by split.
    + destruct (Hdone b' ltac:(lia)) as [E1 E2 E3 E4]. by split.
  - rewrite rm_heads, Z.mul_1_r, (be_cost _ _ _ _ He), Htot.
    rewrite (i64_id (sumZ (wl_cost wl b) 0 (wl_rows wl b))) by lia.
    rewrite i64_id; lia.
  - intros b' r' Hc. destruct (decide (b' = b)) as [->|]; [apply Hmax; lia|apply Hmax; lia].
  - destruct Hmis as [|(b' & r' & Hin & E)]; [by left|]. right. exists b', r'. split; [|done].
    destruct Hin as [|[-> ?]]; lia.
  - pose proof (sumZ_empty (wl_cost wl (b + 1)) 0 0). lia.
Qed.

Lemma CostOk_of_upto ci : cost_upto wl ci (wl_nb wl) 0 -> CostOk wl ci.
Proof.
  intros [Hlen Hdone Htot Hmax Hmis Hmle].
  pose proof (sumZ_empty (wl_cost wl (wl_nb wl)) 0 0 ltac:(lia)).
  split; try (intros b Hb; destruct (Hdone b Hb); done); try done.
  - intros b r Hb Hr. destruct (decide (r < wl_rows wl b)); [apply Hmax; lia|].
    destruct (wl_blk_zero _ OK b r Hb) as [-> _]; [|lia]. apply (wl_outside _ OK); lia.
  - destruct Hmis as [|(b & r & Hin & E)]; [by left|]. right. exists b, r. lia.
  - unfold total. lia.
Qed.

(** The costs the kernel records are the costs of the workload: no vector
    access out of range, no counter wraps. *)
Lemma CalcCostInfo_returns (ctx : SplitContext) sg :
  splitInfo ctx = si -> isKvSeqAllZero si = false ->
  costInfo ctx = new_CostInfo (wl_nb wl) ->
  returns (CalcCostInfo k ctx sg)
    (fun '(_, ctx') => splitInfo ctx' = si /\ CostOk wl (costInfo ctx')).
Proof.
  intros Hsi Hz Hci. unfold CalcCostInfo. rewrite Hsi, Hz, Hci.
  pose proof (wl_nb_range _ OK).
  returns_step. eapply returns_mono.
  - apply (for_range_returns (fun b (st : S1G * CostInfo) => cost_upto wl st.2 b 0)).
    + rewrite rm_batchSize. autorewrite with width. lia.
    + split; cbn; try lia; try done; try by left.
      split; cbn; unfold zeros; rewrite length_replicate; lia.
    + rewrite rm_batchSize. autorewrite with width. intros b st Hb Hst.
      unfold CalcCostInfo_batch. returns_step.
      eapply returns_mono; [by apply CalcBatchCost_returns|].
      intros [sg' ci'] Hst'. pose proof Hst' as [[[Hl1 Hl2 Hl3] _ _ _ _ _] _].
      simpl in Hl1, Hl2. repeat (returns_step; cbn beta).
      by apply (cost_upto_next (sg', ci')).
  - rewrite rm_batchSize. autorewrite with width. intros [sg' ci'] Hup. apply returns_ok.
    split; [done|]. by apply CostOk_of_upto.
Qed.
End CostRoutines.
