(* ===== verification/PlanProofs.v ===== *)
(** * The greedy assignment meets the plan contract

    Assignment by batch and by row, for a kernel whose row computation is a
    [RowModel]: each core takes an interval of rows, the loops stop within
    their fuel, and the interval has the bounds of [PlanOk]. *)

From S2P Require Import Prelude SplitTypes Assign Workload AssignProofs.

Section Plan.
Context {K S1G : Type} `{SK : SplitKernel K S1G}.
Context (k : K) (ctx : SplitContext) (wl : Workload).
Context `{RM : !RowModel k (splitInfo ctx) wl} (CO : CostOk wl (costInfo ctx)).
Implicit Types (ac : AssignContext S1G).

Let OK : WorkloadOk wl := rm_wl.
Abbreviation nb := (wl_nb wl).
Abbreviation cst := (wl_cost wl).
Abbreviation maxRow := (maxS1GCost (costInfo ctx)).

Lemma bn2_total_nb : bn2_total k = nb.
Proof.
  unfold bn2_total. rewrite rm_batchSize, rm_heads, Z.mul_1_r.
  pose proof (wl_nb_range _ OK). by autorewrite with width.
Qed.

Lemma max_range : 0 <= maxRow < 2 ^ 62.
Proof. pose proof (co_max_le _ _ CO). pose proof (wl_total_cost _ OK). lia. Qed.

(** ** States of the cursor *)

(** The cursor stands before row [r] of batch [b]. *)
Record at_pos ac (b r : Z) : Prop := {
  ap_running : isFinished ac = false;
  ap_ok : pos_ok wl b r;
  ap_b : curBIdx ac = b;
  ap_bn2 : curBN2Idx ac = b;
  ap_r : curS1GIdx ac = r;
  ap_s2 : curS2Idx ac = 0;
  ap_bc : rm_batch (si := splitInfo ctx) b (batchCache ac);
  ap_row : row_cache wl b r (s1GCache ac);
  ap_cost : bN2Cost ac = row_sum wl cst b r;
  ap_blk : bN2Block ac = row_sum wl (wl_blk wl) b r
}.

(** Everything has been assigned. *)
Record at_end ac : Prop := {
  ae_finished : isFinished ac = true;
  ae_bn2 : curBN2Idx ac = nb;
  ae_r : curS1GIdx ac = 0;
  ae_s2 : curS2Idx ac = 0;
  ae_start : sk_s2Start (s1GCache ac) = 0
}.

Definition cursor_at ac (b r : Z) : Prop :=
  at_pos ac b r \/ (at_end ac /\ b = nb /\ r = 0).

(** What the assignment of one core does not touch. *)
Record frame ac ac' : Prop := {
  fr_core : curCoreIdx ac' = curCoreIdx ac;
  fr_unassigned : unassignedCost ac' = unassignedCost ac;
  fr_part : curKvSplitPart ac' = curKvSplitPart ac;
  fr_fd : curFdDataNum ac' = curFdDataNum ac;
  fr_pre : preFdDataNum ac' = preFdDataNum ac;
  fr_limit : costLimit (coreCache ac') = costLimit (coreCache ac)
}.

Lemma frame_refl ac : frame ac ac.
Proof. by split. Qed.
Lemma frame_trans ac1 ac2 ac3 : frame ac1 ac2 -> frame ac2 ac3 -> frame ac1 ac3.
Proof. intros [] []. split; congruence. Qed.

(** The core has taken the rows from [(b0, r0)] up to [(b, r)]. *)
Record taken ac (b0 r0 b r : Z) : Prop := {
  tk_cost : cost (coreCache ac) = rest wl cst b0 r0 - rest wl cst b r;
  tk_blk : block (coreCache ac) = rest wl (wl_blk wl) b0 r0 - rest wl (wl_blk wl) b r;
  tk_nonneg : 0 <= cost (coreCache ac) /\ 0 <= block (coreCache ac);
  tk_le : lexle (b0, r0) (b, r);
  tk_bound : cost (coreCache ac) <= costLimit (coreCache ac) + Z.quot maxRow 2
}.

(** The load limit of a core stays far from overflow. *)
Definition limit_ok ac : Prop := 0 <= costLimit (coreCache ac) < 2 ^ 62.

Lemma rest_row_step b r :
  pos_ok wl b r -> r < wl_rows wl b ->
  rest wl cst b r = cst b r + (row_sum wl cst b (r + 1) + rest wl cst (b + 1) 0) /\
  rest wl (wl_blk wl) b r =
    wl_blk wl b r + (row_sum wl (wl_blk wl) b (r + 1) + rest wl (wl_blk wl) (b + 1) 0).
Proof.
  intros [Hb Hr] Hlt.
  rewrite (rest_at wl cst b r), (rest_at wl (wl_blk wl) b r) by done.
  rewrite (row_sum_step wl cst b r), (row_sum_step wl (wl_blk wl) b r) by done. lia.
Qed.

(** Bounds that every arithmetic step of the assignment uses. *)
Lemma taken_ranges ac b0 r0 b r :
  0 <= b0 <= nb -> 0 <= r0 -> pos_ok wl b r -> taken ac b0 r0 b r ->
  0 <= row_sum wl cst b r <= rest wl cst b r /\
  0 <= row_sum wl (wl_blk wl) b r <= rest wl (wl_blk wl) b r /\
  0 <= cst b r <= row_sum wl cst b r /\
  0 <= wl_blk wl b r <= row_sum wl (wl_blk wl) b r /\
  0 <= rest wl cst b0 r0 < 2 ^ 62 /\
  0 <= rest wl (wl_blk wl) b0 r0 < 2 ^ 32.
Proof.
  intros Hb0 Hr0 [Hb Hr] _.
  repeat split; try (apply row_sum_cost_range; by lia || done);
    try (apply row_sum_blk_range; by lia || done);
    try (apply cost_rest_bound; by lia || done);
    try (apply blk_rest_bound; by lia || done).
  - by apply wl_cost_nonneg.
  - apply row_cost_le; [done|done|lia].
  - by apply (wl_blk_nonneg _ OK).
  - apply row_blk_le; [done|done|lia].
Qed.

Lemma IsWithinTolerance_spec l t v :
  - 2 ^ 63 <= l + t < 2 ^ 63 -> IsWithinTolerance l t v = (v <=? l + t).
Proof. intros H. unfold IsWithinTolerance. rewrite i64_id by done. by rewrite Z.geb_leb. Qed.

(** ** By batch *)

(** After the assignment by batch either everything is assigned or the rest
    of the current batch does not fit. *)
Definition batch_left ac (b r : Z) : Prop :=
  at_pos ac b r ->
  0 < row_sum wl cst b r /\
  costLimit (coreCache ac) +
    Z.quot (vat (bN2LastBlockCostOfEachBatch (costInfo ctx)) b) 2 <
  cost (coreCache ac) + row_sum wl cst b r.

Section Core.
Context (ac0 : AssignContext S1G) (b0 r0 : Z).
Context (Hb0 : 0 <= b0 <= nb) (Hr0 : 0 <= r0).

(** The state in the middle of a core's assignment. *)
Record mid ac (b r : Z) : Prop := {
  mid_taken : taken ac b0 r0 b r;
  mid_frame : frame ac0 ac;
  mid_limit : limit_ok ac
}.

Lemma batch_fits_returns ac b r :
  at_pos ac b r -> mid ac b r ->
  returns (batch_fits ctx ac) (fun fits => fits = bool_decide
    (row_sum wl cst b r = 0 \/
     cost (coreCache ac) + row_sum wl cst b r <=
     costLimit (coreCache ac) +
       Z.quot (vat (bN2LastBlockCostOfEachBatch (costInfo ctx)) b) 2)).
Proof.
  intros Hp [Ht _ Hl]. pose proof Hp as [_ Hok Eb _ _ _ _ _ Ec _].
  destruct (taken_ranges ac b0 r0 b r Hb0 Hr0 Hok Ht) as (R1 & _ & _ & _ & R2 & _).
  destruct Ht as [Tc _ Tp _ _]. unfold limit_ok in Hl. pose proof max_range.
  destruct (co_len _ _ CO) as [_ _ Hlen]. destruct Hok as [Hb Hr].
  pose proof (co_last_range _ _ CO b Hb) as Hlr.
  pose proof (quot2_range _ (proj1 Hlr)) as Hq.
  unfold batch_fits. rewrite Ec, Eb.
  returns_step; [apply returns_ok; symmetry; apply bool_decide_eq_true; by left|].
  repeat (returns_step; cbn beta).
  change FA_TOLERANCE_RATIO with 2. rewrite IsWithinTolerance_spec by lia.
  rewrite i64_id by lia.
  destruct (Z.leb_spec (cost (coreCache ac) + row_sum wl cst b r) (costLimit (coreCache ac) +
    Z.quot (vat (bN2LastBlockCostOfEachBatch (costInfo ctx)) b) 2)); symmetry.
  - apply bool_decide_eq_true. by right.
  - apply bool_decide_eq_false. lia.
Qed.

Lemma AssignByBatch_step_returns ac b r :
  at_pos ac b r -> mid ac b r ->
  returns (AssignByBatch_step k ctx ac) (fun '(again, ac') =>
    if again : bool then at_pos ac' (b + 1) 0 /\ mid ac' (b + 1) 0
    else exists b' r', cursor_at ac' b' r' /\ mid ac' b' r' /\ batch_left ac' b' r').
Proof.
  intros Hp Hm. unfold AssignByBatch_step. returns_step.
  eapply returns_mono; [by apply batch_fits_returns|]. intros fits ->. cbn beta.
  pose proof Hp as [Hrun Hok Eb Ebn Er Es2 Hbc Hrow Ec En]. pose proof Hm as [Ht Hf Hl].
  destruct (taken_ranges ac b0 r0 b r Hb0 Hr0 Hok Ht) as (R1 & R2 & R3 & R4 & R5 & R6).
  pose proof Ht as [Tc Tn Tp Tle Tb]. pose proof Hok as [Hb Hr].
  pose proof (wl_nb_range _ OK) as Hnb. pose proof max_range as Hmx.
  pose proof (quot2_range _ (proj1 Hmx)) as Hq.
  pose proof (co_last_range _ _ CO b Hb) as Hlr.
  pose proof (quot2_mono _ _ Hlr) as Hqm. unfold limit_ok in Hl.
  case_bool_decide as Hfit; simpl negb; cbn iota.
  2: { apply returns_ok. exists b, r. split; [by left|]. split; [done|].
       intros _. lia. }
  pose proof (rest_at wl cst b r Hb) as Erest.
  pose proof (rest_at wl (wl_blk wl) b r Hb) as Erestn.
  pose proof (cost_rest_bound wl OK (b + 1) 0 ltac:(lia) ltac:(lia)).
  pose proof (blk_rest_bound wl OK (b + 1) 0 ltac:(lia) ltac:(lia)).
  assert (Hmid : forall ac', frame ac ac' -> cost (coreCache ac') =
      i64 (cost (coreCache ac) + bN2Cost ac) ->
      block (coreCache ac') = u32 (block (coreCache ac) + bN2Block ac) -> mid ac' (b + 1) 0).
  { intros ac' Hfr E1 E2. pose proof (fr_limit _ _ Hfr) as El. split.
    - split.
      + rewrite E1, i64_id by lia. lia.
      + rewrite E2, u32_id by lia. lia.
      + rewrite E1, E2, i64_id, u32_id by lia. lia.
      + eapply lexle_trans; [exact Tle|]. right. left. simpl. lia.
      + rewrite E1, El, i64_id by lia. lia.
    - by eapply frame_trans.
    - unfold limit_ok. lia. }
  cbn [curBN2Idx]. rewrite bn2_total_nb. cbn. rewrite Ebn, u32_id by lia.
  destruct (Z.eqb_spec (b + 1) nb) as [Eend|Hend].
  - apply returns_ok. exists nb, 0. split; [|split].
    + right. split; [|done]. by split; cbn; try done; try lia; apply Hrow.
    + rewrite <- Eend. by apply Hmid.
    + intros [Hx _ _ _ _ _ _ _ _ _]. done.
  - rewrite rm_heads. rewrite (u32_id 1), (udiv_ok _ 1), Z.div_1_r by lia.
    do 2 returns_step. rewrite Eb, (proj2 (Z.eqb_neq (b + 1) b)) by lia.
    simpl negb. cbn iota. do 2 returns_step. eapply returns_mono; [apply rm_CalcBatchCache; lia|]. intros bc Hbc'.
    apply returns_ok. cbn. destruct (co_len _ _ CO) as [Hl1 Hl2 _].
    do 4 (returns_step; cbn beta). returns_step.
    eapply returns_mono; [apply (rm_CalcS1GCache (b + 1) 0); [split; lia|done|apply Hrow]|].
    intros sg Hsg. apply returns_ok. split.
    + split; cbn -[vat]; try done; try lia; try (split; lia).
      * apply Hsg.
      * by rewrite (co_cost _ _ CO) by lia.
      * by rewrite (co_blk _ _ CO) by lia.
    + by apply Hmid.
Qed.

Lemma AssignByBatch_returns ac b r :
  at_pos ac b r -> mid ac b r ->
  returns (AssignByBatch k ctx ac) (fun ac' =>
    exists b' r', cursor_at ac' b' r' /\ mid ac' b' r' /\ batch_left ac' b' r').
Proof.
  intros Hp Hm. unfold AssignByBatch. rewrite (ap_running _ _ _ Hp), bn2_total_nb.
  apply (while_loop_returns (fun ac => exists b r, at_pos ac b r /\ mid ac b r) _
           (fun ac => Z.to_nat (nb - curBIdx ac))).
  - clear ac b r Hp Hm. intros ac (b & r & Hp & Hm).
    eapply returns_mono; [by eapply AssignByBatch_step_returns|].
    intros [[] ac']; [|done]. intros [Hp' Hm']. split; [eauto|].
    destruct Hp as [_ [Hb _] -> _ _ _ _ _ _ _].
    destruct Hp' as [_ [Hb' _] -> _ _ _ _ _ _ _]. lia.
  - eauto.
  - destruct Hp as [_ [Hb _] -> _ _ _ _ _ _ _]. lia.
Qed.

(** ** By row *)

(** The state inside [do ... while]: rows after [r] up to the cursor have
    no blocks, and a row with blocks is still to come. *)
Record seeking ac (b r j : Z) : Prop := {
  sk_b : curBIdx ac = b;
  sk_j : curS1GIdx ac = j;
  sk_le : r <= j < wl_rows wl b;
  sk_bc : rm_batch (si := splitInfo ctx) b (batchCache ac);
  sk_start : sk_s2Start (s1GCache ac) = 0;
  sk_empty : forall q, r < q <= j -> wl_blk wl b q = 0;
  sk_more : exists q, j < q < wl_rows wl b /\ 0 < wl_blk wl b q
}.

(** What the search for the next row keeps. *)
Record same_core ac ac' : Prop := {
  sc_frame : frame ac ac';
  sc_core : coreCache ac' = coreCache ac;
  sc_bn2 : curBN2Idx ac' = curBN2Idx ac;
  sc_running : isFinished ac' = isFinished ac;
  sc_cost : bN2Cost ac' = bN2Cost ac;
  sc_blk : bN2Block ac' = bN2Block ac
}.

Lemma next_row_returns ac b r :
  0 <= b < nb -> 0 <= r -> seeking ac b r r ->
  returns (while_loop (row_fuel ctx ac) (next_row_step k ctx) ac) (fun ac' =>
    exists r', r < r' < wl_rows wl b /\ 0 < wl_blk wl b r' /\
      (forall q, r < q < r' -> wl_blk wl b q = 0) /\
      curBIdx ac' = b /\ curS1GIdx ac' = r' /\ row_cache wl b r' (s1GCache ac') /\
      rm_batch (si := splitInfo ctx) b (batchCache ac') /\ same_core ac ac').
Proof.
  intros Hb Hr Hs. pose proof (wl_rows_range _ OK b Hb) as Hrows.
  apply (while_loop_returns (fun ac' => exists j, seeking ac' b r j /\ same_core ac ac') _
           (fun ac' => Z.to_nat (wl_rows wl b - curS1GIdx ac'))).
  - intros ac' (j & [Sb Sj Sle Sbc Sst Se (q & Hq & Hqp)] & Sc). unfold next_row_step.
    cbn. rewrite Sj, u32_id by lia. returns_step.
    eapply returns_mono; [apply (rm_CalcS1GCache b (j + 1)); [split; lia|done|done]|].
    intros sg Hsg. apply returns_ok. rewrite (rc_blk _ _ _ _ Hsg).
    assert (same_core ac (ac' <| curS1GIdx := j + 1 |> <| s1GCache := sg |>)) as Sc'.
    { destruct Sc as [[] ? ? ? ? ?]. by split. }
    destruct (Z.eqb_spec (wl_blk wl b (j + 1)) 0) as [Ez|Ez].
    + assert (q <> j + 1) by (intros ->; lia).
      split; [|cbn; lia]. exists (j + 1). split; [|done].
      split; cbn; try done; try lia.
      * apply Hsg.
      * intros q' Hq'. destruct (decide (q' = j + 1)) as [->|]; [done|]. apply Se. lia.
      * exists q. split; [lia|done].
    + pose proof (wl_blk_nonneg _ OK b (j + 1) Hb).
      exists (j + 1). split; [lia|]. split; [lia|]. split; [intros; apply Se; lia|]. done.
  - exists r. split; [done|]. by split; [apply frame_refl|..].
  - unfold row_fuel. rewrite (sk_b _ _ _ _ Hs), rm_rows by done.
    rewrite (sk_j _ _ _ _ Hs). lia.
Qed.

Lemma row_fits_spec ac b r :
  at_pos ac b r -> mid ac b r ->
  row_fits ac = (cost (coreCache ac) + cst b r <=?
                 costLimit (coreCache ac) + Z.quot (wl_last wl b r) 2).
Proof.
  intros Hp [Ht _ Hl]. destruct Hp as [_ Hok _ _ _ _ _ [Rc _ Rl _] _ _].
  destruct (taken_ranges ac b0 r0 b r Hb0 Hr0 Hok Ht) as (R1 & _ & R3 & _ & R5 & _).
  destruct Ht as [Tc _ Tp _ _]. destruct Hok as [Hb Hr]. unfold limit_ok in Hl.
  pose proof (wl_last_range _ OK b r Hb) as Hlr.
  pose proof (quot2_range _ (proj1 Hlr)) as Hq.
  unfold row_fits. rewrite Rc, Rl. change FA_TOLERANCE_RATIO with 2.
  rewrite IsWithinTolerance_spec by lia. by rewrite i64_id by lia.
Qed.

(** When the current row fits but the rest of the batch does not, a later
    row of the batch has blocks. *)
Lemma more_rows ac b r :
  at_pos ac b r -> mid ac b r -> batch_left ac b r -> row_fits ac = true ->
  r < wl_rows wl b /\ exists q, r < q < wl_rows wl b /\ 0 < wl_blk wl b q.
Proof.
  intros Hp Hm Hleft Hfit. rewrite (row_fits_spec ac b r) in Hfit by done. zify_tests.
  destruct (Hleft Hp) as [_ Hleft']. destruct (ap_ok _ _ _ Hp) as [Hb Hr].
  pose proof (co_last_range _ _ CO b Hb) as Hlr.
  pose proof (quot2_range _ (proj1 Hlr)) as Hq.
  assert (Hr' : r < wl_rows wl b).
  { destruct (decide (r < wl_rows wl b)) as [|Hge]; [done|exfalso].
    destruct (wl_blk_zero _ OK b r Hb) as [Ec El]; [apply (wl_outside _ OK); lia|].
    rewrite Ec, El in Hfit. unfold row_sum in Hleft'. rewrite sumZ_empty in Hleft' by lia.
    change (Z.quot 0 2) with 0 in Hfit. lia. }
  split; [done|].
  destruct (decide (0 < row_sum wl cst b (r + 1))) as [Hpos|Hz].
  { destruct (work_left wl OK b (r + 1) Hb ltac:(lia) Hpos) as (q & Hq' & Hqp).
    exists q. split; [lia|done]. }
  exfalso. rewrite row_sum_step in Hleft' by done.
  destruct (decide (wl_blk wl b r = 0)) as [Ez|Ez].
  - destruct (wl_blk_zero _ OK b r Hb Ez) as [Ec El]. rewrite Ec, El in Hfit.
    change (Z.quot 0 2) with 0 in Hfit. lia.
  - pose proof (wl_blk_nonneg _ OK b r Hb).
    assert (vat (bN2LastBlockCostOfEachBatch (costInfo ctx)) b = wl_last wl b r) as El.
    { apply (co_last _ _ CO b Hb r); [lia|lia|]. intros j Hj.
      pose proof (wl_blk_nonneg _ OK b j Hb).
      destruct (decide (wl_blk wl b j = 0)) as [|Hj0]; [done|exfalso].
      pose proof (wl_blk_pos _ OK b j Hb ltac:(lia)).
      assert (cst b j <= row_sum wl cst b (r + 1)); [|lia].
      unfold row_sum. apply (sumZ_term_le (cst b)); [|lia].
      intros. by apply wl_cost_nonneg. }
    rewrite El in Hleft'. lia.
Qed.

(** A core that stops in the middle of a batch has no room for the row it
    stops at. *)
Definition row_left ac (b r : Z) : Prop :=
  at_pos ac b r ->
  0 < row_sum wl cst b r /\
  costLimit (coreCache ac) + Z.quot (wl_last wl b r) 2 < cost (coreCache ac) + cst b r.

(** Row [r] and the rows without blocks behind it leave the sums. *)
Lemma row_advance b r r' :
  0 <= b < nb -> r < r' < wl_rows wl b -> (forall q, r < q < r' -> wl_blk wl b q = 0) ->
  row_sum wl cst b r = cst b r + row_sum wl cst b r' /\
  row_sum wl (wl_blk wl) b r = wl_blk wl b r + row_sum wl (wl_blk wl) b r' /\
  rest wl cst b r = cst b r + rest wl cst b r' /\
  rest wl (wl_blk wl) b r = wl_blk wl b r + rest wl (wl_blk wl) b r'.
Proof.
  intros Hb Hr Hskip.
  assert (Hs1 : row_sum wl cst b r = cst b r + row_sum wl cst b r').
  { rewrite row_sum_step by lia. f_equal. apply row_sum_skip; [lia|].
    intros j Hj. apply (wl_blk_zero _ OK); [done|]. apply Hskip. lia. }
  assert (Hs2 : row_sum wl (wl_blk wl) b r = wl_blk wl b r + row_sum wl (wl_blk wl) b r').
  { rewrite row_sum_step by lia. f_equal. apply row_sum_skip; [lia|].
    intros j Hj. apply Hskip. lia. }
  rewrite !(rest_at wl cst b), !(rest_at wl (wl_blk wl) b) by done. lia.
Qed.

Lemma AssignByRow_step_returns ac b r :
  at_pos ac b r -> mid ac b r -> batch_left ac b r ->
  returns (AssignByRow_step k ctx ac) (fun '(again, ac') =>
    if again : bool then exists r', r < r' /\ at_pos ac' b r' /\ mid ac' b r' /\ batch_left ac' b r'
    else exists r', at_pos ac' b r' /\ mid ac' b r' /\ row_left ac' b r').
Proof.
  intros Hp Hm Hleft. unfold AssignByRow_step.
  destruct (row_fits ac) eqn:Hfit; simpl negb; cbn iota.
  2: { apply returns_ok. exists r. split; [done|]. split; [done|]. intros _.
       rewrite (row_fits_spec ac b r) in Hfit by done. zify_tests.
       destruct (Hleft Hp). lia. }
  destruct (more_rows ac b r Hp Hm Hleft Hfit) as [Hr Hmore].
  rewrite (row_fits_spec ac b r) in Hfit by done. zify_tests.
  destruct (Hleft Hp) as [_ Hleft']. clear Hleft. rename Hleft' into Hleft.
  pose proof Hp as [Hrun Hok Eb Ebn Er Es2 Hbc [Rc Rb _ Rs] Ec En].
  pose proof Hm as [Ht Hf Hl].
  destruct (taken_ranges ac b0 r0 b r Hb0 Hr0 Hok Ht) as (R1 & R2 & R3 & R4 & R5 & R6).
  pose proof Ht as [Tc Tn Tp Tle Tb]. pose proof Hok as [Hb Hr'].
  pose proof (wl_last_range _ OK b r Hb) as Hlr.
  pose proof (co_max _ _ CO b r Hb ltac:(lia)) as Hcm.
  pose proof (quot2_mono (wl_last wl b r) maxRow ltac:(lia)) as Hqm.
  returns_step. rewrite Rc, Rb, Ec, En.
  eapply returns_mono.
  { apply (next_row_returns _ b r Hb ltac:(lia)). split; cbn; try done; try lia. }
  intros ac' (r' & Hr1 & Hpos & Hskip & Eb' & Er' & Hrow' & Hbc' & [Hfr Ecore Ebn' Erun' Ec' En']).
  apply returns_ok. cbn in Ebn', Erun', Ec', En'.
  destruct (row_advance b r r' Hb ltac:(lia) Hskip) as (Hs1 & Hs2 & Hrt1 & Hrt2).
  pose proof (cost_rest_bound wl OK b r' ltac:(lia) ltac:(lia)).
  pose proof (blk_rest_bound wl OK b r' ltac:(lia) ltac:(lia)).
  pose proof (row_sum_cost_range wl OK b r' Hb ltac:(lia)).
  pose proof (row_sum_blk_range wl OK b r' Hb ltac:(lia)).
  unfold limit_ok in Hl.
  exists r'. split; [lia|]. split; [|split].
  - split; cbn; try done; try (split; lia).
    + congruence.
    + congruence.
    + apply Hrow'.
    + rewrite Ec'. destruct (Z.gtb_spec (row_sum wl cst b r) (cst b r)); [|lia].
      rewrite i64_id by lia. lia.
    + rewrite En'. destruct (Z.gtb_spec (row_sum wl (wl_blk wl) b r) (wl_blk wl b r)); [|lia].
      rewrite u32_id by lia. lia.
  - split.
    + split; cbn; rewrite ?Ecore; cbn; rewrite ?i64_id, ?u32_id by lia; try lia.
      eapply lexle_trans; [exact Tle|]. right. right. simpl. lia.
    + eapply frame_trans; [exact Hf|]. destruct Hfr as [F1 F2 F3 F4 F5 F6].
      by split; cbn.
    + unfold limit_ok. cbn. by rewrite Ecore.
  - intros _. cbn. rewrite Ecore. cbn. rewrite i64_id by lia.
    pose proof (wl_blk_pos _ OK b r' Hb Hpos). pose proof (row_cost_le wl OK b r' Hb ltac:(lia)).
    lia.
Qed.

Lemma AssignByRow_returns ac b r :
  at_pos ac b r -> mid ac b r -> batch_left ac b r ->
  returns (AssignByRow k ctx ac) (fun ac' =>
    exists r', at_pos ac' b r' /\ mid ac' b r' /\ row_left ac' b r').
Proof.
  intros Hp Hm Hleft. unfold AssignByRow. rewrite (ap_running _ _ _ Hp).
  pose proof (ap_ok _ _ _ Hp) as [Hb Hr]. pose proof (wl_rows_range _ OK b Hb).
  apply (while_loop_returns
           (fun ac => exists r, at_pos ac b r /\ mid ac b r /\ batch_left ac b r) _
           (fun ac => Z.to_nat (wl_rows wl b - curS1GIdx ac))).
  - clear ac r Hp Hm Hleft Hr. intros ac (r & Hp & Hm & Hleft).
    eapply returns_mono; [by eapply AssignByRow_step_returns|].
    intros [[] ac']; [|done]. intros (r' & Hr' & Hp' & Hm' & Hleft'). split; [eauto|].
    destruct Hp as [_ [_ Hr] _ _ -> _ _ _ _ _].
    destruct Hp' as [_ [_ Hr2] _ _ -> _ _ _ _ _]. lia.
  - eauto.
  - unfold row_fuel. destruct Hp as [_ _ -> _ -> _ _ _ _ _]. rewrite rm_rows by done. lia.
Qed.

(** The assignment of one core, by batch and then by row: it stops at a
    position from which it has no room to go on, or at the end. *)
Lemma assign_core_returns ac :
  at_pos ac b0 r0 -> mid ac b0 r0 ->
  returns (ac ← AssignByBatch k ctx ac; AssignByRow k ctx ac) (fun ac' =>
    exists b r, cursor_at ac' b r /\ mid ac' b r /\ row_left ac' b r /\
      (rest wl cst b0 r0 <= costLimit (coreCache ac) -> b = nb)).
Proof.
  intros Hp Hm. returns_step.
  eapply returns_mono; [by eapply AssignByBatch_returns|].
  intros ac1 (b & r & Hc & Hm1 & Hl1).
  assert (El : costLimit (coreCache ac1) = costLimit (coreCache ac)).
  { by rewrite (fr_limit _ _ (mid_frame _ _ _ Hm1)), (fr_limit _ _ (mid_frame _ _ _ Hm)). }
  destruct Hc as [Hp1|(He & -> & ->)].
  - eapply returns_mono; [by eapply AssignByRow_returns|].
    intros ac2 (r' & Hp2 & Hm2 & Hl2). exists b, r'. split; [by left|].
    split; [done|]. split; [done|]. intros Hlim. exfalso.
    destruct (Hl1 Hp1) as [_ Hl1']. destruct (mid_taken _ _ _ Hm1) as [Tc _ _ _ _].
    destruct (ap_ok _ _ _ Hp1) as [Hb Hr].
    pose proof (row_sum_cost_range wl OK b r Hb ltac:(lia)).
    pose proof (co_last_range _ _ CO b Hb) as Hlr.
    pose proof (quot2_range _ (proj1 Hlr)). lia.
  - unfold AssignByRow. rewrite (ae_finished _ He). apply returns_ok.
    exists nb, 0. split; [by right|]. split; [done|]. split; [|done].
    intros [Hx _ _ _ _ _ _ _ _ _]. by rewrite (ae_finished _ He) in Hx.
Qed.
End Core.

(** ** One core *)

(** What the share [(b0, r0) .. (b, r)] of a core satisfies. *)
Record core_ok (limit : Z) (is_last : bool) (b0 r0 b r : Z) : Prop := {
  ck_lt : lexlt (b0, r0) (b, r);
  ck_busy : 0 < rest wl cst b0 r0 - rest wl cst b r;
  ck_bound : rest wl cst b0 r0 - rest wl cst b r <= limit + Z.quot maxRow 2;
  ck_end : (b = nb /\ r = 0) \/
    (is_last = false /\ pos_ok wl b r /\ limit < rest wl cst b0 r0 - rest wl cst b r + cst b r)
}.

Lemma core_ok_range limit is_last b0 r0 b r :
  core_ok limit is_last b0 r0 b r -> 0 <= b <= nb /\ 0 <= r.
Proof.
  pose proof (wl_nb_range _ OK). intros [_ _ _ [[-> ->]|(_ & [Hb Hr] & _)]]; lia.
Qed.

(** The cursor after a core, with the work that is still to be assigned. *)
Record left_at ac (b r : Z) : Prop := {
  la_cursor : cursor_at ac b r;
  la_unassigned : unassignedCost ac = rest wl cst b r;
  la_more : at_pos ac b r -> 0 < rest wl cst b r
}.

(** The cursor fields that a core records. *)
Lemma left_cursor ac b r :
  left_at ac b r ->
  curBN2Idx ac = b /\ curS1GIdx ac = r /\ curS2Idx ac = 0 /\ sk_s2Start (s1GCache ac) = 0.
Proof.
  intros [[Hp|(He & -> & ->)] _ _].
  - destruct Hp as [_ _ _ E1 E2 E3 _ [_ _ _ E4] _ _]. done.
  - by destruct He as [_ E1 E2 E3 E4].
Qed.

(** The assignment of one core by batch and by row, from a fresh core cache
    with the limit of the code. *)
Lemma assign_share_returns ac b0 r0 n :
  0 < n -> left_at ac b0 r0 -> at_pos ac b0 r0 ->
  let limit := Z.max (Z.quot (unassignedCost ac) n) maxRow in
  returns
    (ac ← AssignByBatch k ctx (ac <| coreCache := new_CoreCache <| costLimit := limit |> |>);
     AssignByRow k ctx ac)
    (fun ac' => exists b r,
      core_ok limit (n =? 1) b0 r0 b r /\ frame (ac <| coreCache := new_CoreCache <| costLimit := limit |> |>) ac' /\
      cost (coreCache ac') = rest wl cst b0 r0 - rest wl cst b r /\
      block (coreCache ac') = rest wl (wl_blk wl) b0 r0 - rest wl (wl_blk wl) b r /\
      left_at (ac' <| unassignedCost := i64 (unassignedCost ac' - cost (coreCache ac')) |>) b r).
Proof.
  intros Hn [_ Hun Hmore] Hp limit. specialize (Hmore Hp).
  pose proof (ap_ok _ _ _ Hp) as [Hb0 Hr0]. pose proof max_range as Hmx.
  pose proof (quot2_range _ (proj1 Hmx)) as Hq.
  pose proof (cost_rest_bound wl OK b0 r0 ltac:(lia) ltac:(lia)) as Hrb.
  assert (Hlim : 0 <= limit < 2 ^ 62).
  { unfold limit. rewrite Hun.
    pose proof (quot_range (rest wl cst b0 r0) n). lia. }
  set (ac1 := ac <| coreCache := new_CoreCache <| costLimit := limit |> |>).
  eapply returns_mono.
  { apply (assign_core_returns ac1 b0 r0 ltac:(lia) ltac:(lia)).
    - destruct Hp. by split.
    - split; [|apply frame_refl|done]. split; cbn; try lia. apply lexle_refl. }
  intros ac' (b & r & Hc & [[Tc Tn Tp Tle Tb] Hf Hl] & Hleft & Hall).
  pose proof (fr_limit _ _ Hf) as El. change (costLimit (coreCache ac1)) with limit in El, Hall.
  rewrite El in Tb.
  exists b, r. split; [|split; [done|split; [exact Tc|split; [exact Tn|]]]].
  - destruct Hc as [Hp'|(He & -> & ->)].
    + destruct (Hleft Hp') as [Hs Hl']. pose proof (ap_ok _ _ _ Hp') as [Hb Hr].
      pose proof (co_max _ _ CO b r Hb ltac:(lia)) as Hcm.
      pose proof (wl_last_range _ OK b r Hb) as Hlr.
      pose proof (quot2_range _ (proj1 Hlr)) as Hq'.
      assert (maxRow <= limit) by (unfold limit; lia). rewrite El in Hl'.
      split; [| lia | lia |].
      * apply lexle_ne; [done|]. intros [= -> ->]. lia.
      * right. split; [|split; [done|lia]].
        destruct (Z.eqb_spec n 1) as [->|]; [|done]. exfalso.
        rewrite Hall in Hb; [lia|]. unfold limit. rewrite Hun, Z.quot_1_r. lia.
    + pose proof (rest_end wl cst). split; [|lia|lia|by left].
      * apply lexle_ne; [done|]. intros [= -> ->]. lia.
  - assert (Eun : unassignedCost ac' = rest wl cst b0 r0).
    { rewrite (fr_unassigned _ _ Hf). exact Hun. }
    assert (0 <= rest wl cst b r < 2 ^ 62).
    { apply cost_rest_bound; [done|..]; destruct Hc as [Hp'|(_ & -> & ->)];
        [destruct (ap_ok _ _ _ Hp') as [Hb Hr]; lia|pose proof (wl_nb_range _ OK); lia
        |destruct (ap_ok _ _ _ Hp') as [Hb Hr]; lia|lia]. }
    split.
    + destruct Hc as [Hp'|(He & -> & ->)]; [left|right]; [by destruct Hp'; split|].
      split; [|done]. by destruct He; split.
    + cbn. rewrite i64_id; lia.
    + intros Hp'. assert (at_pos ac' b r) as Hp'' by (destruct Hp'; by split).
      destruct (Hleft Hp'') as [Hs _]. destruct (ap_ok _ _ _ Hp'') as [Hb Hr].
      pose proof (row_sum_cost_range wl OK b r Hb ltac:(lia)). lia.
Qed.
End Plan.
