(* ===== verification/PlanLoop.v ===== *)
(** * The loop over the cores

    [step_spec] is what the assignment of one core promises to the loop of
    CalcSplitPlan.  Each metadata kernel proves it for its own
    AssignBlocksToCore; against it the loop is proved to produce a plan that
    meets [PlanOk], without reduction tasks. *)

From S2P Require Import Prelude SplitTypes Assign Workload AssignProofs PlanProofs.

(** The plan that a split result describes. *)
Definition plan_of (res : SplitResult) : Plan :=
  mkPlan (usedCoreNum res) (fun i => (vat (bN2End res) i, vat (gS1End res) i)).

(** The vectors of a result for [n] cores. *)
Record result_len (n : Z) (res : SplitResult) : Prop := {
  rl_b : Z.of_nat (length (bN2End res)) = n;
  rl_g : Z.of_nat (length (gS1End res)) = n;
  rl_s : Z.of_nat (length (sr_s2End res)) = n;
  rl_f : Z.of_nat (length (firstFdDataWorkspaceIdx res)) = n
}.

Section Loop.
Context {K S1G : Type} `{SK : SplitKernel K S1G}.
Context (k : K) (ctx : SplitContext) (wl : Workload).
Context `{RM : !RowModel k (splitInfo ctx) wl} (CO : CostOk wl (costInfo ctx)).
Implicit Types (ac : AssignContext S1G) (res : SplitResult).

Let OK : WorkloadOk wl := rm_wl.
Abbreviation nb := (wl_nb wl).
Abbreviation cst := (wl_cost wl).
Abbreviation maxRow := (maxS1GCost (costInfo ctx)).

Context (coreNum : Z) (HcoreNum : 0 < coreNum < 2 ^ 32).

(** [track] says whether the kernel records the largest number of blocks of
    a core in [maxS2GBaseNum]. *)
Context (track : bool).

(** No row is split between cores. *)
Record no_split ac res : Prop := {
  ns_part : curKvSplitPart ac = 1;
  ns_pre : preFdDataNum ac = 0;
  ns_heads : numOfFdHead res = 0;
  ns_first : forall j, vat (firstFdDataWorkspaceIdx res) j = 0
}.

(** Without a split row there is nothing to record. *)
Lemma no_record ac res : curKvSplitPart ac = 1 -> IsNeedRecordFDInfo ac res = Ok false.
Proof. intros E. unfold IsNeedRecordFDInfo. rewrite E. by destruct (curCoreIdx ac =? 0). Qed.

Definition limit_at (i b r : Z) : Z := Z.max (Z.quot (rest wl cst b r) (coreNum - i)) maxRow.

(** What core [i] leaves: it took the rows from [(b, r)] up to [(b', r')]. *)
Record step_post (i b r : Z) res ac' res' (b' r' : Z) : Prop := {
  sp_share : core_ok ctx wl (limit_at i b r) (i =? coreNum - 1) b r b' r';
  sp_left : left_at k ctx wl ac' b' r';
  sp_core : curCoreIdx ac' = i;
  sp_split : no_split ac' res';
  sp_len : result_len coreNum res';
  sp_b : bN2End res' = <[Z.to_nat i := b']> (bN2End res);
  sp_g : gS1End res' = <[Z.to_nat i := r']> (gS1End res);
  sp_s : sr_s2End res' = <[Z.to_nat i := 0]> (sr_s2End res);
  sp_max : maxCost res' = Z.max (maxCost res) (rest wl cst b r - rest wl cst b' r');
  sp_blocks : maxS2GBaseNum res' =
    if track then Z.max (rest wl (wl_blk wl) b r - rest wl (wl_blk wl) b' r') (maxS2GBaseNum res)
    else maxS2GBaseNum res;
  sp_fd : fdRes res' = fdRes res
}.

(** The share of a core, with the limit the code computes from the
    unassigned cost. *)
Lemma share_at i b r b' r' unassigned :
  unassigned = rest wl cst b r ->
  core_ok ctx wl (Z.max (Z.quot unassigned (coreNum - i)) maxRow) (coreNum - i =? 1) b r b' r' ->
  core_ok ctx wl (limit_at i b r) (i =? coreNum - 1) b r b' r'.
Proof.
  intros ->. unfold limit_at.
  replace (i =? coreNum - 1) with (coreNum - i =? 1); [done|].
  destruct (Z.eqb_spec (coreNum - i) 1), (Z.eqb_spec i (coreNum - 1)); lia || done.
Qed.

Definition step_spec
    (step : AssignContext S1G -> SplitResult -> Prelude.res (AssignContext S1G * SplitResult)) : Prop :=
  forall i ac res b r,
    0 <= i < coreNum -> curCoreIdx ac = i -> left_at k ctx wl ac b r -> at_pos k ctx wl ac b r ->
    no_split ac res -> result_len coreNum res ->
    returns (step ac res) (fun '(ac', res') => exists b' r', step_post i b r res ac' res' b' r').

(** ** The invariant of the loop *)

(** The share of core [j] in the plan of [res]. *)
Definition share_ok res (j : Z) : Prop :=
  let '(b0, r0) := pl_start (plan_of res) j in
  let '(b, r) := pl_end (plan_of res) j in
  core_ok ctx wl (limit_at j b0 r0) (j =? coreNum - 1) b0 r0 b r /\ vat (sr_s2End res) j = 0.

(** [i] cores have been served, starting from the result [res0]. *)
Record served res0 (i : Z) ac res : Prop := {
  sv_left : left_at k ctx wl ac (pl_start (plan_of res) i).1 (pl_start (plan_of res) i).2;
  sv_split : no_split ac res;
  sv_len : result_len coreNum res;
  sv_share : forall j, 0 <= j < i -> share_ok res j;
  sv_stop : forall j, 0 <= j < i - 1 -> (pl_end (plan_of res) j).1 <> nb;
  sv_core : 0 < i -> curCoreIdx ac = i - 1;
  sv_max : 0 <= maxCost res < 2 ^ 62 /\
    forall j, 0 <= j < i -> core_work wl cst (plan_of res) j <= maxCost res;
  sv_max_is : (i = 0 /\ maxCost res = 0) \/ exists j, 0 <= j < i /\ core_work wl cst (plan_of res) j = maxCost res;
  sv_blocks : if track then 0 <= maxS2GBaseNum res /\
      (forall j, 0 <= j < i -> core_work wl (wl_blk wl) (plan_of res) j <= maxS2GBaseNum res) /\
      ((i = 0 /\ maxS2GBaseNum res = 0) \/
       exists j, 0 <= j < i /\ core_work wl (wl_blk wl) (plan_of res) j = maxS2GBaseNum res)
    else maxS2GBaseNum res = 0;
  sv_fd : fdRes res = fdRes res0
}.

(** Results that agree on the first cores have the same plan there. *)
Record same_upto (i : Z) res res' : Prop := {
  su_end : forall j, 0 <= j < i -> pl_end (plan_of res') j = pl_end (plan_of res) j;
  su_s2 : forall j, 0 <= j < i -> vat (sr_s2End res') j = vat (sr_s2End res) j
}.

Lemma same_start i res res' j :
  same_upto i res res' -> 0 <= j <= i -> pl_start (plan_of res') j = pl_start (plan_of res) j.
Proof.
  intros [He _] Hj. unfold pl_start. destruct (Z.eqb_spec j 0); [done|]. apply He. lia.
Qed.

Lemma same_work i res res' w j :
  same_upto i res res' -> 0 <= j < i ->
  core_work wl w (plan_of res') j = core_work wl w (plan_of res) j.
Proof.
  intros Hs Hj. unfold core_work.
  by rewrite (same_start _ _ _ _ Hs), (su_end _ _ _ Hs) by lia.
Qed.

Lemma same_share i res res' j :
  same_upto i res res' -> 0 <= j < i -> share_ok res j -> share_ok res' j.
Proof.
  intros Hs Hj. unfold share_ok.
  by rewrite (same_start _ _ _ _ Hs), (su_end _ _ _ Hs), (su_s2 _ _ _ Hs) by lia.
Qed.

Lemma step_same i b r res ac' res' b' r' :
  0 <= i < coreNum -> result_len coreNum res -> step_post i b r res ac' res' b' r' ->
  same_upto i res res' /\ pl_end (plan_of res') i = (b', r') /\ vat (sr_s2End res') i = 0.
Proof.
  intros Hi [Lb Lg Ls _] Hp. destruct Hp as [_ _ _ _ _ Eb Eg Es _ _ _]. cbn.
  rewrite Eb, Eg, Es. split; [|by rewrite !vat_insert_eq by lia].
  split; intros j Hj; cbn; rewrite ?Eb, ?Eg, ?Es, !vat_insert_ne by lia; done.
Qed.

(** The blocks of a share are not negative. *)
Lemma core_blocks_nonneg limit is_last b r b' r' :
  pos_ok wl b r -> core_ok ctx wl limit is_last b r b' r' ->
  0 <= rest wl (wl_blk wl) b r - rest wl (wl_blk wl) b' r'.
Proof.
  intros [Hb Hr] Hk. pose proof (core_ok_range _ _ _ _ _ _ _ _ _ Hk) as [Hb' Hr'].
  enough (rest wl (wl_blk wl) b' r' <= rest wl (wl_blk wl) b r) by lia.
  apply rest_mono; try lia; [intros; by apply (wl_blk_nonneg _ OK)|].
  right. apply (ck_lt _ _ _ _ _ _ _ _ Hk).
Qed.

(** One more core. *)
Lemma served_step res0 i ac res ac' res' b r b' r' :
  0 <= i < coreNum -> served res0 i ac res -> at_pos k ctx wl ac b r ->
  (b, r) = pl_start (plan_of res) i ->
  step_post i b r res ac' res' b' r' -> served res0 (i + 1) ac' res'.
Proof.
  intros Hi [Vl Vs Vn Vsh Vst Vc [Vm Vmx] Vme Vb Vf] Hp Ebr Hpost.
  destruct (step_same _ _ _ _ _ _ _ _ Hi Vn Hpost) as (Hsame & Eend & Es2).
  destruct Hpost as [Pk Pl Pc Ps Pn _ _ _ Pm Pb Pf].
  pose proof (ap_ok _ _ _ _ _ _ Hp) as [Hb Hr].
  pose proof (cost_rest_bound wl OK b r ltac:(lia) ltac:(lia)) as R1.
  pose proof (core_ok_range _ _ _ _ _ _ _ _ _ Pk) as [Hb' Hr'].
  pose proof (cost_rest_bound wl OK b' r' Hb' Hr') as R2.
  pose proof (ck_busy _ _ _ _ _ _ _ _ Pk) as Hbusy.
  assert (Est : pl_start (plan_of res') i = (b, r)).
  { rewrite (same_start _ _ _ _ Hsame) by lia. done. }
  assert (Ework : forall w, core_work wl w (plan_of res') i = rest wl w b r - rest wl w b' r').
  { intros w. unfold core_work. by rewrite Est, Eend. }
  split.
  - rewrite plan_start_next, Eend by lia. done.
  - done.
  - done.
  - intros j Hj. destruct (decide (j = i)) as [->|].
    + unfold share_ok. by rewrite Est, Eend.
    + apply (same_share i res); [done|lia|]. apply Vsh. lia.
  - intros j Hj. rewrite (su_end _ _ _ Hsame) by lia.
    destruct (decide (j = i - 1)) as [->|]; [|apply Vst; lia].
    intros E. unfold pl_start in Ebr. rewrite (proj2 (Z.eqb_neq i 0)) in Ebr by lia.
    rewrite <- Ebr in E. simpl in E. lia.
  - intros _. rewrite Pc. lia.
  - split; [lia|]. intros j Hj. destruct (decide (j = i)) as [->|].
    + rewrite Ework. lia.
    + rewrite (same_work i res) by (done || lia). specialize (Vmx j ltac:(lia)). lia.
  - right. destruct (decide (maxCost res <= rest wl cst b r - rest wl cst b' r')) as [Hle|Hgt].
    + exists i. split; [lia|]. rewrite Ework. lia.
    + destruct Vme as [[-> E0]|(j & Hj & Ej)]; [lia|]. exists j. split; [lia|].
      rewrite (same_work i res) by (done || lia). lia.
  - rewrite Pb. destruct track; [|done]. destruct Vb as (Vb1 & Vb2 & Vb3). split; [lia|]. split.
    + intros j Hj. destruct (decide (j = i)) as [->|].
      * rewrite Ework. lia.
      * rewrite (same_work i res) by (done || lia). specialize (Vb2 j ltac:(lia)). lia.
    + right. destruct (decide (maxS2GBaseNum res <=
        rest wl (wl_blk wl) b r - rest wl (wl_blk wl) b' r')) as [Hle|Hgt].
      * exists i. split; [lia|]. rewrite Ework. lia.
      * destruct Vb3 as [[-> E0]|(j & Hj & Ej)].
        -- exists 0. split; [lia|]. rewrite Ework. pose proof (core_blocks_nonneg _ _ _ _ _ _ (ap_ok _ _ _ _ _ _ Hp) Pk). lia.
        -- exists j. split; [lia|]. rewrite (same_work i res) by (done || lia). lia.
  - by rewrite Pf.
Qed.

(** After the last core that is served the workload is at its end. *)
Lemma served_PlanOk res0 i ac res :
  0 < i <= coreNum -> served res0 i ac res -> (pl_end (plan_of res) (i - 1)).1 = nb ->
  PlanOk wl maxRow coreNum (plan_of (res <| usedCoreNum := i |>)).
Proof.
  intros Hi HV Hend. destruct HV as [_ _ _ Vsh Vst _ _ _ _ _].
  assert (Hend' : forall j, 0 <= j < i -> share_ok res j) by done.
  set (p := plan_of (res <| usedCoreNum := i |>)).
  assert (E : pl_n p = i) by done.
  assert (Es : forall j, pl_start p j = pl_start (plan_of res) j) by done.
  assert (Ee : forall j, pl_end p j = pl_end (plan_of res) j) by done.
  assert (Hshare : forall j, 0 <= j < i ->
    core_ok ctx wl (limit_at j (pl_start p j).1 (pl_start p j).2) (j =? coreNum - 1)
      (pl_start p j).1 (pl_start p j).2 (pl_end p j).1 (pl_end p j).2).
  { intros j Hj. specialize (Vsh j Hj). unfold share_ok in Vsh. rewrite Es, Ee.
    destruct (pl_start (plan_of res) j), (pl_end (plan_of res) j). apply Vsh. }
  clear Vsh Hend'.
  split; [split; rewrite ?E; [lia|..]|..]; rewrite ?E.
  - intros j Hj. destruct (Hshare j ltac:(lia)) as [_ _ _ [[Hc _]|(_ & Hok & _)]]; [|done].
    exfalso. rewrite Ee in Hc. eapply Vst; [|exact Hc]. lia.
  - destruct (Hshare (i - 1) ltac:(lia)) as [_ _ _ [[Hb Hr]|(_ & [Hb _] & _)]].
    + rewrite (surjective_pairing (pl_end p (i - 1))). by rewrite Hb, Hr.
    + rewrite Ee in Hb. lia.
  - intros j Hj. rewrite (surjective_pairing (pl_start p j)), (surjective_pairing (pl_end p j)).
    apply (Hshare j Hj).
  - intros j Hj. apply (Hshare j Hj).
  - intros j Hj. apply (Hshare j Hj).
  - intros j Hj. destruct (Hshare j ltac:(lia)) as [_ _ _ [[Hc _]|(_ & _ & Hs)]].
    + exfalso. rewrite Ee in Hc. eapply Vst; [|exact Hc]. lia.
    + unfold core_work. destruct (pl_end p j) as [b r]. exact Hs.
Qed.

(** The result of the split: a plan that meets the contract, no reduction
    task, and the cost of the slowest core. *)
Record SplitOk res0 res : Prop := {
  so_plan : PlanOk wl maxRow coreNum (plan_of res);
  so_s2 : forall j, 0 <= j < usedCoreNum res -> vat (sr_s2End res) j = 0;
  so_len : result_len coreNum res;
  so_heads : numOfFdHead res = 0;
  so_first : forall j, vat (firstFdDataWorkspaceIdx res) j = 0;
  so_max : forall j, 0 <= j < usedCoreNum res -> core_work wl cst (plan_of res) j <= maxCost res;
  so_max_is : exists j, 0 <= j < usedCoreNum res /\ core_work wl cst (plan_of res) j = maxCost res;
  so_blocks : if track
    then (forall j, 0 <= j < usedCoreNum res ->
            core_work wl (wl_blk wl) (plan_of res) j <= maxS2GBaseNum res) /\
         exists j, 0 <= j < usedCoreNum res /\
            core_work wl (wl_blk wl) (plan_of res) j = maxS2GBaseNum res
    else maxS2GBaseNum res = 0;
  so_fd : fdRes res = fdRes res0
}.

Lemma served_SplitOk res0 i ac res :
  0 < i <= coreNum -> served res0 i ac res -> (pl_end (plan_of res) (i - 1)).1 = nb ->
  SplitOk res0 (res <| usedCoreNum := i |>).
Proof.
  intros Hi HV Hend. pose proof (served_PlanOk _ _ _ _ Hi HV Hend) as HP.
  destruct HV as [_ [_ _ Vh Vfi] [L1 L2 L3 L4] Vsh _ _ [_ Vmx] Vme Vb Vf]. split; cbn; try done.
  - intros j Hj. specialize (Vsh j Hj). unfold share_ok in Vsh.
    destruct (pl_start _ _), (pl_end _ _). apply Vsh.
  - destruct Vme as [[-> _]|Vme]; [lia|done].
  - destruct track; [|done]. destruct Vb as (_ & Vb2 & [[-> _]|Vb3]); [lia|done].
Qed.

(** The loop, started after [i] cores: it never leaves early, and stops at
    the end of the workload. *)
Lemma plan_loop_returns step limit res0 n i ac res :
  step_spec step -> 2 ^ 62 <= limit -> 0 <= i -> i + Z.of_nat n = coreNum ->
  served res0 i ac res ->
  returns (plan_loop n i limit step ac res) (fun '(early, ac', res') =>
    early = false /\ SplitOk res0 (res' <| usedCoreNum := u32 (curCoreIdx ac' + 1) |>)).
Proof.
  intros Hstep Hlim Hi Hn. revert i ac res Hi Hn.
  assert (Hdone : forall i ac res, 0 <= i <= coreNum -> served res0 i ac res ->
    (pl_start (plan_of res) i).1 = nb ->
    SplitOk res0 (res <| usedCoreNum := u32 (curCoreIdx ac + 1) |>)).
  { intros i ac res Hi HV Hend.
    assert (Hpos : 0 < i).
    { destruct (decide (i = 0)) as [->|]; [|lia]. unfold pl_start in Hend. simpl in Hend.
      pose proof (wl_nb_range _ OK). lia. }
    rewrite (sv_core _ _ _ _ HV) by lia. rewrite u32_id by lia.
    replace (i - 1 + 1) with i by lia. eapply served_SplitOk; [lia|done|].
    replace i with (i - 1 + 1) in Hend by lia. by rewrite plan_start_next in Hend by lia. }
  induction n as [|n IH]; intros i ac res Hi Hn HV; simpl plan_loop.
  - apply returns_ok. split; [done|]. eapply Hdone; [|exact HV|]; [lia|].
    pose proof (sv_share _ _ _ _ HV (i - 1) ltac:(lia)) as H.
    unfold share_ok in H.
    replace (pl_start (plan_of res) i) with (pl_end (plan_of res) (i - 1)).
    2: { symmetry. replace i with (i - 1 + 1) at 1 by lia. apply plan_start_next. lia. }
    destruct (pl_start _ _), (pl_end _ _).
    destruct H as [[_ _ _ [[-> _]|(Hc & _)]] _]; [done|]. zify_tests. lia.
  - destruct (sv_max _ _ _ _ HV) as [Hm _].
    rewrite Z.gtb_ltb, (proj2 (Z.ltb_ge _ _)) by lia.
    pose proof (sv_left _ _ _ _ HV) as [Hc Hun Hmore].
    destruct Hc as [Hp|(He & Hend & _)].
    2: { rewrite (ae_finished _ _ He). apply returns_ok. split; [done|].
         eapply Hdone; [|exact HV|done]. lia. }
    rewrite (ap_running _ _ _ _ _ _ Hp), Hun, (proj2 (Z.leb_gt _ _)) by auto. cbn [orb].
    set (b := (pl_start (plan_of res) i).1) in *. set (r := (pl_start (plan_of res) i).2) in *.
    eapply returns_bind_mono.
    { apply (Hstep i _ res b r); [lia|done| | | |apply (sv_len _ _ _ _ HV)].
      - split; [left; by destruct Hp; split|done|]. intros _. auto.
      - by destruct Hp; split.
      - by destruct (sv_split _ _ _ _ HV); split. }
    intros [ac' res'] (b' & r' & Hpost). apply (IH (i + 1)); [lia|lia|].
    eapply (served_step _ _ ac res _ _ b r); [lia|done|done|symmetry; apply surjective_pairing|exact Hpost].
Qed.

(** The initial result of [CalcSplitPlan]. *)
Record initial_ok res : Prop := {
  in_len : result_len coreNum res;
  in_heads : numOfFdHead res = 0;
  in_first : forall j, vat (firstFdDataWorkspaceIdx res) j = 0;
  in_blocks : maxS2GBaseNum res = 0
}.

Lemma CalcSplitPlan_returns step limit sg res :
  step_spec step -> 2 ^ 62 <= limit -> 0 < total wl cst -> initial_ok res ->
  returns (CalcSplitPlan k coreNum limit ctx step sg res) (SplitOk res).
Proof.
  intros Hstep Hlim Htot [Il Ih If Ib]. unfold CalcSplitPlan.
  pose proof (wl_nb_range _ OK). pose proof (wl_rows_range _ OK 0 ltac:(lia)).
  destruct (co_len _ _ CO) as [L1 L2 _].
  rewrite (proj2 (Z.eqb_neq _ _)) by lia. cbn [curBIdx].
  do 4 (returns_step; cbn -[vget vat]). returns_step.
  eapply returns_mono; [apply rm_CalcBatchCache; lia|]. intros bc Hbc. returns_step.
  eapply returns_mono; [apply (rm_CalcS1GCache 0 0); [split; lia|done|apply rm_fresh]|]. intros sg' Hsg.
  returns_step. eapply returns_mono.
  { apply (plan_loop_returns step limit res); [done|done|lia|lia|]. split; cbn -[vat].
    - change (pl_start _ 0) with (0, 0). cbn [fst snd]. split; cbn -[vat rest].
      + left. split; cbn -[vat]; try done; try lia; try (split; lia).
        * apply Hsg.
        * by rewrite (co_cost _ _ CO) by lia.
        * by rewrite (co_blk _ _ CO) by lia.
      + rewrite (co_total _ _ CO). by rewrite rest_start by lia.
      + intros _. by rewrite rest_start by lia.
    - by split.
    - by destruct Il; split.
    - intros j Hj. lia.
    - intros j Hj. lia.
    - lia.
    - split; [lia|]. intros j Hj. lia.
    - by left.
    - destruct track; [|done]. split; [lia|]. split; [intros j Hj; lia|by left].
    - done. }
  intros [[early ac] res'] [-> HS]. by apply returns_ok.
Qed.

(** With work to do, the recorded maximum is the cost of a row. *)
Lemma max_row_is : 0 < total wl cst -> is_max_row wl maxRow.
Proof.
  intros Htot. split; [intros b r Hb Hr; by apply (co_max _ _ CO)|].
  destruct (co_max_is _ _ CO) as [Hz|H]; [exfalso|exact H].
  enough (total wl cst = 0) by lia. apply sumZ_zero. intros b Hb. apply sumZ_zero.
  intros r Hr. pose proof (co_max _ _ CO b r Hb ltac:(lia)).
  pose proof (wl_cost_nonneg wl OK b r Hb). lia.
Qed.
End Loop.

(** ** The schedule of a kernel *)

(** A result for a workload without work: the first core gets everything. *)
Record IdleOk (wl : Workload) (res : SplitResult) : Prop := {
  id_total : total wl (wl_cost wl) = 0;
  id_used : usedCoreNum res = 1;
  id_end : (vat (bN2End res) 0, vat (gS1End res) 0) = (wl_nb wl, 0);
  id_s2 : vat (sr_s2End res) 0 = 0;
  id_blocks : maxS2GBaseNum res = 0
}.

(** What BalanceSchedule delivers for [coreNum] cores. *)
Record ScheduleOk (wl : Workload) (coreNum : Z) (track : bool) (fd : FlashDecodeResult)
    (res : SplitResult) : Prop := {
  sch_case : IdleOk wl res \/
    (0 < total wl (wl_cost wl) /\ exists maxRow, is_max_row wl maxRow /\
      PlanOk wl maxRow coreNum (plan_of res) /\
      (forall j, 0 <= j < usedCoreNum res -> core_work wl (wl_cost wl) (plan_of res) j <= maxCost res) /\
      (exists j, 0 <= j < usedCoreNum res /\ core_work wl (wl_cost wl) (plan_of res) j = maxCost res) /\
      (if track then
         (forall j, 0 <= j < usedCoreNum res ->
            core_work wl (wl_blk wl) (plan_of res) j <= maxS2GBaseNum res) /\
         exists j, 0 <= j < usedCoreNum res /\
            core_work wl (wl_blk wl) (plan_of res) j = maxS2GBaseNum res
       else maxS2GBaseNum res = 0));
  sch_shape : PlanShape wl coreNum (plan_of res);
  sch_s2 : forall j, 0 <= j < usedCoreNum res -> vat (sr_s2End res) j = 0;
  sch_len : result_len coreNum res;
  sch_heads : numOfFdHead res = 0;
  sch_first : forall j, vat (firstFdDataWorkspaceIdx res) j = 0;
  sch_fd : fdRes res = fd
}.

(** Every batch entry and row index that a schedule names is a [uint32_t]. *)
Lemma schedule_ends wl coreNum track fd res j :
  0 < wl_nb wl < 2 ^ 31 -> (forall b, 0 <= b < wl_nb wl -> 0 <= wl_rows wl b < 2 ^ 31) ->
  ScheduleOk wl coreNum track fd res -> 0 <= j < usedCoreNum res ->
  0 <= vat (bN2End res) j < 2 ^ 32 /\ 0 <= vat (gS1End res) j < 2 ^ 32.
Proof.
  intros Hnb Hrows HS Hj. pose proof (sch_shape _ _ _ _ _ HS) as Hsh.
  destruct (decide (j = usedCoreNum res - 1)) as [->|Hne].
  - pose proof (plan_last _ _ _ Hsh) as E. cbn in E. injection E as -> ->. lia.
  - pose proof (plan_end_ok _ _ _ Hsh j ltac:(cbn; lia)) as [Hb Hr]. cbn in Hb, Hr.
    specialize (Hrows _ Hb). lia.
Qed.

Lemma SplitOk_schedule {K S1G} `{SK : SplitKernel K S1G} (k : K) ctx wl
    `{RM : !RowModel k (splitInfo ctx) wl} coreNum track res0 res :
  CostOk wl (costInfo ctx) -> 0 < total wl (wl_cost wl) ->
  SplitOk ctx wl coreNum track res0 res -> ScheduleOk wl coreNum track (fdRes res0) res.
Proof.
  intros CO Htot [P1 P2 P3 P4 P5 P6 P7 P8 P9]. split; try done.
  - right. split; [done|]. exists (maxS1GCost (costInfo ctx)).
    split; [by eapply max_row_is|]. done.
  - apply P1.
Qed.

(** ** The fresh result *)

Lemma new_result_len aic aiv : 0 <= aic -> result_len aic (new_SplitResult aic aiv).
Proof. intros H. split; cbn; unfold zeros; rewrite length_replicate; lia. Qed.

Lemma vat_zeros n j : vat (zeros n) j = 0.
Proof.
  unfold vat, zeros. destruct (decide (Z.to_nat j < Z.to_nat n)%nat).
  - by rewrite lookup_replicate_2.
  - rewrite lookup_ge_None_2; [done|]. rewrite length_replicate. lia.
Qed.

Lemma new_result_initial aic aiv : 0 <= aic -> initial_ok aic (new_SplitResult aic aiv).
Proof.
  intros H. split; [by apply new_result_len|done| |done]. intros j. apply vat_zeros.
Qed.

(** The all-empty case of BalanceSchedule. *)
Lemma idle_schedule wl coreNum aiv track res' :
  0 < coreNum -> 0 < wl_nb wl -> total wl (wl_cost wl) = 0 ->
  let res := new_SplitResult coreNum aiv in
  res' = res <| usedCoreNum := 1 |> <| bN2End := <[0%nat := wl_nb wl]> (bN2End res) |>
             <| gS1End := <[0%nat := 0]> (gS1End res) |>
             <| sr_s2End := <[0%nat := 0]> (sr_s2End res) |> ->
  ScheduleOk wl coreNum track (fdRes res) res'.
Proof.
  intros Hc Hnb Htot res ->. destruct (new_result_len coreNum aiv ltac:(lia)) as [L1 L2 L3 L4].
  assert (Hz : vat (<[0%nat := 0]> (zeros coreNum)) 0 = 0)
    by (apply (vat_insert_eq (zeros coreNum) 0); cbn in L2; lia).
  assert (Eb : vat (<[0%nat := wl_nb wl]> (zeros coreNum)) 0 = wl_nb wl)
    by (apply (vat_insert_eq (zeros coreNum) 0); cbn in L1; lia).
  split.
  - left. split; cbn -[vat]; [done|done| |done|done]. by rewrite Eb, Hz.
  - split; cbn -[vat]; [lia|lia|change (1 - 1) with 0; by rewrite Eb, Hz|].
    intros i Hi. replace i with 0 by lia. unfold pl_start. cbn -[vat]. rewrite Eb, Hz.
    left. simpl. lia.
  - cbn -[vat]. intros j Hj. by replace j with 0 by lia.
  - split; cbn; rewrite ?length_insert; done.
  - done.
  - intros j. apply vat_zeros.
  - done.
Qed.

(** ** BalanceSchedule for any kernel

    The assignment of one core has to meet [step_spec] for every row model of
    the workload. *)
Section Balance.
Context {K S1G : Type} `{SK : SplitKernel K S1G} (k : K) (wl : Workload).
Context `{KM : !KernelModel k wl} (coreNum aivNum : Z) (track : bool).
Context (step : SplitContext -> AssignContext S1G -> SplitResult ->
                res (AssignContext S1G * SplitResult)).
Context (splitFD : SplitResult -> res SplitResult).
Context (Hcores : 0 < coreNum < 2 ^ 32).
Context (Hstep : forall ctx (RM : RowModel k (splitInfo ctx) wl),
  CostOk wl (costInfo ctx) -> step_spec k ctx wl coreNum track (step ctx)).
Context (HsplitFD : forall r, numOfFdHead r = 0 -> splitFD r = Ok r).

Lemma schedule_returns sg :
  let res0 := new_SplitResult coreNum aivNum in
  returns (BalanceSchedule k coreNum step splitFD sg res0)
    (ScheduleOk wl coreNum track (fdRes res0)).
Proof.
  intros res0. pose proof km_range as Hnb.
  assert (Hlen := new_result_len coreNum aivNum ltac:(lia)).
  fold res0 in Hlen. destruct Hlen as [L1 L2 L3 _].
  unfold BalanceSchedule, bn2_total. rewrite km_batch, km_heads, Z.mul_1_r, i32_id, u32_id by lia.
  eapply returns_bind_mono; [apply km_split|]. intros si [[RM _] Hz]. cbn zeta.
  destruct (isKvSeqAllZero si) eqn:Ez.
  - do 6 (returns_step; cbn beta).
    apply returns_ok. apply idle_schedule; [lia|lia|done|done].
  - eapply returns_bind_mono; [by apply (CalcCostInfo_returns k si wl)|].
    intros [s' ctx'] [Esi CO]. subst si.
    eapply returns_bind_mono.
    { apply (CalcSplitPlan_returns k ctx' wl CO coreNum Hcores track);
        [by apply Hstep|cbn; unfold INT64_MAX; lia|done|].
      destruct (new_result_initial coreNum aivNum ltac:(lia)) as [[] ? ? ?].
      by split; [split|..]. }
    intros res HS. rewrite HsplitFD by apply (so_heads _ _ _ _ _ _ HS). apply returns_ok.
    pose proof (SplitOk_schedule k ctx' wl _ _ _ _ CO Hz HS) as HC.
    pose proof (plan_n _ _ _ (sch_shape _ _ _ _ _ HC)) as Hn. cbn in Hn.
    replace (Z.max (usedCoreNum res) 1) with (usedCoreNum res) by lia.
    destruct res. exact HC.
Qed.
End Balance.
