(* ===== verification/RowSpec.v ===== *)
(** * What a row of work is

    Machine-independent description of a row of the split: the S2 tokens it
    attends to, cut into basic blocks, and the cost of the blocks.  The row
    caches of the kernels are proved to hold exactly these numbers. *)

From S2P Require Import Prelude Workload.

(** ** Segments of tokens *)

Definition ceil_div (a b : Z) : Z := (a + b - 1) / b.

Lemma ceil_div_pos a b : 0 < b -> 0 < a -> 0 < ceil_div a b.
Proof. intros Hb Ha. unfold ceil_div. apply Z.div_str_pos. lia. Qed.

Lemma ceil_div_nonneg a b : 0 < b -> 0 <= a -> 0 <= ceil_div a b.
Proof. intros Hb Ha. unfold ceil_div. apply Z.div_pos; lia. Qed.

Lemma ceil_div_le a b c : 0 < b -> 0 <= a -> a <= b * c -> ceil_div a b <= c.
Proof.
  intros Hb Ha H. unfold ceil_div.
  enough ((a + b - 1) / b < c + 1) by lia. apply Z.div_lt_upper_bound; lia.
Qed.

(** [r] is a row of the first [a] items in rows of [b] exactly when it starts
    before the end. *)
Lemma ceil_div_lt a b r : 0 < b -> 0 <= a -> (r < ceil_div a b <-> r * b < a).
Proof. intros Hb Ha. unfold ceil_div. split; intros H; nia || (Z.div_mod_to_equations; nia). Qed.

Section Segment.
(** [unit M s] is the cost of a block of [M] rows and [s] tokens; [sb] is the
    size of a full block. *)
Context (unit : Z -> Z -> Z) (sb : Z).

(** Blocks, cost and cost of the last block of a segment of [len] tokens. *)
Definition seg_blk (len : Z) : Z := ceil_div len sb.
Definition seg_cost (M len : Z) : Z :=
  unit M sb * (len / sb) + (if len mod sb =? 0 then 0 else unit M (len mod sb)).
Definition seg_last (M len : Z) : Z :=
  if len =? 0 then 0 else if len mod sb =? 0 then unit M sb else unit M (len mod sb).

Context (Hsb : 0 < sb).

Lemma seg_blk_zero : seg_blk 0 = 0.
Proof. unfold seg_blk, ceil_div. apply Z.div_small. lia. Qed.

(** Full blocks plus the tail block. *)
Lemma seg_blk_full len :
  0 < len -> seg_blk len = len / sb + (if len mod sb =? 0 then 0 else 1).
Proof.
  intros Hl. unfold seg_blk, ceil_div. destruct (Z.eqb_spec (len mod sb) 0) as [E|E].
  - rewrite (Z.div_mod len sb) at 1 by lia. rewrite E.
    replace (sb * (len / sb) + 0 + sb - 1) with (sb - 1 + len / sb * sb) by lia.
    rewrite Z.div_add, Z.div_small by lia. lia.
  - pose proof (Z.mod_pos_bound len sb Hsb).
    rewrite (Z.div_mod len sb) at 1 by lia.
    replace (sb * (len / sb) + len mod sb + sb - 1)
      with (len mod sb - 1 + (len / sb + 1) * sb) by lia.
    rewrite Z.div_add, Z.div_small by lia. lia.
Qed.

Lemma seg_blk_last len : 0 < len -> seg_blk len = (len - 1) / sb + 1.
Proof.
  intros Hl. unfold seg_blk, ceil_div.
  replace (len + sb - 1) with (len - 1 + 1 * sb) by lia. by rewrite Z.div_add by lia.
Qed.

Lemma seg_cost_zero M : seg_cost M 0 = 0.
Proof. unfold seg_cost. rewrite Z.div_small, Z.mod_small by lia. simpl. lia. Qed.

Context (M U : Z) (Hunit : forall s, 0 < s <= sb -> 0 < unit M s <= U).

Lemma seg_last_range len : 0 <= len -> 0 <= seg_last M len <= seg_cost M len.
Proof.
  intros Hl. unfold seg_last, seg_cost.
  pose proof (Hunit sb ltac:(lia)). pose proof (Z.div_pos len sb Hl Hsb).
  pose proof (Z.mod_pos_bound len sb Hsb).
  destruct (Z.eqb_spec len 0) as [->|Hne].
  - rewrite Z.div_small, Z.mod_small by lia. simpl. lia.
  - destruct (Z.eqb_spec (len mod sb) 0) as [E|E].
    + pose proof (Z.div_mod len sb ltac:(lia)).
      assert (len / sb <> 0) by (intros E0; rewrite E0 in *; lia). nia.
    + pose proof (Hunit (len mod sb) ltac:(lia)). nia.
Qed.

Lemma seg_last_pos len : 0 < len -> 0 < seg_last M len.
Proof.
  intros Hl. unfold seg_last. pose proof (Z.mod_pos_bound len sb Hsb).
  rewrite (proj2 (Z.eqb_neq len 0)) by lia.
  destruct (Z.eqb_spec (len mod sb) 0); apply Hunit; lia.
Qed.

Lemma seg_cost_le len : 0 <= len -> seg_cost M len <= U * seg_blk len.
Proof.
  intros Hl. destruct (decide (len = 0)) as [->|].
  { rewrite seg_cost_zero, seg_blk_zero. lia. }
  rewrite seg_blk_full by lia. unfold seg_cost.
  pose proof (Hunit sb ltac:(lia)). pose proof (Z.div_pos len sb Hl Hsb).
  pose proof (Z.mod_pos_bound len sb Hsb).
  destruct (Z.eqb_spec (len mod sb) 0); [nia|].
  pose proof (Hunit (len mod sb) ltac:(lia)). nia.
Qed.

Lemma seg_blk_range len : 0 <= len -> 0 <= seg_blk len <= len.
Proof.
  intros Hl. unfold seg_blk. split; [apply ceil_div_nonneg; lia|apply ceil_div_le; nia].
Qed.

Lemma seg_blk_pos len : 0 <= len -> (0 < seg_blk len <-> 0 < len).
Proof.
  intros Hl. split; intros H; [|by apply ceil_div_pos].
  destruct (decide (len = 0)) as [->|]; [rewrite seg_blk_zero in H; lia|lia].
Qed.

(** Full blocks and tail block make up the cost of a segment, at the widths
    of the counters. *)
Lemma seg_parts len :
  U <= 2 ^ 16 -> 0 < len < 2 ^ 31 ->
  let tailNum := if negb (len mod sb =? 0) then 1 else 0 in
  let tailCost := if len mod sb =? 0 then 0 else unit M (len mod sb) in
  i64 (unit M sb * u32 (seg_blk len - tailNum) + tailCost * tailNum) = seg_cost M len /\
  (if tailNum >? 0 then tailCost else unit M sb) = seg_last M len.
Proof.
  intros HU Hl. pose proof (seg_blk_full len ltac:(lia)) as Hf.
  pose proof (seg_blk_range len ltac:(lia)). pose proof (Hunit sb ltac:(lia)).
  pose proof (Z.mod_pos_bound len sb Hsb). pose proof (Z.div_pos len sb ltac:(lia) Hsb).
  pose proof (seg_last_range len ltac:(lia)) as A. pose proof (seg_cost_le len ltac:(lia)) as B.
  unfold seg_cost, seg_last in *. rewrite (proj2 (Z.eqb_neq len 0)) in * by lia.
  assert (U * seg_blk len <= 2 ^ 16 * 2 ^ 31) by nia.
  destruct (Z.eqb_spec (len mod sb) 0) as [E|E]; simpl; (split; [|done]).
  - replace (seg_blk len - 0) with (len / sb) by lia. rewrite u32_id, i64_id by lia. lia.
  - replace (seg_blk len - 1) with (len / sb) by lia. rewrite u32_id, i64_id by lia. lia.
Qed.
End Segment.

(** ** Tokens a row attends to *)

Inductive MaskKind :=
  | NoMask                     (** every token *)
  | Causal                     (** up to the token aligned with the row, at the end of S2 *)
  | Band (left : Z).           (** the last [left] tokens before it, and itself *)

(** First and last query token of row [r], for rows of [m] (token, group)
    pairs over [s1] tokens of [g] group members. *)
Definition row_first (m g r : Z) : Z := r * m / g.
Definition row_last (m g s1 r : Z) : Z := (Z.min ((r + 1) * m) (s1 * g) - 1) / g.

(** The interval of S2 tokens, empty when its upper end is below the lower. *)
Definition row_tokens (mask : MaskKind) (m g s1 s2 r : Z) : Z * Z :=
  match mask with
  | NoMask => (0, s2 - 1)
  | Causal => (0, row_last m g s1 r + s2 - s1)
  | Band w => (Z.max 0 (row_first m g r + s2 - s1 - w), row_last m g s1 r + s2 - s1)
  end.

Section Tokens.
Context (m g s1 s2 r : Z).
Context (Hm : 0 < m) (Hg : 0 < g) (Hr : 0 <= r) (Hs1 : r * m < s1 * g).

Lemma row_tokens_order : 0 <= row_first m g r <= row_last m g s1 r /\ row_last m g s1 r < s1.
Proof.
  unfold row_first, row_last. repeat split.
  - apply Z.div_pos; nia.
  - apply Z.div_le_mono; [lia|]. nia.
  - apply Z.div_lt_upper_bound; [lia|]. nia.
Qed.

(** The last row reaches the last token. *)
Lemma row_last_end : s1 * g <= (r + 1) * m -> row_last m g s1 r = s1 - 1.
Proof.
  intros H. unfold row_last. rewrite Z.min_r by done.
  symmetry. apply Z.div_unique with (g - 1); nia.
Qed.
End Tokens.
