(* ===== verification/SharedKv.v ===== *)
(** * Row model of the shared-KV attention kernels

    The kernel object of the sparse_attn_sharedkv and
    kv_quant_sparse_attn_sharedkv metadata kernels, and the routines that
    describe a row of work: sequence sizes, basic-block split, masks, block
    costs and the row cache with its window part and its compressed part.  The
    two kernels have these routines in common; line numbers in the manifest
    refer to sparse_attn_sharedkv_metadata_aicpu.cpp. *)

From S2P Require Import Prelude SplitTypes Assign.

(** ** Block types *)

Definition WIN_NORMAL_BLOCK : Z := 0.
Definition WIN_TAIL_BLOCK : Z := 1.
Definition CMP_NORMAL_BLOCK : Z := 2.
Definition CMP_TAIL_BLOCK : Z := 3.

(** ** The kernel object

    [isN128] is a member of the kv_quant kernel only.  [typeCost_] is kept in
    [RowState], with the row cache it is used for. *)
Record Kernel := mkKernel {
  actSeqLenQ_ : option Tensor;
  actSeqLenOriKv_ : option Tensor;
  actSeqLenCmpKv_ : option Tensor;
  seqUsedQ_ : option Tensor;
  seqUsedKv_ : option Tensor;
  metaData_ : option Tensor;
  batchSize_ : Z;
  querySeqSize_ : Z;
  queryHeadNum_ : Z;
  kvSeqSize_ : Z;
  kvHeadNum_ : Z;
  headDim_ : Z;
  oriTopK_ : Z;
  cmpTopK_ : Z;
  cmpRatio_ : Z;
  oriMaskMode_ : Z;
  cmpMaskMode_ : Z;
  winLeft_ : Z;
  winRight_ : Z;
  layoutQuery_ : string;
  layoutKv_ : string;
  hasOriKv_ : bool;
  hasCmpKv_ : bool;
  aicCoreNum_ : Z;
  aivCoreNum_ : Z;
  socVersion_ : string;
  preToken_ : Z;
  nextToken_ : Z;
  groupSize_ : Z;
  mBaseSize_ : Z;
  s2BaseSize_ : Z;
  isS1G_ : bool;
  isCFA : bool;
  isSCFA : bool;
  supportFd : bool;
  attentionMode_ : Z;
  isN128 : bool
}.
#[global] Instance Kernel_eta : Eta Kernel := fun k =>
  mkKernel (actSeqLenQ_ k) (actSeqLenOriKv_ k) (actSeqLenCmpKv_ k) (seqUsedQ_ k) (seqUsedKv_ k)
    (metaData_ k) (batchSize_ k) (querySeqSize_ k) (queryHeadNum_ k) (kvSeqSize_ k) (kvHeadNum_ k)
    (headDim_ k) (oriTopK_ k) (cmpTopK_ k) (cmpRatio_ k) (oriMaskMode_ k) (cmpMaskMode_ k)
    (winLeft_ k) (winRight_ k) (layoutQuery_ k) (layoutKv_ k) (hasOriKv_ k) (hasCmpKv_ k)
    (aicCoreNum_ k) (aivCoreNum_ k) (socVersion_ k) (preToken_ k) (nextToken_ k) (groupSize_ k)
    (mBaseSize_ k) (s2BaseSize_ k) (isS1G_ k) (isCFA k) (isSCFA k) (supportFd k)
    (attentionMode_ k) (isN128 k).

(** The object after construction. *)
Definition new_Kernel : Kernel :=
  mkKernel None None None None None None
    0 0 0 0 0 0 0 0 (-1) 4 3 127 0 "BSND" "PA_ND" true true 24 48
    "ascend910B" 0 0 0 0 0 true false false false 1 false.

(** ** The row cache *)

Record S1GCache := mkS1GCache {
  sg_bIdx : Z;
  sg_s1GIdx : Z;
  s2Start : Z;
  s2End : Z;
  winS2Start : Z;
  winS2End : Z;
  cmpS2Start : Z;
  cmpS2End : Z;
  s1GCost : Z;
  s1GLastBlockCost : Z;
  s1GBlock : Z;
  s1GNormalBlockCost : Z;
  winS1GBlock : Z;
  winS1GCost : Z;
  winS1GLastBlockCost : Z;
  winS1GNormalBlockCost : Z;
  cmpS1GBlock : Z;
  cmpS1GCost : Z;
  cmpS1GLastBlockCost : Z;
  cmpS1GNormalBlockCost : Z;
  cmpS2TailSize : Z;
  winS2TailSize : Z
}.
#[global] Instance S1GCache_eta : Eta S1GCache := fun g =>
  mkS1GCache (sg_bIdx g) (sg_s1GIdx g) (s2Start g) (s2End g) (winS2Start g) (winS2End g)
    (cmpS2Start g) (cmpS2End g) (s1GCost g) (s1GLastBlockCost g) (s1GBlock g)
    (s1GNormalBlockCost g) (winS1GBlock g) (winS1GCost g) (winS1GLastBlockCost g)
    (winS1GNormalBlockCost g) (cmpS1GBlock g) (cmpS1GCost g) (cmpS1GLastBlockCost g)
    (cmpS1GNormalBlockCost g) (cmpS2TailSize g) (winS2TailSize g).

Definition new_S1GCache : S1GCache :=
  mkS1GCache 0 0 0 0 0 0 0 0 0 0 0 0 0 0 0 0 0 0 0 0 0 0.

(** The row cache with the member [typeCost_] of the kernel. *)
Record RowState := mkRowState {
  typeCost_ : BlockCost;
  row : S1GCache
}.
#[global] Instance RowState_eta : Eta RowState := fun s => mkRowState (typeCost_ s) (row s).

Section Rows.
Implicit Types (k : Kernel) (g : S1GCache) (s : RowState) (si : SplitInfo) (bc : BatchCache).

(** ** Sequence sizes *)

Definition GetS1SeqSize k (bIdx : Z) : res Z :=
  match tensor_data (seqUsedQ_ k) with
  | Some seqUsedPtr => v ← vget seqUsedPtr bIdx; Ok (u32 v)
  | None =>
      match (if String.eqb (layoutQuery_ k) "TND" then tensor_data (actSeqLenQ_ k) else None) with
      | Some s1Ptr =>
          v1 ← vget s1Ptr (u32 (bIdx + 1));
          v0 ← vget s1Ptr bIdx;
          Ok (u32 (v1 - v0))
      | None => Ok (u32 (querySeqSize_ k))
      end
  end.

Definition GetS2SeqSize k (bIdx : Z) : res Z :=
  match tensor_data (seqUsedKv_ k) with
  | Some seqUsedPtr => v ← vget seqUsedPtr bIdx; Ok (u32 v)
  | None =>
      match (if String.eqb (layoutKv_ k) "TND" then tensor_data (actSeqLenOriKv_ k) else None) with
      | Some s2Ptr =>
          v1 ← vget s2Ptr (u32 (bIdx + 1));
          v0 ← vget s2Ptr bIdx;
          Ok (u32 (v1 - v0))
      | None => Ok (u32 (kvSeqSize_ k))
      end
  end.

(** ** Basic blocks *)

Definition CalcSplitInfo_batch k (bIdx : Z) si : res SplitInfo :=
  s1Size ← GetS1SeqSize k bIdx;
  s2Size ← GetS2SeqSize k bIdx;
  n1 ← udiv (u32 (u32 (s1Size * groupSize_ k) + u32 (mBaseSize_ k - 1))) (mBaseSize_ k);
  v1 ← vset (s1GBaseNum si) bIdx n1;
  t1 ← umod (u32 (s1Size * groupSize_ k)) (mBaseSize_ k);
  v2 ← vset (s1GTailSize si) bIdx t1;
  n2 ← udiv (u32 (s2Size + s2BaseSize_ k - 1)) (s2BaseSize_ k);
  v3 ← vset (s2BaseNum si) bIdx n2;
  t2 ← umod s2Size (s2BaseSize_ k);
  v4 ← vset (s2TailSize si) bIdx t2;
  let si := si <| s1GBaseNum := v1 |> <| s1GTailSize := v2 |>
               <| s2BaseNum := v3 |> <| s2TailSize := v4 |> in
  Ok (if negb (n1 =? 0) && negb (n2 =? 0) then si <| isKvSeqAllZero := false |> else si).

Definition CalcSplitInfo k si : res SplitInfo :=
  for_range (u32 (batchSize_ k)) (CalcSplitInfo_batch k) si.

(** ** Masks *)

Definition CalcPreTokenLeftUp k (s1Size s2Size : Z) : Z :=
  match to_SparseMode (oriMaskMode_ k) with
  | BAND => i64 (s1Size - s2Size + preToken_ k)
  | _ => preToken_ k
  end.

Definition CalcNextTokenLeftUp k (s1Size s2Size : Z) : Z :=
  match to_SparseMode (oriMaskMode_ k) with
  | DEFAULT_MASK | ALL_MASK | LEFT_UP_CAUSAL => nextToken_ k
  | RIGHT_DOWN_CAUSAL => s2Size - s1Size
  | BAND => i64 (s2Size - s1Size + nextToken_ k)
  | SPARSE_BUTT => nextToken_ k
  end.

(** ** Block costs *)

Definition WinCalcCost (basicM basicS2 : Z) : Z :=
  let winAlignBasicM := Z.shiftr (u32 (basicM + 16 - 1)) 4 in
  let winAlignBasicS2 := Z.shiftr (u32 (basicS2 + 64 - 1)) 6 in
  u32 (6 * winAlignBasicM + 10 * winAlignBasicS2).

Definition CmpCalcCost (basicM basicS2 : Z) : Z :=
  let cmpAlignBasicM := Z.shiftr (u32 (basicM + 16 - 1)) 4 in
  let cmpAlignBasicS2 := Z.shiftr (u32 (basicS2 + 64 - 1)) 6 in
  u32 (6 * cmpAlignBasicM + 10 * cmpAlignBasicS2).

Definition CalcCostTable k (s1NormalSize s2NormalSize s1GTailSize winS2TailSize cmpS2TailSize : Z)
    (t : BlockCost) : BlockCost :=
  let t := tset t WIN_NORMAL_BLOCK WIN_NORMAL_BLOCK (WinCalcCost s1NormalSize s2NormalSize) in
  let t := tset t WIN_TAIL_BLOCK WIN_NORMAL_BLOCK
             (if s1GTailSize =? 0 then 0 else WinCalcCost s1GTailSize s2NormalSize) in
  let t := tset t WIN_NORMAL_BLOCK WIN_TAIL_BLOCK
             (if winS2TailSize =? 0 then 0 else WinCalcCost s1NormalSize winS2TailSize) in
  let t := tset t WIN_TAIL_BLOCK WIN_TAIL_BLOCK
             (if (s1GTailSize =? 0) || (winS2TailSize =? 0) then 0
              else WinCalcCost s1GTailSize winS2TailSize) in
  if hasCmpKv_ k then
    let t := tset t CMP_NORMAL_BLOCK CMP_NORMAL_BLOCK (CmpCalcCost s1NormalSize s2NormalSize) in
    let t := tset t CMP_TAIL_BLOCK CMP_NORMAL_BLOCK
               (if s1GTailSize =? 0 then 0 else CmpCalcCost s1GTailSize s2NormalSize) in
    let t := tset t CMP_NORMAL_BLOCK CMP_TAIL_BLOCK
               (if cmpS2TailSize =? 0 then 0 else CmpCalcCost s1NormalSize cmpS2TailSize) in
    tset t CMP_TAIL_BLOCK CMP_TAIL_BLOCK
      (if (s1GTailSize =? 0) || (cmpS2TailSize =? 0) then 0
       else CmpCalcCost s1GTailSize cmpS2TailSize)
  else t.

(** ** Tokens and blocks of a row *)

Definition CalcS2TokenRange k (s1GIdx : Z) bc : res (Z * Z) :=
  if (s1Size bc =? 0) || (s2Size bc =? 0) then Ok (0, 0)
  else if attentionMode_ k =? 0 then Ok (0, s2Size bc - 1)
  else
    let s1GFirstToken := i64 (s1GIdx * mBaseSize_ k) in
    let s1GLastToken :=
      Z.min (i64 (s1GFirstToken + mBaseSize_ k)) (i64 (s1Size bc * groupSize_ k)) - 1 in
    '(s1FirstToken, s1LastToken) ←
      (if isS1G_ k then
         f ← sdiv s1GFirstToken (groupSize_ k);
         l ← sdiv s1GLastToken (groupSize_ k);
         Ok (f, l)
       else
         gf ← sdiv s1GFirstToken (s1Size bc);
         gl ← sdiv s1GLastToken (s1Size bc);
         if gf =? gl then
           f ← smod s1GFirstToken (s1Size bc);
           l ← smod s1GLastToken (s1Size bc);
           Ok (f, l)
         else Ok (0, s1Size bc));
    Ok (i64 (s1FirstToken - preTokenLeftUp bc), i64 (s1LastToken + nextTokenLeftUp bc)).

Definition CalcBatchCache k (bIdx : Z) si bc : res BatchCache :=
  s1 ← GetS1SeqSize k bIdx;
  s2 ← GetS2SeqSize k bIdx;
  Ok (bc <| bc_bIdx := bIdx |> <| s1Size := s1 |> <| s2Size := s2 |>
         <| preTokenLeftUp := CalcPreTokenLeftUp k s1 s2 |>
         <| nextTokenLeftUp := CalcNextTokenLeftUp k s1 s2 |>).

(** [s1GIdx == s1GBaseNum[bIdx] - 1U && s1GTailSize[bIdx] != 0U] *)
Definition is_tail_row g si : res bool :=
  rows ← vget (s1GBaseNum si) (sg_bIdx g);
  if sg_s1GIdx g =? u32 (rows - 1) then
    tail ← vget (s1GTailSize si) (sg_bIdx g);
    Ok (negb (tail =? 0))
  else Ok false.

Definition CalcWinS1GCache (t : BlockCost) g si : res S1GCache :=
  if winS2Start g >=? winS2End g then
    Ok (g <| winS1GBlock := 0 |> <| winS1GCost := 0 |>
          <| winS1GLastBlockCost := 0 |> <| winS1GNormalBlockCost := 0 |>)
  else
    let g := g <| winS1GBlock := u32 (winS2End g - winS2Start g) |> in
    let curWinTailS2Num := if negb (winS2TailSize g =? 0) then 1 else 0 in
    let curWinNormalS2Num := u32 (winS1GBlock g - curWinTailS2Num) in
    tail ← is_tail_row g si;
    let m := if tail : bool then WIN_TAIL_BLOCK else WIN_NORMAL_BLOCK in
    Ok (g <| winS1GCost := i64 (t m WIN_NORMAL_BLOCK * curWinNormalS2Num +
                                t m WIN_TAIL_BLOCK * curWinTailS2Num) |>
          <| winS1GLastBlockCost := if curWinTailS2Num >? 0 then t m WIN_TAIL_BLOCK
                                    else t m WIN_NORMAL_BLOCK |>
          <| winS1GNormalBlockCost := t m WIN_NORMAL_BLOCK |>).

Definition CalcCmpS1GCache (t : BlockCost) g si : res S1GCache :=
  if cmpS2Start g >=? cmpS2End g then
    Ok (g <| cmpS1GBlock := 0 |> <| cmpS1GCost := 0 |>
          <| cmpS1GLastBlockCost := 0 |> <| cmpS1GNormalBlockCost := 0 |>)
  else
    let g := g <| cmpS1GBlock := u32 (cmpS2End g - cmpS2Start g) |> in
    let curCmpTailS2Num := if negb (cmpS2TailSize g =? 0) then 1 else 0 in
    let curCmpNormalS2Num := u32 (cmpS1GBlock g - curCmpTailS2Num) in
    tail ← is_tail_row g si;
    let m := if tail : bool then CMP_TAIL_BLOCK else CMP_NORMAL_BLOCK in
    Ok (g <| cmpS1GCost := i64 (t m CMP_NORMAL_BLOCK * curCmpNormalS2Num +
                                t m CMP_TAIL_BLOCK * curCmpTailS2Num) |>
          <| cmpS1GLastBlockCost := if curCmpTailS2Num >? 0 then t m CMP_TAIL_BLOCK
                                    else t m CMP_NORMAL_BLOCK |>
          <| cmpS1GNormalBlockCost := t m CMP_NORMAL_BLOCK |>).

Definition CalcBlockRangeAndTailSize k (oriS2TokenRange : Z * Z) bc g : res S1GCache :=
  let '(first0, last0) := oriS2TokenRange in
  '(oriS2LastToken, g) ←
    (if (first0 >=? s2Size bc) || (last0 <? 0) || (last0 <? first0) then
       Ok (0, g <| winS2Start := 0 |> <| winS2End := 0 |> <| winS2TailSize := 0 |>)
     else
       let first := Clip first0 0 (u32 (s2Size bc - 1)) in
       let last := Clip last0 0 (u32 (s2Size bc - 1)) in
       n ← sdiv (last - first) (s2BaseSize_ k);
       tail ← smod (last - first + 1) (s2BaseSize_ k);
       Ok (last, g <| winS2Start := 0 |> <| winS2End := u32 (n + 1) |>
                   <| winS2TailSize := tail |>));
  let g := g <| cmpS2Start := winS2End g |> in
  cmpS2LastTokenSize ← (if hasCmpKv_ k then
                          v ← sdiv (oriS2LastToken + 1) (cmpRatio_ k); Ok (u32 v)
                        else Ok 0);
  let actCmpS2LastTokenSize :=
    if isCFA k then cmpS2LastTokenSize
    else if isSCFA k then Z.min cmpS2LastTokenSize (u32 (cmpTopK_ k))
    else 0 in
  cmpEnd ← (if actCmpS2LastTokenSize =? 0 then Ok (cmpS2Start g)
            else
              n ← udiv (u32 (actCmpS2LastTokenSize - 1)) (s2BaseSize_ k);
              Ok (u32 (cmpS2Start g + n + 1)));
  cmpTail ← umod actCmpS2LastTokenSize (s2BaseSize_ k);
  Ok (g <| cmpS2End := cmpEnd |> <| cmpS2TailSize := cmpTail |>).

Definition GatherWinAndCmpCache g : S1GCache :=
  let g := g <| s2Start := if winS1GBlock g >? 0 then winS2Start g else cmpS2Start g |> in
  let g := if cmpS1GBlock g >? 0
           then g <| s1GLastBlockCost := cmpS1GLastBlockCost g |> <| s2End := cmpS2End g |>
           else g <| s1GLastBlockCost := winS1GLastBlockCost g |> <| s2End := winS2End g |> in
  g <| s1GBlock := u32 (winS1GBlock g + cmpS1GBlock g) |>
    <| s1GCost := i64 (winS1GCost g + cmpS1GCost g) |>.

Definition CalcS1GCache k (s1GIdx : Z) si bc s : res RowState :=
  rows ← vget (s1GBaseNum si) (bc_bIdx bc);
  if rows =? 0 then
    Ok (s <| row := (row s) <| s1GCost := 0 |> <| s1GLastBlockCost := 0 |>
              <| winS1GNormalBlockCost := 0 |> <| winS1GLastBlockCost := 0 |>
              <| cmpS1GNormalBlockCost := 0 |> <| cmpS1GLastBlockCost := 0 |>
              <| s1GBlock := 0 |> <| s2Start := 0 |> <| cmpS2Start := 0 |> <| s2End := 0 |> |>)
  else
    let g := (row s) <| sg_bIdx := bc_bIdx bc |> <| sg_s1GIdx := s1GIdx |> in
    oriS2TokenRange ← CalcS2TokenRange k s1GIdx bc;
    g ← CalcBlockRangeAndTailSize k oriS2TokenRange bc g;
    tail ← vget (s1GTailSize si) (sg_bIdx g);
    let t := CalcCostTable k (mBaseSize_ k) (s2BaseSize_ k) tail
               (u32 (winS2TailSize g)) (u32 (cmpS2TailSize g)) (typeCost_ s) in
    g ← CalcWinS1GCache t g si;
    g ← CalcCmpS1GCache t g si;
    Ok (mkRowState t (GatherWinAndCmpCache g)).
End Rows.

(** ** The interface to the assignment engine *)

#[global] Instance SharedKv_SplitKernel : SplitKernel Kernel RowState := {
  sk_batchSize := batchSize_;
  sk_kvHeadNum := kvHeadNum_;
  sk_GetS1SeqSize := GetS1SeqSize;
  sk_GetS2SeqSize := GetS2SeqSize;
  sk_CalcSplitInfo := CalcSplitInfo;
  sk_CalcBatchCache := CalcBatchCache;
  sk_CalcS1GCache := CalcS1GCache;
  sk_fresh s := s <| row := new_S1GCache |>;
  sk_s1GCost s := s1GCost (row s);
  sk_s1GBlock s := s1GBlock (row s);
  sk_s1GLastBlockCost s := s1GLastBlockCost (row s);
  sk_s2Start s := s2Start (row s);
  sk_s2End s := s2End (row s);
  sk_cursorS2 k s := if supportFd k then winS2Start (row s) else 0;
  sk_cost_gt a b := a >? b
}.

Section Blocks.
Implicit Types (k : Kernel) (ac : AssignContext RowState) (ctx : SplitContext).

(** ** Assignment by single blocks, for splits with reduction *)

Definition CalcCurBlockCost ac : Z :=
  let g := row (s1GCache ac) in
  if curS2Idx ac <? cmpS2Start g then
    if curS2Idx ac =? u32 (cmpS2Start g - 1) then winS1GLastBlockCost g
    else winS1GNormalBlockCost g
  else
    if curS2Idx ac =? u32 (s2End g - 1) then cmpS1GLastBlockCost g
    else cmpS1GNormalBlockCost g.

(** The current block of cost [curCost] goes to the core. *)
Definition take_block (curCost : Z) ac : AssignContext RowState :=
  let core := coreCache ac in
  let g := row (s1GCache ac) in
  ac <| coreCache := core <| cost := i64 (cost core + curCost) |>
                          <| block := u32 (block core + 1) |> |>
     <| curS2Idx := u32 (curS2Idx ac + 1) |>
     <| bN2Cost := i64 (bN2Cost ac - curCost) |>
     <| bN2Block := u32 (bN2Block ac - 1) |>
     <| s1GCache := (s1GCache ac) <| row := g <| s1GCost := i64 (s1GCost g - curCost) |>
                                             <| s1GBlock := u32 (s1GBlock g - 1) |> |> |>.

Definition AssignByBlock_step ac : res (bool * AssignContext RowState) :=
  let curCost := CalcCurBlockCost ac in
  if IsWithinTolerance (costLimit (coreCache ac)) (Z.quot curCost FA_TOLERANCE_RATIO)
       (i64 (cost (coreCache ac) + curCost))
  then Ok (true, take_block curCost ac)
  else Ok (false, ac).

(** The loop is entered with a row that does not fit the core, so it stops
    before it has passed all blocks of the row. *)
Definition AssignByBlock k ctx ac : res (AssignContext RowState) :=
  if isFinished ac || negb (supportFd k) then Ok ac
  else while_loop (S (Z.to_nat (s1GBlock (row (s1GCache ac))))) AssignByBlock_step ac.

Definition ForceAssign k ctx ac : res (AssignContext RowState) :=
  if isFinished ac then Ok ac
  else UpdateCursor k ctx (take_block (CalcCurBlockCost ac) ac).

(** [curFdS1gSize] of RecordFDInfo: the M size of the row at which the
    previous core stopped. *)
Definition fd_m_size k si (splitBIdx splitS1GIdx : Z) : res Z :=
  s1 ← GetS1SeqSize k splitBIdx;
  rows ← vget (s1GBaseNum si) splitBIdx;
  Ok (if splitS1GIdx =? u32 (rows - 1)
      then u32 (u32 (s1 * groupSize_ k) - u32 (splitS1GIdx * mBaseSize_ k))
      else mBaseSize_ k).
End Blocks.
