(* ===== verification/SharedKvProofs.v ===== *)
(** * The row cache of the shared-KV kernels holds the row

    The workload a kernel object describes, in terms of [RowSpec], and the
    proof that CalcBatchCache and CalcS1GCache compute it: the kernels are a
    [RowModel] for the assignment engine.  CalcSplitInfo is proved to compute
    the split the row model relies on. *)

From S2P Require Import Prelude SplitTypes Assign Workload AssignProofs RowSpec SharedKv.

(** ** The workload of a kernel object *)

(** Cost of a block of [M] rows and [S] tokens, in units of 16 rows and 64
    tokens. *)
Definition unit_cost (M S : Z) : Z := 6 * ceil_div M 16 + 10 * ceil_div S 64.

Section Spec.
Context (k : Kernel).

Definition s1_of (b : Z) : Z := match GetS1SeqSize k b with Ok v => v | Fault _ => 0 end.
Definition s2_of (b : Z) : Z := match GetS2SeqSize k b with Ok v => v | Fault _ => 0 end.

Definition mask_of : MaskKind :=
  if attentionMode_ k =? 0 then NoMask
  else match to_SparseMode (oriMaskMode_ k) with BAND => Band (preToken_ k) | _ => Causal end.

Definition rows_of (b : Z) : Z := ceil_div (s1_of b * groupSize_ k) (mBaseSize_ k).
Definition tail_of (b : Z) : Z := (s1_of b * groupSize_ k) mod mBaseSize_ k.

(** M size of a row: the last row of a batch may be short. *)
Definition row_m (b r : Z) : Z :=
  if (r =? rows_of b - 1) && negb (tail_of b =? 0) then tail_of b else mBaseSize_ k.

Definition tokens (b r : Z) : Z * Z :=
  row_tokens mask_of (mBaseSize_ k) (groupSize_ k) (s1_of b) (s2_of b) r.

(** The row attends to at least one token. *)
Definition attends (b r : Z) : bool :=
  (0 <=? r) && (r <? rows_of b) && (0 <? s2_of b) && (0 <=? (tokens b r).2).

(** Tokens of the window part and of the compressed part. *)
Definition win_len (b r : Z) : Z :=
  if attends b r then (tokens b r).2 - (tokens b r).1 + 1 else 0.

Definition cmp_tokens (n : Z) : Z :=
  if negb (hasCmpKv_ k) then 0
  else if isCFA k then n / cmpRatio_ k
  else if isSCFA k then Z.min (n / cmpRatio_ k) (cmpTopK_ k)
  else 0.
Definition cmp_len (b r : Z) : Z :=
  if attends b r then cmp_tokens ((tokens b r).2 + 1) else 0.

Definition row_blk (b r : Z) : Z :=
  seg_blk (s2BaseSize_ k) (win_len b r) + seg_blk (s2BaseSize_ k) (cmp_len b r).
Definition row_cost (b r : Z) : Z :=
  seg_cost unit_cost (s2BaseSize_ k) (row_m b r) (win_len b r) +
  seg_cost unit_cost (s2BaseSize_ k) (row_m b r) (cmp_len b r).
Definition row_last_cost (b r : Z) : Z :=
  seg_last unit_cost (s2BaseSize_ k) (row_m b r)
    (if 0 <? cmp_len b r then cmp_len b r else win_len b r).

Definition workload_of : Workload :=
  mkWorkload (batchSize_ k) rows_of row_cost row_blk row_last_cost.

(** Inputs the kernels are built for: sizes that stay below the widths of
    the counters, one of the three masks, a compression ratio of at least
    two. *)
Record KernelOk : Prop := {
  ko_batch : 0 < batchSize_ k < 2 ^ 31;
  ko_heads : kvHeadNum_ k = 1;
  ko_g : 0 < groupSize_ k < 2 ^ 31;
  ko_m : 0 < mBaseSize_ k <= 2 ^ 16;
  ko_sb : 0 < s2BaseSize_ k <= 2 ^ 16;
  ko_s1g : isS1G_ k = true;
  ko_s1 : forall b, 0 <= b < batchSize_ k ->
    returns (GetS1SeqSize k b) (fun v => 0 <= v /\ v * groupSize_ k + mBaseSize_ k <= 2 ^ 31);
  ko_s2 : forall b, 0 <= b < batchSize_ k ->
    returns (GetS2SeqSize k b) (fun v => 0 <= v /\ v + s2BaseSize_ k <= 2 ^ 31);
  ko_mask : attentionMode_ k = 0 \/
    (attentionMode_ k = 1 /\ to_SparseMode (oriMaskMode_ k) = RIGHT_DOWN_CAUSAL /\
     preToken_ k = INT64_MAX) \/
    (attentionMode_ k = 1 /\ to_SparseMode (oriMaskMode_ k) = BAND /\
     0 <= preToken_ k < 2 ^ 32 /\ nextToken_ k = 0);
  ko_ratio : hasCmpKv_ k = true -> 2 <= cmpRatio_ k < 2 ^ 31;
  ko_topk : hasCmpKv_ k = true -> 0 <= cmpTopK_ k < 2 ^ 31;
  ko_blocks : total workload_of row_blk < 2 ^ 32
}.
End Spec.

Lemma WinCalcCost_spec M S :
  0 <= M <= 2 ^ 16 -> 0 <= S <= 2 ^ 16 -> WinCalcCost M S = unit_cost M S.
Proof.
  intros HM HS. unfold WinCalcCost, unit_cost, ceil_div.
  rewrite !Z.shiftr_div_pow2 by lia. change (2 ^ 4) with 16. change (2 ^ 6) with 64.
  rewrite (u32_id (M + 16 - 1)), (u32_id (S + 64 - 1)) by lia. apply u32_id. ediv.
Qed.

Lemma CmpCalcCost_spec M S :
  0 <= M <= 2 ^ 16 -> 0 <= S <= 2 ^ 16 -> CmpCalcCost M S = unit_cost M S.
Proof. apply WinCalcCost_spec. Qed.

Lemma unit_cost_range M s sb :
  0 < M <= 2 ^ 16 -> 0 < sb <= 2 ^ 16 -> 0 < s <= sb -> 0 < unit_cost M s <= 2 ^ 16.
Proof.
  intros HM Hsb Hs. unfold unit_cost.
  pose proof (ceil_div_pos M 16 ltac:(lia) ltac:(lia)).
  pose proof (ceil_div_pos s 64 ltac:(lia) ltac:(lia)).
  pose proof (ceil_div_le M 16 (2 ^ 12) ltac:(lia) ltac:(lia) ltac:(lia)).
  pose proof (ceil_div_le s 64 (2 ^ 10) ltac:(lia) ltac:(lia) ltac:(lia)). lia.
Qed.

(** ** Sizes of the rows *)

Section Rows.
Context (k : Kernel) (HK : KernelOk k).
Abbreviation g := (groupSize_ k).
Abbreviation m := (mBaseSize_ k).
Abbreviation sb := (s2BaseSize_ k).

Lemma s1_spec b :
  0 <= b < batchSize_ k ->
  GetS1SeqSize k b = Ok (s1_of k b) /\ 0 <= s1_of k b /\ s1_of k b * g + m <= 2 ^ 31.
Proof. intros Hb. unfold s1_of. destruct (ko_s1 k HK b Hb) as (v & -> & H). done. Qed.

Lemma s2_spec b :
  0 <= b < batchSize_ k ->
  GetS2SeqSize k b = Ok (s2_of k b) /\ 0 <= s2_of k b /\ s2_of k b + sb <= 2 ^ 31.
Proof. intros Hb. unfold s2_of. destruct (ko_s2 k HK b Hb) as (v & -> & H). done. Qed.

Lemma rows_range b : 0 <= b < batchSize_ k -> 0 <= rows_of k b < 2 ^ 31.
Proof.
  intros Hb. destruct (s1_spec b Hb) as (_ & H0 & H1). unfold rows_of.
  pose proof (ko_g k HK). pose proof (ko_m k HK).
  split; [apply ceil_div_nonneg; nia|].
  enough (ceil_div (s1_of k b * g) m <= s1_of k b * g) by lia.
  apply ceil_div_le; nia.
Qed.

Lemma row_m_range b r : 0 < row_m k b r <= 2 ^ 16.
Proof.
  unfold row_m, tail_of. pose proof (ko_m k HK).
  pose proof (Z.mod_pos_bound (s1_of k b * g) m ltac:(lia)).
  destruct (r =? rows_of k b - 1); simpl; [|lia].
  destruct (Z.eqb_spec ((s1_of k b * g) mod m) 0); simpl; lia.
Qed.

Lemma row_unit b r s : 0 < s <= sb -> 0 < unit_cost (row_m k b r) s <= 2 ^ 16.
Proof.
  intros Hs. apply (unit_cost_range _ s sb); [apply row_m_range|apply (ko_sb k HK)|done].
Qed.

(** A row that attends: its position and its interval of tokens. *)
Lemma attends_spec b r :
  0 <= b < batchSize_ k -> attends k b r = true ->
  0 <= r < rows_of k b /\ r * m < s1_of k b * g /\
  0 <= (tokens k b r).1 <= (tokens k b r).2 /\ (tokens k b r).2 < s2_of k b.
Proof.
  intros Hb Ha. destruct (s1_spec b Hb) as (_ & H0 & H1). destruct (s2_spec b Hb) as (_ & H2 & _).
  pose proof (ko_g k HK) as Hg. pose proof (ko_m k HK) as Hm.
  unfold attends in Ha. zify_tests.
  assert (Hlt : r * m < s1_of k b * g).
  { apply (ceil_div_lt (s1_of k b * g) m r); [lia|nia|done]. }
  split; [lia|]. split; [done|].
  destruct (row_tokens_order m g (s1_of k b) r) as [Ho1 Ho2]; [lia..|].
  revert H3. unfold tokens. destruct (mask_of k) as [| |w] eqn:Ew; simpl; intros; [lia|lia|].
  assert (0 <= w); [|lia].
  unfold mask_of in Ew.
  destruct (ko_mask k HK) as [E|[(E & Em & _)|(E & Em & Ep & _)]]; rewrite E in Ew; simpl in Ew;
    [done|by rewrite Em in Ew|]. rewrite Em in Ew. injection Ew. lia.
Qed.

Lemma win_len_range b r :
  0 <= b < batchSize_ k ->
  0 <= win_len k b r < 2 ^ 31 /\ (attends k b r = true -> 0 < win_len k b r).
Proof.
  intros Hb. destruct (s2_spec b Hb) as (_ & H2 & H3). pose proof (ko_sb k HK). unfold win_len.
  destruct (attends k b r) eqn:Ha; [|lia].
  destruct (attends_spec b r Hb Ha) as (_ & _ & Ht & Hl). lia.
Qed.

Lemma cmp_tokens_range n : 0 <= n < 2 ^ 31 -> 0 <= cmp_tokens k n < 2 ^ 30.
Proof.
  intros Hn. unfold cmp_tokens.
  destruct (hasCmpKv_ k) eqn:Hc; simpl; [|lia]. pose proof (ko_ratio k HK Hc).
  pose proof (ko_topk k HK Hc).
  assert (0 <= n / cmpRatio_ k < 2 ^ 30).
  { split; [apply Z.div_pos; lia|]. apply Z.div_lt_upper_bound; nia. }
  destruct (isCFA k), (isSCFA k); lia.
Qed.

Lemma cmp_len_range b r :
  0 <= b < batchSize_ k ->
  0 <= cmp_len k b r < 2 ^ 30 /\ (attends k b r = false -> cmp_len k b r = 0).
Proof.
  intros Hb. destruct (s2_spec b Hb) as (_ & H2 & H3). pose proof (ko_sb k HK). unfold cmp_len.
  destruct (attends k b r) eqn:Ha; [|lia].
  destruct (attends_spec b r Hb Ha) as (_ & _ & Ht & Hl).
  split; [|done]. apply cmp_tokens_range. lia.
Qed.

Lemma seg_facts b r len :
  0 <= len ->
  0 <= seg_blk sb len /\
  0 <= seg_last unit_cost sb (row_m k b r) len <= seg_cost unit_cost sb (row_m k b r) len /\
  seg_cost unit_cost sb (row_m k b r) len <= 2 ^ 16 * seg_blk sb len.
Proof.
  intros Hl. pose proof (ko_sb k HK). split; [apply ceil_div_nonneg; lia|]. split.
  - eapply seg_last_range; [lia|intros s Hs; by apply row_unit|done].
  - eapply seg_cost_le; [lia|intros s Hs; by apply row_unit|done].
Qed.

(** A row without tokens costs nothing. *)
Lemma row_empty b r :
  attends k b r = false -> row_blk k b r = 0 /\ row_cost k b r = 0 /\ row_last_cost k b r = 0.
Proof.
  intros Ha. pose proof (ko_sb k HK).
  unfold row_blk, row_cost, row_last_cost, win_len, cmp_len. rewrite Ha.
  rewrite seg_blk_zero, seg_cost_zero by lia. done.
Qed.

(** A row with tokens has blocks and a cost. *)
Lemma row_full b r :
  0 <= b < batchSize_ k -> attends k b r = true -> 0 < row_blk k b r /\ 0 < row_cost k b r.
Proof.
  intros Hb Ha. destruct (win_len_range b r Hb) as [Hw Hp]. specialize (Hp Ha).
  destruct (cmp_len_range b r Hb) as [Hc _]. pose proof (ko_sb k HK).
  destruct (seg_facts b r (win_len k b r) ltac:(lia)) as (_ & A2 & _).
  destruct (seg_facts b r (cmp_len k b r) ltac:(lia)) as (B1 & B2 & _).
  pose proof (ceil_div_pos (win_len k b r) sb ltac:(lia) Hp).
  pose proof (seg_last_pos unit_cost sb ltac:(lia) (row_m k b r) (2 ^ 16)
    ltac:(intros; by apply row_unit) _ Hp).
  unfold row_blk, row_cost, seg_blk in *. lia.
Qed.

Lemma row_bounds b r :
  0 <= b < batchSize_ k ->
  0 <= row_blk k b r /\ 0 <= row_last_cost k b r <= row_cost k b r /\
  row_cost k b r <= 2 ^ 16 * row_blk k b r.
Proof.
  intros Hb. destruct (win_len_range b r Hb) as [Hw _]. destruct (cmp_len_range b r Hb) as [Hc _].
  destruct (seg_facts b r (win_len k b r) ltac:(lia)) as (A1 & A2 & A3).
  destruct (seg_facts b r (cmp_len k b r) ltac:(lia)) as (B1 & B2 & B3).
  unfold row_blk, row_cost, row_last_cost. destruct (0 <? cmp_len k b r); lia.
Qed.

(** The workload of the kernel is well formed. *)
Lemma workload_ok : WorkloadOk (workload_of k).
Proof.
  pose proof (ko_batch k HK).
  split; cbn [workload_of wl_nb wl_rows wl_cost wl_blk wl_last].
  - lia.
  - intros b Hb. by apply rows_range.
  - intros b r Hb. by apply row_bounds.
  - intros b r Hb Hp. destruct (attends k b r) eqn:Ha; [by apply row_full|].
    destruct (row_empty b r Ha). lia.
  - intros b r Hb Hz. destruct (attends k b r) eqn:Ha; [|by apply row_empty].
    destruct (row_full b r Hb Ha). lia.
  - intros b r Hb. by apply row_bounds.
  - intros b r Hb Hr. apply row_empty. unfold attends.
    rewrite (proj2 (Z.ltb_ge r _)) by done. by rewrite andb_false_r.
  - pose proof (ko_blocks k HK).
    pose proof (total_scale (workload_of k) (2 ^ 16) (row_cost k) (row_blk k)) as Ht.
    specialize (Ht ltac:(intros b r Hb; apply row_bounds; exact Hb)). lia.
  - apply (ko_blocks k HK).
Qed.

(** ** The basic-block split *)

(** [CalcSplitInfo] after [n] batches. *)
Record split_upto (n : Z) (si : SplitInfo) : Prop := {
  su_l1 : Z.of_nat (length (s1GBaseNum si)) = batchSize_ k;
  su_l2 : Z.of_nat (length (s2BaseNum si)) = batchSize_ k;
  su_l3 : Z.of_nat (length (s1GTailSize si)) = batchSize_ k;
  su_l4 : Z.of_nat (length (s2TailSize si)) = batchSize_ k;
  su_rows : forall b, 0 <= b < n -> vat (s1GBaseNum si) b = rows_of k b;
  su_tail : forall b, 0 <= b < n -> vat (s1GTailSize si) b = tail_of k b;
  su_zero : isKvSeqAllZero si =
    forallb (fun b => (rows_of k (Z.of_nat b) =? 0) || (s2_of k (Z.of_nat b) =? 0)) (seq 0 (Z.to_nat n))
}.

Lemma CalcSplitInfo_batch_returns b si :
  0 <= b < batchSize_ k -> split_upto b si ->
  returns (CalcSplitInfo_batch k b si) (split_upto (b + 1)).
Proof.
  intros Hb [L1 L2 L3 L4 Hrows Htail Hz]. destruct (s1_spec b Hb) as (E1 & P1 & Q1).
  destruct (s2_spec b Hb) as (E2 & P2 & Q2). pose proof (ko_g k HK). pose proof (ko_m k HK).
  pose proof (ko_sb k HK). unfold CalcSplitInfo_batch. rewrite E1, E2. cbn -[vset].
  assert (0 <= s1_of k b * g) by nia.
  rewrite (u32_id (m - 1)), (u32_id (s1_of k b * g)), !u32_id by lia.
  rewrite !udiv_ok, !umod_ok by lia. cbn -[vset].
  repeat (returns_step; cbn -[vset]).
  replace (s1_of k b * g + (m - 1)) with (s1_of k b * g + m - 1) by lia.
  fold (ceil_div (s1_of k b * g) m). fold (rows_of k b). fold (tail_of k b).
  fold (ceil_div (s2_of k b) sb).
  assert (Ez : (ceil_div (s2_of k b) sb =? 0) = (s2_of k b =? 0)).
  { destruct (Z.eqb_spec (s2_of k b) 0) as [->|].
    - unfold ceil_div. rewrite Z.div_small by lia. done.
    - pose proof (ceil_div_pos (s2_of k b) sb ltac:(lia) ltac:(lia)).
      apply Z.eqb_neq. lia. }
  rewrite Ez.
  destruct (negb (rows_of k b =? 0) && negb (s2_of k b =? 0)) eqn:Ec; split; cbn -[vat];
    rewrite ?length_insert; try done; try (apply vat_insert_upto; [lia|done]).
  all: rewrite seq_snoc, forallb_app, <- Hz by lia; cbn; rewrite Z2Nat.id by lia.
  - zify_tests. rewrite (proj2 (Z.eqb_neq _ 0)), (proj2 (Z.eqb_neq (s2_of k b) 0)) by done.
    by rewrite andb_false_r.
  - rewrite <- negb_orb in Ec. apply negb_false_iff in Ec. by rewrite Ec, !andb_true_r.
Qed.

Lemma CalcSplitInfo_returns :
  returns (CalcSplitInfo k (new_SplitInfo (batchSize_ k))) (split_upto (batchSize_ k)).
Proof.
  pose proof (ko_batch k HK). unfold CalcSplitInfo. rewrite u32_id by lia.
  apply (for_range_returns split_upto); [lia| |].
  - split; cbn; unfold zeros; rewrite ?length_replicate; try lia; done.
  - intros b si Hb. by apply CalcSplitInfo_batch_returns.
Qed.

(** ** The caches *)

Record batch_cache (b : Z) (bc : BatchCache) : Prop := {
  bk_b : bc_bIdx bc = b;
  bk_s1 : s1Size bc = s1_of k b;
  bk_s2 : s2Size bc = s2_of k b;
  bk_pre : preTokenLeftUp bc = CalcPreTokenLeftUp k (s1_of k b) (s2_of k b);
  bk_next : nextTokenLeftUp bc = CalcNextTokenLeftUp k (s1_of k b) (s2_of k b)
}.

Lemma CalcBatchCache_returns b si bc :
  0 <= b < batchSize_ k -> returns (CalcBatchCache k b si bc) (batch_cache b).
Proof.
  intros Hb. unfold CalcBatchCache. destruct (s1_spec b Hb) as (-> & _). cbn.
  destruct (s2_spec b Hb) as (-> & _). cbn. by apply returns_ok.
Qed.

(** The interval CalcS2TokenRange computes, before it is clipped to S2. *)
Definition raw_tokens (b r : Z) : Z * Z :=
  match mask_of k with
  | NoMask => (0, s2_of k b - 1)
  | Causal => (row_first m g r - INT64_MAX, row_last m g (s1_of k b) r + (s2_of k b - s1_of k b))
  | Band w => (row_first m g r - (s1_of k b - s2_of k b + w),
               row_last m g (s1_of k b) r + (s2_of k b - s1_of k b))
  end.

(** The masks with their left and right ends. *)
Lemma mask_cases b :
  0 <= b < batchSize_ k ->
  (attentionMode_ k = 0 /\ mask_of k = NoMask) \/
  (attentionMode_ k = 1 /\
   CalcNextTokenLeftUp k (s1_of k b) (s2_of k b) = s2_of k b - s1_of k b /\
   ((mask_of k = Causal /\ CalcPreTokenLeftUp k (s1_of k b) (s2_of k b) = INT64_MAX) \/
    exists w, 0 <= w < 2 ^ 32 /\ mask_of k = Band w /\
      CalcPreTokenLeftUp k (s1_of k b) (s2_of k b) = s1_of k b - s2_of k b + w)).
Proof.
  intros Hb. destruct (s1_spec b Hb) as (_ & P1 & Q1). destruct (s2_spec b Hb) as (_ & P2 & Q2).
  pose proof (ko_g k HK). pose proof (ko_m k HK). pose proof (ko_sb k HK).
  assert (s1_of k b <= 2 ^ 31) by nia.
  unfold mask_of, CalcNextTokenLeftUp, CalcPreTokenLeftUp.
  destruct (ko_mask k HK) as [E|[(E & Em & Ep)|(E & Em & Ep & En)]]; rewrite ?E; simpl.
  - by left.
  - right. rewrite Em. split; [done|]. split; [done|]. left. done.
  - right. rewrite Em, En. split; [done|]. rewrite !i64_id by lia. split; [lia|]. right.
    exists (preToken_ k). done.
Qed.

Lemma CalcS2TokenRange_returns b r bc :
  0 <= b < batchSize_ k -> 0 <= r < rows_of k b -> 0 < s2_of k b -> batch_cache b bc ->
  CalcS2TokenRange k r bc = Ok (raw_tokens b r).
Proof.
  intros Hb Hr Hs2 [_ E1 E2 Ep En]. destruct (s1_spec b Hb) as (_ & P1 & Q1).
  destruct (s2_spec b Hb) as (_ & P2 & Q2).
  pose proof (ko_g k HK) as Hg. pose proof (ko_m k HK) as Hm. pose proof (ko_sb k HK) as Hsb.
  assert (Hlt : r * m < s1_of k b * g) by (apply (ceil_div_lt _ m r); [lia|nia|apply Hr]).
  destruct (row_tokens_order m g (s1_of k b) r) as [Ho1 Ho2]; [lia..|].
  assert (0 < s1_of k b) by nia. assert (s1_of k b <= 2 ^ 31) by nia.
  unfold CalcS2TokenRange, raw_tokens. rewrite E1, E2, Ep, En, (ko_s1g k HK).
  rewrite (proj2 (Z.eqb_neq (s1_of k b) 0)), (proj2 (Z.eqb_neq (s2_of k b) 0)) by lia. cbn [orb].
  destruct (mask_cases b Hb) as [[-> ->]|(-> & -> & Hcase)]; [done|]. cbn -[i64 sdiv].
  rewrite (i64_id (r * m)), (i64_id (s1_of k b * g)), (i64_id (r * m + m)) by nia.
  rewrite !sdiv_ok by lia. cbn -[i64].
  rewrite !quot_nonneg_div by nia. fold (row_first m g r).
  replace (r * m + m) with ((r + 1) * m) by lia. fold (row_last m g (s1_of k b) r).
  destruct Hcase as [[-> ->]|(w & Hw & -> & ->)]; rewrite !i64_id by (unfold INT64_MAX; lia); done.
Qed.

(** The validity test and the clipping leave the tokens of the row. *)
Lemma raw_tokens_clip b r :
  0 <= b < batchSize_ k -> 0 <= r < rows_of k b -> 0 < s2_of k b ->
  let '(f, l) := raw_tokens b r in
  (f >=? s2_of k b) || (l <? 0) || (l <? f) = negb (attends k b r) /\
  (attends k b r = true ->
    Clip f 0 (s2_of k b - 1) = (tokens k b r).1 /\ Clip l 0 (s2_of k b - 1) = (tokens k b r).2).
Proof.
  intros Hb Hr Hs2. destruct (s1_spec b Hb) as (_ & P1 & Q1).
  pose proof (ko_g k HK) as Hg. pose proof (ko_m k HK) as Hm.
  assert (Hlt : r * m < s1_of k b * g) by (apply (ceil_div_lt _ m r); [lia|nia|apply Hr]).
  destruct (row_tokens_order m g (s1_of k b) r) as [Ho1 Ho2]; [lia..|].
  assert (0 < s1_of k b) by nia. assert (s1_of k b <= 2 ^ 31) by nia.
  unfold attends. rewrite (proj2 (Z.leb_le 0 r)), (proj2 (Z.ltb_lt r _)),
    (proj2 (Z.ltb_lt 0 _)) by lia. cbn [andb].
  unfold raw_tokens, tokens, row_tokens, Clip, INT64_MAX.
  destruct (mask_cases b Hb) as [[_ ->]|(_ & _ & [[-> _]|(w & Hw & -> & _)])]; simpl;
    rewrite Z.geb_leb; split;
    repeat match goal with
    | |- context [Z.leb ?a ?b] => destruct (Z.leb_spec a b)
    | |- context [Z.ltb ?a ?b] => destruct (Z.ltb_spec a b)
    | |- context [Z.gtb ?a ?b] => destruct (Z.gtb_spec a b)
    end; simpl; try done; intros; try done; try lia; split; lia.
Qed.

(** The token range of a row, ready for the block computation. *)
Definition range_for (b r : Z) (range : Z * Z) : Prop :=
  (range.1 >=? s2_of k b) || (range.2 <? 0) || (range.2 <? range.1) = negb (attends k b r) /\
  (attends k b r = true ->
    Clip range.1 0 (s2_of k b - 1) = (tokens k b r).1 /\
    Clip range.2 0 (s2_of k b - 1) = (tokens k b r).2).

Lemma token_range_returns b r bc :
  0 <= b < batchSize_ k -> 0 <= r < rows_of k b -> batch_cache b bc ->
  returns (CalcS2TokenRange k r bc) (range_for b r).
Proof.
  intros Hb Hr Hbc. destruct (s2_spec b Hb) as (_ & P2 & _).
  destruct (decide (s2_of k b = 0)) as [E|E].
  - unfold CalcS2TokenRange. rewrite (bk_s2 _ _ Hbc), E. cbn. rewrite orb_true_r.
    apply returns_ok. unfold range_for, attends. rewrite E. cbn.
    by rewrite andb_false_r.
  - rewrite (CalcS2TokenRange_returns b) by (done || lia). apply returns_ok.
    pose proof (raw_tokens_clip b r Hb Hr ltac:(lia)) as H. unfold range_for.
    destruct (raw_tokens b r). exact H.
Qed.

(** The block intervals of a row: window part first, compressed part behind
    it. *)
Record blocks_ok (b r : Z) (gc : S1GCache) : Prop := {
  bo_b : sg_bIdx gc = b;
  bo_r : sg_s1GIdx gc = r;
  bo_ws : winS2Start gc = 0;
  bo_we : winS2End gc = seg_blk sb (win_len k b r);
  bo_wt : winS2TailSize gc = win_len k b r mod sb;
  bo_cs : cmpS2Start gc = seg_blk sb (win_len k b r);
  bo_ce : cmpS2End gc = seg_blk sb (win_len k b r) + seg_blk sb (cmp_len k b r);
  bo_ct : cmpS2TailSize gc = cmp_len k b r mod sb
}.

Lemma blocks_range len : 0 <= len < 2 ^ 31 -> 0 <= seg_blk sb len <= len.
Proof. intros Hl. pose proof (ko_sb k HK). apply seg_blk_range; lia. Qed.

(** The compressed token count of the code. *)
Lemma cmp_tokens_code n :
  0 <= n < 2 ^ 31 ->
  returns (if hasCmpKv_ k then v ← sdiv n (cmpRatio_ k); Ok (u32 v) else Ok 0) (fun v =>
    (if isCFA k then v else if isSCFA k then Z.min v (u32 (cmpTopK_ k)) else 0) = cmp_tokens k n).
Proof.
  intros Hn. unfold cmp_tokens. pose proof (u32_range (cmpTopK_ k)).
  destruct (hasCmpKv_ k) eqn:Hc; simpl.
  - pose proof (ko_ratio k HK Hc). pose proof (ko_topk k HK Hc). rewrite sdiv_ok, quot_nonneg_div by lia. apply returns_ok.
    assert (0 <= n / cmpRatio_ k < 2 ^ 32).
    { split; [apply Z.div_pos; lia|]. apply Z.div_lt_upper_bound; nia. }
    by rewrite !u32_id by lia.
  - apply returns_ok. destruct (isCFA k), (isSCFA k); lia.
Qed.

Lemma CalcBlockRangeAndTailSize_returns b r bc range gc :
  0 <= b < batchSize_ k -> batch_cache b bc -> range_for b r range ->
  sg_bIdx gc = b -> sg_s1GIdx gc = r ->
  returns (CalcBlockRangeAndTailSize k range bc gc) (blocks_ok b r).
Proof.
  intros Hb Hbc [Hcond Hclip] Eb Er. destruct range as [f l]. cbn [fst snd] in *.
  destruct (s2_spec b Hb) as (_ & P2 & Q2). pose proof (ko_sb k HK) as Hsb.
  destruct (win_len_range b r Hb) as [Hw Hwp]. destruct (cmp_len_range b r Hb) as [Hc Hcz].
  pose proof (blocks_range (win_len k b r) Hw) as Hwb.
  pose proof (blocks_range (cmp_len k b r) ltac:(lia)) as Hcb.
  unfold CalcBlockRangeAndTailSize. rewrite (bk_s2 _ _ Hbc), Hcond.
  apply returns_bind. eapply (returns_mono _ (fun '(last, gc') =>
    0 <= last + 1 < 2 ^ 31 /\ cmp_tokens k (last + 1) = cmp_len k b r /\
    sg_bIdx gc' = b /\ sg_s1GIdx gc' = r /\ winS2Start gc' = 0 /\
    winS2End gc' = seg_blk sb (win_len k b r) /\ winS2TailSize gc' = win_len k b r mod sb)).
  - destruct (attends k b r) eqn:Ha; cbn [negb].
    + destruct (attends_spec b r Hb Ha) as (_ & _ & Ht & Hl2). specialize (Hwp eq_refl).
      destruct (Hclip eq_refl) as [Ef El]. rewrite (u32_id (s2_of k b - 1)) by lia.
      assert (Ewin : win_len k b r = (tokens k b r).2 - (tokens k b r).1 + 1)
        by (unfold win_len; by rewrite Ha).
      rewrite Ef, El, sdiv_ok, smod_ok by lia. cbn -[u32]. apply returns_ok. cbn -[u32].
      rewrite quot_nonneg_div by lia. rewrite Z.rem_mod_nonneg by lia. rewrite <- Ewin.
      replace ((tokens k b r).2 - (tokens k b r).1) with (win_len k b r - 1) by lia.
      rewrite <- seg_blk_last, u32_id by lia.
      split; [lia|]. split; [by unfold cmp_len; rewrite Ha|]. done.
    + apply returns_ok. unfold win_len. rewrite Ha. rewrite (Hcz eq_refl).
      rewrite seg_blk_zero by lia. split; [lia|]. split; [|done].
      unfold cmp_tokens.
      destruct (hasCmpKv_ k) eqn:Hcmp; simpl; [|done]. pose proof (ko_ratio k HK Hcmp).
      pose proof (ko_topk k HK Hcmp).
      rewrite Z.div_small by lia. destruct (isCFA k), (isSCFA k); lia.
  - intros [last g'] (Hlast & Hcmp & Gb & Gr & G1 & G2 & G3).
    apply returns_bind. eapply returns_mono; [by apply cmp_tokens_code|].
    cbn beta zeta. intros v ->. rewrite Hcmp, umod_ok by lia. apply returns_bind.
    eapply (returns_mono _ (fun e =>
      e = seg_blk sb (win_len k b r) + seg_blk sb (cmp_len k b r))).
    + apply returns_if; intros Hz; zify_tests.
      * apply returns_ok. cbn. rewrite G2, Hz, seg_blk_zero by lia. lia.
      * rewrite (u32_id (cmp_len k b r - 1)), udiv_ok by lia. apply returns_ok. cbn.
        rewrite (seg_blk_last sb ltac:(lia) (cmp_len k b r)) in * by lia.
        rewrite u32_id by lia. lia.
    + intros e ->. cbn. apply returns_ok. by split; cbn; rewrite ?G2.
Qed.

(** ** Cost table and cost of the parts *)

Definition tail_row (b r : Z) : bool := (r =? rows_of k b - 1) && negb (tail_of k b =? 0).

Lemma is_tail_row_returns b r si gc :
  0 <= b < batchSize_ k -> 0 <= r < rows_of k b -> split_upto (batchSize_ k) si ->
  sg_bIdx gc = b -> sg_s1GIdx gc = r ->
  is_tail_row gc si = Ok (tail_row b r).
Proof.
  intros Hb Hr [L1 _ L3 _ Hrows Htail _] Eb Er. pose proof (rows_range b Hb).
  unfold is_tail_row, tail_row. rewrite Eb, Er, !vget_ok by lia. cbn -[vat u32].
  rewrite Hrows, Htail, u32_id by lia. by destruct (r =? rows_of k b - 1).
Qed.

(** The entries of the cost table for the rows of [M] items. *)
Record table_for (M wt ct : Z) (tail : bool) (t : BlockCost) : Prop := {
  tf_wn : t (if tail then WIN_TAIL_BLOCK else WIN_NORMAL_BLOCK) WIN_NORMAL_BLOCK = unit_cost M sb;
  tf_wt : t (if tail then WIN_TAIL_BLOCK else WIN_NORMAL_BLOCK) WIN_TAIL_BLOCK =
    (if wt =? 0 then 0 else unit_cost M wt);
  tf_cn : hasCmpKv_ k = true ->
    t (if tail then CMP_TAIL_BLOCK else CMP_NORMAL_BLOCK) CMP_NORMAL_BLOCK = unit_cost M sb;
  tf_ct : hasCmpKv_ k = true ->
    t (if tail then CMP_TAIL_BLOCK else CMP_NORMAL_BLOCK) CMP_TAIL_BLOCK =
    (if ct =? 0 then 0 else unit_cost M ct)
}.

Lemma CalcCostTable_spec b r wt ct t :
  0 <= b < batchSize_ k -> 0 <= wt < sb -> 0 <= ct < sb ->
  table_for (row_m k b r) wt ct (tail_row b r) (CalcCostTable k m sb (tail_of k b) wt ct t).
Proof.
  intros Hb Hwt Hct. pose proof (ko_m k HK). pose proof (ko_sb k HK).
  pose proof (Z.mod_pos_bound (s1_of k b * g) m ltac:(lia)) as Htl. fold (tail_of k b) in Htl.
  unfold CalcCostTable, row_m, tail_row.
  destruct (Z.eqb_spec (tail_of k b) 0) as [Ez|Ez]; destruct (r =? rows_of k b - 1);
    cbn [andb negb]; destruct (hasCmpKv_ k) eqn:Hc; split; try done; intros; try congruence; cbn -[WinCalcCost CmpCalcCost];
    repeat match goal with |- context [if ?c =? 0 then _ else _] => destruct (c =? 0); try done end;
    (apply WinCalcCost_spec || apply CmpCalcCost_spec); lia.
Qed.

(** Full blocks and tail block of a part make up its cost. *)
Lemma part_cost b r len :
  0 < len < 2 ^ 31 ->
  let tailNum := if negb (len mod sb =? 0) then 1 else 0 in
  let tailCost := if len mod sb =? 0 then 0 else unit_cost (row_m k b r) (len mod sb) in
  i64 (unit_cost (row_m k b r) sb * u32 (seg_blk sb len - tailNum) + tailCost * tailNum) =
    seg_cost unit_cost sb (row_m k b r) len /\
  (if tailNum >? 0 then tailCost else unit_cost (row_m k b r) sb) =
    seg_last unit_cost sb (row_m k b r) len.
Proof.
  intros Hl. pose proof (ko_sb k HK).
  apply (seg_parts unit_cost sb ltac:(lia) _ (2 ^ 16)); [|lia|done]. intros s Hs. by apply row_unit.
Qed.

(** A part of the row cache: blocks, cost, last-block cost. *)
Definition part_ok (b r len : Z) (blk cost last : Z) : Prop :=
  blk = seg_blk sb len /\ cost = seg_cost unit_cost sb (row_m k b r) len /\
  last = seg_last unit_cost sb (row_m k b r) len.

Lemma part_zero b r : part_ok b r 0 0 0 0.
Proof.
  pose proof (ko_sb k HK). unfold part_ok. rewrite seg_blk_zero, seg_cost_zero by lia. done.
Qed.

(** What the win and the cmp computation do not touch of each other. *)
Lemma CalcWinS1GCache_returns b r si t gc :
  0 <= b < batchSize_ k -> 0 <= r < rows_of k b -> split_upto (batchSize_ k) si ->
  blocks_ok b r gc -> table_for (row_m k b r) (win_len k b r mod sb) (cmp_len k b r mod sb) (tail_row b r) t ->
  returns (CalcWinS1GCache t gc si) (fun gc' => blocks_ok b r gc' /\
    part_ok b r (win_len k b r) (winS1GBlock gc') (winS1GCost gc') (winS1GLastBlockCost gc')).
Proof.
  intros Hb Hr Hsi Hg Ht. pose proof Hg as [Gb Gr Gws Gwe Gwt _ _ _].
  pose proof (win_len_range b r Hb) as [Hw _]. pose proof (ko_sb k HK).
  pose proof (blocks_range (win_len k b r) Hw).
  unfold CalcWinS1GCache. rewrite Gws, Gwe, Z.geb_leb.
  apply returns_if; intros Hc; zify_tests.
  - apply returns_ok. assert (E : win_len k b r = 0).
    { destruct (decide (0 < win_len k b r)) as [Hp|]; [|lia].
      pose proof (ceil_div_pos _ sb ltac:(lia) Hp). unfold seg_blk in *. lia. }
    split; [by destruct Hg; split|]. cbn. rewrite E. apply part_zero.
  - cbn -[u32 i64 is_tail_row]. rewrite Gwt. assert (Hp : 0 < win_len k b r < 2 ^ 31).
    { split; [|lia]. destruct (decide (win_len k b r = 0)) as [E|]; [|lia].
      rewrite E, seg_blk_zero in Hc by lia. lia. }
    rewrite (is_tail_row_returns b r) by done. apply returns_ok. cbn -[u32 i64].
    split; [by destruct Hg; split|]. rewrite (tf_wn _ _ _ _ _ Ht), (tf_wt _ _ _ _ _ Ht).
    rewrite Z.sub_0_r, (u32_id (seg_blk _ _)) by lia.
    destruct (part_cost b r (win_len k b r) Hp) as [Ec El]. split; [done|]. by split.
Qed.

Lemma CalcCmpS1GCache_returns b r si t gc :
  0 <= b < batchSize_ k -> 0 <= r < rows_of k b -> split_upto (batchSize_ k) si ->
  blocks_ok b r gc -> table_for (row_m k b r) (win_len k b r mod sb) (cmp_len k b r mod sb) (tail_row b r) t ->
  part_ok b r (win_len k b r) (winS1GBlock gc) (winS1GCost gc) (winS1GLastBlockCost gc) ->
  returns (CalcCmpS1GCache t gc si) (fun gc' => blocks_ok b r gc' /\
    part_ok b r (win_len k b r) (winS1GBlock gc') (winS1GCost gc') (winS1GLastBlockCost gc') /\
    part_ok b r (cmp_len k b r) (cmpS1GBlock gc') (cmpS1GCost gc') (cmpS1GLastBlockCost gc')).
Proof.
  intros Hb Hr Hsi Hg Ht Hwin. pose proof Hg as [Gb Gr _ _ _ Gcs Gce Gct].
  pose proof (cmp_len_range b r Hb) as [Hw _]. pose proof (ko_sb k HK).
  pose proof (blocks_range (cmp_len k b r) ltac:(lia)).
  unfold CalcCmpS1GCache. rewrite Gcs, Gce, Z.geb_leb.
  apply returns_if; intros Hc; zify_tests.
  - apply returns_ok. assert (E : cmp_len k b r = 0).
    { destruct (decide (0 < cmp_len k b r)) as [Hp|]; [|lia].
      pose proof (ceil_div_pos _ sb ltac:(lia) Hp). unfold seg_blk in *. lia. }
    split; [by destruct Hg; split|]. split; [done|]. cbn. rewrite E. apply part_zero.
  - cbn -[u32 i64 is_tail_row]. rewrite Gct. assert (Hp : 0 < cmp_len k b r < 2 ^ 31).
    { split; [|lia]. destruct (decide (cmp_len k b r = 0)) as [E|]; [|lia].
      rewrite E, seg_blk_zero in Hc by lia. lia. }
    assert (Hhas : hasCmpKv_ k = true).
    { destruct (hasCmpKv_ k) eqn:E; [done|]. unfold cmp_len, cmp_tokens in Hp. rewrite E in Hp.
      simpl in Hp. destruct (attends k b r); lia. }
    rewrite (is_tail_row_returns b r) by done. apply returns_ok. cbn -[u32 i64].
    split; [by destruct Hg; split|]. split; [done|].
    rewrite (tf_cn _ _ _ _ _ Ht Hhas), (tf_ct _ _ _ _ _ Ht Hhas).
    replace (seg_blk sb (win_len k b r) + seg_blk sb (cmp_len k b r) - seg_blk sb (win_len k b r))
      with (seg_blk sb (cmp_len k b r)) by lia. rewrite (u32_id (seg_blk _ _)) by lia.
    destruct (part_cost b r (cmp_len k b r) Hp) as [Ec El]. split; [done|]. by split.
Qed.

Lemma GatherWinAndCmpCache_spec b r t gc :
  0 <= b < batchSize_ k -> blocks_ok b r gc ->
  part_ok b r (win_len k b r) (winS1GBlock gc) (winS1GCost gc) (winS1GLastBlockCost gc) ->
  part_ok b r (cmp_len k b r) (cmpS1GBlock gc) (cmpS1GCost gc) (cmpS1GLastBlockCost gc) ->
  row_cache (workload_of k) b r (mkRowState t (GatherWinAndCmpCache gc)).
Proof.
  intros Hb Hg (Wb & Wc & Wl) (Cb & Cc & Cl).
  destruct (win_len_range b r Hb) as [Hw Hwp]. destruct (cmp_len_range b r Hb) as [Hc Hcz].
  pose proof (ko_sb k HK) as Hsb.
  pose proof (blocks_range (win_len k b r) Hw) as Hwb.
  pose proof (blocks_range (cmp_len k b r) ltac:(lia)) as Hcb.
  destruct (seg_facts b r (win_len k b r) ltac:(lia)) as (_ & A1 & A2).
  destruct (seg_facts b r (cmp_len k b r) ltac:(lia)) as (_ & B1 & B2).
  destruct Hg as [_ _ Gws Gwe _ Gcs Gce _].
  assert (Hpos : (seg_blk sb (cmp_len k b r) >? 0) = (0 <? cmp_len k b r)).
  { rewrite Z.gtb_ltb. destruct (Z.ltb_spec 0 (cmp_len k b r)) as [Hp|Hz].
    - apply Z.ltb_lt. by apply ceil_div_pos; [lia|].
    - apply Z.ltb_ge. replace (cmp_len k b r) with 0 by lia. by rewrite seg_blk_zero by lia. }
  unfold GatherWinAndCmpCache. cbn -[u32 i64]. rewrite Wb, Cb, Hpos.
  split; cbn -[u32 i64]; (destruct (Z.ltb_spec 0 (cmp_len k b r)); cbn -[u32 i64]);
    rewrite ?Wb, ?Cb, ?Wc, ?Cc, ?Wl, ?Cl, ?u32_id, ?i64_id, ?Gws, ?Gcs, ?Gwe, ?Gce by lia;
    try done; try lia.
  all: try (unfold row_last_cost; case_match; zify_tests; lia || done).
  all: destruct (Z.gtb_spec (seg_blk sb (win_len k b r)) 0); lia.
Qed.

Lemma CalcS1GCache_returns b r si bc s :
  pos_ok (workload_of k) b r -> split_upto (batchSize_ k) si -> batch_cache b bc ->
  returns (CalcS1GCache k r si bc s) (row_cache (workload_of k) b r).
Proof.
  intros [Hb Hr] Hsi Hbc. cbn [workload_of wl_nb wl_rows] in Hb, Hr.
  pose proof Hsi as [L1 _ L3 _ Hrows Htail _]. pose proof (rows_range b Hb).
  pose proof (ko_sb k HK) as Hsb.
  unfold CalcS1GCache. rewrite (bk_b _ _ Hbc), vget_ok by lia. cbn -[vat].
  rewrite Hrows by lia. apply returns_if; intros Hz; zify_tests.
  - apply returns_ok.
    destruct (row_empty b r) as (E1 & E2 & E3).
    { unfold attends. rewrite Hz, (proj2 (Z.ltb_ge r 0)) by lia. by rewrite andb_false_r. }
    by split; cbn; rewrite ?E1, ?E2, ?E3.
  - assert (Hr' : 0 <= r < rows_of k b) by lia.
    eapply returns_bind_mono; [by apply token_range_returns|]. intros range Hrange.
    eapply returns_bind_mono; [by apply (CalcBlockRangeAndTailSize_returns b r)|].
    intros g1 Hg1. rewrite (bo_b _ _ _ Hg1), vget_ok by lia. cbn -[vat u32 CalcCostTable].
    rewrite Htail by lia. pose proof (Z.mod_pos_bound (win_len k b r) sb ltac:(lia)) as M1.
    pose proof (Z.mod_pos_bound (cmp_len k b r) sb ltac:(lia)) as M2.
    rewrite (bo_wt _ _ _ Hg1), (bo_ct _ _ _ Hg1), !u32_id by lia.
    pose proof (CalcCostTable_spec b r _ _ (typeCost_ s) Hb M1 M2) as Ht.
    eapply returns_bind_mono; [by eapply CalcWinS1GCache_returns|]. intros g2 [Hg2 Hw2].
    eapply returns_bind_mono; [by eapply CalcCmpS1GCache_returns|]. intros g3 (Hg3 & Hw3 & Hc3).
    apply returns_ok. by apply GatherWinAndCmpCache_spec.
Qed.

(** The shared-KV kernels meet the interface of the assignment engine. *)
#[global] Program Instance SharedKv_RowModel si (Hsi : split_upto (batchSize_ k) si) :
  RowModel k si (workload_of k) := {
  rm_wl := workload_ok;
  rm_batch := batch_cache;
  rm_batchSize := eq_refl;
  rm_heads := ko_heads k HK;
  rm_rows_len := su_l1 _ _ Hsi;
  rm_rows := su_rows _ _ Hsi;
  rm_CalcBatchCache b bc Hb := CalcBatchCache_returns b si bc Hb;
  rm_fresh s := eq_refl;
  rm_CalcS1GCache b r bc s Hp Hbc _ := CalcS1GCache_returns b r si bc s Hp Hsi Hbc
}.
Next Obligation.
  intros si Hsi b Hb. cbn in *. destruct (s1_spec b Hb) as (-> & _). apply returns_ok.
  intros Hz r Hr. apply row_empty. unfold attends, rows_of. pose proof (ko_m k HK).
  rewrite Hz, (proj2 (Z.ltb_ge r _)); [by rewrite andb_false_r|].
  unfold ceil_div. rewrite Z.div_small; lia.
Qed.
Next Obligation.
  intros si Hsi b Hb. cbn in *. destruct (s2_spec b Hb) as (-> & _). apply returns_ok.
  intros Hz r Hr. apply row_empty. unfold attends. rewrite Hz. cbn. by rewrite andb_false_r.
Qed.
Next Obligation. done. Qed.

(** A batch with queries and keys has work: its last row attends to the last
    token. *)
Lemma last_row_attends b :
  0 <= b < batchSize_ k -> 0 < rows_of k b -> 0 < s2_of k b ->
  attends k b (rows_of k b - 1) = true.
Proof.
  intros Hb Hr Hs2. destruct (s1_spec b Hb) as (_ & P1 & _). pose proof (ko_m k HK).
  pose proof (ko_g k HK). unfold attends.
  rewrite (proj2 (Z.leb_le 0 _)), (proj2 (Z.ltb_lt _ _)), (proj2 (Z.ltb_lt 0 _)) by lia.
  cbn [andb]. apply Z.leb_le.
  assert (Hlast : row_last m g (s1_of k b) (rows_of k b - 1) = s1_of k b - 1).
  { apply row_last_end; [lia..|].
    assert (~ rows_of k b < rows_of k b) as Hn by lia.
    unfold rows_of in Hn at 2. rewrite ceil_div_lt in Hn by nia. lia. }
  unfold tokens, row_tokens.
  destruct (mask_of k); simpl; rewrite ?Hlast; lia.
Qed.

(** Without such a batch there is no work. *)
Lemma total_zero si :
  split_upto (batchSize_ k) si -> isKvSeqAllZero si = true ->
  total (workload_of k) (row_cost k) = 0.
Proof.
  intros Hsi Hz. rewrite (su_zero _ _ Hsi) in Hz. apply sumZ_zero. intros b Hb.
  apply sumZ_zero. intros r Hr. cbn in Hb, Hr. apply row_empty.
  assert (Hb' : In (Z.to_nat b) (seq 0 (Z.to_nat (batchSize_ k)))) by (apply in_seq; lia).
  pose proof (proj1 (forallb_forall _ _) Hz _ Hb') as E. cbn in E.
  rewrite Z2Nat.id in E by lia. unfold attends.
  destruct (Z.eqb_spec (rows_of k b) 0) as [E1|E1]; cbn in E.
  - lia.
  - zify_tests. rewrite E. cbn. by rewrite andb_false_r.
Qed.

Lemma total_pos si :
  split_upto (batchSize_ k) si -> isKvSeqAllZero si = false ->
  0 < total (workload_of k) (row_cost k).
Proof.
  intros Hsi Hz. rewrite (su_zero _ _ Hsi) in Hz.
  destruct (forallb_false_inv _ _ Hz) as (x & Hx & Hp). apply elem_of_seq in Hx. set (b := Z.of_nat x) in *.
  assert (Hb : 0 <= b < batchSize_ k) by lia. pose proof (rows_range b Hb).
  destruct (s2_spec b Hb) as (_ & P2 & _).
  destruct (Z.eqb_spec (rows_of k b) 0); [done|]. destruct (Z.eqb_spec (s2_of k b) 0); [done|].
  pose proof workload_ok as OK.
  destruct (row_full b (rows_of k b - 1) Hb) as [_ Hc]; [apply last_row_attends; lia|].
  pose proof (row_cost_le _ OK b (rows_of k b - 1) Hb ltac:(lia)) as H1.
  pose proof (row_sum_cost_range _ OK b (rows_of k b - 1) Hb ltac:(lia)) as H2.
  pose proof (rest_le_total (workload_of k) (wl_cost (workload_of k)) b (rows_of k b - 1)
    ltac:(intros; by apply wl_cost_nonneg) ltac:(cbn; lia) ltac:(lia)) as H3.
  cbn [workload_of wl_cost] in *. lia.
Qed.

(** The basic-block split of the kernel, as the engine needs it. *)
#[global] Program Instance SharedKv_KernelModel : KernelModel k (workload_of k) := {
  km_batch := eq_refl;
  km_heads := ko_heads k HK;
  km_range := ko_batch k HK;
  km_rows := rows_range
}.
Next Obligation.
  eapply returns_mono; [apply CalcSplitInfo_returns|]. intros si Hsi.
  split; [by exists (SharedKv_RowModel si Hsi)|].
  destruct (isKvSeqAllZero si) eqn:Ez; [by apply (total_zero si)|by apply (total_pos si)].
Qed.
End Rows.
