(* ===== verification/Metadata.v ===== *)
(** * The metadata buffer

    The output tensor of a metadata kernel is a flat array of 32-bit words,
    written on the AICPU as a struct of two tables (SasMetaData, QliMetaData)
    and read on the AI cores with GetAttrAbsIndex.  The three operators differ
    in the width of a row of the first table. *)

From S2P Require Import Prelude SplitTypes.

(** ** Layout *)

Definition AIC_CORE_NUM : Z := 36.
Definition AIV_CORE_NUM : Z := 72.
Definition FD_METADATA_SIZE : Z := 8.

Definition FA_CORE_ENABLE_INDEX : Z := 0.
Definition FA_BN2_START_INDEX : Z := 1.
Definition FA_M_START_INDEX : Z := 2.
Definition FA_S2_START_INDEX : Z := 3.
Definition FA_BN2_END_INDEX : Z := 4.
Definition FA_M_END_INDEX : Z := 5.
Definition FA_S2_END_INDEX : Z := 6.
Definition FA_FIRST_FD_DATA_WORKSPACE_IDX_INDEX : Z := 7.
Definition FA_S2_MAX_NUM : Z := 8.

Definition FD_CORE_ENABLE_INDEX : Z := 0.
Definition FD_BN2_IDX_INDEX : Z := 1.
Definition FD_M_IDX_INDEX : Z := 2.
Definition FD_WORKSPACE_IDX_INDEX : Z := 3.
Definition FD_WORKSPACE_NUM_INDEX : Z := 4.
Definition FD_M_START_INDEX : Z := 5.
Definition FD_M_NUM_INDEX : Z := 6.

Section Layout.
(** [faw] is [FA_METADATA_SIZE] of the operator. *)
Context (faw : Z).

(** [GetAttrAbsIndex] of the AI core side. *)
Definition GetAttrAbsIndex (coreIdx metaIdx : Z) (isAIV : bool) : Z :=
  if isAIV then u32 (faw * AIC_CORE_NUM + FD_METADATA_SIZE * coreIdx + metaIdx)
  else u32 (faw * coreIdx + metaIdx).

(** Words of the struct. *)
Definition meta_words : Z := AIC_CORE_NUM * faw + AIV_CORE_NUM * FD_METADATA_SIZE.

(** [faMetadata[i][j] = v] and [fdMetadata[i][j] = v]: an index outside the
    declared table is out of bounds, wherever in memory it points. *)
Definition fa_set (i j v : Z) (buf : list Z) : res (list Z) :=
  if (0 <=? i) && (i <? AIC_CORE_NUM) && (0 <=? j) && (j <? faw)
  then vset buf (faw * i + j) (u32 v) else Fault OutOfBounds.
Definition fd_set (i j v : Z) (buf : list Z) : res (list Z) :=
  if (0 <=? i) && (i <? AIV_CORE_NUM) && (0 <=? j) && (j <? FD_METADATA_SIZE)
  then vset buf (faw * AIC_CORE_NUM + FD_METADATA_SIZE * i + j) (u32 v) else Fault OutOfBounds.

(** Assignments to one row of a table, in order. *)
Fixpoint fa_row (i : Z) (ws : list (Z * Z)) (buf : list Z) : res (list Z) :=
  match ws with
  | [] => Ok buf
  | (j, v) :: ws => buf ← fa_set i j v buf; fa_row i ws buf
  end.
Fixpoint fd_row (i : Z) (ws : list (Z * Z)) (buf : list Z) : res (list Z) :=
  match ws with
  | [] => Ok buf
  | (j, v) :: ws => buf ← fd_set i j v buf; fd_row i ws buf
  end.

(** ** Bodies of the loops of GenMetaData *)

(** [i == 0 ? 0 : v[i-1]] *)
Definition prev_end (v : list Z) (i : Z) : res Z := if i =? 0 then Ok 0 else vget v (i - 1).

Definition gen_fa (r : SplitResult) (i : Z) (buf : list Z) : res (list Z) :=
  if i >=? usedCoreNum r then fa_row i [(FA_CORE_ENABLE_INDEX, 0)] buf
  else
    b0 ← prev_end (bN2End r) i;
    g0 ← prev_end (gS1End r) i;
    s0 ← prev_end (sr_s2End r) i;
    b1 ← vget (bN2End r) i;
    g1 ← vget (gS1End r) i;
    s1 ← vget (sr_s2End r) i;
    w ← vget (firstFdDataWorkspaceIdx r) i;
    fa_row i
      [(FA_CORE_ENABLE_INDEX, 1);
       (FA_BN2_START_INDEX, b0); (FA_M_START_INDEX, g0); (FA_S2_START_INDEX, s0);
       (FA_BN2_END_INDEX, b1); (FA_M_END_INDEX, g1); (FA_S2_END_INDEX, s1);
       (FA_FIRST_FD_DATA_WORKSPACE_IDX_INDEX, w)] buf.

Definition gen_fd (r : SplitResult) (i : Z) (buf : list Z) : res (list Z) :=
  let fd := fdRes r in
  if i >=? fdUsedVecNum fd then fd_row i [(FD_CORE_ENABLE_INDEX, 0)] buf
  else
    curFdIdx ← vget (fdIdx fd) i;
    b ← vget (fdBN2Idx fd) curFdIdx;
    m ← vget (fdMIdx fd) curFdIdx;
    w ← vget (fdWorkspaceIdx fd) curFdIdx;
    n ← vget (fdS2SplitNum fd) curFdIdx;
    ms ← vget (fdMStart fd) i;
    mn ← vget (fdMNum fd) i;
    fd_row i
      [(FD_CORE_ENABLE_INDEX, 1); (FD_BN2_IDX_INDEX, b); (FD_M_IDX_INDEX, m);
       (FD_WORKSPACE_IDX_INDEX, w); (FD_WORKSPACE_NUM_INDEX, n);
       (FD_M_START_INDEX, ms); (FD_M_NUM_INDEX, mn)] buf.

(** What the core side reads. *)
Definition fa_get (buf : list Z) (i j : Z) : Z := vat buf (GetAttrAbsIndex i j false).
Definition fd_get (buf : list Z) (i j : Z) : Z := vat buf (GetAttrAbsIndex i j true).

(** ** Rows written and read back *)

Context (Hfaw : 0 < faw <= 16).

Lemma GetAttrAbsIndex_fa i j :
  0 <= i < AIC_CORE_NUM -> 0 <= j < faw -> GetAttrAbsIndex i j false = faw * i + j.
Proof. unfold AIC_CORE_NUM. intros. unfold GetAttrAbsIndex. rewrite u32_id; nia. Qed.

Lemma GetAttrAbsIndex_fd i j :
  0 <= i < AIV_CORE_NUM -> 0 <= j < FD_METADATA_SIZE ->
  GetAttrAbsIndex i j true = faw * AIC_CORE_NUM + FD_METADATA_SIZE * i + j.
Proof.
  unfold AIC_CORE_NUM, AIV_CORE_NUM, FD_METADATA_SIZE. intros. unfold GetAttrAbsIndex.
  unfold AIC_CORE_NUM, FD_METADATA_SIZE. rewrite u32_id; nia.
Qed.

(** Different attributes of the tables are different words. *)
Lemma fa_index_inj i j i' j' :
  0 <= j < faw -> 0 <= j' < faw -> faw * i + j = faw * i' + j' -> i = i' /\ j = j'.
Proof. intros. assert (i = i') by nia. subst. lia. Qed.

(** A buffer that [writes] [(j, v)] pairs into row [i] of the first table. *)
Record row_written (i : Z) (ws : list (Z * Z)) (buf buf' : list Z) : Prop := {
  rw_len : length buf' = length buf;
  rw_in : forall j v, (j, v) ∈ ws -> fa_get buf' i j = u32 v;
  rw_row : forall j, 0 <= j < faw -> j ∉ ws.*1 -> fa_get buf' i j = fa_get buf i j;
  rw_rows : forall i' j, 0 <= i' < AIC_CORE_NUM -> 0 <= j < faw -> i' <> i ->
    fa_get buf' i' j = fa_get buf i' j;
  rw_fd : forall i' j, 0 <= i' < AIV_CORE_NUM -> 0 <= j < FD_METADATA_SIZE ->
    fd_get buf' i' j = fd_get buf i' j
}.

Lemma fa_set_returns i j v buf :
  0 <= i < AIC_CORE_NUM -> 0 <= j < faw -> meta_words <= Z.of_nat (length buf) ->
  returns (fa_set i j v buf) (row_written i [(j, v)] buf).
Proof.
  intros Hi Hj Hl. unfold meta_words in Hl.
  assert (Hidx : 0 <= faw * i + j < AIC_CORE_NUM * faw) by nia.
  unfold fa_set. rewrite (proj2 (Z.leb_le 0 i)), (proj2 (Z.ltb_lt i _)),
    (proj2 (Z.leb_le 0 j)), (proj2 (Z.ltb_lt j _)) by lia. cbn [andb].
  unfold AIV_CORE_NUM, FD_METADATA_SIZE in Hl.
  apply returns_vset; [lia|]. split.
  - by rewrite length_insert.
  - intros j' v' [= -> ->]%list_elem_of_singleton. unfold fa_get.
    rewrite GetAttrAbsIndex_fa by lia. by rewrite vat_insert_eq by lia.
  - intros j' Hj' Hne. assert (j' <> j) by (intros ->; apply Hne; left). unfold fa_get.
    rewrite GetAttrAbsIndex_fa by lia. by rewrite vat_insert_ne by nia.
  - intros i' j' Hi' Hj' Hne. unfold fa_get. rewrite GetAttrAbsIndex_fa by lia.
    rewrite vat_insert_ne; [done|nia|nia|]. intros E.
    destruct (fa_index_inj _ _ _ _ Hj Hj' E). lia.
  - intros i' j' Hi' Hj'. unfold fd_get. rewrite GetAttrAbsIndex_fd by lia.
    unfold FD_METADATA_SIZE in *. rewrite vat_insert_ne; [done|nia|nia|nia].
Qed.

Lemma fa_row_returns i ws buf :
  0 <= i < AIC_CORE_NUM -> Forall (fun j => 0 <= j < faw) ws.*1 -> NoDup ws.*1 ->
  meta_words <= Z.of_nat (length buf) ->
  returns (fa_row i ws buf) (row_written i ws buf).
Proof.
  intros Hi. revert buf. induction ws as [|[j v] ws IH]; intros buf Hj Hnd Hl; simpl fa_row.
  - apply returns_ok. split; try done. intros j v Hin. by apply not_elem_of_nil in Hin.
  - simpl in Hj, Hnd. apply Forall_cons_1 in Hj as [Hj0 Hj]. inversion_clear Hnd as [|? ? Hni Hnd0]; rename Hnd0 into Hnd.
    eapply returns_bind_mono; [by apply fa_set_returns|]. intros b1 [L1 I1 R1 O1 F1].
    eapply returns_mono; [apply IH; [done|done|by rewrite L1]|]. intros b2 [L2 I2 R2 O2 F2].
    split.
    + congruence.
    + intros j' v' [[= -> ->]|Hin]%elem_of_cons; [|by apply I2].
      rewrite R2 by done. apply I1. left.
    + intros j' Hr Hn. apply not_elem_of_cons in Hn as [Hne Hn].
      rewrite R2, R1; try done. simpl. rewrite list_elem_of_singleton. done.
    + intros i' j' Hi' Hj' Hne. by rewrite O2, O1.
    + intros i' j' Hi' Hj'. by rewrite F2, F1.
Qed.

(** The only word of the second table that is written when no reduction is
    needed. *)
Lemma fd_disable_returns i buf :
  0 <= i < AIV_CORE_NUM -> meta_words <= Z.of_nat (length buf) ->
  returns (fd_row i [(FD_CORE_ENABLE_INDEX, 0)] buf) (fun buf' =>
    length buf' = length buf /\ fd_get buf' i FD_CORE_ENABLE_INDEX = 0 /\
    (forall i', 0 <= i' < AIV_CORE_NUM -> i' <> i ->
      fd_get buf' i' FD_CORE_ENABLE_INDEX = fd_get buf i' FD_CORE_ENABLE_INDEX) /\
    forall i' j, 0 <= i' < AIC_CORE_NUM -> 0 <= j < faw -> fa_get buf' i' j = fa_get buf i' j).
Proof.
  intros Hi Hl. unfold meta_words, AIC_CORE_NUM, AIV_CORE_NUM, FD_METADATA_SIZE in *.
  simpl fd_row. unfold fd_set, FD_CORE_ENABLE_INDEX, AIV_CORE_NUM.
  rewrite (proj2 (Z.leb_le 0 i)), (proj2 (Z.ltb_lt i _)) by lia. cbn -[vset].
  rewrite vset_ok by (unfold AIC_CORE_NUM, FD_METADATA_SIZE; lia). apply returns_ok.
  unfold fd_get, fa_get. rewrite length_insert. split; [done|]. split; [|split].
  - rewrite GetAttrAbsIndex_fd by (unfold AIV_CORE_NUM, FD_METADATA_SIZE; lia).
    rewrite vat_insert_eq by (unfold AIC_CORE_NUM, FD_METADATA_SIZE; lia). done.
  - intros i' Hi' Hne.
    rewrite GetAttrAbsIndex_fd by (unfold AIV_CORE_NUM, FD_METADATA_SIZE; lia).
    rewrite vat_insert_ne by (unfold AIC_CORE_NUM, FD_METADATA_SIZE; lia). done.
  - intros i' j Hi' Hj. rewrite GetAttrAbsIndex_fa by (unfold AIC_CORE_NUM; lia).
    rewrite vat_insert_ne; [done|unfold AIC_CORE_NUM, FD_METADATA_SIZE; nia..].
Qed.
End Layout.
