(* ===== verification/SasMeta.v ===== *)
(** * The sparse_attn_sharedkv metadata kernel

    SparseAttnSharedkvMetadataCpuKernel: reading and checking the attributes,
    the assignment of blocks to one core, the reduction records, the schedule
    and the metadata it writes.  The row model is in SharedKv, the assignment
    engine in Assign. *)

From S2P Require Import Prelude SplitTypes Assign SharedKv Metadata.

Module Sas.

Definition FA_METADATA_SIZE : Z := 8.

Section Kernel.
Implicit Types (k : Kernel) (ctx : SplitContext) (ac : AssignContext RowState) (r : SplitResult).

(** ** Parameter checks *)

Definition CheckSingleParam k : bool :=
  match metaData_ k with
  | None => false
  | Some t =>
      match GetDimSize0 t, GetData t with
      | Some _, Some _ =>
          if (aicCoreNum_ k =? 0) || (aivCoreNum_ k =? 0) then false
          else if batchSize_ k <? 0 then false
          else if querySeqSize_ k <? 0 then false
          else if String.eqb (layoutKv_ k) "BSND" && negb (queryHeadNum_ k =? 64) &&
                  negb (queryHeadNum_ k =? 32) then false
          else if negb (kvHeadNum_ k =? 1) then false
          else if negb (u32 (oriMaskMode_ k) =? SparseMode_value DEFAULT_MASK) &&
                  negb (u32 (oriMaskMode_ k) =? SparseMode_value RIGHT_DOWN_CAUSAL) &&
                  negb (u32 (oriMaskMode_ k) =? SparseMode_value BAND) then false
          else if negb (winLeft_ k =? 127) then false
          else if negb (String.eqb (layoutQuery_ k) "TND") &&
                  negb (String.eqb (layoutQuery_ k) "BSND") then false
          else if negb (String.eqb (layoutKv_ k) "PA_ND") && negb (String.eqb (layoutKv_ k) "TND") &&
                  negb (String.eqb (layoutKv_ k) "BSND") then false
          else if String.eqb (layoutQuery_ k) "TND" && String.eqb (layoutKv_ k) "BSND" then false
          else true
      | _, _ => false
      end
  end.

Definition CheckExistence k : bool :=
  if String.eqb (layoutQuery_ k) "TND" && isInvalid (actSeqLenQ_ k) then false
  else if String.eqb (layoutKv_ k) "PA_ND" && isInvalid (seqUsedKv_ k) then false
  else true.

(** [dim0 t] is [GetTensorShape()->GetDimSize(0)] of a tensor with data and
    a shape. *)
Definition dim0 (t : option Tensor) : option Z :=
  match t with
  | Some t => match GetData t with Some _ => GetDimSize0 t | None => None end
  | None => None
  end.

Definition GetQueryBatchSize k : Z :=
  match dim0 (seqUsedQ_ k) with
  | Some n => i32 n
  | None =>
      match (if String.eqb (layoutQuery_ k) "TND" then dim0 (actSeqLenQ_ k) else None) with
      | Some n => i32 (n - 1)
      | None => batchSize_ k
      end
  end.

Definition GetKvBatchSize k : Z :=
  match dim0 (seqUsedKv_ k) with
  | Some n => i32 n
  | None =>
      match (if String.eqb (layoutKv_ k) "TND" then dim0 (actSeqLenOriKv_ k) else None) with
      | Some n => i32 (n - 1)
      | None => batchSize_ k
      end
  end.

(** The batch-size comparison is commented out in the source. *)
Definition CheckConsistency k : bool := true.

Definition CheckFeature k : bool :=
  if hasCmpKv_ k then
    if negb (cmpTopK_ k =? 0) && negb (cmpTopK_ k =? 512) && negb (cmpTopK_ k =? 1024) then false
    else if negb (cmpRatio_ k =? 4) && negb (cmpRatio_ k =? 128) then false
    else true
  else true.

Definition ParamsCheck k : bool :=
  CheckSingleParam k && CheckExistence k && CheckConsistency k && CheckFeature k.

Definition ProcessSocVersion k : ValidSocVersion :=
  if string_contains "Ascend950" (socVersion_ k) then ASCEND950 else ASCEND910.

(** ** Initialisation *)

(** [preToken_], [nextToken_] and [attentionMode_] from the mask mode. *)
Definition init_mask k : Kernel :=
  match to_SparseMode (oriMaskMode_ k) with
  | DEFAULT_MASK =>
      k <| preToken_ := INT64_MAX |> <| nextToken_ := INT64_MAX |> <| attentionMode_ := 0 |>
  | RIGHT_DOWN_CAUSAL =>
      k <| preToken_ := INT64_MAX |> <| nextToken_ := 0 |> <| attentionMode_ := 1 |>
  | _ =>
      k <| preToken_ := if winLeft_ k >? -1 then winLeft_ k else INT64_MAX |>
        <| nextToken_ := 0 |> <| attentionMode_ := 1 |>
  end.

Definition ParamsInit k : res (bool * Kernel) :=
  let k := k <| batchSize_ := GetQueryBatchSize k |> in
  let k := init_mask k in
  let k := k <| isS1G_ := String.eqb (layoutQuery_ k) "BSND" || String.eqb (layoutQuery_ k) "BSH" ||
                          String.eqb (layoutQuery_ k) "TND" |> in
  gs ← sdiv (queryHeadNum_ k) (kvHeadNum_ k);
  let k := k <| groupSize_ := u32 gs |> in
  let k := if hasCmpKv_ k then
             if cmpTopK_ k >? 0 then k <| isSCFA := true |> else k <| isCFA := true |>
           else k in
  Ok (true,
      match ProcessSocVersion k with
      | ASCEND910 => k <| mBaseSize_ := groupSize_ k |> <| s2BaseSize_ := 512 |>
      | ASCEND950 => k <| mBaseSize_ := 64 |> <| s2BaseSize_ := 128 |>
      | RESERVED_VERSION => k
      end).

Definition Prepare (c : CpuKernelContext) k : res (bool * Kernel) :=
  let k := k <| actSeqLenQ_ := Input c 0 |> <| actSeqLenOriKv_ := Input c 1 |>
             <| actSeqLenCmpKv_ := Input c 2 |> <| seqUsedQ_ := Input c 3 |>
             <| seqUsedKv_ := Input c 4 |> <| metaData_ := Output c 0 |> in
  let '(ok1, v) := GetAttrValue GetInt32 c "num_heads_q" (queryHeadNum_ k) in
  let k := k <| queryHeadNum_ := v |> in
  let '(ok2, v) := if ok1 : bool then GetAttrValue GetInt32 c "num_heads_kv" (kvHeadNum_ k)
                   else (false, kvHeadNum_ k) in
  let k := k <| kvHeadNum_ := v |> in
  let '(requiredAttrs, v) := if ok2 : bool then GetAttrValue GetInt32 c "head_dim" (headDim_ k)
                             else (false, headDim_ k) in
  let k := k <| headDim_ := v |> in
  let k := k <| socVersion_ := GetAttrValueOpt GetString c "soc_version" (socVersion_ k) |>
             <| aicCoreNum_ := GetAttrValueOpt GetUint32 c "aic_core_num" (aicCoreNum_ k) |>
             <| aivCoreNum_ := GetAttrValueOpt GetUint32 c "aiv_core_num" (aivCoreNum_ k) |> in
  if negb requiredAttrs then Ok (false, k)
  else
    let k := k
      <| batchSize_ := GetAttrValueOpt GetInt32 c "batch_size" (batchSize_ k) |>
      <| querySeqSize_ := GetAttrValueOpt GetInt32 c "max_seqlen_q" (querySeqSize_ k) |>
      <| kvSeqSize_ := GetAttrValueOpt GetInt32 c "max_seqlen_kv" (kvSeqSize_ k) |>
      <| oriTopK_ := GetAttrValueOpt GetInt32 c "ori_topk" (oriTopK_ k) |>
      <| cmpTopK_ := GetAttrValueOpt GetInt32 c "cmp_topk" (cmpTopK_ k) |>
      <| cmpRatio_ := GetAttrValueOpt GetInt32 c "cmp_ratio" (cmpRatio_ k) |>
      <| oriMaskMode_ := GetAttrValueOpt GetInt32 c "ori_mask_mode" (oriMaskMode_ k) |>
      <| cmpMaskMode_ := GetAttrValueOpt GetInt32 c "cmp_mask_mode" (cmpMaskMode_ k) |>
      <| winLeft_ := GetAttrValueOpt GetInt64 c "ori_win_left" (winLeft_ k) |>
      <| winRight_ := GetAttrValueOpt GetInt64 c "ori_win_right" (winRight_ k) |>
      <| layoutQuery_ := GetAttrValueOpt GetString c "layout_q" (layoutQuery_ k) |>
      <| layoutKv_ := GetAttrValueOpt GetString c "layout_kv" (layoutKv_ k) |>
      <| hasOriKv_ := GetAttrValueOpt GetBool c "has_ori_kv" (hasOriKv_ k) |>
      <| hasCmpKv_ := GetAttrValueOpt GetBool c "has_cmp_kv" (hasCmpKv_ k) |> in
    if ParamsCheck k then ParamsInit k else Ok (false, k).

(** ** Assignment to one core *)

Definition RecordFDInfo k ctx ac r : res SplitResult :=
  let prev := u32 (curCoreIdx ac - 1) in
  b ← vget (bN2End r) prev;
  splitBIdx ← udiv b (u32 (kvHeadNum_ k));
  splitS1GIdx ← vget (gS1End r) prev;
  size ← fd_m_size k (splitInfo ctx) splitBIdx splitS1GIdx;
  let n := numOfFdHead r in
  let fd := fdRes r in
  v1 ← vset (fdBN2Idx fd) n b;
  v2 ← vset (fdMIdx fd) n splitS1GIdx;
  v3 ← vset (fdWorkspaceIdx fd) n (u32 (curFdDataNum ac - curKvSplitPart ac));
  v4 ← vset (fdS2SplitNum fd) n (curKvSplitPart ac);
  v5 ← vset (fdMSize fd) n size;
  Ok (r <| maxS2SplitNum := Z.max (maxS2SplitNum r) (curKvSplitPart ac) |>
        <| fdRes := fd <| fdBN2Idx := v1 |> <| fdMIdx := v2 |> <| fdWorkspaceIdx := v3 |>
                       <| fdS2SplitNum := v4 |> <| fdMSize := v5 |> |>
        <| numOfFdHead := u32 (n + 1) |>).

Definition AssignBlocksToCore k ctx ac r : res (AssignContext RowState * SplitResult) :=
  avgCost ← sdiv (unassignedCost ac) (u32 (aicCoreNum_ k - curCoreIdx ac));
  let limit := if negb (supportFd k) then Z.max avgCost (maxS1GCost (costInfo ctx)) else avgCost in
  let ac := ac <| coreCache := new_CoreCache <| costLimit := limit |> |> in
  ac ← AssignByBatch k ctx ac;
  ac ← AssignByRow k ctx ac;
  ac ← AssignByBlock k ctx ac;
  ac ← (if (block (coreCache ac) =? 0) && supportFd k then ForceAssign k ctx ac else Ok ac);
  v1 ← vset (bN2End r) (curCoreIdx ac) (curBN2Idx ac);
  v2 ← vset (gS1End r) (curCoreIdx ac) (curS1GIdx ac);
  v3 ← vset (sr_s2End r) (curCoreIdx ac) (curS2Idx ac);
  let r := r <| bN2End := v1 |> <| gS1End := v2 |> <| sr_s2End := v3 |>
             <| maxCost := Z.max (maxCost r) (cost (coreCache ac)) |> in
  let ac := ac <| unassignedCost := i64 (unassignedCost ac - cost (coreCache ac)) |> in
  need ← IsNeedRecordFDInfo ac r;
  '(ac, r) ← (if need : bool then
                r ← RecordFDInfo k ctx ac r; Ok (ac <| curKvSplitPart := 1 |>, r)
              else Ok (ac, r));
  Ok (if (curS2Idx ac >? s2Start (row (s1GCache ac))) && (curS2Idx ac <=? s2End (row (s1GCache ac)))
      then ac <| curKvSplitPart := u32 (curKvSplitPart ac + 1) |> else ac, r).

(** ** Distribution of the reductions over the vector cores *)

Definition fd_load (fd : FlashDecodeResult) (i : Z) : res Z :=
  n ← vget (fdS2SplitNum fd) i; m ← vget (fdMSize fd) i; Ok (u32 (n * m)).

Definition SplitFD_total (fd : FlashDecodeResult) (heads : Z) : res Z :=
  for_range heads (fun i t => l ← fd_load fd i; Ok (u64 (t + l))) 0.

(** The vector cores [vid] of reduction task [i], from core [cur] on. *)
Definition SplitFD_vec (i size num ave : Z) (vid : Z) (st : FlashDecodeResult * Z)
    : res (FlashDecodeResult * Z) :=
  let '(fd, cur) := st in
  v1 ← vset (fdIdx fd) cur i;
  v2 ← vset (fdMStart fd) cur (u32 (vid * ave));
  v3 ← vset (fdMNum fd) cur (if vid <? u32 (num - 1) then ave else u32 (size - u32 (vid * ave)));
  Ok (fd <| fdIdx := v1 |> <| fdMStart := v2 |> <| fdMNum := v3 |>, u32 (cur + 1)).

Definition SplitFD_task (averageLoad : Z) (i : Z) (st : FlashDecodeResult * Z)
    : res (FlashDecodeResult * Z) :=
  let '(fd, cur) := st in
  load ← fd_load fd i;
  num ← udiv load averageLoad;
  size ← vget (fdMSize fd) i;
  ave ← udiv size (u32 num);
  for_range (u32 num) (SplitFD_vec i size (u32 num) ave) st.

Definition SplitFD k r : res SplitResult :=
  totalFDLoad ← SplitFD_total (fdRes r) (numOfFdHead r);
  averageLoad ← udiv totalFDLoad (aivCoreNum_ k);
  '(fd, cur) ← for_range (numOfFdHead r) (SplitFD_task averageLoad) (fdRes r, 0);
  Ok (r <| fdRes := fd <| fdUsedVecNum := cur |> |>).

(** ** Schedule *)

Definition CalcSplitPlan k (limit : Z) ctx (s : RowState) r : res SplitResult :=
  Assign.CalcSplitPlan k (aicCoreNum_ k) limit ctx (AssignBlocksToCore k ctx) s r.

Definition BalanceSchedule k (s : RowState) r : res SplitResult :=
  Assign.BalanceSchedule k (aicCoreNum_ k) (AssignBlocksToCore k)
    (fun r => if numOfFdHead r >? 0 then SplitFD k r else Ok r) s r.

(** ** Metadata *)

Definition GenMetaData k r (buf : list Z) : res (list Z) :=
  buf ← for_range (aicCoreNum_ k) (gen_fa FA_METADATA_SIZE r) buf;
  for_range (aivCoreNum_ k) (gen_fd FA_METADATA_SIZE r) buf.

(** ** Compute: the status and the words of the output tensor *)

Definition Compute (c : CpuKernelContext) k (s : RowState) : res (Z * list Z) :=
  '(success, k) ← Prepare c k;
  let buf := default [] (tensor_data (metaData_ k)) in
  if negb success then Ok (KERNEL_STATUS_PARAM_INVALID, buf)
  else
    r ← BalanceSchedule k s (new_SplitResult (aicCoreNum_ k) (aivCoreNum_ k));
    buf ← GenMetaData k r buf;
    Ok (KERNEL_STATUS_OK, buf).
End Kernel.

End Sas.
