(* ===== verification/MetaProofs.v ===== *)
(** * The metadata describes the schedule

    The loops of GenMetaData stay inside the struct, and what the AI cores read
    back with GetAttrAbsIndex is the schedule: each used core is enabled and
    has its interval, every other core is disabled. *)

From S2P Require Import Prelude SplitTypes Workload AssignProofs PlanLoop Metadata.

Ltac fa_index :=
  cbv [FA_CORE_ENABLE_INDEX FA_BN2_START_INDEX FA_M_START_INDEX FA_S2_START_INDEX
       FA_BN2_END_INDEX FA_M_END_INDEX FA_S2_END_INDEX FA_FIRST_FD_DATA_WORKSPACE_IDX_INDEX
       FA_S2_MAX_NUM]; lia.

(** Membership in a list of known length. *)
Ltac in_list := repeat first [solve [left] | right].

Section Meta.
Context (faw : Z) (Hfaw : 8 <= faw <= 16).
Context (wl : Workload) (coreNum : Z) (track : bool) (fd : FlashDecodeResult) (r : SplitResult).
Context (Hnb : 0 < wl_nb wl < 2 ^ 31).
Context (Hrows : forall b, 0 <= b < wl_nb wl -> 0 <= wl_rows wl b < 2 ^ 31).
Context (HS : ScheduleOk wl coreNum track fd r).

(** What a used core reads in row [j] of the buffer for share [i]. *)
Record core_row (i j : Z) (buf : list Z) : Prop := {
  cr_on : fa_get faw buf j FA_CORE_ENABLE_INDEX = 1;
  cr_start : (fa_get faw buf j FA_BN2_START_INDEX, fa_get faw buf j FA_M_START_INDEX) =
    pl_start (plan_of r) i;
  cr_s2_start : fa_get faw buf j FA_S2_START_INDEX = 0;
  cr_end : (fa_get faw buf j FA_BN2_END_INDEX, fa_get faw buf j FA_M_END_INDEX) =
    pl_end (plan_of r) i;
  cr_s2_end : fa_get faw buf j FA_S2_END_INDEX = 0;
  cr_first : fa_get faw buf j FA_FIRST_FD_DATA_WORKSPACE_IDX_INDEX = 0
}.

Lemma core_row_frame i j buf buf' :
  (forall q, 0 <= q < faw -> fa_get faw buf' j q = fa_get faw buf j q) ->
  core_row i j buf -> core_row i j buf'.
Proof.
  intros E [H1 H2 H3 H4 H5 H6].
  split; rewrite !E; try done; fa_index.
Qed.

Lemma used_range : 1 <= usedCoreNum r <= coreNum.
Proof. apply (plan_n _ _ _ (sch_shape _ _ _ _ _ HS)). Qed.

(** The words of share [i]. *)
Definition share_words (i : Z) : list (Z * Z) :=
  [(FA_CORE_ENABLE_INDEX, 1);
   (FA_BN2_START_INDEX, (pl_start (plan_of r) i).1); (FA_M_START_INDEX, (pl_start (plan_of r) i).2);
   (FA_S2_START_INDEX, 0);
   (FA_BN2_END_INDEX, (pl_end (plan_of r) i).1); (FA_M_END_INDEX, (pl_end (plan_of r) i).2);
   (FA_S2_END_INDEX, 0); (FA_FIRST_FD_DATA_WORKSPACE_IDX_INDEX, 0)].

Lemma prev_end_ok v i :
  0 <= i < usedCoreNum r -> Z.of_nat (length v) = coreNum ->
  prev_end v i = Ok (if i =? 0 then 0 else vat v (i - 1)).
Proof.
  intros Hi Hl. pose proof used_range. unfold prev_end.
  destruct (Z.eqb_spec i 0); [done|]. by rewrite vget_ok by lia.
Qed.

(** A row that holds the words of share [i]. *)
Lemma share_row i j ws buf buf' :
  0 <= i < usedCoreNum r -> row_written faw j ws buf buf' ->
  (forall w, w ∈ share_words i -> w ∈ ws) -> core_row i j buf'.
Proof.
  intros Hi [_ Win _ _ _] Hin.
  assert (Hin' : forall q v, (q, v) ∈ share_words i -> fa_get faw buf' j q = u32 v)
    by (intros q v H; by apply Win, Hin).
  assert (Hend : forall i, 0 <= i < usedCoreNum r ->
    0 <= (pl_end (plan_of r) i).1 < 2 ^ 32 /\ 0 <= (pl_end (plan_of r) i).2 < 2 ^ 32).
  { intros i' Hi'. by eapply schedule_ends. }
  assert (Hst : 0 <= (pl_start (plan_of r) i).1 < 2 ^ 32 /\ 0 <= (pl_start (plan_of r) i).2 < 2 ^ 32).
  { unfold pl_start. destruct (Z.eqb_spec i 0); [simpl; lia|]. apply Hend. lia. }
  specialize (Hend i Hi). unfold share_words in Hin'.
  split.
  - rewrite (Hin' _ 1); [done|in_list].
  - rewrite (Hin' FA_BN2_START_INDEX (pl_start (plan_of r) i).1 ltac:(in_list)),
      (Hin' FA_M_START_INDEX (pl_start (plan_of r) i).2 ltac:(in_list)).
    rewrite !u32_id by lia. by rewrite <- surjective_pairing.
  - by rewrite (Hin' FA_S2_START_INDEX 0) by in_list.
  - rewrite (Hin' FA_BN2_END_INDEX (pl_end (plan_of r) i).1 ltac:(in_list)),
      (Hin' FA_M_END_INDEX (pl_end (plan_of r) i).2 ltac:(in_list)).
    rewrite !u32_id by lia. by rewrite <- surjective_pairing.
  - by rewrite (Hin' FA_S2_END_INDEX 0) by in_list.
  - by rewrite (Hin' FA_FIRST_FD_DATA_WORKSPACE_IDX_INDEX 0) by in_list.
Qed.

(** One row of the first loop. *)
Lemma gen_fa_returns i buf :
  0 <= i < AIC_CORE_NUM -> i < coreNum -> meta_words faw <= Z.of_nat (length buf) ->
  returns (gen_fa faw r i buf) (fun buf' =>
    length buf' = length buf /\
    (if i <? usedCoreNum r then core_row i i buf' else fa_get faw buf' i FA_CORE_ENABLE_INDEX = 0) /\
    forall i' q, 0 <= i' < AIC_CORE_NUM -> 0 <= q < faw -> i' <> i ->
      fa_get faw buf' i' q = fa_get faw buf i' q).
Proof.
  intros Hi Hc Hl. pose proof used_range. destruct (sch_len _ _ _ _ _ HS) as [L1 L2 L3 L4].
  unfold gen_fa. rewrite Z.geb_leb. destruct (Z.leb_spec (usedCoreNum r) i) as [Hoff|Hon].
  - rewrite (proj2 (Z.ltb_ge _ _)) by lia.
    eapply returns_mono.
    { apply fa_row_returns; [lia|done| | |done]; simpl.
      - apply Forall_cons_2; [fa_index|done].
      - apply NoDup_singleton. }
    intros buf' W. split; [apply W|]. split; [|apply W].
    rewrite (rw_in _ _ _ _ _ W _ 0); [done|left].
  - rewrite (proj2 (Z.ltb_lt _ _)) by lia.
    rewrite !prev_end_ok, !vget_ok by lia. cbn -[vat fa_row].
    rewrite (sch_first _ _ _ _ _ HS i), (sch_s2 _ _ _ _ _ HS i) by lia.
    eapply returns_mono.
    { apply fa_row_returns; [lia|done| | |done]; simpl.
      - repeat (apply Forall_cons_2; [fa_index|]). apply Forall_nil_2.
      - apply (bool_decide_unpack _). by vm_compute. }
    intros buf' W. split; [apply W|]. split; [|apply W].
    eapply share_row; [|exact W|]; [lia|]. intros w Hw. unfold share_words, pl_start in Hw.
    destruct (Z.eqb_spec i 0) as [->|Hne]; simpl in Hw; [exact Hw|].
    rewrite (sch_s2 _ _ _ _ _ HS (i - 1)) by lia. exact Hw.
Qed.

(** ** The whole buffer *)

(** The rows of the first table after [n] cores, one row per core. *)
Record fa_done (n : Z) (buf0 buf : list Z) : Prop := {
  fd_len : length buf = length buf0;
  fd_on : forall i, 0 <= i < n -> i < usedCoreNum r -> core_row i i buf;
  fd_off : forall i, 0 <= i < n -> usedCoreNum r <= i ->
    fa_get faw buf i FA_CORE_ENABLE_INDEX = 0
}.

Lemma gen_fa_loop n buf0 :
  0 <= n <= AIC_CORE_NUM -> n <= coreNum -> meta_words faw <= Z.of_nat (length buf0) ->
  returns (for_range n (gen_fa faw r) buf0) (fa_done n buf0).
Proof.
  intros Hn Hc Hl. apply (for_range_returns (fun i => fa_done i buf0)); [lia| |].
  - split; [done|lia|lia].
  - intros i buf Hi [D1 D2 D3].
    eapply returns_mono; [apply (gen_fa_returns i buf); [lia|lia|by rewrite D1]|].
    intros buf' (E1 & E2 & E3). split.
    + congruence.
    + intros j Hj Hu. destruct (decide (j = i)) as [->|].
      * by rewrite (proj2 (Z.ltb_lt i _)) in E2 by lia.
      * apply (core_row_frame j j buf); [|apply D2; lia]. intros q Hq. apply E3; lia.
    + intros j Hj Hu. destruct (decide (j = i)) as [->|].
      * by rewrite (proj2 (Z.ltb_ge i _)) in E2 by lia.
      * rewrite E3 by (lia || fa_index). apply D3; lia.
Qed.

(** The second loop disables every vector core: nothing is to be reduced. *)
Lemma gen_fd_loop n buf0 :
  0 <= n <= AIV_CORE_NUM -> fdUsedVecNum fd = 0 -> meta_words faw <= Z.of_nat (length buf0) ->
  returns (for_range n (gen_fd faw r) buf0) (fun buf =>
    length buf = length buf0 /\
    (forall i, 0 <= i < n -> fd_get faw buf i FD_CORE_ENABLE_INDEX = 0) /\
    forall i q, 0 <= i < AIC_CORE_NUM -> 0 <= q < faw -> fa_get faw buf i q = fa_get faw buf0 i q).
Proof.
  intros Hn Hv Hl. apply (for_range_returns (fun n buf =>
    length buf = length buf0 /\
    (forall i, 0 <= i < n -> fd_get faw buf i FD_CORE_ENABLE_INDEX = 0) /\
    forall i q, 0 <= i < AIC_CORE_NUM -> 0 <= q < faw -> fa_get faw buf i q = fa_get faw buf0 i q));
    [lia|split; [done|split; [lia|done]]|].
  intros i buf Hi (D1 & D2 & D3). unfold gen_fd. rewrite (sch_fd _ _ _ _ _ HS), Hv, Z.geb_leb.
  rewrite (proj2 (Z.leb_le _ _)) by lia.
  eapply returns_mono; [apply (fd_disable_returns faw ltac:(lia) i buf); [lia|by rewrite D1]|].
  intros buf' (E1 & E2 & E3 & E4). split; [congruence|]. split.
  - intros j Hj. destruct (decide (j = i)) as [->|]; [done|]. rewrite E3 by lia. apply D2. lia.
  - intros j q Hj Hq. by rewrite E4, D3.
Qed.
End Meta.

(** The buffer the AI cores see: a schedule of [coreNum] cores, one row per
    core. *)
Record MetaOk (faw : Z) (coreNum vecNum : Z) (r : SplitResult) (buf : list Z) : Prop := {
  mo_on : forall i, 0 <= i < usedCoreNum r -> core_row faw r i i buf;
  mo_off : forall i, usedCoreNum r <= i < coreNum -> fa_get faw buf i FA_CORE_ENABLE_INDEX = 0;
  mo_fd : forall i, 0 <= i < vecNum -> fd_get faw buf i FD_CORE_ENABLE_INDEX = 0
}.

Lemma gen_metadata_returns faw wl coreNum vecNum track fd r buf :
  8 <= faw <= 16 -> 0 < wl_nb wl < 2 ^ 31 ->
  (forall b, 0 <= b < wl_nb wl -> 0 <= wl_rows wl b < 2 ^ 31) ->
  ScheduleOk wl coreNum track fd r -> fdUsedVecNum fd = 0 ->
  coreNum <= AIC_CORE_NUM -> 0 <= vecNum <= AIV_CORE_NUM ->
  meta_words faw <= Z.of_nat (length buf) ->
  returns (buf ← for_range coreNum (gen_fa faw r) buf; for_range vecNum (gen_fd faw r) buf)
    (fun buf' => length buf' = length buf /\ MetaOk faw coreNum vecNum r buf').
Proof.
  intros Hf Hnb Hrows HS Hv Hc Hn Hl.
  pose proof (used_range _ _ _ _ _ HS) as Hu.
  eapply returns_bind_mono.
  { apply (gen_fa_loop faw Hf wl coreNum track fd r Hnb Hrows HS coreNum); [lia|lia|done]. }
  intros b1 [D1 D2 D3].
  eapply returns_mono.
  { apply (gen_fd_loop faw Hf wl coreNum track fd r HS vecNum); [done|done|by rewrite D1]. }
  intros b2 (E1 & E2 & E3). split; [congruence|]. split.
  - intros i Hi. apply (core_row_frame faw Hf r i i b1); [|apply D2; lia].
    intros q Hq. apply E3; lia.
  - intros i Hi. rewrite E3 by (lia || fa_index). apply D3; lia.
  - done.
Qed.

(** ** What the AI cores conclude from the buffer *)

Section Readers.
Context (faw : Z) (buf : list Z).

Definition meta_start (i : Z) : Z * Z :=
  (fa_get faw buf i FA_BN2_START_INDEX, fa_get faw buf i FA_M_START_INDEX).
Definition meta_end (i : Z) : Z * Z :=
  (fa_get faw buf i FA_BN2_END_INDEX, fa_get faw buf i FA_M_END_INDEX).

(** Core [i] is enabled. *)
Definition meta_on (i : Z) : Prop := fa_get faw buf i FA_CORE_ENABLE_INDEX = 1.

(** Core [i] is enabled and its interval contains row [(b, r)]. *)
Definition meta_has (i b r : Z) : Prop :=
  meta_on i /\ lexle (meta_start i) (b, r) /\ lexlt (b, r) (meta_end i).

(** Cost of the interval of core [i]. *)
Definition meta_work (wl : Workload) (i : Z) : Z :=
  rest wl (wl_cost wl) (meta_start i).1 (meta_start i).2 -
  rest wl (wl_cost wl) (meta_end i).1 (meta_end i).2.

(** The load limit of core [i]. *)
Definition meta_limit (wl : Workload) (maxRow coreNum i : Z) : Z :=
  Z.max (Z.quot (rest wl (wl_cost wl) (meta_start i).1 (meta_start i).2) (coreNum - i)) maxRow.

Context (wl : Workload) (coreNum vecNum : Z) (track : bool) (fd : FlashDecodeResult)
  (r : SplitResult).
Context (HS : ScheduleOk wl coreNum track fd r) (HM : MetaOk faw coreNum vecNum r buf).

Lemma meta_on_used i : 0 <= i < coreNum -> meta_on i <-> i < usedCoreNum r.
Proof.
  intros Hi. split.
  - intros Hon. destruct (decide (i < usedCoreNum r)); [done|].
    unfold meta_on in Hon. rewrite (mo_off _ _ _ _ _ HM) in Hon by lia. done.
  - intros Hu. apply (cr_on _ _ _ _ _ (mo_on _ _ _ _ _ HM i ltac:(lia))).
Qed.

Lemma meta_interval i :
  0 <= i < usedCoreNum r ->
  meta_start i = pl_start (plan_of r) i /\ meta_end i = pl_end (plan_of r) i.
Proof. intros Hi. destruct (mo_on _ _ _ _ _ HM i Hi) as [_ E1 _ E2 _ _]. done. Qed.

(** Every row belongs to the interval of exactly one core. *)
Lemma meta_partition b q :
  0 <= b < wl_nb wl -> 0 <= q ->
  exists i, 0 <= i < coreNum /\ meta_has i b q /\
    forall j, 0 <= j < coreNum -> meta_has j b q -> j = i.
Proof.
  intros Hb Hq. pose proof (sch_shape _ _ _ _ _ HS) as Hsh.
  pose proof (plan_n _ _ _ Hsh) as Hn. cbn in Hn.
  destruct (plan_partition wl coreNum (plan_of r) Hsh b q Hb Hq) as (i & Hi & [H1 H2] & Hu).
  cbn in Hi. destruct (meta_interval i Hi) as [Es Ee].
  exists i. split; [lia|]. split.
  - split; [by apply meta_on_used; lia|]. by rewrite Es, Ee.
  - intros j Hj (Hon & Hs & He). apply (meta_on_used j Hj) in Hon.
    destruct (meta_interval j ltac:(lia)) as [Es' Ee']. rewrite Es' in Hs. rewrite Ee' in He.
    apply Hu; [cbn; lia|]. by split.
Qed.

(** No enabled core is idle or overloaded. *)
Lemma meta_balance :
  0 < total wl (wl_cost wl) ->
  exists maxRow, is_max_row wl maxRow /\ forall i, 0 <= i < coreNum -> meta_on i ->
    0 < meta_work wl i <= meta_limit wl maxRow coreNum i + Z.quot maxRow 2.
Proof.
  intros Ht. destruct (sch_case _ _ _ _ _ HS) as [[Hz _ _ _ _]|(_ & m & Hm & HP & _)]; [lia|].
  exists m. split; [done|]. intros i Hi Hon%meta_on_used; [|done].
  destruct (meta_interval i ltac:(lia)) as [Es Ee]. unfold meta_work, meta_limit. rewrite Es, Ee.
  pose proof (plan_busy _ _ _ _ HP i ltac:(cbn; lia)).
  pose proof (plan_bounded _ _ _ _ HP i ltac:(cbn; lia)).
  unfold core_work, core_limit in *. lia.
Qed.

(** Without work the first core alone is enabled, with an interval of no cost. *)
Lemma meta_idle i :
  total wl (wl_cost wl) = 0 -> 0 < wl_nb wl -> 0 <= i < coreNum -> meta_on i -> i = 0 /\ meta_work wl i = 0.
Proof.
  intros Hz Hb Hi Hon%meta_on_used; [|done].
  destruct (sch_case _ _ _ _ _ HS) as [[_ Hu He _ _]|(Ht & _)]; [|lia]. assert (i = 0) as -> by lia. split; [done|].
  destruct (meta_interval 0 ltac:(lia)) as [Es Ee]. unfold meta_work. rewrite Es, Ee. cbn [pl_start pl_end plan_of Z.eqb]. rewrite He.
  cbn [fst snd]. rewrite rest_end, rest_start by done. lia.
Qed.

(** The first core starts at the first row, every core at the end of its
    predecessor, and the last enabled core ends at the end of the workload. *)
Lemma meta_chain :
  meta_start 0 = (0, 0) /\
  (forall i, 0 <= i -> i + 1 < coreNum -> meta_on (i + 1) -> meta_on i /\ meta_start (i + 1) = meta_end i) /\
  (exists i, 0 <= i < coreNum /\ meta_on i /\ meta_end i = (wl_nb wl, 0) /\
     forall j, i < j < coreNum -> ~ meta_on j).
Proof.
  pose proof (sch_shape _ _ _ _ _ HS) as Hsh. pose proof (plan_n _ _ _ Hsh) as Hn. cbn in Hn.
  split; [|split].
  - by destruct (meta_interval 0 ltac:(lia)) as [-> _].
  - intros i Hi Hc Hon%meta_on_used; [|lia]. split; [apply meta_on_used; lia|].
    destruct (meta_interval i ltac:(lia)) as [_ ->].
    destruct (meta_interval (i + 1) ltac:(lia)) as [-> _]. by apply plan_start_next.
  - exists (usedCoreNum r - 1). split; [lia|]. split; [apply meta_on_used; lia|]. split.
    + destruct (meta_interval (usedCoreNum r - 1) ltac:(lia)) as [_ ->].
      apply (plan_last _ _ _ Hsh).
    + intros j Hj Hon%meta_on_used; lia.
Qed.
End Readers.
