(* ===== verification/SasProofs.v ===== *)
(** * The sparse_attn_sharedkv schedule is a correct split

    AssignBlocksToCore meets the contract of one core, so BalanceSchedule
    delivers a plan for every accepted input; GenMetaData writes it so that the
    AI cores read back their intervals. *)

From S2P Require Import Prelude SplitTypes Assign Workload AssignProofs PlanProofs PlanLoop.
From S2P Require Import RowSpec SharedKv SharedKvProofs Metadata MetaProofs SasMeta.

Module SasProofs.
Import Sas.

Section Schedule.
Context (k : Kernel) (wl : Workload) (Hfd : supportFd k = false).
Context (Hcores : 0 < aicCoreNum_ k < 2 ^ 32).

(** One core, for any row model of the workload. *)
Lemma sas_AssignBlocksToCore_spec ctx (RM : RowModel k (splitInfo ctx) wl) :
  CostOk wl (costInfo ctx) -> step_spec k ctx wl (aicCoreNum_ k) false (AssignBlocksToCore k ctx).
Proof.
  intros CO. intros i ac res b r Hi Hc Hleft Hp [N1 N2 N3 N4] [L1 L2 L3 L4].
  unfold AssignBlocksToCore. rewrite Hc, (u32_id (aicCoreNum_ k - i)), sdiv_ok, Hfd by lia.
  cbn [negb mbind res_bind].
  eapply returns_bind2.
  { apply (assign_share_returns k ctx wl CO ac b r (aicCoreNum_ k - i)); [lia|done|done]. }
  intros ac1 (b' & r' & Hshare & [F1 F2 F3 F4 F5 F6] & Ecost & Eblk & Hleft').
  unfold AssignByBlock. rewrite Hfd, orb_true_r. cbn [mbind res_bind]. rewrite andb_false_r.
  cbn [mbind res_bind]. cbn in F1, F3, F5. rewrite F1, Hc.
  destruct (left_cursor _ _ _ _ _ _ Hleft') as (C1 & C2 & C3 & C4). cbn in C1, C2, C3, C4.
  do 6 (returns_step; cbn -[vset u32 i64]).
  rewrite no_record by (cbn; congruence). cbn -[u32 i64]. apply returns_ok.
  rewrite C3, C4. cbn. exists b', r'. split; cbn; rewrite ?C1, ?C2, ?C3; try done.
  - eapply share_at; [apply (la_unassigned _ _ _ _ _ _ Hleft)|exact Hshare].
  - congruence.
  - split; cbn; congruence.
  - split; cbn; rewrite ?length_insert; done.
  - by rewrite Ecost.
Qed.

Lemma sas_BalanceSchedule_returns `{KM : !KernelModel k wl} s :
  let res0 := new_SplitResult (aicCoreNum_ k) (aivCoreNum_ k) in
  returns (BalanceSchedule k s res0) (ScheduleOk wl (aicCoreNum_ k) false (fdRes res0)).
Proof.
  apply (schedule_returns k wl); [done| |].
  - intros ctx RM. apply sas_AssignBlocksToCore_spec.
  - intros r ->. done.
Qed.
End Schedule.

(** ** What the parameter checks establish *)

(** An object that Prepare has accepted. *)
Record Accepted (k : Kernel) : Prop := {
  ac_aic : aicCoreNum_ k <> 0;
  ac_aiv : aivCoreNum_ k <> 0;
  ac_heads : kvHeadNum_ k = 1;
  ac_fd : supportFd k = false;
  ac_s1g : isS1G_ k = true;
  ac_mask : attentionMode_ k = 0 \/
    (attentionMode_ k = 1 /\ to_SparseMode (oriMaskMode_ k) = RIGHT_DOWN_CAUSAL /\
     preToken_ k = INT64_MAX) \/
    (attentionMode_ k = 1 /\ to_SparseMode (oriMaskMode_ k) = BAND /\
     preToken_ k = 127 /\ nextToken_ k = 0);
  ac_cmp : hasCmpKv_ k = true ->
    (cmpRatio_ k = 4 \/ cmpRatio_ k = 128) /\
    (cmpTopK_ k = 0 \/ cmpTopK_ k = 512 \/ cmpTopK_ k = 1024);
  ac_base : (mBaseSize_ k = groupSize_ k /\ s2BaseSize_ k = 512) \/
    (mBaseSize_ k = 64 /\ s2BaseSize_ k = 128);
  ac_data : is_Some (tensor_data (metaData_ k))
}.

Lemma sas_CheckSingleParam_spec k :
  CheckSingleParam k = true ->
  aicCoreNum_ k <> 0 /\ aivCoreNum_ k <> 0 /\ 0 <= batchSize_ k /\ kvHeadNum_ k = 1 /\
  winLeft_ k = 127 /\ is_Some (tensor_data (metaData_ k)) /\
  (layoutQuery_ k = "TND" \/ layoutQuery_ k = "BSND") /\
  (to_SparseMode (oriMaskMode_ k) = DEFAULT_MASK \/
   to_SparseMode (oriMaskMode_ k) = RIGHT_DOWN_CAUSAL \/ to_SparseMode (oriMaskMode_ k) = BAND).
Proof.
  unfold CheckSingleParam. destruct (metaData_ k) as [t|] eqn:Em; [|done].
  destruct (GetDimSize0 t), (GetData t) eqn:Ed; try done. intros H. checks H.
  rewrite <- (to_SparseMode_u32 (oriMaskMode_ k)).
  zify_tests. repeat split; try done; try lia.
  - apply andb_false_iff in E6. rewrite !negb_false_iff, !String.eqb_eq in E6. done.
  - apply andb_false_iff in E4 as [E4|E4]; [apply andb_false_iff in E4 as [E4|E4]|];
      apply negb_false_iff, Z.eqb_eq in E4; rewrite E4; cbv; auto.
Qed.

Lemma sas_CheckFeature_spec k :
  CheckFeature k = true -> hasCmpKv_ k = true ->
  (cmpRatio_ k = 4 \/ cmpRatio_ k = 128) /\
  (cmpTopK_ k = 0 \/ cmpTopK_ k = 512 \/ cmpTopK_ k = 1024).
Proof.
  unfold CheckFeature. intros H Ec. rewrite Ec in H. checks H.
  apply andb_false_iff in E0. rewrite !negb_false_iff, !Z.eqb_eq in E0. split; [done|].
  apply andb_false_iff in E as [E|E]; [apply andb_false_iff in E as [E|E]|];
    apply negb_false_iff, Z.eqb_eq in E; auto.
Qed.

(** The mask members, by mode. *)
Lemma init_mask_spec k :
  winLeft_ k = 127 ->
  (to_SparseMode (oriMaskMode_ k) = DEFAULT_MASK \/
   to_SparseMode (oriMaskMode_ k) = RIGHT_DOWN_CAUSAL \/ to_SparseMode (oriMaskMode_ k) = BAND) ->
  exists pre next mode,
    init_mask k = k <| preToken_ := pre |> <| nextToken_ := next |> <| attentionMode_ := mode |> /\
    (mode = 0 \/
     (mode = 1 /\ to_SparseMode (oriMaskMode_ k) = RIGHT_DOWN_CAUSAL /\ pre = INT64_MAX) \/
     (mode = 1 /\ to_SparseMode (oriMaskMode_ k) = BAND /\ pre = 127 /\ next = 0)).
Proof.
  intros Ew [E|[E|E]]; unfold init_mask; rewrite E.
  - do 3 eexists. split; [reflexivity|]. by left.
  - do 3 eexists. split; [reflexivity|]. by right; left.
  - rewrite Ew. do 3 eexists. split; [reflexivity|]. by right; right.
Qed.

Lemma sas_ParamsInit_accepts k0 :
  ParamsCheck k0 = true -> supportFd k0 = false ->
  returns (ParamsInit k0) (fun '(ok, k) => ok = true /\ Accepted k /\
    aicCoreNum_ k = aicCoreNum_ k0 /\ aivCoreNum_ k = aivCoreNum_ k0).
Proof.
  intros Hc Hfd. unfold ParamsCheck in Hc. zify_tests.
  destruct (sas_CheckSingleParam_spec k0) as (A1 & A2 & A3 & A4 & A5 & A6 & A7 & A8); [done|].
  pose proof (sas_CheckFeature_spec k0 H0) as A9.
  assert (Hq : String.eqb (layoutQuery_ k0) "BSND" || String.eqb (layoutQuery_ k0) "BSH" ||
               String.eqb (layoutQuery_ k0) "TND" = true)
    by (by destruct A7 as [-> | ->]).
  unfold ParamsInit. cbv zeta.
  match goal with |- context [init_mask ?x] =>
    destruct (init_mask_spec x A5 A8) as (pre & next & mode & -> & Hmode)
  end. cbn in Hmode.
  cbn -[sdiv GetQueryBatchSize]. rewrite A4, sdiv_ok by lia. cbn -[u32 GetQueryBatchSize].
  rewrite Hq. apply returns_ok. split; [done|].
  destruct (hasCmpKv_ k0) eqn:Ecmp, (cmpTopK_ k0 >? 0); cbn -[u32 GetQueryBatchSize];
    unfold ProcessSocVersion; destruct (string_contains _ _); (split; [|done]);
    split; cbn -[u32 GetQueryBatchSize]; try done; auto; try congruence.
Qed.

(** What Prepare returns for a fresh object: it never faults, and an accepted
    object has passed every check. *)
Lemma sas_Prepare_accepts c :
  returns (Prepare c new_Kernel) (fun '(ok, k) => ok = true ->
    Accepted k /\ 0 <= aicCoreNum_ k < 2 ^ 32 /\ 0 <= aivCoreNum_ k < 2 ^ 32).
Proof.
  unfold Prepare. cbn zeta. destruct (GetAttrValue _ _ "num_heads_q" _) as [ok1 v1].
  destruct (if ok1 then _ else _) as [ok2 v2]. destruct (if ok2 then _ else _) as [ok3 v3].
  destruct ok3; cbn [negb]; [|by apply returns_ok].
  apply returns_if; intros Hc; [|by apply returns_ok].
  eapply returns_mono; [apply sas_ParamsInit_accepts; [exact Hc|done]|].
  intros [ok k] (-> & HA & -> & ->) _. split; [done|]. cbn -[GetAttrValueOpt].
  unfold GetAttrValueOpt, GetUint32.
  split; case_match; try apply u32_range; cbv; done.
Qed.

Lemma sas_Prepare_accepted c k : Prepare c new_Kernel = Ok (true, k) -> Accepted k /\ 0 <= aicCoreNum_ k < 2 ^ 32 /\ 0 <= aivCoreNum_ k < 2 ^ 32.
Proof.
  intros Hp. destruct (sas_Prepare_accepts c) as ([ok k'] & E & HA). rewrite Hp in E.
  injection E as <- <-. by apply HA.
Qed.

(** ** End to end *)

(** What the callers have to guarantee beyond the checks of the kernel: core
    counts that fit the struct, a buffer that holds it, a positive number of
    query heads, and sequence sizes below the widths of the counters. *)
Record Sane (k : Kernel) : Prop := {
  sn_batch : 0 < batchSize_ k < 2 ^ 31;
  sn_group : 0 < groupSize_ k <= 2 ^ 16;
  sn_s1 : forall b, 0 <= b < batchSize_ k ->
    returns (GetS1SeqSize k b) (fun v => 0 <= v /\ v * groupSize_ k + mBaseSize_ k <= 2 ^ 31);
  sn_s2 : forall b, 0 <= b < batchSize_ k ->
    returns (GetS2SeqSize k b) (fun v => 0 <= v /\ v + s2BaseSize_ k <= 2 ^ 31);
  sn_blocks : total (workload_of k) (row_blk k) < 2 ^ 32;
  sn_aic : aicCoreNum_ k <= AIC_CORE_NUM;
  sn_aiv : aivCoreNum_ k <= AIV_CORE_NUM;
  sn_buf : meta_words FA_METADATA_SIZE <= Z.of_nat (length (default [] (tensor_data (metaData_ k))))
}.

Lemma sas_accepted_KernelOk k : Accepted k -> Sane k -> KernelOk k.
Proof.
  intros [A1 A2 A3 A4 A5 A6 A7 A8 A9] [S1 S2 S3 S4 S5 S6 S7 S8]. split; try done; try lia.
  - destruct A6 as [|[|(? & ? & Hp & ?)]]; [by left|by right; left|]. right; right.
    rewrite Hp. repeat split; done || lia.
  - intros H. destruct (A7 H). lia.
  - intros H. destruct (A7 H). lia.
Qed.

(** The whole kernel: for every accepted and sane input it returns success,
    with metadata that describes a correct schedule of the workload, in a
    buffer of the size the cores expect. *)
Lemma sas_Compute_returns_sized c s k :
  Prepare c new_Kernel = Ok (true, k) -> Sane k ->
  returns (Compute c new_Kernel s) (fun '(status, buf) =>
    status = KERNEL_STATUS_OK /\ meta_words FA_METADATA_SIZE <= Z.of_nat (length buf) /\
    exists r, ScheduleOk (workload_of k) (aicCoreNum_ k) false
                (new_FlashDecodeResult (aicCoreNum_ k) (aivCoreNum_ k)) r /\
              MetaOk FA_METADATA_SIZE (aicCoreNum_ k) (aivCoreNum_ k) r buf).
Proof.
  intros Hp HS. destruct (sas_Prepare_accepted c k Hp) as (A & Ha & Hv).
  pose proof (sas_accepted_KernelOk k A HS) as HK.
  unfold Compute. rewrite Hp. cbn [mbind res_bind negb].
  eapply returns_bind_mono.
  { apply (sas_BalanceSchedule_returns k (workload_of k) (ac_fd k A));
      [pose proof (ac_aic k A); lia|by apply SharedKv_KernelModel]. }
  intros r Hr. eapply returns_bind_mono.
  { unfold GenMetaData. eapply (gen_metadata_returns _ (workload_of k)); try exact Hr; try done.
    - cbn. apply (ko_batch k HK).
    - intros b Hb. by apply rows_range.
    - apply (sn_aic k HS).
    - pose proof (sn_aiv k HS). lia.
    - apply (sn_buf k HS). }
  intros buf [Hlen HM]. apply returns_ok. split; [done|]. split; [|by exists r].
  rewrite Hlen. apply (sn_buf k HS).
Qed.

Lemma sas_Compute_returns c s k :
  Prepare c new_Kernel = Ok (true, k) -> Sane k ->
  returns (Compute c new_Kernel s) (fun '(status, buf) =>
    status = KERNEL_STATUS_OK /\
    exists r, ScheduleOk (workload_of k) (aicCoreNum_ k) false
                (new_FlashDecodeResult (aicCoreNum_ k) (aivCoreNum_ k)) r /\
              MetaOk FA_METADATA_SIZE (aicCoreNum_ k) (aivCoreNum_ k) r buf).
Proof.
  intros Hp HS. eapply returns_mono; [by apply sas_Compute_returns_sized|].
  intros [st buf] (E & _ & r & Hr). split; [done|by exists r].
Qed.
End SasProofs.
