(* ===== verification/KvqMeta.v ===== *)
(** * The kv_quant_sparse_attn_sharedkv metadata kernel

    KvQuantSparseAttnSharedkvMetadataCpuKernel.  It has its own parameter
    checks, block sizes (with pairs of cores for 128 heads), reduction records
    and metadata; the row model and the assignment engine are those of
    SharedKv and Assign, restated here routine by routine. *)

From S2P Require Import Prelude SplitTypes Assign SharedKv Metadata SasMeta.

Module Kvq.

Definition FA_METADATA_SIZE : Z := 9.

Section Kernel.
Implicit Types (k : Kernel) (ctx : SplitContext) (ac : AssignContext RowState) (r : SplitResult).

(** ** Routines with the same text as in the sparse_attn kernel *)

Definition GetS1SeqSize k (bIdx : Z) : res Z := SharedKv.GetS1SeqSize k bIdx.
Definition GetS2SeqSize k (bIdx : Z) : res Z := SharedKv.GetS2SeqSize k bIdx.
Definition CalcSplitInfo k (si : SplitInfo) : res SplitInfo := SharedKv.CalcSplitInfo k si.
Definition CalcPreTokenLeftUp k (s1 s2 : Z) : Z := SharedKv.CalcPreTokenLeftUp k s1 s2.
Definition CalcNextTokenLeftUp k (s1 s2 : Z) : Z := SharedKv.CalcNextTokenLeftUp k s1 s2.
Definition WinCalcCost (basicM basicS2 : Z) : Z := SharedKv.WinCalcCost basicM basicS2.
Definition CmpCalcCost (basicM basicS2 : Z) : Z := SharedKv.CmpCalcCost basicM basicS2.
Definition CalcCostTable k (m s tail wt ct : Z) (t : BlockCost) : BlockCost :=
  SharedKv.CalcCostTable k m s tail wt ct t.
Definition CalcS2TokenRange k (s1GIdx : Z) (bc : BatchCache) : res (Z * Z) :=
  SharedKv.CalcS2TokenRange k s1GIdx bc.
Definition CalcBatchCache k (bIdx : Z) (si : SplitInfo) (bc : BatchCache) : res BatchCache :=
  SharedKv.CalcBatchCache k bIdx si bc.
Definition CalcWinS1GCache (t : BlockCost) (g : S1GCache) (si : SplitInfo) : res S1GCache :=
  SharedKv.CalcWinS1GCache t g si.
Definition CalcCmpS1GCache (t : BlockCost) (g : S1GCache) (si : SplitInfo) : res S1GCache :=
  SharedKv.CalcCmpS1GCache t g si.
Definition CalcBlockRangeAndTailSize k (range : Z * Z) (bc : BatchCache) (g : S1GCache)
    : res S1GCache := SharedKv.CalcBlockRangeAndTailSize k range bc g.
Definition GatherWinAndCmpCache (g : S1GCache) : S1GCache := SharedKv.GatherWinAndCmpCache g.
Definition CalcS1GCache k (s1GIdx : Z) (si : SplitInfo) (bc : BatchCache) (s : RowState)
    : res RowState := SharedKv.CalcS1GCache k s1GIdx si bc s.
Definition CalcBatchCost k (bIdx : Z) (si : SplitInfo) (st : RowState * CostInfo)
    : res (RowState * CostInfo) := Assign.CalcBatchCost k bIdx si st.
Definition CalcCostInfo k ctx (s : RowState) : res (RowState * SplitContext) :=
  Assign.CalcCostInfo k ctx s.
Definition UpdateCursor k ctx ac : res (AssignContext RowState) := Assign.UpdateCursor k ctx ac.
Definition AssignByBatch k ctx ac : res (AssignContext RowState) := Assign.AssignByBatch k ctx ac.
Definition AssignByRow k ctx ac : res (AssignContext RowState) := Assign.AssignByRow k ctx ac.
Definition CalcCurBlockCost ac : Z := SharedKv.CalcCurBlockCost ac.
Definition AssignByBlock k ctx ac : res (AssignContext RowState) := SharedKv.AssignByBlock k ctx ac.
Definition ForceAssign k ctx ac : res (AssignContext RowState) := SharedKv.ForceAssign k ctx ac.
Definition IsNeedRecordFDInfo ac r : res bool := Assign.IsNeedRecordFDInfo ac r.
Definition GetQueryBatchSize k : Z := Sas.GetQueryBatchSize k.
Definition GetKvBatchSize k : Z := Sas.GetKvBatchSize k.
Definition ProcessSocVersion k : ValidSocVersion := Sas.ProcessSocVersion k.

(** ** Parameter checks *)

Definition CheckSingleParam k : bool :=
  match metaData_ k with
  | None => false
  | Some t =>
      match GetDimSize0 t, GetData t with
      | Some _, Some _ =>
          if (aicCoreNum_ k =? 0) || (aivCoreNum_ k =? 0) then false
          else if batchSize_ k <? 0 then false
          else if querySeqSize_ k <? 0 then false
          else if negb (queryHeadNum_ k =? 64) && negb (queryHeadNum_ k =? 128) then false
          else if negb (kvHeadNum_ k =? 1) then false
          else if negb (u32 (oriMaskMode_ k) =? SparseMode_value DEFAULT_MASK) &&
                  negb (u32 (oriMaskMode_ k) =? SparseMode_value RIGHT_DOWN_CAUSAL) &&
                  negb (u32 (oriMaskMode_ k) =? SparseMode_value BAND) then false
          else if negb (winLeft_ k =? 127) then false
          else if negb (String.eqb (layoutQuery_ k) "TND") &&
                  negb (String.eqb (layoutQuery_ k) "BSND") then false
          else if negb (String.eqb (layoutKv_ k) "PA_ND") && negb (String.eqb (layoutKv_ k) "TND") &&
                  negb (String.eqb (layoutKv_ k) "BSND") then false
          else if String.eqb (layoutQuery_ k) "TND" && String.eqb (layoutKv_ k) "BSND" then false
          else if String.eqb (layoutQuery_ k) "BSND" && String.eqb (layoutKv_ k) "TND" then false
          else true
      | _, _ => false
      end
  end.

Definition CheckExistence k : bool :=
  if String.eqb (layoutQuery_ k) "TND" && isInvalid (actSeqLenQ_ k) then false
  else if isInvalid (seqUsedKv_ k) then false
  else true.

(** The batch-size comparison is commented out in the source. *)
Definition CheckConsistency k : bool := true.

Definition CheckFeature k : bool :=
  if hasCmpKv_ k then
    if negb (cmpRatio_ k =? 4) && negb (cmpRatio_ k =? 128) then false
    else if negb (cmpTopK_ k =? 0) && negb (cmpTopK_ k =? 512) && negb (cmpTopK_ k =? 1024) then false
    else true
  else true.

Definition ParamsCheck k : bool :=
  CheckSingleParam k && CheckExistence k && CheckConsistency k && CheckFeature k.

(** ** Initialisation *)

Definition ParamsInit k : res (bool * Kernel) :=
  let k := k <| batchSize_ := GetQueryBatchSize k |> in
  let k := Sas.init_mask k in
  let k := k <| isS1G_ := String.eqb (layoutQuery_ k) "BSND" || String.eqb (layoutQuery_ k) "BSH" ||
                          String.eqb (layoutQuery_ k) "TND" |> in
  gs ← sdiv (queryHeadNum_ k) (kvHeadNum_ k);
  let k := k <| groupSize_ := u32 gs |> in
  let k := if queryHeadNum_ k =? 128 then k <| isN128 := true |> else k in
  let k := if hasCmpKv_ k then
             if cmpTopK_ k >? 0 then k <| isSCFA := true |> else k <| isCFA := true |>
           else k in
  match ProcessSocVersion k with
  | ASCEND910 =>
      n ← udiv 128 (groupSize_ k);
      let s1BlockLen := if isSCFA k then 1 else n in
      Ok (true, k <| mBaseSize_ := u32 (groupSize_ k * s1BlockLen) |> <| s2BaseSize_ := 512 |>)
  | ASCEND950 =>
      k ← (if isN128 k then
             Ok (k <| mBaseSize_ := groupSize_ k |> <| aicCoreNum_ := aicCoreNum_ k / 2 |>
                   <| aivCoreNum_ := aivCoreNum_ k / 2 |>)
           else if isSCFA k then Ok (k <| mBaseSize_ := u32 (1 * groupSize_ k) |>)
           else n ← udiv 64 (groupSize_ k); Ok (k <| mBaseSize_ := u32 (n * groupSize_ k) |>));
      Ok (true, k <| s2BaseSize_ := 128 |>)
  | RESERVED_VERSION => Ok (true, k)
  end.

Definition Prepare (c : CpuKernelContext) k : res (bool * Kernel) :=
  let k := k <| actSeqLenQ_ := Input c 0 |> <| actSeqLenOriKv_ := Input c 1 |>
             <| actSeqLenCmpKv_ := Input c 2 |> <| seqUsedQ_ := Input c 3 |>
             <| seqUsedKv_ := Input c 4 |> <| metaData_ := Output c 0 |> in
  let '(ok1, v) := GetAttrValue GetInt32 c "num_heads_q" (queryHeadNum_ k) in
  let k := k <| queryHeadNum_ := v |> in
  let '(ok2, v) := if ok1 : bool then GetAttrValue GetInt32 c "num_heads_kv" (kvHeadNum_ k)
                   else (false, kvHeadNum_ k) in
  let k := k <| kvHeadNum_ := v |> in
  let '(requiredAttrs, v) := if ok2 : bool then GetAttrValue GetInt32 c "head_dim" (headDim_ k)
                             else (false, headDim_ k) in
  let k := k <| headDim_ := v |> in
  let k := k <| socVersion_ := GetAttrValueOpt GetString c "soc_version" (socVersion_ k) |>
             <| aicCoreNum_ := GetAttrValueOpt GetUint32 c "aic_core_num" (aicCoreNum_ k) |>
             <| aivCoreNum_ := GetAttrValueOpt GetUint32 c "aiv_core_num" (aivCoreNum_ k) |> in
  if negb requiredAttrs then Ok (false, k)
  else
    let k := k
      <| batchSize_ := GetAttrValueOpt GetInt32 c "batch_size" (batchSize_ k) |>
      <| querySeqSize_ := GetAttrValueOpt GetInt32 c "max_seqlen_q" (querySeqSize_ k) |>
      <| kvSeqSize_ := GetAttrValueOpt GetInt32 c "max_seqlen_kv" (kvSeqSize_ k) |>
      <| oriTopK_ := GetAttrValueOpt GetInt32 c "ori_topk" (oriTopK_ k) |>
      <| cmpTopK_ := GetAttrValueOpt GetInt32 c "cmp_topk" (cmpTopK_ k) |>
      <| cmpRatio_ := GetAttrValueOpt GetInt32 c "cmp_ratio" (cmpRatio_ k) |>
      <| oriMaskMode_ := GetAttrValueOpt GetInt32 c "ori_mask_mode" (oriMaskMode_ k) |>
      <| cmpMaskMode_ := GetAttrValueOpt GetInt32 c "cmp_mask_mode" (cmpMaskMode_ k) |>
      <| winLeft_ := GetAttrValueOpt GetInt64 c "ori_win_left" (winLeft_ k) |>
      <| winRight_ := GetAttrValueOpt GetInt64 c "ori_win_right" (winRight_ k) |>
      <| layoutQuery_ := GetAttrValueOpt GetString c "layout_q" (layoutQuery_ k) |>
      <| layoutKv_ := GetAttrValueOpt GetString c "layout_kv" (layoutKv_ k) |>
      <| hasOriKv_ := GetAttrValueOpt GetBool c "has_ori_kv" (hasOriKv_ k) |>
      <| hasCmpKv_ := GetAttrValueOpt GetBool c "has_cmp_kv" (hasCmpKv_ k) |> in
    if ParamsCheck k then ParamsInit k else Ok (false, k).

(** ** Assignment to one core *)

Definition RecordFDInfo k ctx ac r : res SplitResult :=
  let prev := u32 (curCoreIdx ac - 1) in
  b ← vget (bN2End r) prev;
  splitBIdx ← udiv b (u32 (kvHeadNum_ k));
  splitS1GIdx ← vget (gS1End r) prev;
  size ← fd_m_size k (splitInfo ctx) splitBIdx splitS1GIdx;
  let n := numOfFdHead r in
  let fd := fdRes r in
  v1 ← vset (fdBN2Idx fd) n b;
  v2 ← vset (fdMIdx fd) n splitS1GIdx;
  v3 ← vset (fdWorkspaceIdx fd) n (preFdDataNum ac);
  v4 ← vset (fdS2SplitNum fd) n (curKvSplitPart ac);
  v5 ← vset (fdMSize fd) n size;
  Ok (r <| maxS2SplitNum := Z.max (maxS2SplitNum r) (curKvSplitPart ac) |>
        <| fdRes := fd <| fdBN2Idx := v1 |> <| fdMIdx := v2 |> <| fdWorkspaceIdx := v3 |>
                       <| fdS2SplitNum := v4 |> <| fdMSize := v5 |> |>
        <| numOfFdHead := u32 (n + 1) |>).

Definition AssignBlocksToCore k ctx ac r : res (AssignContext RowState * SplitResult) :=
  v0 ← vset (firstFdDataWorkspaceIdx r) (curCoreIdx ac)
         (u32 (preFdDataNum ac + curKvSplitPart ac - 1));
  let r := r <| firstFdDataWorkspaceIdx := v0 |> in
  avgCost ← sdiv (unassignedCost ac) (u32 (aicCoreNum_ k - curCoreIdx ac));
  let limit := if negb (supportFd k) then Z.max avgCost (maxS1GCost (costInfo ctx)) else avgCost in
  let ac := ac <| coreCache := new_CoreCache <| costLimit := limit |> |> in
  ac ← AssignByBatch k ctx ac;
  ac ← AssignByRow k ctx ac;
  ac ← AssignByBlock k ctx ac;
  ac ← (if (block (coreCache ac) =? 0) && supportFd k then ForceAssign k ctx ac else Ok ac);
  v1 ← vset (bN2End r) (curCoreIdx ac) (curBN2Idx ac);
  v2 ← vset (gS1End r) (curCoreIdx ac) (curS1GIdx ac);
  v3 ← vset (sr_s2End r) (curCoreIdx ac) (curS2Idx ac);
  let r := r <| bN2End := v1 |> <| gS1End := v2 |> <| sr_s2End := v3 |>
             <| maxCost := Z.max (maxCost r) (cost (coreCache ac)) |> in
  let ac := ac <| unassignedCost := i64 (unassignedCost ac - cost (coreCache ac)) |> in
  let r := r <| maxS2GBaseNum := Z.max (block (coreCache ac)) (maxS2GBaseNum r) |> in
  need ← IsNeedRecordFDInfo ac r;
  '(ac, r) ← (if need : bool then
                r ← RecordFDInfo k ctx ac r;
                Ok (ac <| preFdDataNum := u32 (preFdDataNum ac + curKvSplitPart ac) |>
                       <| curKvSplitPart := 1 |>, r)
              else Ok (ac, r));
  Ok (if (curS2Idx ac >? s2Start (row (s1GCache ac))) && (curS2Idx ac <=? s2End (row (s1GCache ac)))
      then ac <| curKvSplitPart := u32 (curKvSplitPart ac + 1) |> else ac, r).

(** ** Distribution of the reductions over the vector cores *)

(** The number of vector cores of a task is computed once from its load and
    once more from the rounded-up number of rows per core. *)
Definition SplitFD_task (averageLoad : Z) (i : Z) (st : FlashDecodeResult * Z)
    : res (FlashDecodeResult * Z) :=
  let '(fd, cur) := st in
  load ← Sas.fd_load fd i;
  num ← udiv load averageLoad;
  size ← vget (fdMSize fd) i;
  ave ← udiv (u32 (size + u32 num - 1)) (u32 num);
  num' ← udiv (u32 (size + ave - 1)) ave;
  for_range num' (Sas.SplitFD_vec i size num' ave) st.

(** For [numOfFdHead] tasks and [aivNum] vector cores. *)
Definition SplitFD_on (aivNum : Z) r : res SplitResult :=
  totalFDLoad ← Sas.SplitFD_total (fdRes r) (numOfFdHead r);
  averageLoad ← udiv (u64 (totalFDLoad + aivNum - 1)) aivNum;
  '(fd, cur) ← for_range (numOfFdHead r) (SplitFD_task averageLoad) (fdRes r, 0);
  Ok (r <| fdRes := fd <| fdUsedVecNum := cur |> |>).

Definition SplitFD k r : res SplitResult := SplitFD_on (aivCoreNum_ k) r.

(** ** Schedule *)

Definition CalcSplitPlan k (limit : Z) ctx (s : RowState) r : res SplitResult :=
  Assign.CalcSplitPlan k (aicCoreNum_ k) limit ctx (AssignBlocksToCore k ctx) s r.

Definition BalanceSchedule k (s : RowState) r : res SplitResult :=
  Assign.BalanceSchedule k (aicCoreNum_ k) (AssignBlocksToCore k)
    (fun r => if numOfFdHead r >? 0 then SplitFD k r else Ok r) s r.

(** ** Metadata *)

(** For 128 heads the cores [2 i] and [2 i + 1] share an interval; the row of
    a core also tells the largest number of S2 blocks of any core. *)
Definition GenMetaData_pair r (i : Z) (buf : list Z) : res (list Z) :=
  if i >=? usedCoreNum r then
    buf ← fa_row FA_METADATA_SIZE (2 * i) [(FA_CORE_ENABLE_INDEX, 0)] buf;
    buf ← fa_row FA_METADATA_SIZE (2 * i + 1) [(FA_CORE_ENABLE_INDEX, 0)] buf;
    buf ← fa_row FA_METADATA_SIZE (2 * i) [(FA_S2_MAX_NUM, maxS2GBaseNum r)] buf;
    fa_row FA_METADATA_SIZE (2 * i + 1) [(FA_S2_MAX_NUM, maxS2GBaseNum r)] buf
  else
    b0 ← prev_end (bN2End r) i;
    g0 ← prev_end (gS1End r) i;
    s0 ← prev_end (sr_s2End r) i;
    b1 ← vget (bN2End r) i;
    g1 ← vget (gS1End r) i;
    s1 ← vget (sr_s2End r) i;
    w ← vget (firstFdDataWorkspaceIdx r) i;
    let words := [(FA_CORE_ENABLE_INDEX, 1);
       (FA_BN2_START_INDEX, b0); (FA_M_START_INDEX, g0); (FA_S2_START_INDEX, s0);
       (FA_BN2_END_INDEX, b1); (FA_M_END_INDEX, g1); (FA_S2_END_INDEX, s1);
       (FA_FIRST_FD_DATA_WORKSPACE_IDX_INDEX, w); (FA_S2_MAX_NUM, maxS2GBaseNum r)] in
    buf ← fa_row FA_METADATA_SIZE (2 * i) words buf;
    fa_row FA_METADATA_SIZE (2 * i + 1) words buf.

Definition GenMetaData k r (buf : list Z) : res (list Z) :=
  buf ← (if isN128 k then for_range (aicCoreNum_ k) (GenMetaData_pair r) buf
         else for_range (aicCoreNum_ k) (gen_fa FA_METADATA_SIZE r) buf);
  for_range (aivCoreNum_ k) (gen_fd FA_METADATA_SIZE r) buf.

(** ** Compute *)

Definition Compute (c : CpuKernelContext) k (s : RowState) : res (Z * list Z) :=
  '(success, k) ← Prepare c k;
  let buf := default [] (tensor_data (metaData_ k)) in
  if negb success then Ok (KERNEL_STATUS_PARAM_INVALID, buf)
  else
    r ← BalanceSchedule k s (new_SplitResult (aicCoreNum_ k) (aivCoreNum_ k));
    buf ← GenMetaData k r buf;
    Ok (KERNEL_STATUS_OK, buf).
End Kernel.

End Kvq.
