(* ===== verification/KvqProofs.v ===== *)
(** * The kv_quant_sparse_attn_sharedkv schedule is a correct split

    The kernel meets the contract of the assignment engine like the sparse_attn
    kernel, records the largest number of blocks of a core, and for 128 heads
    writes the interval of share [i] for the cores [2 i] and [2 i + 1]. *)

From S2P Require Import Prelude SplitTypes Assign Workload AssignProofs PlanProofs PlanLoop.
From S2P Require Import RowSpec SharedKv SharedKvProofs Metadata MetaProofs SasMeta SasProofs.
From S2P Require Import KvqMeta.

Module KvqProofs.
Import Kvq.

Section Schedule.
Context (k : Kernel) (wl : Workload) (Hfd : supportFd k = false).
Context (Hcores : 0 < aicCoreNum_ k < 2 ^ 32).

(** One core, for any row model of the workload. *)
Lemma kvq_AssignBlocksToCore_spec ctx (RM : RowModel k (splitInfo ctx) wl) :
  CostOk wl (costInfo ctx) -> step_spec k ctx wl (aicCoreNum_ k) true (AssignBlocksToCore k ctx).
Proof.
  intros CO. intros i ac res b r Hi Hc Hleft Hp [N1 N2 N3 N4] [L1 L2 L3 L4].
  unfold AssignBlocksToCore. rewrite N1, N2. do 2 returns_step.
  rewrite Hc, (u32_id (aicCoreNum_ k - i)), sdiv_ok, Hfd by lia.
  cbn [negb mbind res_bind].
  eapply returns_bind2.
  { apply (assign_share_returns k ctx wl CO ac b r (aicCoreNum_ k - i)); [lia|done|done]. }
  intros ac1 (b' & r' & Hshare & [F1 F2 F3 F4 F5 F6] & Ecost & Eblk & Hleft').
  unfold AssignByBlock, SharedKv.AssignByBlock. rewrite Hfd, orb_true_r.
  cbn [mbind res_bind]. rewrite andb_false_r.
  cbn [mbind res_bind]. cbn in F1, F3, F5. rewrite F1, Hc.
  destruct (left_cursor _ _ _ _ _ _ Hleft') as (C1 & C2 & C3 & C4). cbn in C1, C2, C3, C4.
  do 6 (returns_step; cbn -[vset u32 i64]).
  unfold IsNeedRecordFDInfo. rewrite no_record by (cbn; congruence).
  cbn -[u32 i64]. apply returns_ok.
  rewrite C3, C4. cbn. exists b', r'. split; cbn; rewrite ?C1, ?C2, ?C3; try done.
  - eapply share_at; [apply (la_unassigned _ _ _ _ _ _ Hleft)|exact Hshare].
  - congruence.
  - split; cbn -[vat]; try congruence. intros j. unfold vat.
    destruct (decide (Z.to_nat i = Z.to_nat j)) as [Heq|Hne].
    + rewrite <- Heq, list_lookup_insert_eq by lia. done.
    + rewrite list_lookup_insert_ne by done. apply N4.
  - split; cbn; rewrite ?length_insert; done.
  - by rewrite Ecost.
  - by rewrite Eblk.
Qed.

Lemma kvq_BalanceSchedule_returns `{KM : !KernelModel k wl} s :
  let res0 := new_SplitResult (aicCoreNum_ k) (aivCoreNum_ k) in
  returns (BalanceSchedule k s res0) (ScheduleOk wl (aicCoreNum_ k) true (fdRes res0)).
Proof.
  apply (schedule_returns k wl); [done| |].
  - intros ctx RM. apply kvq_AssignBlocksToCore_spec.
  - intros r ->. done.
Qed.
End Schedule.

(** ** What the parameter checks establish *)

(** An object that Prepare has accepted; [paired] when the cores work in pairs
    on an interval. *)
Record Accepted (k : Kernel) : Prop := {
  ac_heads : kvHeadNum_ k = 1;
  ac_fd : supportFd k = false;
  ac_s1g : isS1G_ k = true;
  ac_mask : attentionMode_ k = 0 \/
    (attentionMode_ k = 1 /\ to_SparseMode (oriMaskMode_ k) = RIGHT_DOWN_CAUSAL /\
     preToken_ k = INT64_MAX) \/
    (attentionMode_ k = 1 /\ to_SparseMode (oriMaskMode_ k) = BAND /\
     preToken_ k = 127 /\ nextToken_ k = 0);
  ac_cmp : hasCmpKv_ k = true ->
    (cmpRatio_ k = 4 \/ cmpRatio_ k = 128) /\
    (cmpTopK_ k = 0 \/ cmpTopK_ k = 512 \/ cmpTopK_ k = 1024);
  ac_group : groupSize_ k = 64 \/ groupSize_ k = 128;
  ac_m : mBaseSize_ k = 64 \/ mBaseSize_ k = 128;
  ac_sb : s2BaseSize_ k = 512 \/ s2BaseSize_ k = 128;
  ac_data : is_Some (tensor_data (metaData_ k))
}.

Lemma kvq_CheckSingleParam_spec k :
  CheckSingleParam k = true ->
  aicCoreNum_ k <> 0 /\ aivCoreNum_ k <> 0 /\ 0 <= batchSize_ k /\ kvHeadNum_ k = 1 /\
  winLeft_ k = 127 /\ is_Some (tensor_data (metaData_ k)) /\
  (queryHeadNum_ k = 64 \/ queryHeadNum_ k = 128) /\
  (layoutQuery_ k = "TND" \/ layoutQuery_ k = "BSND") /\
  (to_SparseMode (oriMaskMode_ k) = DEFAULT_MASK \/
   to_SparseMode (oriMaskMode_ k) = RIGHT_DOWN_CAUSAL \/ to_SparseMode (oriMaskMode_ k) = BAND).
Proof.
  unfold CheckSingleParam. destruct (metaData_ k) as [t|] eqn:Em; [|done].
  destruct (GetDimSize0 t), (GetData t) eqn:Ed; try done. intros H. checks H.
  rewrite <- (to_SparseMode_u32 (oriMaskMode_ k)).
  zify_tests. repeat split; try done; try lia.
  - apply andb_false_iff in E6. rewrite !negb_false_iff, !String.eqb_eq in E6. done.
  - apply andb_false_iff in E4 as [E4|E4]; [apply andb_false_iff in E4 as [E4|E4]|];
      apply negb_false_iff, Z.eqb_eq in E4; rewrite E4; cbv; auto.
Qed.

Lemma kvq_CheckFeature_spec k :
  CheckFeature k = true -> hasCmpKv_ k = true ->
  (cmpRatio_ k = 4 \/ cmpRatio_ k = 128) /\
  (cmpTopK_ k = 0 \/ cmpTopK_ k = 512 \/ cmpTopK_ k = 1024).
Proof.
  unfold CheckFeature. intros H Ec. rewrite Ec in H. checks H.
  apply andb_false_iff in E. rewrite !negb_false_iff, !Z.eqb_eq in E. split; [done|].
  apply andb_false_iff in E0 as [E0|E0]; [apply andb_false_iff in E0 as [E0|E0]|];
    apply negb_false_iff, Z.eqb_eq in E0; auto.
Qed.

Lemma kvq_ParamsInit_accepts k0 :
  ParamsCheck k0 = true -> supportFd k0 = false -> isN128 k0 = false -> isSCFA k0 = false ->
  returns (ParamsInit k0) (fun '(ok, k) => ok = true /\ Accepted k).
Proof.
  intros Hc Hfd Hn Hs. unfold ParamsCheck in Hc. zify_tests.
  destruct (kvq_CheckSingleParam_spec k0) as (A1 & A2 & A3 & A4 & A5 & A6 & Aq & A7 & A8); [done|].
  pose proof (kvq_CheckFeature_spec k0 H0) as A9.
  assert (Hq : String.eqb (layoutQuery_ k0) "BSND" || String.eqb (layoutQuery_ k0) "BSH" ||
               String.eqb (layoutQuery_ k0) "TND" = true)
    by (by destruct A7 as [-> | ->]).
  unfold ParamsInit. cbv zeta.
  match goal with |- context [Sas.init_mask ?x] =>
    destruct (SasProofs.init_mask_spec x A5 A8) as (pre & next & mode & -> & Hmode)
  end. cbn in Hmode.
  cbn -[sdiv GetQueryBatchSize]. rewrite A4, sdiv_ok by lia. cbn -[u32 udiv GetQueryBatchSize].
  rewrite Hq, Z.quot_1_r.
  destruct Aq as [Eq|Eq]; rewrite Eq; cbn -[udiv GetQueryBatchSize];
    destruct (hasCmpKv_ k0) eqn:Ecmp, (cmpTopK_ k0 >? 0); cbn -[udiv GetQueryBatchSize];
    unfold ProcessSocVersion, Sas.ProcessSocVersion; cbn -[udiv GetQueryBatchSize string_contains];
    destruct (string_contains _ _); cbn -[GetQueryBatchSize]; rewrite ?Hn, ?Hs;
    cbn -[GetQueryBatchSize]; apply returns_ok; (split; [done|]);
    split; cbn -[GetQueryBatchSize]; try done; auto; try congruence.
Qed.

(** What Prepare returns for a fresh object. *)
Lemma kvq_Prepare_accepts c :
  returns (Prepare c new_Kernel) (fun '(ok, k) => ok = true -> Accepted k).
Proof.
  unfold Prepare. cbn zeta. destruct (GetAttrValue _ _ "num_heads_q" _) as [ok1 v1].
  destruct (if ok1 then _ else _) as [ok2 v2]. destruct (if ok2 then _ else _) as [ok3 v3].
  destruct ok3; cbn [negb]; [|by apply returns_ok].
  apply returns_if; intros Hc; [|by apply returns_ok].
  eapply returns_mono; [apply kvq_ParamsInit_accepts; [exact Hc|done..]|].
  by intros [ok k] [-> HA] _.
Qed.

Lemma kvq_Prepare_accepted c k : Prepare c new_Kernel = Ok (true, k) -> Accepted k.
Proof.
  intros Hp. destruct (kvq_Prepare_accepts c) as ([ok k'] & E & HA). rewrite Hp in E.
  injection E as <- <-. by apply HA.
Qed.

(** ** Metadata for pairs of cores *)

Section Pairs.
Context (wl : Workload) (coreNum : Z) (track : bool) (fd : FlashDecodeResult) (r : SplitResult).
Context (Hnb : 0 < wl_nb wl < 2 ^ 31).
Context (Hrows : forall b, 0 <= b < wl_nb wl -> 0 <= wl_rows wl b < 2 ^ 31).
Context (HS : ScheduleOk wl coreNum track fd r).
Abbreviation faw := FA_METADATA_SIZE.

(** Row [j] of the buffer belongs to share [i] of the schedule. *)
Definition pair_row (i j : Z) (buf : list Z) : Prop :=
  (if i <? usedCoreNum r then core_row faw r i j buf else fa_get faw buf j FA_CORE_ENABLE_INDEX = 0) /\
  fa_get faw buf j FA_S2_MAX_NUM = u32 (maxS2GBaseNum r).

(** Different rows do not interfere. *)
Definition others_kept (i : Z) (buf buf' : list Z) : Prop :=
  forall j q, 0 <= j < AIC_CORE_NUM -> 0 <= q < faw -> j <> 2 * i -> j <> 2 * i + 1 ->
    fa_get faw buf' j q = fa_get faw buf j q.

Lemma pair_row_frame i j buf buf' :
  (forall q, 0 <= q < faw -> fa_get faw buf' j q = fa_get faw buf j q) ->
  pair_row i j buf -> pair_row i j buf'.
Proof.
  intros E [H1 H2]. split.
  - destruct (i <? usedCoreNum r); [by apply (core_row_frame faw ltac:(by cbv) r i j buf)|].
    rewrite E by (unfold FA_METADATA_SIZE; fa_index). done.
  - rewrite E by (unfold FA_METADATA_SIZE; fa_index). done.
Qed.

Lemma fa_one_returns i q v buf :
  0 <= i < AIC_CORE_NUM -> 0 <= q < faw -> meta_words faw <= Z.of_nat (length buf) ->
  returns (fa_row faw i [(q, v)] buf) (row_written faw i [(q, v)] buf).
Proof.
  intros Hi Hq Hl. apply fa_row_returns; [done|done| | |done]; simpl.
  - by apply Forall_cons_2.
  - apply NoDup_singleton.
Qed.

Ltac other_word := cbn; rewrite list_elem_of_singleton; by cbv.

(** Share [i] is not used: both cores are disabled. *)
Lemma pair_off_returns i buf :
  usedCoreNum r <= i -> 0 <= i -> 2 * i + 1 < AIC_CORE_NUM -> meta_words faw <= Z.of_nat (length buf) ->
  returns (GenMetaData_pair r i buf) (fun buf' => length buf' = length buf /\
    pair_row i (2 * i) buf' /\ pair_row i (2 * i + 1) buf' /\ others_kept i buf buf').
Proof.
  intros Hoff Hi Hc Hl. unfold GenMetaData_pair, pair_row.
  rewrite Z.geb_leb, (proj2 (Z.leb_le _ i)), (proj2 (Z.ltb_ge i _)) by lia.
  eapply returns_bind_mono; [apply fa_one_returns; [lia|by cbv|done]|]. intros b1 W1.
  eapply returns_bind_mono; [apply fa_one_returns; [lia|by cbv|by rewrite (rw_len _ _ _ _ _ W1)]|].
  intros b2 W2. pose proof (rw_len _ _ _ _ _ W2) as E2. rewrite (rw_len _ _ _ _ _ W1) in E2.
  eapply returns_bind_mono; [apply fa_one_returns; [lia|by cbv|by rewrite E2]|]. intros b3 W3.
  pose proof (rw_len _ _ _ _ _ W3) as E3. rewrite E2 in E3.
  eapply returns_mono; [apply fa_one_returns; [lia|by cbv|by rewrite E3]|]. intros b4 W4.
  pose proof (rw_len _ _ _ _ _ W4) as E4. rewrite E3 in E4.
  destruct W1 as [_ I1 R1 O1 _], W2 as [_ I2 R2 O2 _], W3 as [_ I3 R3 O3 _], W4 as [_ I4 R4 O4 _].
  split; [done|]. split; [|split].
  - split; rewrite O4 by (lia || by cbv); [|apply I3; left].
    rewrite R3, O2; [apply (I1 _ 0); left|lia|by cbv|lia|by cbv|other_word].
  - split; [|apply I4; left].
    rewrite R4, O3; [apply (I2 _ 0); left|lia|by cbv|lia|by cbv|other_word].
  - intros j q Hj Hq Hn1 Hn2. by rewrite O4, O3, O2, O1.
Qed.

(** The words written for share [i]. *)
Definition pair_words (i : Z) : list (Z * Z) :=
  share_words r i ++ [(FA_S2_MAX_NUM, maxS2GBaseNum r)].

Lemma pair_words_returns i j buf :
  0 <= j < AIC_CORE_NUM -> meta_words faw <= Z.of_nat (length buf) ->
  returns (fa_row faw j (pair_words i) buf) (row_written faw j (pair_words i) buf).
Proof.
  intros Hj Hl. apply fa_row_returns; [done|done| | |done]; simpl.
  - repeat (apply Forall_cons_2; [by cbv|]). apply Forall_nil_2.
  - apply (bool_decide_unpack _). by vm_compute.
Qed.

Lemma pair_written i j buf buf' :
  0 <= i < usedCoreNum r -> row_written faw j (pair_words i) buf buf' -> pair_row i j buf'.
Proof.
  intros Hi W. unfold pair_row. rewrite (proj2 (Z.ltb_lt i _)) by lia. split.
  - eapply (share_row faw wl coreNum track fd r); [done|done|done|done|exact W|].
    intros w Hw. apply elem_of_app. by left.
  - apply (rw_in _ _ _ _ _ W). apply elem_of_app. right. left.
Qed.

(** Share [i] is used: both cores get its interval. *)
Lemma pair_on_returns i buf :
  0 <= i < usedCoreNum r -> 2 * i + 1 < AIC_CORE_NUM -> meta_words faw <= Z.of_nat (length buf) ->
  returns (GenMetaData_pair r i buf) (fun buf' => length buf' = length buf /\
    pair_row i (2 * i) buf' /\ pair_row i (2 * i + 1) buf' /\ others_kept i buf buf').
Proof.
  intros Hon Hc Hl. pose proof (used_range _ _ _ _ _ HS). unfold GenMetaData_pair.
  destruct (sch_len _ _ _ _ _ HS) as [L1 L2 L3 L4].
  rewrite Z.geb_leb, (proj2 (Z.leb_gt _ i)) by lia.
  rewrite !(prev_end_ok wl coreNum track fd r HS), !vget_ok by lia. cbn -[vat fa_row].
  rewrite (sch_first _ _ _ _ _ HS i), (sch_s2 _ _ _ _ _ HS i) by lia.
  assert (E0 : (if i =? 0 then 0 else vat (sr_s2End r) (i - 1)) = 0).
  { destruct (Z.eqb_spec i 0); [done|]. apply (sch_s2 _ _ _ _ _ HS). lia. }
  rewrite E0.
  match goal with |- context [fa_row _ (2 * i) ?l _] => replace l with (pair_words i) end.
  2: { unfold pair_words, share_words, pl_start. by destruct (i =? 0). }
  eapply returns_bind_mono; [apply pair_words_returns; [lia|done]|]. intros b1 W1.
  eapply returns_mono; [apply pair_words_returns; [lia|by rewrite (rw_len _ _ _ _ _ W1)]|].
  intros b2 W2. split; [by rewrite (rw_len _ _ _ _ _ W2), (rw_len _ _ _ _ _ W1)|].
  split; [|split].
  - apply (pair_row_frame i (2 * i) b1); [|by eapply pair_written].
    intros q Hq. apply (rw_rows _ _ _ _ _ W2); lia.
  - by eapply pair_written.
  - intros j q Hj Hq Hn1 Hn2. by rewrite (rw_rows _ _ _ _ _ W2), (rw_rows _ _ _ _ _ W1).
Qed.

(** The whole loop. *)
Lemma GenMetaData_pair_loop n buf0 :
  0 <= n <= coreNum -> 2 * n <= AIC_CORE_NUM -> meta_words faw <= Z.of_nat (length buf0) ->
  returns (for_range n (GenMetaData_pair r) buf0) (fun buf => length buf = length buf0 /\
    forall i, 0 <= i < n -> pair_row i (2 * i) buf /\ pair_row i (2 * i + 1) buf).
Proof.
  intros Hn Hc Hl. apply (for_range_returns (fun n buf => length buf = length buf0 /\
    forall i, 0 <= i < n -> pair_row i (2 * i) buf /\ pair_row i (2 * i + 1) buf));
    [lia|split; [done|lia]|].
  intros i buf Hi [D1 D2].
  assert (Hstep : returns (GenMetaData_pair r i buf) (fun buf' => length buf' = length buf /\
    pair_row i (2 * i) buf' /\ pair_row i (2 * i + 1) buf' /\ others_kept i buf buf')).
  { destruct (decide (i < usedCoreNum r)).
    - apply pair_on_returns; [lia|lia|by rewrite D1].
    - apply pair_off_returns; [lia|lia|lia|by rewrite D1]. }
  eapply returns_mono; [exact Hstep|]. intros buf' (E1 & E2 & E3 & E4).
  split; [congruence|]. intros j Hj. destruct (decide (j = i)) as [->|]; [done|].
  destruct (D2 j ltac:(lia)) as [P1 P2].
  split; (eapply pair_row_frame; [intros q Hq; apply E4; lia|done]).
Qed.
End Pairs.

(** ** End to end *)

(** What the callers have to guarantee beyond the checks of the kernel.  The
    core counts are those after ParamsInit: for 128 heads on Ascend950 they
    count pairs of cores. *)
Record Sane (k : Kernel) : Prop := {
  sn_batch : 0 < batchSize_ k < 2 ^ 31;
  sn_s1 : forall b, 0 <= b < batchSize_ k ->
    returns (GetS1SeqSize k b) (fun v => 0 <= v /\ v * groupSize_ k + mBaseSize_ k <= 2 ^ 31);
  sn_s2 : forall b, 0 <= b < batchSize_ k ->
    returns (GetS2SeqSize k b) (fun v => 0 <= v /\ v + s2BaseSize_ k <= 2 ^ 31);
  sn_blocks : total (workload_of k) (row_blk k) < 2 ^ 32;
  sn_aic : 0 < aicCoreNum_ k /\ (if isN128 k then 2 * aicCoreNum_ k else aicCoreNum_ k) <= AIC_CORE_NUM;
  sn_aiv : 0 <= aivCoreNum_ k <= AIV_CORE_NUM;
  sn_buf : meta_words FA_METADATA_SIZE <= Z.of_nat (length (default [] (tensor_data (metaData_ k))))
}.

Lemma kvq_accepted_KernelOk k : Accepted k -> Sane k -> KernelOk k.
Proof.
  intros [A1 A2 A3 A4 A5 A6 A7 A8 A9] [S1 S3 S4 S5 S6 S7 S8]. split; try done; try lia.
  - destruct A4 as [|[|(? & ? & Hp & ?)]]; [by left|by right; left|]. right; right.
    rewrite Hp. repeat split; done || lia.
  - intros H. destruct (A5 H). lia.
  - intros H. destruct (A5 H). lia.
Qed.

(** The buffer for pairs of cores. *)
Record PairMetaOk (coreNum vecNum : Z) (r : SplitResult) (buf : list Z) : Prop := {
  pm_rows : forall i, 0 <= i < coreNum -> pair_row r i (2 * i) buf /\ pair_row r i (2 * i + 1) buf;
  pm_fd : forall i, 0 <= i < vecNum -> fd_get FA_METADATA_SIZE buf i FD_CORE_ENABLE_INDEX = 0
}.

Definition KvqMetaOk (k : Kernel) (r : SplitResult) (buf : list Z) : Prop :=
  if isN128 k then PairMetaOk (aicCoreNum_ k) (aivCoreNum_ k) r buf
  else MetaOk FA_METADATA_SIZE (aicCoreNum_ k) (aivCoreNum_ k) r buf.

Lemma GenMetaData_returns k wl track fd r buf :
  0 < wl_nb wl < 2 ^ 31 -> (forall b, 0 <= b < wl_nb wl -> 0 <= wl_rows wl b < 2 ^ 31) ->
  ScheduleOk wl (aicCoreNum_ k) track fd r -> fdUsedVecNum fd = 0 ->
  (if isN128 k then 2 * aicCoreNum_ k else aicCoreNum_ k) <= AIC_CORE_NUM ->
  0 <= aivCoreNum_ k <= AIV_CORE_NUM ->
  meta_words FA_METADATA_SIZE <= Z.of_nat (length buf) ->
  returns (GenMetaData k r buf) (KvqMetaOk k r).
Proof.
  intros Hnb Hrows HS Hv Hc Hn Hl. unfold GenMetaData, KvqMetaOk.
  pose proof (used_range _ _ _ _ _ HS) as Hu.
  destruct (isN128 k).
  - eapply returns_bind_mono; [eapply GenMetaData_pair_loop; try done; lia|]. intros b1 [D1 D2].
    eapply returns_mono.
    { eapply (gen_fd_loop FA_METADATA_SIZE ltac:(by cbv)); [exact HS|done|done|by rewrite D1]. }
    intros b2 (_ & E2 & E3). split; [|done]. intros i Hi. destruct (D2 i Hi) as [P1 P2].
    split; (eapply pair_row_frame; [|done]); intros q Hq; apply E3; lia.
  - eapply returns_mono; [eapply (gen_metadata_returns _ wl); try exact HS; try done; by cbv|].
    by intros b [_ HM].
Qed.

(** The largest number of blocks of a share fits its word. *)
Lemma max_blocks_range k fd r :
  KernelOk k -> ScheduleOk (workload_of k) (aicCoreNum_ k) true fd r -> 0 <= maxS2GBaseNum r < 2 ^ 32.
Proof.
  intros HK HS. pose proof (workload_ok k HK) as OK.
  destruct (sch_case _ _ _ _ _ HS) as [[]|(_ & m & _ & HP & _ & _ & _ & i & Hi & <-)]; [lia|].
  pose proof (plan_shape _ _ _ _ HP) as Hsh. unfold core_work.
  assert (Hend : forall j, 0 <= j < usedCoreNum r ->
    0 <= (pl_end (plan_of r) j).1 <= wl_nb (workload_of k) /\ 0 <= (pl_end (plan_of r) j).2).
  { pose proof (ko_batch k HK). intros j Hj. destruct (decide (j = usedCoreNum r - 1)) as [->|].
    - pose proof (plan_last _ _ _ Hsh) as E. cbn in E |- *. injection E as -> ->. lia.
    - destruct (plan_end_ok _ _ _ Hsh j ltac:(cbn; lia)) as [Hb Hr]. lia. }
  assert (Hst : 0 <= (pl_start (plan_of r) i).1 <= wl_nb (workload_of k) /\ 0 <= (pl_start (plan_of r) i).2).
  { pose proof (ko_batch k HK). unfold pl_start. destruct (Z.eqb_spec i 0); [cbn; lia|].
    apply Hend. lia. }
  pose proof (plan_increasing _ _ _ Hsh i Hi) as Hlt. destruct (Hend i Hi) as [He1 He2].
  destruct Hst as [Hs1 Hs2].
  pose proof (blk_rest_bound _ OK _ _ Hs1 Hs2) as B1. pose proof (blk_rest_bound _ OK _ _ He1 He2) as B2.
  enough (rest (workload_of k) (wl_blk (workload_of k)) (pl_end (plan_of r) i).1 (pl_end (plan_of r) i).2 <=
    rest (workload_of k) (wl_blk (workload_of k)) (pl_start (plan_of r) i).1 (pl_start (plan_of r) i).2) by lia.
  apply rest_mono; try done; try lia; [intros; by apply (wl_blk_nonneg _ OK)|].
  right. by destruct (pl_start _ _), (pl_end _ _).
Qed.

Lemma kvq_Compute_returns c s k :
  Prepare c new_Kernel = Ok (true, k) -> Sane k ->
  returns (Compute c new_Kernel s) (fun '(status, buf) =>
    status = KERNEL_STATUS_OK /\
    exists r, ScheduleOk (workload_of k) (aicCoreNum_ k) true
                (new_FlashDecodeResult (aicCoreNum_ k) (aivCoreNum_ k)) r /\
              KvqMetaOk k r buf).
Proof.
  intros Hp HS. pose proof (kvq_Prepare_accepted c k Hp) as A.
  pose proof (kvq_accepted_KernelOk k A HS) as HK. pose proof (sn_aic k HS) as [Ha1 Ha2].
  unfold Compute. rewrite Hp. cbn [mbind res_bind negb].
  eapply returns_bind_mono.
  { apply (kvq_BalanceSchedule_returns k (workload_of k) (ac_fd k A)); [|by apply SharedKv_KernelModel].
    unfold AIC_CORE_NUM in Ha2. destruct (isN128 k); lia. }
  intros r Hr. eapply returns_bind_mono.
  { eapply (GenMetaData_returns k (workload_of k)); try exact Hr; try done.
    - cbn. apply (ko_batch k HK).
    - intros b Hb. by apply rows_range.
    - apply (sn_aiv k HS).
    - apply (sn_buf k HS). }
  intros buf HM. apply returns_ok. split; [done|]. by exists r.
Qed.
End KvqProofs.
