(* ===== verification/QliMeta.v ===== *)
(** * The vllm_quant_lightning_indexer metadata kernel

    VllmQuantLightningIndexerMetadataCpuKernel.  Its rows have one part, over
    compressed keys, and its block cost depends on the chip; the routines that
    distribute rows over cores are those of Assign. *)

From S2P Require Import Prelude SplitTypes Assign Metadata SasMeta KvqMeta.

Module Qli.

Definition LI_METADATA_SIZE : Z := 8.

Definition NORMAL_BLOCK : Z := 0.
Definition TAIL_BLOCK : Z := 1.

(** The enumerator [ASCEND910B] of this kernel is [ASCEND910] of the shared
    type. *)
Record Kernel := mkKernel {
  actSeqLenQ_ : option Tensor;
  actSeqLenKey_ : option Tensor;
  metaData_ : option Tensor;
  socVersion_ : string;
  supportFd_ : bool;
  cmpRatio_ : Z;
  aicCoreNum_ : Z;
  aivCoreNum_ : Z;
  batchSize_ : Z;
  maxSeqlenQ_ : Z;
  maxSeqlenK_ : Z;
  numHeadsQ_ : Z;
  numHeadsK_ : Z;
  headDim_ : Z;
  queryQuantMode_ : Z;
  keyQuantMode_ : Z;
  sparseCount_ : Z;
  layoutQuery_ : string;
  layoutKey_ : string;
  sparseMode_ : Z;
  attentionMode_ : Z;
  validSocVersion_ : ValidSocVersion;
  preToken_ : Z;
  nextToken_ : Z;
  groupSize_ : Z;
  mBaseSize_ : Z;
  s2BaseSize_ : Z;
  isS1G_ : bool;
  isActQBatchPlus : bool
}.
#[global] Instance Kernel_eta : Eta Kernel := fun k =>
  mkKernel (actSeqLenQ_ k) (actSeqLenKey_ k) (metaData_ k) (socVersion_ k) (supportFd_ k)
    (cmpRatio_ k) (aicCoreNum_ k) (aivCoreNum_ k) (batchSize_ k) (maxSeqlenQ_ k) (maxSeqlenK_ k)
    (numHeadsQ_ k) (numHeadsK_ k) (headDim_ k) (queryQuantMode_ k) (keyQuantMode_ k)
    (sparseCount_ k) (layoutQuery_ k) (layoutKey_ k) (sparseMode_ k) (attentionMode_ k)
    (validSocVersion_ k) (preToken_ k) (nextToken_ k) (groupSize_ k) (mBaseSize_ k)
    (s2BaseSize_ k) (isS1G_ k) (isActQBatchPlus k).

Definition new_Kernel : Kernel :=
  mkKernel None None None "" false 4 24 48 0 0 0 0 0 0 0 0 0 "BSND" "BSND" 0 0 ASCEND910
    INT64_MAX INT64_MAX 0 256 0 true false.

Record S1GCache := mkS1GCache {
  sg_bIdx : Z;
  sg_s1GIdx : Z;
  s2Start : Z;
  s2End : Z;
  s1GCost : Z;
  s1GLastBlockCost : Z;
  s1GBlock : Z;
  s1GNormalBlockCost : Z
}.
#[global] Instance S1GCache_eta : Eta S1GCache := fun g =>
  mkS1GCache (sg_bIdx g) (sg_s1GIdx g) (s2Start g) (s2End g) (s1GCost g) (s1GLastBlockCost g)
    (s1GBlock g) (s1GNormalBlockCost g).

Definition new_S1GCache : S1GCache := mkS1GCache 0 0 0 0 0 0 0 0.

Section Rows.
Implicit Types (k : Kernel) (g : S1GCache) (si : SplitInfo) (bc : BatchCache).

(** ** Sequence sizes *)

Definition GetS1SeqSize k (bIdx : Z) : res Z :=
  match tensor_data (actSeqLenQ_ k) with
  | None => Ok (u32 (maxSeqlenQ_ k))
  | Some s1Ptr =>
      if String.eqb (layoutQuery_ k) "TND" then
        if isActQBatchPlus k then
          v1 ← vget s1Ptr (u32 (bIdx + 1));
          v0 ← vget s1Ptr bIdx;
          Ok (u32 (v1 - v0))
        else if bIdx =? 0 then v ← vget s1Ptr bIdx; Ok (u32 v)
        else
          v1 ← vget s1Ptr bIdx;
          v0 ← vget s1Ptr (u32 (bIdx - 1));
          Ok (u32 (v1 - v0))
      else v ← vget s1Ptr bIdx; Ok (u32 v)
  end.

Definition GetS2SeqSize k (bIdx : Z) : res Z :=
  match tensor_data (actSeqLenKey_ k) with
  | None => Ok (u32 (i32 (maxSeqlenK_ k * cmpRatio_ k)))
  | Some s2Ptr =>
      if String.eqb (layoutKey_ k) "TND" then
        if bIdx =? 0 then v ← vget s2Ptr bIdx; Ok (u32 v)
        else
          v1 ← vget s2Ptr bIdx;
          v0 ← vget s2Ptr (u32 (bIdx - 1));
          Ok (u32 (v1 - v0))
      else v ← vget s2Ptr bIdx; Ok (u32 v)
  end.

(** ** Basic blocks *)

Definition CalcSplitInfo_batch k (bIdx : Z) si : res SplitInfo :=
  s1Size ← GetS1SeqSize k bIdx;
  s2Full ← GetS2SeqSize k bIdx;
  s2Size ← udiv s2Full (u32 (cmpRatio_ k));
  n1 ← udiv (u32 (u32 (s1Size * groupSize_ k) + u32 (mBaseSize_ k - 1))) (mBaseSize_ k);
  v1 ← vset (s1GBaseNum si) bIdx n1;
  t1 ← umod (u32 (s1Size * groupSize_ k)) (mBaseSize_ k);
  v2 ← vset (s1GTailSize si) bIdx t1;
  n2 ← udiv (u32 (s2Size + s2BaseSize_ k - 1)) (s2BaseSize_ k);
  v3 ← vset (s2BaseNum si) bIdx n2;
  t2 ← umod s2Size (s2BaseSize_ k);
  v4 ← vset (s2TailSize si) bIdx t2;
  let si := si <| s1GBaseNum := v1 |> <| s1GTailSize := v2 |>
               <| s2BaseNum := v3 |> <| s2TailSize := v4 |> in
  Ok (if negb (n1 =? 0) && negb (n2 =? 0) then si <| isKvSeqAllZero := false |> else si).

Definition CalcSplitInfo k si : res SplitInfo :=
  for_range (u32 (batchSize_ k)) (CalcSplitInfo_batch k) si.

(** ** Masks *)

Definition CalcPreTokenLeftUp k (s1Size s2Size : Z) : Z :=
  match to_SparseMode (sparseMode_ k) with
  | BAND => i64 (s1Size - s2Size + preToken_ k)
  | _ => preToken_ k
  end.

Definition CalcNextTokenLeftUp k (s1Size s2Size : Z) : Z :=
  match to_SparseMode (sparseMode_ k) with
  | DEFAULT_MASK | ALL_MASK | LEFT_UP_CAUSAL => nextToken_ k
  | RIGHT_DOWN_CAUSAL => s2Size - s1Size
  | BAND => i64 (s2Size - s1Size + nextToken_ k)
  | SPARSE_BUTT => nextToken_ k
  end.

(** ** Block costs *)

Definition CalcCost k (basicM basicS2 : Z) : res Z :=
  alignBasicM ← udiv basicM (groupSize_ k);
  match validSocVersion_ k with
  | ASCEND910 =>
      let alignBasicS2 := if basicS2 <=? 1024 then u32 (1536 + basicS2) / 2
                          else u32 (2560 + basicS2) / 2 in
      Ok (u32 (alignBasicM * alignBasicS2))
  | _ =>
      let alignBasicM := Z.shiftr (u32 (basicM + 16 - 1)) 4 in
      let alignBasicS2 := Z.shiftr (u32 (basicS2 + 64 - 1)) 6 in
      Ok (u32 (6 * alignBasicM + 10 * alignBasicS2))
  end.

Definition CalcCostTable k (s1NormalSize s2NormalSize s1GTailSize s2TailSize : Z) : res BlockCost :=
  let t : BlockCost := fun _ _ => 0 in
  c ← CalcCost k s1NormalSize s2NormalSize;
  let t := tset t NORMAL_BLOCK NORMAL_BLOCK c in
  c ← (if s1GTailSize =? 0 then Ok 0 else CalcCost k s1GTailSize s2NormalSize);
  let t := tset t TAIL_BLOCK NORMAL_BLOCK c in
  c ← (if s2TailSize =? 0 then Ok 0 else CalcCost k s1NormalSize s2TailSize);
  let t := tset t NORMAL_BLOCK TAIL_BLOCK c in
  c ← (if (s1GTailSize =? 0) || (s2TailSize =? 0) then Ok 0 else CalcCost k s1GTailSize s2TailSize);
  Ok (tset t TAIL_BLOCK TAIL_BLOCK c).

(** ** Tokens and blocks of a row *)

Definition CalcS2TokenRange k (s1GIdx : Z) bc : res (Z * Z) :=
  if attentionMode_ k =? 0 then Ok (0, s2Size bc)
  else
    let s1GFirstToken := i64 (s1GIdx * mBaseSize_ k) in
    let s1GLastToken :=
      Z.min (i64 (s1GFirstToken + mBaseSize_ k)) (i64 (s1Size bc * groupSize_ k)) - 1 in
    '(s1FirstToken, s1LastToken) ←
      (if isS1G_ k then
         f ← sdiv s1GFirstToken (groupSize_ k);
         l ← sdiv s1GLastToken (groupSize_ k);
         Ok (f, l)
       else
         gf ← sdiv s1GFirstToken (s1Size bc);
         gl ← sdiv s1GLastToken (s1Size bc);
         if gf =? gl then
           f ← smod s1GFirstToken (s1Size bc);
           l ← smod s1GLastToken (s1Size bc);
           Ok (f, l)
         else Ok (0, s1Size bc));
    Ok (i64 (s1FirstToken - preTokenLeftUp bc), i64 (s1LastToken + nextTokenLeftUp bc)).

Definition CalcBatchCache k (bIdx : Z) si bc : res BatchCache :=
  s1 ← GetS1SeqSize k bIdx;
  s2 ← GetS2SeqSize k bIdx;
  t1 ← vget (s1GTailSize si) bIdx;
  t2 ← vget (s2TailSize si) bIdx;
  t ← CalcCostTable k (mBaseSize_ k) (s2BaseSize_ k) t1 t2;
  Ok (bc <| bc_bIdx := bIdx |> <| s1Size := s1 |> <| s2Size := s2 |>
         <| preTokenLeftUp := CalcPreTokenLeftUp k s1 s2 |>
         <| nextTokenLeftUp := CalcNextTokenLeftUp k s1 s2 |>
         <| bc_typeCost := t |>).

Definition empty_row g : S1GCache :=
  g <| s1GBlock := 0 |> <| s1GCost := 0 |> <| s1GLastBlockCost := 0 |> <| s1GNormalBlockCost := 0 |>.

(** Cost of a row with [s2CmpLength > 0] compressed tokens. *)
Definition row_costs k (s1GIdx : Z) si bc (s2CmpLength : Z) g : res S1GCache :=
  s2Tail ← umod s2CmpLength (s2BaseSize_ k);
  let g := g <| s1GBlock := u32 (s2End g - s2Start g) |> in
  let curTailS2Num := if negb (s2Tail =? 0) then 1 else 0 in
  let curNormalS2Num := u32 (s1GBlock g - curTailS2Num) in
  tail ← vget (s1GTailSize si) (bc_bIdx bc);
  t ← CalcCostTable k (mBaseSize_ k) (s2BaseSize_ k) tail s2Tail;
  rows ← vget (s1GBaseNum si) (bc_bIdx bc);
  let m := if (s1GIdx =? u32 (rows - 1)) && negb (tail =? 0) then TAIL_BLOCK else NORMAL_BLOCK in
  Ok (g <| s1GCost := i64 (t m NORMAL_BLOCK * curNormalS2Num + t m TAIL_BLOCK * curTailS2Num) |>
        <| s1GLastBlockCost := if curTailS2Num >? 0 then t m TAIL_BLOCK else t m NORMAL_BLOCK |>
        <| s1GNormalBlockCost := t m NORMAL_BLOCK |>).

Definition CalcS1GCache k (s1GIdx : Z) si bc g : res S1GCache :=
  let g := g <| sg_bIdx := bc_bIdx bc |> <| sg_s1GIdx := s1GIdx |> in
  n1 ← vget (s1GBaseNum si) (bc_bIdx bc);
  n2 ← (if n1 =? 0 then Ok 0 else vget (s2BaseNum si) (bc_bIdx bc));
  if (n1 =? 0) || (n2 =? 0) then Ok (empty_row g)
  else
    '(first, last) ← CalcS2TokenRange k s1GIdx bc;
    let s2FirstToken := Clip first 0 (u32 (s2Size bc - 1)) in
    let s2LastToken := Clip last 0 (u32 (s2Size bc - 1)) in
    n ← sdiv (s2LastToken - s2FirstToken + 1) (cmpRatio_ k);
    let s2CmpLength := u32 n in
    e ← (if s2CmpLength =? 0 then Ok 0
         else udiv (u32 (s2CmpLength + s2BaseSize_ k - 1)) (s2BaseSize_ k));
    let g := g <| s2Start := 0 |> <| s2End := e |> in
    if s2Start g >=? s2End g then Ok (empty_row g)
    else row_costs k s1GIdx si bc s2CmpLength g.
End Rows.

(** [maxS1GCost] of this kernel is a [uint64_t]: the comparison is unsigned. *)
#[global] Instance Qli_SplitKernel : SplitKernel Kernel S1GCache := {
  sk_batchSize := batchSize_;
  sk_kvHeadNum := numHeadsK_;
  sk_GetS1SeqSize := GetS1SeqSize;
  sk_GetS2SeqSize := GetS2SeqSize;
  sk_CalcSplitInfo := CalcSplitInfo;
  sk_CalcBatchCache := CalcBatchCache;
  sk_CalcS1GCache := CalcS1GCache;
  sk_fresh _ := new_S1GCache;
  sk_s1GCost := s1GCost;
  sk_s1GBlock := s1GBlock;
  sk_s1GLastBlockCost := s1GLastBlockCost;
  sk_s2Start := s2Start;
  sk_s2End := s2End;
  sk_cursorS2 _ g := s2Start g;
  sk_cost_gt a b := u64 a >? b
}.

Section Kernel.
Implicit Types (k : Kernel) (ctx : SplitContext) (ac : AssignContext S1GCache) (r : SplitResult).

(** ** The shared engine, as this kernel has it *)

Definition CalcBatchCost k (bIdx : Z) (si : SplitInfo) (st : S1GCache * CostInfo)
    : res (S1GCache * CostInfo) := Assign.CalcBatchCost k bIdx si st.
Definition CalcCostInfo k ctx (g : S1GCache) : res (S1GCache * SplitContext) :=
  Assign.CalcCostInfo k ctx g.
Definition UpdateCursor k ctx ac : res (AssignContext S1GCache) := Assign.UpdateCursor k ctx ac.
Definition AssignByBatch k ctx ac : res (AssignContext S1GCache) := Assign.AssignByBatch k ctx ac.
Definition AssignByRow k ctx ac : res (AssignContext S1GCache) := Assign.AssignByRow k ctx ac.
Definition IsNeedRecordFDInfo ac r : res bool := Assign.IsNeedRecordFDInfo ac r.

(** ** Assignment by single blocks *)

Definition cur_block_cost ac : Z :=
  if curS2Idx ac =? u32 (s2End (s1GCache ac) - 1) then s1GLastBlockCost (s1GCache ac)
  else s1GNormalBlockCost (s1GCache ac).

Definition take_block (curCost : Z) ac : AssignContext S1GCache :=
  let core := coreCache ac in
  let g := s1GCache ac in
  ac <| coreCache := core <| cost := i64 (cost core + curCost) |>
                          <| block := u32 (block core + 1) |> |>
     <| curS2Idx := u32 (curS2Idx ac + 1) |>
     <| bN2Cost := i64 (bN2Cost ac - curCost) |>
     <| bN2Block := u32 (bN2Block ac - 1) |>
     <| s1GCache := g <| s1GCost := i64 (s1GCost g - curCost) |>
                      <| s1GBlock := u32 (s1GBlock g - 1) |> |>.

(** The cost of the block is computed once, before the loop. *)
Definition AssignByBlock k ctx ac : res (AssignContext S1GCache) :=
  if isFinished ac then Ok ac
  else
    let curCost := cur_block_cost ac in
    while_loop (S (Z.to_nat (s1GBlock (s1GCache ac))))
      (fun ac => Ok (if IsWithinTolerance (costLimit (coreCache ac))
                          (Z.quot curCost FA_TOLERANCE_RATIO) (i64 (cost (coreCache ac) + curCost))
                     then (true, take_block curCost ac) else (false, ac))) ac.

Definition ForceAssign k ctx ac : res (AssignContext S1GCache) :=
  if isFinished ac then Ok ac
  else UpdateCursor k ctx (take_block (cur_block_cost ac) ac).

Definition RecordFDInfo k ctx ac r : res SplitResult :=
  let prev := u32 (curCoreIdx ac - 1) in
  b ← vget (bN2End r) prev;
  splitBIdx ← udiv b (u32 (numHeadsK_ k));
  splitS1GIdx ← vget (gS1End r) prev;
  s1 ← GetS1SeqSize k splitBIdx;
  rows ← vget (s1GBaseNum (splitInfo ctx)) splitBIdx;
  let curFdS1gSize := if splitS1GIdx =? u32 (rows - 1)
                      then u32 (u32 (s1 * groupSize_ k) - u32 (splitS1GIdx * mBaseSize_ k))
                      else mBaseSize_ k in
  let n := numOfFdHead r in
  let fd := fdRes r in
  v1 ← vset (fdBN2Idx fd) n b;
  v2 ← vset (fdMIdx fd) n splitS1GIdx;
  v3 ← vset (fdWorkspaceIdx fd) n (preFdDataNum ac);
  v4 ← vset (fdS2SplitNum fd) n (curKvSplitPart ac);
  size ← udiv curFdS1gSize (groupSize_ k);
  v5 ← vset (fdMSize fd) n size;
  Ok (r <| maxS2SplitNum := Z.max (maxS2SplitNum r) (curKvSplitPart ac) |>
        <| fdRes := fd <| fdBN2Idx := v1 |> <| fdMIdx := v2 |> <| fdWorkspaceIdx := v3 |>
                       <| fdS2SplitNum := v4 |> <| fdMSize := v5 |> |>
        <| numOfFdHead := u32 (n + 1) |>).

Definition AssignBlockToCore k (coreNum : Z) ctx ac r : res (AssignContext S1GCache * SplitResult) :=
  v0 ← vset (firstFdDataWorkspaceIdx r) (curCoreIdx ac)
         (u32 (preFdDataNum ac + curKvSplitPart ac - 1));
  let r := r <| firstFdDataWorkspaceIdx := v0 |> in
  limit ← sdiv (unassignedCost ac) (u32 (coreNum - curCoreIdx ac));
  let limit := if negb (supportFd_ k) then
                 if maxS1GCost (costInfo ctx) >? u64 limit then i64 (maxS1GCost (costInfo ctx)) else limit
               else limit in
  let ac := ac <| coreCache := new_CoreCache <| costLimit := limit |> |> in
  ac ← AssignByBatch k ctx ac;
  ac ← AssignByRow k ctx ac;
  ac ← (if supportFd_ k then
          ac ← AssignByBlock k ctx ac;
          if block (coreCache ac) =? 0 then ForceAssign k ctx ac else Ok ac
        else Ok ac);
  v1 ← vset (bN2End r) (curCoreIdx ac) (curBN2Idx ac);
  v2 ← vset (gS1End r) (curCoreIdx ac) (curS1GIdx ac);
  v3 ← vset (sr_s2End r) (curCoreIdx ac) (curS2Idx ac);
  let r := r <| bN2End := v1 |> <| gS1End := v2 |> <| sr_s2End := v3 |>
             <| maxCost := Z.max (maxCost r) (cost (coreCache ac)) |> in
  let ac := ac <| unassignedCost := i64 (unassignedCost ac - cost (coreCache ac)) |> in
  need ← (if supportFd_ k then IsNeedRecordFDInfo ac r else Ok false);
  '(ac, r) ← (if need : bool then
                r ← RecordFDInfo k ctx ac r;
                Ok (ac <| preFdDataNum := u32 (preFdDataNum ac + curKvSplitPart ac) |>
                       <| curKvSplitPart := 1 |>, r)
              else Ok (ac, r));
  Ok (if supportFd_ k && (curS2Idx ac >? s2Start (s1GCache ac)) &&
         (curS2Idx ac <=? s2End (s1GCache ac))
      then ac <| curKvSplitPart := u32 (curKvSplitPart ac + 1) |> else ac, r).

Definition CalcSplitPlan k (coreNum limit : Z) ctx (g : S1GCache) r : res SplitResult :=
  Assign.CalcSplitPlan k coreNum limit ctx (AssignBlockToCore k coreNum ctx) g r.

(** The text of SplitFD is that of the kv_quant kernel. *)
Definition SplitFD k r : res SplitResult := Kvq.SplitFD_on (aivCoreNum_ k) r.

Definition BalanceSchedule k (g : S1GCache) r : res SplitResult :=
  Assign.BalanceSchedule k (aicCoreNum_ k) (AssignBlockToCore k (aicCoreNum_ k))
    (fun r => if supportFd_ k && (numOfFdHead r >? 0) then SplitFD k r else Ok r) g r.

(** ** Parameter checks *)

Definition CheckSingleParam k : bool :=
  match metaData_ k with
  | None => false
  | Some t =>
      match GetDimSize0 t, GetData t with
      | Some _, Some _ =>
          if (aicCoreNum_ k =? 0) || (aivCoreNum_ k =? 0) ||
             negb (aivCoreNum_ k mod aicCoreNum_ k =? 0) then false
          else if batchSize_ k <? 0 then false
          else if maxSeqlenQ_ k <? 0 then false
          else if maxSeqlenK_ k <? 0 then false
          else if negb (numHeadsQ_ k =? 64) then false
          else if negb (numHeadsK_ k =? 1) then false
          else if negb (String.eqb (layoutQuery_ k) "TND") &&
                  negb (String.eqb (layoutQuery_ k) "BSND") then false
          else if negb (String.eqb (layoutKey_ k) "PA_BSND") &&
                  negb (String.eqb (layoutKey_ k) "TND") &&
                  negb (String.eqb (layoutKey_ k) "BSND") then false
          else if String.eqb (layoutQuery_ k) "TND" && String.eqb (layoutKey_ k) "BSND" then false
          else if String.eqb (layoutQuery_ k) "BSND" && String.eqb (layoutKey_ k) "TND" then false
          else if negb (u32 (sparseMode_ k) =? SparseMode_value DEFAULT_MASK) &&
                  negb (u32 (sparseMode_ k) =? SparseMode_value RIGHT_DOWN_CAUSAL) then false
          else if negb (preToken_ k =? INT64_MAX) then false
          else if negb (nextToken_ k =? INT64_MAX) then false
          else true
      | _, _ => false
      end
  end.

Definition CheckExistence k : bool :=
  if String.eqb (layoutQuery_ k) "TND" && isInvalid (actSeqLenQ_ k) then false
  else if String.eqb (layoutKey_ k) "PA_BSND" && isInvalid (actSeqLenKey_ k) then false
  else if String.eqb (layoutKey_ k) "TND" && isInvalid (actSeqLenKey_ k) then false
  else true.

Definition GetQueryBatchSize k : Z :=
  match Sas.dim0 (actSeqLenQ_ k) with Some n => i32 n | None => batchSize_ k end.

Definition GetKvBatchSize k : Z :=
  match Sas.dim0 (actSeqLenKey_ k) with Some n => i32 n | None => batchSize_ k end.

Definition CheckConsistency k : bool :=
  let q := GetQueryBatchSize k in
  let kv := GetKvBatchSize k in
  if (String.eqb (layoutQuery_ k) "BSND" ||
      (String.eqb (layoutQuery_ k) "TND" && String.eqb (layoutKey_ k) "TND")) && negb (q =? kv)
  then false
  else if Z.abs (i32 (q - kv)) >? 1 then false
  else true.

Definition ProcessSocVersion k : ValidSocVersion :=
  if string_contains "Ascend950" (socVersion_ k) then ASCEND950 else ASCEND910.

(** CheckFeature also sets [validSocVersion_]. *)
Definition CheckFeature k : bool * Kernel :=
  if (cmpRatio_ k <? 1) || (cmpRatio_ k >? 128) then (false, k)
  else
    let k := k <| validSocVersion_ := ProcessSocVersion k |> in
    match validSocVersion_ k with
    | ASCEND910 =>
        if negb (Z.land (cmpRatio_ k) (cmpRatio_ k - 1) =? 0) then (false, k) else (true, k)
    | _ =>
        if negb (cmpRatio_ k =? 1) && negb (cmpRatio_ k =? 4) && negb (cmpRatio_ k =? 128)
        then (false, k) else (true, k)
    end.

Definition ParamsCheck k : bool * Kernel :=
  if CheckSingleParam k && CheckExistence k && CheckConsistency k then CheckFeature k
  else (false, k).

(** ** Initialisation *)

Definition ParamsInit k : res (bool * Kernel) :=
  let qBatchSize := GetQueryBatchSize k in
  let kvBatchSize := GetKvBatchSize k in
  let k := k <| isActQBatchPlus := qBatchSize >? kvBatchSize |> in
  let k := match to_SparseMode (sparseMode_ k) with
           | RIGHT_DOWN_CAUSAL => k <| attentionMode_ := 1 |> <| preToken_ := INT64_MAX |>
           | DEFAULT_MASK => k <| attentionMode_ := 0 |>
           | BAND => k <| attentionMode_ := 1 |>
           | _ => k
           end in
  gs ← sdiv (numHeadsQ_ k) (numHeadsK_ k);
  let k := k <| groupSize_ := u32 gs |> <| batchSize_ := Z.min qBatchSize kvBatchSize |> in
  let k := k <| validSocVersion_ := ProcessSocVersion k |> in
  Ok (true,
      match validSocVersion_ k with
      | ASCEND910 => k <| s2BaseSize_ := 2048 |>
      | ASCEND950 => k <| s2BaseSize_ := 128 |>
      | RESERVED_VERSION => k <| s2BaseSize_ := 128 |>
      end).

(** One conjunct of the chain of required attributes: read when every
    earlier one was found. *)
Definition attr_and {A} (get : AttrValue -> A) (c : CpuKernelContext) (name : string)
    (set : A -> Kernel -> Kernel) (old : Kernel -> A) (st : bool * Kernel) : bool * Kernel :=
  let '(ok, k) := st in
  if ok : bool then let '(ok, v) := GetAttrValue get c name (old k) in (ok, set v k)
  else (false, k).

Definition required_attrs (c : CpuKernelContext) k : bool * Kernel :=
  let st := (true, k) in
  let st := attr_and GetUint32 c "aic_core_num" (fun v k => k <| aicCoreNum_ := v |>) aicCoreNum_ st in
  let st := attr_and GetUint32 c "aiv_core_num" (fun v k => k <| aivCoreNum_ := v |>) aivCoreNum_ st in
  let st := attr_and GetString c "soc_version" (fun v k => k <| socVersion_ := v |>) socVersion_ st in
  let st := attr_and GetInt32 c "num_heads_q" (fun v k => k <| numHeadsQ_ := v |>) numHeadsQ_ st in
  let st := attr_and GetInt32 c "num_heads_k" (fun v k => k <| numHeadsK_ := v |>) numHeadsK_ st in
  let st := attr_and GetInt32 c "head_dim" (fun v k => k <| headDim_ := v |>) headDim_ st in
  let st := attr_and GetInt32 c "query_quant_mode" (fun v k => k <| queryQuantMode_ := v |>)
              queryQuantMode_ st in
  attr_and GetInt32 c "key_quant_mode" (fun v k => k <| keyQuantMode_ := v |>) keyQuantMode_ st.

Definition Prepare (c : CpuKernelContext) k : res (bool * Kernel) :=
  let k := k <| actSeqLenQ_ := Input c 0 |> <| actSeqLenKey_ := Input c 1 |>
             <| metaData_ := Output c 0 |> in
  let '(requiredAttrs, k) := required_attrs c k in
  if negb requiredAttrs then Ok (false, k)
  else
    let k := k
      <| batchSize_ := GetAttrValueOpt GetInt32 c "batch_size" (batchSize_ k) |>
      <| maxSeqlenQ_ := GetAttrValueOpt GetInt32 c "max_seqlen_q" (maxSeqlenQ_ k) |>
      <| maxSeqlenK_ := GetAttrValueOpt GetInt32 c "max_seqlen_k" (maxSeqlenK_ k) |>
      <| layoutQuery_ := GetAttrValueOpt GetString c "layout_query" (layoutQuery_ k) |>
      <| layoutKey_ := GetAttrValueOpt GetString c "layout_key" (layoutKey_ k) |>
      <| sparseCount_ := GetAttrValueOpt GetInt32 c "sparse_count" (sparseCount_ k) |>
      <| sparseMode_ := GetAttrValueOpt GetInt32 c "sparse_mode" (sparseMode_ k) |>
      <| preToken_ := GetAttrValueOpt GetInt64 c "pre_tokens" (preToken_ k) |>
      <| nextToken_ := GetAttrValueOpt GetInt64 c "next_tokens" (nextToken_ k) |>
      <| cmpRatio_ := GetAttrValueOpt GetInt32 c "cmp_ratio" (cmpRatio_ k) |> in
    let '(ok, k) := ParamsCheck k in
    if ok : bool then ParamsInit k else Ok (false, k).

(** ** Metadata *)

Definition GenMetaData k r (buf : list Z) : res (list Z) :=
  buf ← for_range (aicCoreNum_ k) (gen_fa LI_METADATA_SIZE r) buf;
  for_range (aivCoreNum_ k) (gen_fd LI_METADATA_SIZE r) buf.

(** ** Compute: the status and the words of the output tensor *)

Definition Compute (c : CpuKernelContext) k : res (Z * list Z) :=
  '(success, k) ← Prepare c k;
  let buf := default [] (tensor_data (metaData_ k)) in
  if negb success then Ok (KERNEL_STATUS_PARAM_INVALID, buf)
  else
    r ← BalanceSchedule k new_S1GCache (new_SplitResult (aicCoreNum_ k) (aivCoreNum_ k));
    buf ← GenMetaData k r buf;
    Ok (KERNEL_STATUS_OK, buf).
End Kernel.

End Qli.
