(* ===== verification/QliProofs.v ===== *)
(** * The vllm_quant_lightning_indexer schedule is a correct split

    The row model of the lightning indexer, proved to be what CalcS1GCache
    computes; AssignBlockToCore meets the contract of one core, so that every
    accepted input yields a plan and metadata that describes it. *)

From S2P Require Import Prelude SplitTypes Assign Workload AssignProofs PlanProofs PlanLoop.
From S2P Require Import RowSpec SharedKvProofs Metadata MetaProofs SasMeta SasProofs QliMeta.

Module QliProofs.
Import Qli.

(** ** The workload of a kernel object *)

Section Spec.
Context (k : Kernel).

Definition s1_of (b : Z) : Z := match GetS1SeqSize k b with Ok v => v | Fault _ => 0 end.
Definition s2_of (b : Z) : Z := match GetS2SeqSize k b with Ok v => v | Fault _ => 0 end.

(** Cost of a block of [M] rows and [S] compressed tokens. *)
Definition block_cost (M S : Z) : Z :=
  match validSocVersion_ k with
  | ASCEND910 => M / groupSize_ k * ((if S <=? 1024 then 1536 + S else 2560 + S) / 2)
  | _ => unit_cost M S
  end.

Definition rows_of (b : Z) : Z := ceil_div (s1_of b * groupSize_ k) (mBaseSize_ k).
Definition tail_of (b : Z) : Z := (s1_of b * groupSize_ k) mod mBaseSize_ k.
Definition tail_row (b r : Z) : bool := (r =? rows_of b - 1) && negb (tail_of b =? 0).
Definition row_m (b r : Z) : Z := if tail_row b r then tail_of b else mBaseSize_ k.

(** Keys a row sees before compression: all of them without a mask, with the
    causal mask those up to its last query token, and never less than one. *)
Definition visible (b r : Z) : Z :=
  if attentionMode_ k =? 0 then s2_of b
  else Z.max 0 (row_last (mBaseSize_ k) (groupSize_ k) (s1_of b) r + s2_of b - s1_of b) + 1.

(** Compressed keys of the row. *)
Definition row_len (b r : Z) : Z :=
  if (0 <=? r) && (r <? rows_of b) && (0 <? s2_of b / cmpRatio_ k) then visible b r / cmpRatio_ k
  else 0.

Definition workload_of : Workload :=
  mkWorkload (batchSize_ k) rows_of
    (fun b r => seg_cost block_cost (s2BaseSize_ k) (row_m b r) (row_len b r))
    (fun b r => seg_blk (s2BaseSize_ k) (row_len b r))
    (fun b r => seg_last block_cost (s2BaseSize_ k) (row_m b r) (row_len b r)).

Record KernelOk : Prop := {
  ko_batch : 0 < batchSize_ k < 2 ^ 31;
  ko_heads : numHeadsK_ k = 1;
  ko_g : groupSize_ k = 64;
  ko_m : mBaseSize_ k = 256;
  ko_sb : 0 < s2BaseSize_ k <= 2048;
  ko_s1g : isS1G_ k = true;
  ko_s1 : forall b, 0 <= b < batchSize_ k ->
    returns (GetS1SeqSize k b) (fun v => 0 <= v /\ v * 64 + 256 <= 2 ^ 31);
  ko_s2 : forall b, 0 <= b < batchSize_ k ->
    returns (GetS2SeqSize k b) (fun v => 0 <= v /\ v + s2BaseSize_ k <= 2 ^ 31);
  ko_mask : attentionMode_ k = 0 \/
    (attentionMode_ k = 1 /\ to_SparseMode (sparseMode_ k) = RIGHT_DOWN_CAUSAL /\
     preToken_ k = INT64_MAX);
  ko_ratio : 1 <= cmpRatio_ k <= 128;
  ko_blocks : total workload_of (wl_blk workload_of) < 2 ^ 32
}.
End Spec.

Section Rows.
Context (k : Kernel) (HK : KernelOk k).
Abbreviation g := (groupSize_ k).
Abbreviation m := (mBaseSize_ k).
Abbreviation sb := (s2BaseSize_ k).
Abbreviation ratio := (cmpRatio_ k).

Lemma qli_s1_spec b :
  0 <= b < batchSize_ k ->
  GetS1SeqSize k b = Ok (s1_of k b) /\ 0 <= s1_of k b /\ s1_of k b * 64 + 256 <= 2 ^ 31.
Proof. intros Hb. unfold s1_of. destruct (ko_s1 k HK b Hb) as (v & -> & H). done. Qed.

Lemma qli_s2_spec b :
  0 <= b < batchSize_ k ->
  GetS2SeqSize k b = Ok (s2_of k b) /\ 0 <= s2_of k b /\ s2_of k b + sb <= 2 ^ 31.
Proof. intros Hb. unfold s2_of. destruct (ko_s2 k HK b Hb) as (v & -> & H). done. Qed.

Lemma qli_rows_range b : 0 <= b < batchSize_ k -> 0 <= rows_of k b < 2 ^ 31.
Proof.
  intros Hb. destruct (qli_s1_spec b Hb) as (_ & H0 & H1). unfold rows_of.
  rewrite (ko_g k HK), (ko_m k HK).
  split; [apply ceil_div_nonneg; lia|].
  enough (ceil_div (s1_of k b * 64) 256 <= s1_of k b * 64) by lia.
  apply ceil_div_le; lia.
Qed.

(** The M size of a row is a positive number of query tokens, with all their
    heads. *)
Lemma tail_range b : 0 <= tail_of k b < 256 /\ exists q, tail_of k b = 64 * q.
Proof.
  unfold tail_of. rewrite (ko_g k HK), (ko_m k HK).
  split; [apply Z.mod_pos_bound; lia|]. exists (s1_of k b mod 4).
  rewrite (Z.mul_comm _ 64). by rewrite (Z.mul_mod_distr_l _ 4 64).
Qed.

Lemma qli_row_m_range b r : exists q, row_m k b r = 64 * q /\ 1 <= q <= 4.
Proof.
  unfold row_m, tail_row. destruct (tail_range b) as [Ht [q Hq]].
  destruct (_ && _) eqn:E; zify_tests; [exists q; lia|].
  exists 4. rewrite (ko_m k HK). lia.
Qed.

Lemma block_cost_range q s : 1 <= q <= 4 -> 0 < s <= sb -> 0 < block_cost k (64 * q) s <= 2 ^ 16.
Proof.
  intros Hq Hs. pose proof (ko_sb k HK). unfold block_cost. destruct (validSocVersion_ k).
  - rewrite (ko_g k HK), (Z.mul_comm 64 q), Z.div_mul by lia.
    assert (0 < (if s <=? 1024 then 1536 + s else 2560 + s) / 2 <= 2 ^ 14)
      by (destruct (s <=? 1024); ediv). nia.
  - apply (unit_cost_range _ s sb); lia.
  - apply (unit_cost_range _ s sb); lia.
Qed.

Lemma qli_row_unit b r s : 0 < s <= sb -> 0 < block_cost k (row_m k b r) s <= 2 ^ 16.
Proof. intros Hs. destruct (qli_row_m_range b r) as (q & -> & Hq). by apply block_cost_range. Qed.

(** A row of the batch starts before the end of its queries. *)
Lemma row_inside b r :
  0 <= b < batchSize_ k -> 0 <= r < rows_of k b ->
  0 <= row_first m g r <= row_last m g (s1_of k b) r /\ row_last m g (s1_of k b) r < s1_of k b.
Proof.
  intros Hb Hr. destruct (qli_s1_spec b Hb) as (_ & P1 & _).
  apply row_tokens_order; rewrite ?(ko_g k HK), ?(ko_m k HK); try lia.
  apply (ceil_div_lt (s1_of k b * 64) 256 r); [lia..|].
  unfold rows_of in Hr. rewrite (ko_g k HK), (ko_m k HK) in Hr. lia.
Qed.

Lemma visible_range b r :
  0 <= b < batchSize_ k -> 0 <= r < rows_of k b -> 0 < s2_of k b ->
  1 <= visible k b r <= s2_of k b.
Proof.
  intros Hb Hr Hs. destruct (row_inside b r Hb Hr). unfold visible.
  destruct (ko_mask k HK) as [E|[E _]]; rewrite E; simpl; lia.
Qed.

Lemma row_len_range b r : 0 <= b < batchSize_ k -> 0 <= row_len k b r < 2 ^ 31.
Proof.
  intros Hb. destruct (qli_s2_spec b Hb) as (_ & P2 & Q2). pose proof (ko_ratio k HK) as Hq.
  pose proof (ko_sb k HK). unfold row_len.
  destruct (_ && _) eqn:E; [|lia]. zify_tests.
  assert (0 < s2_of k b) by (destruct (decide (s2_of k b = 0)) as [Ez|]; [rewrite Ez, Z.div_small in H1; lia|lia]).
  pose proof (visible_range b r Hb ltac:(lia) ltac:(lia)).
  split; [apply Z.div_pos; lia|]. apply Z.div_lt_upper_bound; nia.
Qed.

Lemma row_facts b r :
  0 <= b < batchSize_ k ->
  0 <= wl_blk (workload_of k) b r /\
  0 <= wl_last (workload_of k) b r <= wl_cost (workload_of k) b r /\
  wl_cost (workload_of k) b r <= 2 ^ 16 * wl_blk (workload_of k) b r.
Proof.
  intros Hb. pose proof (ko_sb k HK). pose proof (row_len_range b r Hb). cbn. split.
  - apply seg_blk_range; lia.
  - split; [eapply seg_last_range|eapply seg_cost_le]; try lia; intros s Hs; by apply qli_row_unit.
Qed.

Lemma row_zero b r :
  row_len k b r = 0 ->
  wl_blk (workload_of k) b r = 0 /\ wl_cost (workload_of k) b r = 0 /\ wl_last (workload_of k) b r = 0.
Proof.
  intros E. pose proof (ko_sb k HK). cbn. rewrite E, seg_blk_zero, seg_cost_zero by lia. done.
Qed.

Lemma row_pos b r : 0 < row_len k b r -> 0 < wl_cost (workload_of k) b r.
Proof.
  intros Hp. pose proof (ko_sb k HK). cbn.
  pose proof (seg_last_pos (block_cost k) sb ltac:(lia) (row_m k b r) (2 ^ 16)
    ltac:(intros; by apply qli_row_unit) _ Hp).
  pose proof (seg_last_range (block_cost k) sb ltac:(lia) (row_m k b r) (2 ^ 16)
    ltac:(intros; by apply qli_row_unit) (row_len k b r) ltac:(lia)). lia.
Qed.

Lemma blk_pos b r :
  0 <= b < batchSize_ k -> 0 < wl_blk (workload_of k) b r <-> 0 < row_len k b r.
Proof.
  intros Hb. pose proof (ko_sb k HK). pose proof (row_len_range b r Hb).
  apply seg_blk_pos; lia.
Qed.

Lemma qli_workload_ok : WorkloadOk (workload_of k).
Proof.
  pose proof (ko_batch k HK). split; cbn [workload_of wl_nb wl_rows].
  - lia.
  - intros b Hb. by apply qli_rows_range.
  - intros b r Hb. by apply row_facts.
  - intros b r Hb Hp. apply row_pos. by apply blk_pos.
  - intros b r Hb Hz. pose proof (row_len_range b r Hb). pose proof (blk_pos b r Hb).
    apply row_zero. lia.
  - intros b r Hb. by apply row_facts.
  - intros b r Hb Hr. apply row_zero. unfold row_len.
    rewrite (proj2 (Z.ltb_ge r _)) by done. by rewrite andb_false_r.
  - pose proof (ko_blocks k HK).
    pose proof (total_scale (workload_of k) (2 ^ 16) (wl_cost (workload_of k)) (wl_blk (workload_of k))) as Ht.
    specialize (Ht ltac:(intros b r Hb; apply row_facts; exact Hb)). lia.
  - apply (ko_blocks k HK).
Qed.

(** ** The basic-block split *)

Record split_upto (n : Z) (si : SplitInfo) : Prop := {
  su_l1 : Z.of_nat (length (s1GBaseNum si)) = batchSize_ k;
  su_l2 : Z.of_nat (length (s2BaseNum si)) = batchSize_ k;
  su_l3 : Z.of_nat (length (s1GTailSize si)) = batchSize_ k;
  su_l4 : Z.of_nat (length (s2TailSize si)) = batchSize_ k;
  su_rows : forall b, 0 <= b < n -> vat (s1GBaseNum si) b = rows_of k b;
  su_cols : forall b, 0 <= b < n -> vat (s2BaseNum si) b = seg_blk sb (s2_of k b / ratio);
  su_tail : forall b, 0 <= b < n -> vat (s1GTailSize si) b = tail_of k b;
  su_tail2 : forall b, 0 <= b < n -> vat (s2TailSize si) b = (s2_of k b / ratio) mod sb;
  su_zero : isKvSeqAllZero si =
    forallb (fun b => (rows_of k (Z.of_nat b) =? 0) ||
      (seg_blk sb (s2_of k (Z.of_nat b) / ratio) =? 0)) (seq 0 (Z.to_nat n))
}.

Lemma cmp_s2_range b : 0 <= b < batchSize_ k -> 0 <= s2_of k b / ratio <= s2_of k b.
Proof.
  intros Hb. destruct (qli_s2_spec b Hb) as (_ & P2 & _). pose proof (ko_ratio k HK).
  split; [apply Z.div_pos; lia|]. apply Z.div_le_upper_bound; nia.
Qed.

Lemma qli_CalcSplitInfo_batch_returns b si :
  0 <= b < batchSize_ k -> split_upto b si ->
  returns (CalcSplitInfo_batch k b si) (split_upto (b + 1)).
Proof.
  intros Hb [L1 L2 L3 L4 Hrows Hcols Htail Htail2 Hz]. destruct (qli_s1_spec b Hb) as (E1 & P1 & Q1).
  destruct (qli_s2_spec b Hb) as (E2 & P2 & Q2). pose proof (cmp_s2_range b Hb).
  pose proof (ko_sb k HK). pose proof (ko_ratio k HK). unfold CalcSplitInfo_batch. rewrite E1, E2.
  cbn -[vset]. rewrite (u32_id ratio), (udiv_ok _ ratio) by lia. cbn -[vset].
  assert (Em : u32 (u32 (s1_of k b * g) + u32 (m - 1)) = s1_of k b * g + m - 1).
  { rewrite (ko_g k HK), (ko_m k HK), (u32_id (256 - 1)), (u32_id (s1_of k b * 64)), u32_id by lia. lia. }
  rewrite Em, (u32_id (s1_of k b * g)), !u32_id by (rewrite ?(ko_g k HK); lia).
  rewrite !udiv_ok, !umod_ok by (rewrite ?(ko_m k HK); lia). cbn -[vset].
  repeat (returns_step; cbn -[vset]).
  fold (ceil_div (s1_of k b * g) m). fold (rows_of k b). fold (tail_of k b).
  fold (ceil_div (s2_of k b / ratio) sb). fold (seg_blk sb (s2_of k b / ratio)).
  destruct (_ && _) eqn:Ec; split; cbn -[vat]; rewrite ?length_insert; try done.
  all: try (apply (vat_insert_upto _ (rows_of k)); [lia|done]).
  all: try (apply (vat_insert_upto _ (tail_of k)); [lia|done]).
  all: try (apply (vat_insert_upto _ (fun b => seg_blk sb (s2_of k b / ratio))); [lia|done]).
  all: try (apply (vat_insert_upto _ (fun b => (s2_of k b / ratio) mod sb)); [lia|done]).
  all: rewrite seq_snoc, forallb_app, <- Hz by lia; cbn; rewrite Z2Nat.id by lia.
  - rewrite <- negb_orb in Ec. apply negb_true_iff in Ec. rewrite Ec. by rewrite andb_false_r.
  - rewrite <- negb_orb in Ec. apply negb_false_iff in Ec. by rewrite Ec, !andb_true_r.
Qed.

Lemma qli_CalcSplitInfo_returns :
  returns (CalcSplitInfo k (new_SplitInfo (batchSize_ k))) (split_upto (batchSize_ k)).
Proof.
  pose proof (ko_batch k HK). unfold CalcSplitInfo. rewrite u32_id by lia.
  apply (for_range_returns split_upto); [lia| |].
  - split; cbn; unfold zeros; rewrite ?length_replicate; try lia; done.
  - intros b si Hb. by apply qli_CalcSplitInfo_batch_returns.
Qed.

(** ** The cost table *)

Lemma CalcCost_spec q s : 1 <= q <= 4 -> 0 < s <= sb -> CalcCost k (64 * q) s = Ok (block_cost k (64 * q) s).
Proof.
  intros Hq Hs. pose proof (ko_sb k HK). unfold CalcCost, block_cost.
  rewrite udiv_ok by (rewrite (ko_g k HK); lia). cbn -[u32].
  destruct (validSocVersion_ k).
  - rewrite (ko_g k HK), (Z.mul_comm 64 q), Z.div_mul by lia. f_equal.
    rewrite !(u32_id (_ + s)) by lia.
    assert (0 <= (if s <=? 1024 then (1536 + s) / 2 else (2560 + s) / 2) <= 2 ^ 14)
      by (destruct (s <=? 1024); ediv).
    rewrite u32_id by nia. by destruct (s <=? 1024).
  - f_equal. apply (WinCalcCost_spec (64 * q) s); lia.
  - f_equal. apply (WinCalcCost_spec (64 * q) s); lia.
Qed.

(** The entries of the table for a row and a tail of [t2] tokens. *)
Lemma CalcCostTable_returns b r t2 :
  0 <= t2 < sb ->
  let row := if tail_row k b r then TAIL_BLOCK else NORMAL_BLOCK in
  returns (CalcCostTable k m sb (tail_of k b) t2) (fun t =>
    t row NORMAL_BLOCK = block_cost k (row_m k b r) sb /\
    t row TAIL_BLOCK = (if t2 =? 0 then 0 else block_cost k (row_m k b r) t2)).
Proof.
  intros Ht. pose proof (ko_sb k HK). destruct (tail_range b) as [Hr [q Hq]].
  unfold CalcCostTable, row_m, tail_row. rewrite (ko_m k HK) in *.
  change 256 with (64 * 4). rewrite (CalcCost_spec 4 sb) by lia. cbn -[CalcCost Z.mul].
  rewrite Hq in *. destruct (Z.eqb_spec (64 * q) 0) as [E|E]; cbn [orb].
  - rewrite andb_false_r. cbn [mbind res_bind].
    destruct (Z.eqb_spec t2 0); cbn [mbind res_bind];
      [|rewrite (CalcCost_spec 4 t2) by lia; cbn [mbind res_bind]]; by apply returns_ok.
  - rewrite (CalcCost_spec q sb) by lia. rewrite andb_true_r. cbn [mbind res_bind].
    destruct (Z.eqb_spec t2 0); cbn [mbind res_bind].
    + apply returns_ok. by destruct (r =? rows_of k b - 1).
    + rewrite (CalcCost_spec 4 t2), (CalcCost_spec q t2) by lia. cbn [mbind res_bind].
      apply returns_ok. by destruct (r =? rows_of k b - 1).
Qed.

(** ** The caches *)

Record batch_cache (b : Z) (bc : BatchCache) : Prop := {
  bk_b : bc_bIdx bc = b;
  bk_s1 : s1Size bc = s1_of k b;
  bk_s2 : s2Size bc = s2_of k b;
  bk_pre : preTokenLeftUp bc = CalcPreTokenLeftUp k (s1_of k b) (s2_of k b);
  bk_next : nextTokenLeftUp bc = CalcNextTokenLeftUp k (s1_of k b) (s2_of k b)
}.

Lemma qli_CalcBatchCache_returns b si bc :
  0 <= b < batchSize_ k -> split_upto (batchSize_ k) si ->
  returns (CalcBatchCache k b si bc) (batch_cache b).
Proof.
  intros Hb Hsi. pose proof (ko_sb k HK). unfold CalcBatchCache.
  destruct (qli_s1_spec b Hb) as (-> & _), (qli_s2_spec b Hb) as (-> & _). cbn -[vget].
  pose proof (su_l3 _ _ Hsi). pose proof (su_l4 _ _ Hsi).
  rewrite !vget_ok by lia. cbn -[vat CalcCostTable].
  rewrite (su_tail _ _ Hsi), (su_tail2 _ _ Hsi) by done.
  eapply returns_bind_mono; [apply (CalcCostTable_returns b 0); apply Z.mod_pos_bound; lia|].
  intros t _. by apply returns_ok.
Qed.

(** The clipped interval of a row runs from the first key over the visible
    ones. *)
Lemma qli_CalcS2TokenRange_returns b r bc :
  0 <= b < batchSize_ k -> 0 <= r < rows_of k b -> 0 < s2_of k b -> batch_cache b bc ->
  returns (CalcS2TokenRange k r bc) (fun '(first, last) =>
    Clip first 0 (s2_of k b - 1) = 0 /\ Clip last 0 (s2_of k b - 1) = visible k b r - 1).
Proof.
  intros Hb Hr Hs [_ E1 E2 Ep En]. destruct (row_inside b r Hb Hr) as [Ho1 Ho2].
  destruct (qli_s1_spec b Hb) as (_ & P1 & Q1), (qli_s2_spec b Hb) as (_ & P2 & Q2).
  pose proof (ko_sb k HK). pose proof (qli_rows_range b Hb).
  unfold CalcS2TokenRange, visible, Clip. rewrite E1, E2, Ep, En, (ko_s1g k HK).
  destruct (ko_mask k HK) as [E|(E & Em & Epre)]; rewrite E; cbn -[i64 sdiv].
  - apply returns_ok. rewrite (proj2 (Z.ltb_ge (s2_of k b) 0)), (proj2 (Z.gtb_lt (s2_of k b) _)) by lia.
    cbn [Z.ltb Z.compare]. destruct (0 >? s2_of k b - 1) eqn:E0; [apply Z.gtb_lt in E0; lia|done].
  - unfold CalcPreTokenLeftUp, CalcNextTokenLeftUp. rewrite Em, Epre.
    assert (r * 256 < s1_of k b * 64).
    { apply (ceil_div_lt (s1_of k b * 64) 256 r); [lia..|].
      unfold rows_of in Hr. rewrite (ko_g k HK), (ko_m k HK) in Hr. lia. }
    unfold row_last, row_first in *. rewrite (ko_g k HK), (ko_m k HK) in *.
    rewrite (i64_id (r * 256)), (i64_id (s1_of k b * 64)), (i64_id (r * 256 + 256)) by lia.
    rewrite !sdiv_ok by lia. cbn -[i64]. apply returns_ok.
    rewrite !quot_nonneg_div by lia.
    replace (r * 256 + 256) with ((r + 1) * 256) by lia.
    set (l := (Z.min _ _ - 1) / 64) in *. set (f := r * 256 / 64) in *.
    rewrite !i64_id by (unfold INT64_MAX; lia).
    rewrite (proj2 (Z.ltb_lt (f - INT64_MAX) 0)) by (unfold INT64_MAX; lia).
    split; [done|]. destruct (Z.ltb_spec (l + (s2_of k b - s1_of k b)) 0); [lia|].
    destruct (Z.gtb_spec (l + (s2_of k b - s1_of k b)) (s2_of k b - 1)); lia.
Qed.

Lemma empty_row_cache b r gc :
  row_len k b r = 0 -> s2Start gc = 0 -> row_cache (workload_of k) b r (empty_row gc).
Proof. intros Hz Hs. destruct (row_zero b r Hz) as (E1 & E2 & E3). by split. Qed.

Lemma row_costs_returns b r si bc gc :
  0 <= b < batchSize_ k -> 0 <= r < rows_of k b -> split_upto (batchSize_ k) si ->
  batch_cache b bc -> 0 < row_len k b r ->
  s2Start gc = 0 -> s2End gc = seg_blk sb (row_len k b r) ->
  returns (row_costs k r si bc (row_len k b r) gc) (row_cache (workload_of k) b r).
Proof.
  intros Hb Hr Hsi Hbc Hp Hs He. pose proof (ko_sb k HK). pose proof (row_len_range b r Hb).
  pose proof (qli_rows_range b Hb). pose proof (su_l1 _ _ Hsi). pose proof (su_l3 _ _ Hsi).
  pose proof (seg_blk_range sb ltac:(lia) (row_len k b r) ltac:(lia)).
  unfold row_costs. rewrite umod_ok by lia. cbn -[vget CalcCostTable u32 i64].
  rewrite (bk_b _ _ Hbc), Hs, He, Z.sub_0_r, (u32_id (seg_blk _ _)), !vget_ok by lia.
  cbn -[vat CalcCostTable u32 i64]. rewrite (su_tail _ _ Hsi), (su_rows _ _ Hsi) by done.
  eapply returns_bind_mono; [apply (CalcCostTable_returns b r); apply Z.mod_pos_bound; lia|].
  intros t [T1 T2]. apply returns_ok. rewrite (u32_id (rows_of k b - 1)) by lia.
  fold (tail_row k b r). rewrite T1, T2.
  destruct (seg_parts (block_cost k) sb ltac:(lia) (row_m k b r) (2 ^ 16)
    ltac:(intros; by apply qli_row_unit) (row_len k b r) ltac:(lia) ltac:(lia)) as [Ec El].
  split; cbn -[u32 i64]; done.
Qed.

Lemma qli_CalcS1GCache_returns b r si bc gc :
  pos_ok (workload_of k) b r -> split_upto (batchSize_ k) si -> batch_cache b bc ->
  s2Start gc = 0 ->
  returns (CalcS1GCache k r si bc gc) (row_cache (workload_of k) b r).
Proof.
  intros [Hb Hr] Hsi Hbc Hs. cbn [workload_of wl_nb wl_rows] in Hb, Hr.
  pose proof (su_l1 _ _ Hsi). pose proof (su_l2 _ _ Hsi). pose proof (ko_sb k HK).
  pose proof (ko_ratio k HK). pose proof (cmp_s2_range b Hb) as Hcs.
  pose proof (qli_rows_range b Hb). destruct (qli_s2_spec b Hb) as (_ & P2 & Q2).
  unfold CalcS1GCache. rewrite (bk_b _ _ Hbc), !vget_ok by lia. cbn -[vat].
  rewrite (su_rows _ _ Hsi), (su_cols _ _ Hsi) by done.
  destruct (Z.eqb_spec (rows_of k b) 0) as [Ez|Ez]; cbn [mbind res_bind orb].
  { apply returns_ok, empty_row_cache; [|done]. unfold row_len.
    rewrite Ez, (proj2 (Z.ltb_ge r 0)) by lia. by rewrite andb_false_r. }
  apply returns_if; intros Hc; zify_tests.
  { apply returns_ok, empty_row_cache; [|done]. unfold row_len.
    pose proof (seg_blk_pos sb ltac:(lia) (s2_of k b / ratio) ltac:(lia)).
    rewrite (proj2 (Z.ltb_ge 0 (_ / _))) by lia. by rewrite andb_false_r. }
  assert (Hr' : 0 <= r < rows_of k b) by lia.
  assert (Hcp : 0 < s2_of k b / ratio).
  { apply (seg_blk_pos sb); [lia..|].
    pose proof (seg_blk_range sb ltac:(lia) (s2_of k b / ratio) ltac:(lia)). lia. }
  pose proof (visible_range b r Hb Hr' ltac:(lia)) as Hv.
  eapply returns_bind_mono; [by apply (qli_CalcS2TokenRange_returns b); [..|lia|]|].
  intros [first last] [Ef El]. rewrite (bk_s2 _ _ Hbc), (u32_id (s2_of k b - 1)), Ef, El by lia.
  replace (visible k b r - 1 - 0 + 1) with (visible k b r) by lia.
  rewrite sdiv_ok, quot_nonneg_div by lia. cbn -[u32].
  assert (Hl : row_len k b r = visible k b r / ratio).
  { unfold row_len. by rewrite (proj2 (Z.leb_le 0 r)), (proj2 (Z.ltb_lt r _)),
      (proj2 (Z.ltb_lt 0 _)) by lia. }
  pose proof (row_len_range b r Hb) as Hlr. rewrite <- Hl, (u32_id (row_len k b r)) by lia.
  destruct (Z.eqb_spec (row_len k b r) 0) as [E0|E0]; cbn -[u32].
  { apply returns_ok. by apply empty_row_cache. }
  assert (row_len k b r <= s2_of k b) by (rewrite Hl; apply Z.div_le_upper_bound; nia).
  rewrite (u32_id (row_len k b r + sb - 1)), udiv_ok by lia. cbn [mbind res_bind].
  fold (ceil_div (row_len k b r) sb). fold (seg_blk sb (row_len k b r)).
  pose proof (proj2 (seg_blk_pos sb ltac:(lia) (row_len k b r) ltac:(lia)) ltac:(lia)).
  cbn [s2Start s2End update_field]. rewrite Z.geb_leb, (proj2 (Z.leb_gt _ _)) by (cbn; lia).
  apply row_costs_returns; done || lia.
Qed.

(** The lightning indexer meets the interface of the assignment engine. *)
#[global] Program Instance Qli_RowModel si (Hsi : split_upto (batchSize_ k) si) :
  RowModel k si (workload_of k) := {
  rm_wl := qli_workload_ok;
  rm_batch := batch_cache;
  rm_batchSize := eq_refl;
  rm_heads := ko_heads k HK;
  rm_rows_len := su_l1 _ _ Hsi;
  rm_rows := su_rows _ _ Hsi;
  rm_CalcBatchCache b bc Hb := qli_CalcBatchCache_returns b si bc Hb Hsi;
  rm_fresh s := eq_refl;
  rm_CalcS1GCache b r bc s Hp Hbc Hs := qli_CalcS1GCache_returns b r si bc s Hp Hsi Hbc Hs
}.
Next Obligation.
  intros si Hsi b Hb. cbn in *. destruct (qli_s1_spec b Hb) as (-> & _). apply returns_ok.
  intros Hz r Hr. apply row_zero. unfold row_len, rows_of.
  rewrite Hz, (ko_m k HK), (proj2 (Z.ltb_ge r _)); [by rewrite andb_false_r|].
  unfold ceil_div. rewrite Z.div_small; lia.
Qed.
Next Obligation.
  intros si Hsi b Hb. cbn in *. destruct (qli_s2_spec b Hb) as (-> & _). apply returns_ok.
  intros Hz r Hr. apply row_zero. unfold row_len. pose proof (ko_ratio k HK).
  rewrite Hz, Z.div_small by lia. by rewrite andb_false_r.
Qed.
Next Obligation.
  intros si Hsi a b Ha Hb. cbn. by rewrite u64_id by lia.
Qed.

(** The last row of a batch sees all its keys. *)
Lemma last_row_len b :
  0 <= b < batchSize_ k -> 0 < rows_of k b -> 0 < s2_of k b / ratio ->
  0 < row_len k b (rows_of k b - 1).
Proof.
  intros Hb Hr Hs. destruct (qli_s1_spec b Hb) as (_ & P1 & _). destruct (qli_s2_spec b Hb) as (_ & P2 & _).
  pose proof (cmp_s2_range b Hb). unfold row_len.
  rewrite (proj2 (Z.leb_le 0 _)), (proj2 (Z.ltb_lt _ (rows_of k b))), (proj2 (Z.ltb_lt 0 _)) by lia.
  cbn [andb]. replace (visible k b (rows_of k b - 1)) with (s2_of k b); [done|].
  assert (Hend : s1_of k b * 64 <= (rows_of k b - 1 + 1) * 256).
  { assert (~ rows_of k b < rows_of k b) as Hn by lia. unfold rows_of in Hn at 2.
    rewrite (ko_g k HK), (ko_m k HK), ceil_div_lt in Hn by lia. lia. }
  assert (0 < s1_of k b).
  { destruct (decide (s1_of k b = 0)) as [E|]; [|lia]. unfold rows_of in Hr.
    rewrite E, (ko_m k HK) in Hr. by cbv in Hr. }
  assert (Hin : (rows_of k b - 1) * 256 < s1_of k b * 64).
  { apply (ceil_div_lt (s1_of k b * 64) 256); [lia..|]. unfold rows_of.
    rewrite (ko_g k HK), (ko_m k HK). lia. }
  unfold visible. rewrite (ko_g k HK), (ko_m k HK), row_last_end by lia.
  destruct (ko_mask k HK) as [E|[E _]]; rewrite E; simpl; lia.
Qed.

Lemma qli_total_zero si :
  split_upto (batchSize_ k) si -> isKvSeqAllZero si = true ->
  total (workload_of k) (wl_cost (workload_of k)) = 0.
Proof.
  intros Hsi Hz. rewrite (su_zero _ _ Hsi) in Hz. apply sumZ_zero. intros b Hb.
  apply sumZ_zero. intros r Hr. cbn in Hb, Hr. apply row_zero.
  assert (Hb' : In (Z.to_nat b) (seq 0 (Z.to_nat (batchSize_ k)))) by (apply in_seq; lia).
  pose proof (proj1 (forallb_forall _ _) Hz _ Hb') as E. cbn in E.
  rewrite Z2Nat.id in E by lia. unfold row_len. pose proof (cmp_s2_range b Hb).
  pose proof (ko_sb k HK).
  destruct (Z.eqb_spec (rows_of k b) 0) as [E1|E1]; cbn in E; [lia|]. zify_tests.
  pose proof (seg_blk_pos sb ltac:(lia) (s2_of k b / ratio) ltac:(lia)).
  rewrite (proj2 (Z.ltb_ge 0 (_ / _))) by lia. by rewrite andb_false_r.
Qed.

Lemma qli_total_pos si :
  split_upto (batchSize_ k) si -> isKvSeqAllZero si = false ->
  0 < total (workload_of k) (wl_cost (workload_of k)).
Proof.
  intros Hsi Hz. rewrite (su_zero _ _ Hsi) in Hz. pose proof (ko_sb k HK).
  destruct (forallb_false_inv _ _ Hz) as (x & Hx & Hp). apply elem_of_seq in Hx.
  set (b := Z.of_nat x) in *.
  assert (Hb : 0 <= b < batchSize_ k) by lia. pose proof (qli_rows_range b Hb).
  pose proof (cmp_s2_range b Hb).
  pose proof (seg_blk_range sb ltac:(lia) (s2_of k b / ratio) ltac:(lia)).
  zify_tests. pose proof qli_workload_ok as OK.
  assert (Hc : 0 < wl_cost (workload_of k) b (rows_of k b - 1)).
  { apply row_pos, last_row_len; [done|lia|]. apply (seg_blk_pos sb); lia. }
  pose proof (row_cost_le _ OK b (rows_of k b - 1) Hb ltac:(lia)) as R1.
  pose proof (row_sum_cost_range _ OK b (rows_of k b - 1) Hb ltac:(lia)) as R2.
  pose proof (rest_le_total (workload_of k) (wl_cost (workload_of k)) b (rows_of k b - 1)
    ltac:(intros; by apply wl_cost_nonneg) ltac:(cbn; lia) ltac:(lia)) as R3. lia.
Qed.

#[global] Program Instance Qli_KernelModel : KernelModel k (workload_of k) := {
  km_batch := eq_refl;
  km_heads := ko_heads k HK;
  km_range := ko_batch k HK;
  km_rows := qli_rows_range
}.
Next Obligation.
  eapply returns_mono; [apply qli_CalcSplitInfo_returns|]. intros si Hsi.
  split; [by exists (Qli_RowModel si Hsi)|].
  destruct (isKvSeqAllZero si) eqn:Ez; [by apply (qli_total_zero si)|by apply (qli_total_pos si)].
Qed.
End Rows.

(** ** The schedule *)

Section Schedule.
Context (k : Kernel) (wl : Workload) (Hfd : supportFd_ k = false).
Context (Hcores : 0 < aicCoreNum_ k < 2 ^ 32).

(** The cost limit of a core: the unsigned comparison chooses the maximum. *)
Lemma limit_max a b : 0 <= a < 2 ^ 62 -> 0 <= b < 2 ^ 62 ->
  (if a >? u64 b then i64 a else b) = Z.max b a.
Proof. intros Ha Hb. rewrite u64_id, i64_id by lia. destruct (Z.gtb_spec a b); lia. Qed.

Lemma qli_AssignBlockToCore_spec ctx (RM : RowModel k (splitInfo ctx) wl) :
  CostOk wl (costInfo ctx) ->
  step_spec k ctx wl (aicCoreNum_ k) false (AssignBlockToCore k (aicCoreNum_ k) ctx).
Proof.
  intros CO. intros i ac res b r Hi Hc Hleft Hp [N1 N2 N3 N4] [L1 L2 L3 L4].
  unfold AssignBlockToCore. rewrite N1, N2. do 2 returns_step.
  rewrite Hc, (u32_id (aicCoreNum_ k - i)), sdiv_ok, Hfd by lia. cbn [negb mbind res_bind].
  pose proof (la_unassigned _ _ _ _ _ _ Hleft) as Hun. pose proof (ap_ok _ _ _ _ _ _ Hp) as [Hb Hr].
  pose proof (cost_rest_bound wl rm_wl b r ltac:(lia) ltac:(lia)) as Hrb.
  pose proof (quot_range (rest wl (wl_cost wl) b r) (aicCoreNum_ k - i) ltac:(lia) ltac:(lia)).
  rewrite limit_max by (rewrite ?Hun; pose proof (max_range k ctx wl CO); lia).
  eapply returns_bind2.
  { apply (assign_share_returns k ctx wl CO ac b r (aicCoreNum_ k - i)); [lia|done|done]. }
  intros ac1 (b' & r' & Hshare & [F1 F2 F3 F4 F5 F6] & Ecost & Eblk & Hleft').
  cbn [mbind res_bind]. cbn in F1, F3, F5. rewrite F1, Hc.
  destruct (left_cursor _ _ _ _ _ _ Hleft') as (C1 & C2 & C3 & C4). cbn in C1, C2, C3, C4.
  do 6 (returns_step; cbn -[vset u32 i64]).
  apply returns_ok. exists b', r'. split; cbn; rewrite ?C1, ?C2, ?C3; try done.
  - eapply share_at; [exact Hun|exact Hshare].
  - congruence.
  - split; cbn -[vat]; try congruence. intros j. unfold vat.
    destruct (decide (Z.to_nat i = Z.to_nat j)) as [Heq|Hne].
    + rewrite <- Heq, list_lookup_insert_eq by lia. done.
    + rewrite list_lookup_insert_ne by done. apply N4.
  - split; cbn; rewrite ?length_insert; done.
  - by rewrite Ecost.
Qed.

Lemma qli_BalanceSchedule_returns `{KM : !KernelModel k wl} s :
  let res0 := new_SplitResult (aicCoreNum_ k) (aivCoreNum_ k) in
  returns (BalanceSchedule k s res0) (ScheduleOk wl (aicCoreNum_ k) false (fdRes res0)).
Proof.
  apply (schedule_returns k wl); [done| |].
  - intros ctx RM. apply qli_AssignBlockToCore_spec.
  - intros r _. by rewrite Hfd.
Qed.
End Schedule.

(** ** What the parameter checks establish *)

Record Accepted (k : Kernel) : Prop := {
  ac_aic : aicCoreNum_ k <> 0;
  ac_heads : numHeadsK_ k = 1;
  ac_fd : supportFd_ k = false;
  ac_g : groupSize_ k = 64;
  ac_m : mBaseSize_ k = 256;
  ac_s1g : isS1G_ k = true;
  ac_sb : s2BaseSize_ k = 2048 \/ s2BaseSize_ k = 128;
  ac_mask : attentionMode_ k = 0 \/
    (attentionMode_ k = 1 /\ to_SparseMode (sparseMode_ k) = RIGHT_DOWN_CAUSAL /\
     preToken_ k = INT64_MAX);
  ac_ratio : 1 <= cmpRatio_ k <= 128;
  ac_data : is_Some (tensor_data (metaData_ k))
}.

Lemma qli_CheckSingleParam_spec k :
  CheckSingleParam k = true ->
  aicCoreNum_ k <> 0 /\ numHeadsQ_ k = 64 /\ numHeadsK_ k = 1 /\
  is_Some (tensor_data (metaData_ k)) /\
  (to_SparseMode (sparseMode_ k) = DEFAULT_MASK \/
   to_SparseMode (sparseMode_ k) = RIGHT_DOWN_CAUSAL) /\ preToken_ k = INT64_MAX.
Proof.
  unfold CheckSingleParam. destruct (metaData_ k) as [t|] eqn:Em; [|done].
  destruct (GetDimSize0 t), (GetData t) eqn:Ed; try done. intros H. checks H.
  rewrite <- (to_SparseMode_u32 (sparseMode_ k)).
  zify_tests. repeat split; try done; try lia.
  apply andb_false_iff in E9 as [E9|E9]; apply negb_false_iff, Z.eqb_eq in E9; rewrite E9; cbv; auto.
Qed.

Lemma qli_CheckFeature_spec k k' :
  CheckFeature k = (true, k') ->
  1 <= cmpRatio_ k <= 128 /\ k' = k <| validSocVersion_ := ProcessSocVersion k |>.
Proof.
  unfold CheckFeature. destruct (_ || _) eqn:E; [done|]. intros Hf.
  rewrite Z.gtb_ltb in E. zify_tests.
  split; [lia|]. cbn in Hf. repeat case_match; by simplify_eq.
Qed.

Lemma qli_ParamsInit_accepts k0 k1 :
  ParamsCheck k0 = (true, k1) -> supportFd_ k0 = false -> mBaseSize_ k0 = 256 -> isS1G_ k0 = true ->
  returns (ParamsInit k1) (fun '(ok, k) => ok = true /\ Accepted k /\
    aicCoreNum_ k = aicCoreNum_ k0 /\ aivCoreNum_ k = aivCoreNum_ k0).
Proof.
  intros Hc Hfd Hm Hs. unfold ParamsCheck in Hc. destruct (_ && _ && _) eqn:E; [|done]. zify_tests.
  destruct (qli_CheckSingleParam_spec k0) as (A1 & A2 & A3 & A4 & A5 & A6); [done|].
  destruct (qli_CheckFeature_spec k0 k1 Hc) as [A7 ->].
  unfold ParamsInit. cbv zeta. cbn -[sdiv GetQueryBatchSize GetKvBatchSize].
  destruct A5 as [-> | A5];
    [|rewrite A5]; cbn -[sdiv GetQueryBatchSize GetKvBatchSize]; rewrite A2, A3;
    cbn -[GetQueryBatchSize GetKvBatchSize]; apply returns_ok; (split; [done|]);
    unfold ProcessSocVersion; cbn -[GetQueryBatchSize GetKvBatchSize string_contains];
    destruct (string_contains _ _); (split; [|done]); split;
    cbn -[GetQueryBatchSize GetKvBatchSize]; auto; try lia.
Qed.

Lemma attr_and_keep {A} (get : AttrValue -> A) c name set old st (P : Kernel -> Prop) :
  (forall v k, P k -> P (set v k)) -> P st.2 -> P (attr_and get c name set old st).2.
Proof.
  intros H. destruct st as [[] k]; cbn; [|done]. intros Hk.
  destruct (GetAttrValue get c name (old k)). by apply H.
Qed.

(** The flags no attribute sets keep the values of a fresh object. *)
Definition fresh_flags (k : Kernel) : Prop :=
  supportFd_ k = false /\ mBaseSize_ k = 256 /\ isS1G_ k = true.

(** What Prepare returns for a fresh object. *)
Lemma qli_Prepare_accepts c :
  returns (Prepare c new_Kernel) (fun '(ok, k) => ok = true -> Accepted k).
Proof.
  unfold Prepare. cbn zeta.
  match goal with |- context [required_attrs c ?x] =>
    assert (Hf : fresh_flags (required_attrs c x).2); [|destruct (required_attrs c x) as [ok k]]
  end.
  { unfold required_attrs. repeat (apply attr_and_keep; [by intros ??|]). done. }
  destruct ok; cbn [negb]; [|by apply returns_ok].
  destruct (ParamsCheck _) as [ok k1] eqn:Hc. destruct ok; [|by apply returns_ok].
  destruct Hf as (F1 & F2 & F3).
  eapply returns_mono; [apply (qli_ParamsInit_accepts _ _ Hc); done|].
  by intros [ok k2] (-> & HA & _) _.
Qed.

Lemma qli_Prepare_accepted c k : Prepare c new_Kernel = Ok (true, k) -> Accepted k.
Proof.
  intros Hp. destruct (qli_Prepare_accepts c) as ([ok k'] & E & HA). rewrite Hp in E.
  injection E as <- <-. by apply HA.
Qed.

(** ** End to end *)

(** What the callers have to guarantee beyond the checks of the kernel. *)
Record Sane (k : Kernel) : Prop := {
  sn_batch : 0 < batchSize_ k < 2 ^ 31;
  sn_s1 : forall b, 0 <= b < batchSize_ k ->
    returns (GetS1SeqSize k b) (fun v => 0 <= v /\ v * 64 + 256 <= 2 ^ 31);
  sn_s2 : forall b, 0 <= b < batchSize_ k ->
    returns (GetS2SeqSize k b) (fun v => 0 <= v /\ v + s2BaseSize_ k <= 2 ^ 31);
  sn_blocks : total (workload_of k) (wl_blk (workload_of k)) < 2 ^ 32;
  sn_aic : 0 <= aicCoreNum_ k <= AIC_CORE_NUM;
  sn_aiv : 0 <= aivCoreNum_ k <= AIV_CORE_NUM;
  sn_buf : meta_words LI_METADATA_SIZE <= Z.of_nat (length (default [] (tensor_data (metaData_ k))))
}.

Lemma qli_accepted_KernelOk k : Accepted k -> Sane k -> KernelOk k.
Proof. intros [] []. split; try done; lia. Qed.

Lemma qli_Compute_returns c k :
  Prepare c new_Kernel = Ok (true, k) -> Sane k ->
  returns (Compute c new_Kernel) (fun '(status, buf) =>
    status = KERNEL_STATUS_OK /\
    exists r, ScheduleOk (workload_of k) (aicCoreNum_ k) false
                (new_FlashDecodeResult (aicCoreNum_ k) (aivCoreNum_ k)) r /\
              MetaOk LI_METADATA_SIZE (aicCoreNum_ k) (aivCoreNum_ k) r buf).
Proof.
  intros Hp HS. pose proof (qli_Prepare_accepted c k Hp) as A.
  pose proof (qli_accepted_KernelOk k A HS) as HK. pose proof (sn_aic k HS) as Ha.
  unfold Compute. rewrite Hp. cbn [mbind res_bind negb].
  eapply returns_bind_mono.
  { apply (qli_BalanceSchedule_returns k (workload_of k) (ac_fd k A)); [|by apply Qli_KernelModel].
    pose proof (ac_aic k A). unfold AIC_CORE_NUM in Ha. lia. }
  intros r Hr. eapply returns_bind_mono.
  { unfold GenMetaData. eapply (gen_metadata_returns _ (workload_of k)); try exact Hr; try done.
    - cbn. apply (ko_batch k HK).
    - intros b Hb. by apply qli_rows_range.
    - apply Ha.
    - apply (sn_aiv k HS).
    - apply (sn_buf k HS). }
  intros buf [_ HM]. apply returns_ok. split; [done|]. by exists r.
Qed.
End QliProofs.
