(* ===== verification/Fixtures.v ===== *)
(** * Concrete kernel contexts

    Contexts built from lists of tensors and attributes, on which the theorems
    are instantiated. *)

From S2P Require Import Prelude SplitTypes.

(** An integer, string or boolean attribute. *)
Definition int_attr (n : Z) : AttrValue := mkAttrValue n "" false.
Definition str_attr (s : string) : AttrValue := mkAttrValue 0 s false.
Definition bool_attr (b : bool) : AttrValue := mkAttrValue 0 "" b.

Fixpoint find_attr (attrs : list (string * AttrValue)) (name : string) : option AttrValue :=
  match attrs with
  | [] => None
  | (n, v) :: attrs => if String.eqb n name then Some v else find_attr attrs name
  end.

(** A tensor of dimension [length data]. *)
Definition vec (data : list Z) : option Tensor :=
  Some (mkTensor (Some data) (Some (Z.of_nat (length data)))).

(** The output tensor: [n] words. *)
Definition words (n : nat) : option Tensor := vec (replicate n 0).

Definition context (ins : list (option Tensor)) (out : option Tensor)
    (attrs : list (string * AttrValue)) : CpuKernelContext :=
  mkCpuKernelContext (fun i => default None (ins !! Z.to_nat i)) (fun _ => out) (find_attr attrs).

(** The object that an accepted context leaves, and a default for the others. *)
Definition accepted {K : Type} (r : res (bool * K)) (d : K) : K :=
  match r with Ok (true, k) => k | _ => d end.

(** ** Deciding the size conditions on the inputs *)

(** Every size of the [n] batches satisfies [size * g + m <= 2^31]. *)
Definition sizes_okb (f : Z -> res Z) (n g m : Z) : bool :=
  forallb (fun i => match f (Z.of_nat i) with
                    | Ok v => (0 <=? v) && (v * g + m <=? 2 ^ 31)
                    | Fault _ => false
                    end) (seq 0 (Z.to_nat n)).

Lemma sizes_okb_sound f n g m :
  sizes_okb f n g m = true ->
  forall b, 0 <= b < n -> returns (f b) (fun v => 0 <= v /\ v * g + m <= 2 ^ 31).
Proof.
  intros H b Hb. unfold sizes_okb in H. rewrite forallb_forall in H.
  specialize (H (Z.to_nat b) ltac:(apply in_seq; lia)). cbn in H. rewrite Z2Nat.id in H by lia.
  destruct (f b) as [v|]; [|done]. apply returns_ok. by zify_tests.
Qed.

Lemma sizes_okb_sound1 f n m :
  sizes_okb f n 1 m = true ->
  forall b, 0 <= b < n -> returns (f b) (fun v => 0 <= v /\ v + m <= 2 ^ 31).
Proof.
  intros H b Hb. eapply returns_mono; [by apply (sizes_okb_sound f n 1 m)|].
  intros v. cbn beta. lia.
Qed.

(** Close a side condition on concrete numbers by evaluation. *)
Ltac by_compute := vm_compute; repeat split; first [reflexivity | discriminate].
