(* ===== verification/SasTheorems.v ===== *)
(** * Theorems on the sparse_attn_sharedkv metadata kernel

    Each theorem speaks about [Sas.Compute] or one of its routines and is
    followed by its instance on a concrete context. *)

From S2P Require Import Prelude SplitTypes Assign Workload AssignProofs PlanProofs PlanLoop.
From S2P Require Import RowSpec SharedKv SharedKvProofs Metadata MetaProofs SasMeta SasProofs.
From S2P Require Import Fixtures.

Module SasTheorems.
Import Sas SasProofs.

(** Two sequences of 3 and 2 query tokens over 300 and 700 keys, 64 heads, a
    sliding window and compressed keys with top-k selection, on four cores. *)
Definition demo_ctx : CpuKernelContext :=
  context [vec [0; 3; 5]; None; None; None; vec [300; 700]] (words 1024)
    [("num_heads_q", int_attr 64); ("num_heads_kv", int_attr 1); ("head_dim", int_attr 512);
     ("soc_version", str_attr "Ascend910_9391"); ("aic_core_num", int_attr 4);
     ("aiv_core_num", int_attr 8); ("cmp_topk", int_attr 512); ("cmp_ratio", int_attr 4);
     ("ori_mask_mode", int_attr 4); ("ori_win_left", int_attr 127);
     ("layout_q", str_attr "TND"); ("layout_kv", str_attr "PA_ND");
     ("has_ori_kv", bool_attr true); ("has_cmp_kv", bool_attr true)].
Definition demo_kernel : Kernel := accepted (Prepare demo_ctx new_Kernel) new_Kernel.
Definition demo_row : RowState := mkRowState (fun _ _ => 0) new_S1GCache.

Lemma demo_prepare : Prepare demo_ctx new_Kernel = Ok (true, demo_kernel).
Proof. vm_compute. reflexivity. Qed.

Lemma demo_sane : Sane demo_kernel.
Proof.
  split.
  - by_compute.
  - by_compute.
  - apply sizes_okb_sound. by vm_compute.
  - apply sizes_okb_sound1. by vm_compute.
  - by_compute.
  - by_compute.
  - by_compute.
  - by_compute.
Qed.

(** C4: the metadata that an accepted call of the kernel writes assigns every
    row of every sequence to exactly one enabled AI core. *)
Theorem sas_rows_partitioned c s k :
  Prepare c new_Kernel = Ok (true, k) -> Sane k ->
  returns (Compute c new_Kernel s) (fun '(status, buf) =>
    status = KERNEL_STATUS_OK /\
    forall b q, 0 <= b < batchSize_ k -> 0 <= q < rows_of k b ->
      exists i, 0 <= i < aicCoreNum_ k /\ meta_has FA_METADATA_SIZE buf i b q /\
        forall j, 0 <= j < aicCoreNum_ k -> meta_has FA_METADATA_SIZE buf j b q -> j = i).
Proof.
  intros Hp HS. eapply returns_mono; [by apply sas_Compute_returns|].
  intros [st buf] (-> & r & Hr & HM). split; [done|]. intros b q Hb Hq.
  eapply meta_partition; [exact Hr|exact HM|done|lia].
Qed.

Lemma sas_rows_partitioned_witness :
  returns (Compute demo_ctx new_Kernel demo_row) (fun '(status, buf) =>
    status = KERNEL_STATUS_OK /\
    forall b q, 0 <= b < batchSize_ demo_kernel -> 0 <= q < rows_of demo_kernel b ->
      exists i, 0 <= i < aicCoreNum_ demo_kernel /\ meta_has FA_METADATA_SIZE buf i b q /\
        forall j, 0 <= j < aicCoreNum_ demo_kernel -> meta_has FA_METADATA_SIZE buf j b q -> j = i).
Proof. exact (sas_rows_partitioned demo_ctx demo_row demo_kernel demo_prepare demo_sane). Defined.

(** C5: when the batch has work, no enabled core is idle, and none is loaded by
    more than an equal share of the work that its predecessors left (or the most
    expensive row) plus half the most expensive row.  When there is none (all
    rows see no key), the first core alone is enabled, without work. *)
Theorem sas_load_balanced c s k :
  Prepare c new_Kernel = Ok (true, k) -> Sane k ->
  returns (Compute c new_Kernel s) (fun '(status, buf) =>
    (0 < total (workload_of k) (row_cost k) ->
     exists maxRow, is_max_row (workload_of k) maxRow /\
       forall i, 0 <= i < aicCoreNum_ k -> meta_on FA_METADATA_SIZE buf i ->
         0 < meta_work FA_METADATA_SIZE buf (workload_of k) i <=
           meta_limit FA_METADATA_SIZE buf (workload_of k) maxRow (aicCoreNum_ k) i + Z.quot maxRow 2) /\
    (total (workload_of k) (row_cost k) = 0 ->
     forall i, 0 <= i < aicCoreNum_ k -> meta_on FA_METADATA_SIZE buf i ->
       i = 0 /\ meta_work FA_METADATA_SIZE buf (workload_of k) i = 0)).
Proof.
  intros Hp HS. pose proof (ko_batch k (sas_accepted_KernelOk k (proj1 (sas_Prepare_accepted c k Hp)) HS)) as Hb.
  eapply returns_mono; [by apply sas_Compute_returns|]. intros [st buf] (-> & r & Hr & HM). split.
  - intros Ht. by eapply meta_balance; [exact Hr|exact HM|].
  - intros Hz i Hi Hon. eapply meta_idle; [exact Hr|exact HM|done|cbn; lia|done|done].
Qed.

Lemma sas_load_balanced_witness :
  returns (Compute demo_ctx new_Kernel demo_row) (fun '(status, buf) =>
    exists maxRow, is_max_row (workload_of demo_kernel) maxRow /\
      forall i, 0 <= i < aicCoreNum_ demo_kernel -> meta_on FA_METADATA_SIZE buf i ->
        0 < meta_work FA_METADATA_SIZE buf (workload_of demo_kernel) i <=
          meta_limit FA_METADATA_SIZE buf (workload_of demo_kernel) maxRow
            (aicCoreNum_ demo_kernel) i + Z.quot maxRow 2).
Proof.
  eapply returns_mono; [apply (sas_load_balanced demo_ctx demo_row demo_kernel demo_prepare demo_sane)|].
  intros [st buf] [H _]. apply H. by vm_compute.
Defined.

(** C39: the intervals of the enabled cores follow each other without a gap, from
    the first row of the first sequence to the end of the last one, and the
    enabled cores are the first ones. *)
Theorem sas_intervals_chain c s k :
  Prepare c new_Kernel = Ok (true, k) -> Sane k ->
  returns (Compute c new_Kernel s) (fun '(status, buf) =>
    meta_start FA_METADATA_SIZE buf 0 = (0, 0) /\
    (forall i, 0 <= i -> i + 1 < aicCoreNum_ k -> meta_on FA_METADATA_SIZE buf (i + 1) ->
       meta_on FA_METADATA_SIZE buf i /\
       meta_start FA_METADATA_SIZE buf (i + 1) = meta_end FA_METADATA_SIZE buf i) /\
    exists i, 0 <= i < aicCoreNum_ k /\ meta_on FA_METADATA_SIZE buf i /\
      meta_end FA_METADATA_SIZE buf i = (batchSize_ k, 0) /\
      forall j, i < j < aicCoreNum_ k -> ~ meta_on FA_METADATA_SIZE buf j).
Proof.
  intros Hp HS. eapply returns_mono; [by apply sas_Compute_returns|].
  intros [st buf] (-> & r & Hr & HM). apply (meta_chain _ _ _ _ _ _ _ _ Hr HM).
Qed.

Lemma sas_intervals_chain_witness :
  returns (Compute demo_ctx new_Kernel demo_row) (fun '(status, buf) =>
    meta_start FA_METADATA_SIZE buf 0 = (0, 0) /\
    (forall i, 0 <= i -> i + 1 < aicCoreNum_ demo_kernel -> meta_on FA_METADATA_SIZE buf (i + 1) ->
       meta_on FA_METADATA_SIZE buf i /\
       meta_start FA_METADATA_SIZE buf (i + 1) = meta_end FA_METADATA_SIZE buf i) /\
    exists i, 0 <= i < aicCoreNum_ demo_kernel /\ meta_on FA_METADATA_SIZE buf i /\
      meta_end FA_METADATA_SIZE buf i = (batchSize_ demo_kernel, 0) /\
      forall j, i < j < aicCoreNum_ demo_kernel -> ~ meta_on FA_METADATA_SIZE buf j).
Proof. exact (sas_intervals_chain demo_ctx demo_row demo_kernel demo_prepare demo_sane). Defined.

(** no row is split between cores, so no reduction is scheduled: every
    vector core is disabled, and every enabled AI core starts and ends at the
    first S2 block of a row and has no partial result to store. *)
Theorem sas_no_reduction c s k :
  Prepare c new_Kernel = Ok (true, k) -> Sane k ->
  returns (Compute c new_Kernel s) (fun '(status, buf) =>
    (forall i, 0 <= i < aivCoreNum_ k -> fd_get FA_METADATA_SIZE buf i FD_CORE_ENABLE_INDEX = 0) /\
    forall i, 0 <= i < aicCoreNum_ k -> meta_on FA_METADATA_SIZE buf i ->
      fa_get FA_METADATA_SIZE buf i FA_S2_START_INDEX = 0 /\
      fa_get FA_METADATA_SIZE buf i FA_S2_END_INDEX = 0 /\
      fa_get FA_METADATA_SIZE buf i FA_FIRST_FD_DATA_WORKSPACE_IDX_INDEX = 0).
Proof.
  intros Hp HS. eapply returns_mono; [by apply sas_Compute_returns|].
  intros [st buf] (-> & r & Hr & HM). split; [apply (mo_fd _ _ _ _ _ HM)|].
  intros i Hi Hon. eapply meta_on_used in Hon; [|exact HM|done].
  by destruct (mo_on _ _ _ _ _ HM i ltac:(lia)).
Qed.

Lemma sas_no_reduction_witness :
  returns (Compute demo_ctx new_Kernel demo_row) (fun '(status, buf) =>
    (forall i, 0 <= i < aivCoreNum_ demo_kernel -> fd_get FA_METADATA_SIZE buf i FD_CORE_ENABLE_INDEX = 0) /\
    forall i, 0 <= i < aicCoreNum_ demo_kernel -> meta_on FA_METADATA_SIZE buf i ->
      fa_get FA_METADATA_SIZE buf i FA_S2_START_INDEX = 0 /\
      fa_get FA_METADATA_SIZE buf i FA_S2_END_INDEX = 0 /\
      fa_get FA_METADATA_SIZE buf i FA_FIRST_FD_DATA_WORKSPACE_IDX_INDEX = 0).
Proof. exact (sas_no_reduction demo_ctx demo_row demo_kernel demo_prepare demo_sane). Defined.

(** preparing a fresh kernel object never faults, whatever the context
    holds, and an object it accepts has passed every check the schedule relies
    on. *)
Theorem sas_prepare_total c :
  returns (Prepare c new_Kernel) (fun '(ok, k) => ok = true ->
    Accepted k /\ 0 <= aicCoreNum_ k < 2 ^ 32 /\ 0 <= aivCoreNum_ k < 2 ^ 32).
Proof. apply sas_Prepare_accepts. Qed.

Lemma ParamsInit_true k k' : ParamsInit k <> Ok (false, k').
Proof. unfold ParamsInit. cbv zeta. destruct (sdiv _ _); cbn [mbind res_bind]; congruence. Qed.

(** a rejected call reports the invalid parameter and leaves the output
    tensor as it was. *)
Theorem sas_reject_untouched c s k :
  Prepare c new_Kernel = Ok (false, k) ->
  Compute c new_Kernel s = Ok (KERNEL_STATUS_PARAM_INVALID, default [] (tensor_data (Output c 0))).
Proof.
  intros Hp. unfold Compute. rewrite Hp. cbn [mbind res_bind negb]. do 3 f_equal.
  revert Hp. unfold Prepare. cbn zeta. destruct (GetAttrValue _ _ "num_heads_q" _) as [ok1 v1].
  destruct (if ok1 then _ else _) as [ok2 v2]. destruct (if ok2 then _ else _) as [ok3 v3].
  destruct ok3; cbn [negb]; [|by intros [= <-]].
  destruct (ParamsCheck _); [|by intros [= <-]]. intros Hp. by apply ParamsInit_true in Hp.
Qed.

(** A call without the number of query heads. *)
Definition demo_bad_ctx : CpuKernelContext :=
  context [] (vec [7; 7]) [("num_heads_kv", int_attr 1); ("head_dim", int_attr 512)].

Lemma sas_reject_untouched_witness :
  Compute demo_bad_ctx new_Kernel demo_row = Ok (KERNEL_STATUS_PARAM_INVALID, [7; 7]).
Proof.
  exact (sas_reject_untouched demo_bad_ctx demo_row (accepted (Prepare demo_bad_ctx new_Kernel)
    (new_Kernel <| metaData_ := vec [7; 7] |>)) eq_refl).
Defined.

(** [demo_ctx] with the attributes [attrs] first. *)
Definition demo_with (attrs : list (string * AttrValue)) : CpuKernelContext :=
  mkCpuKernelContext (Input demo_ctx) (Output demo_ctx) (fun name =>
    match find_attr attrs name with Some v => Some v | None => GetAttr demo_ctx name end).

(** with paged keys the number of query heads is not checked; zero heads on
    Ascend910 are accepted and the computation of the basic blocks divides by
    zero. *)
Theorem sas_zero_heads_fault s :
  Compute (demo_with [("num_heads_q", int_attr 0)]) new_Kernel s = Fault DivByZero.
Proof. vm_compute. reflexivity. Qed.

(** the number of cores is not checked against the size of the metadata
    table; 37 AI cores are accepted and the last one is written outside the
    table. *)
Theorem sas_core_count_fault :
  Compute (demo_with [("aic_core_num", int_attr 37)]) new_Kernel demo_row = Fault OutOfBounds.
Proof. vm_compute. reflexivity. Qed.

(** C20: the row routines compute the row of the specification: number of
    blocks, cost and cost of the last block, starting at block 0, whatever the
    caches held before. *)
Theorem sas_row_computed k b q s :
  KernelOk k -> 0 <= b < batchSize_ k -> 0 <= q < rows_of k b ->
  returns (si ← CalcSplitInfo k (new_SplitInfo (batchSize_ k));
           bc ← CalcBatchCache k b si new_BatchCache;
           CalcS1GCache k q si bc s) (fun st =>
    s1GBlock (row st) = row_blk k b q /\ s1GCost (row st) = row_cost k b q /\
    s1GLastBlockCost (row st) = row_last_cost k b q /\ s2Start (row st) = 0).
Proof.
  intros HK Hb Hq. eapply returns_bind_mono; [by apply CalcSplitInfo_returns|]. intros si Hsi.
  eapply returns_bind_mono; [by apply CalcBatchCache_returns|]. intros bc Hbc.
  eapply returns_mono; [eapply CalcS1GCache_returns; try done; split; cbn; lia|].
  by intros st [].
Qed.

Lemma demo_ok : KernelOk demo_kernel.
Proof.
  apply sas_accepted_KernelOk; [|apply demo_sane].
  apply (sas_Prepare_accepted demo_ctx _ demo_prepare).
Qed.

Lemma sas_row_computed_witness :
  returns (si ← CalcSplitInfo demo_kernel (new_SplitInfo (batchSize_ demo_kernel));
           bc ← CalcBatchCache demo_kernel 1 si new_BatchCache;
           CalcS1GCache demo_kernel 1 si bc demo_row) (fun st =>
    s1GBlock (row st) = row_blk demo_kernel 1 1 /\ s1GCost (row st) = row_cost demo_kernel 1 1 /\
    s1GLastBlockCost (row st) = row_last_cost demo_kernel 1 1 /\ s2Start (row st) = 0).
Proof. apply (sas_row_computed demo_kernel 1 1 demo_row demo_ok); by_compute. Defined.

(** the recorded costs are those of the workload: of every batch, of the
    last block of every batch, in total, and of the most expensive row. *)
Theorem sas_costs_recorded k s si :
  KernelOk k -> CalcSplitInfo k (new_SplitInfo (batchSize_ k)) = Ok si -> isKvSeqAllZero si = false ->
  returns (CalcCostInfo k (mkSplitContext si (new_CostInfo (batchSize_ k))) s) (fun '(_, ctx) =>
    CostOk (workload_of k) (costInfo ctx)).
Proof.
  intros HK Hsi Hz. destruct (CalcSplitInfo_returns k HK) as (si' & E & Hs).
  rewrite Hsi in E. injection E as <-. pose proof (SharedKv_RowModel k HK si Hs) as RM.
  eapply returns_mono; [by apply (CalcCostInfo_returns k si (workload_of k))|].
  by intros [st ctx] [_ HC].
Qed.

Definition demo_split : SplitInfo :=
  match CalcSplitInfo demo_kernel (new_SplitInfo (batchSize_ demo_kernel)) with
  | Ok si => si | Fault _ => new_SplitInfo 0 end.

Lemma sas_costs_recorded_witness :
  returns (CalcCostInfo demo_kernel (mkSplitContext demo_split (new_CostInfo (batchSize_ demo_kernel)))
    demo_row) (fun '(_, ctx) => CostOk (workload_of demo_kernel) (costInfo ctx)).
Proof.
  apply (sas_costs_recorded demo_kernel demo_row demo_split demo_ok);
    vm_compute; reflexivity.
Defined.

(** C19: the schedule refines the abstract split: for any number of cores the
    result describes either an empty workload or a plan in which no core is
    idle, none exceeds its limit by more than half a row, and a core that stops
    early had no room for the next row. *)
Theorem sas_schedule_refines k s :
  KernelOk k -> supportFd k = false -> 0 < aicCoreNum_ k < 2 ^ 32 ->
  returns (BalanceSchedule k s (new_SplitResult (aicCoreNum_ k) (aivCoreNum_ k)))
    (ScheduleOk (workload_of k) (aicCoreNum_ k) false
       (new_FlashDecodeResult (aicCoreNum_ k) (aivCoreNum_ k))).
Proof.
  intros HK Hf Hc. apply (sas_BalanceSchedule_returns k (workload_of k)); [done|done|].
  by apply SharedKv_KernelModel.
Qed.

Lemma sas_schedule_refines_witness :
  returns (BalanceSchedule demo_kernel demo_row
             (new_SplitResult (aicCoreNum_ demo_kernel) (aivCoreNum_ demo_kernel)))
    (ScheduleOk (workload_of demo_kernel) (aicCoreNum_ demo_kernel) false
       (new_FlashDecodeResult (aicCoreNum_ demo_kernel) (aivCoreNum_ demo_kernel))).
Proof. apply (sas_schedule_refines demo_kernel demo_row demo_ok); by_compute. Defined.

End SasTheorems.
