(* ===== verification/KvqTheorems.v ===== *)
(** * Theorems on the kv_quant_sparse_attn_sharedkv metadata kernel

    The schedule as the AI cores read it.  With 128 query heads two
    neighbouring cores share an interval, each taking half of the heads. *)

From S2P Require Import Prelude SplitTypes Assign Workload AssignProofs PlanProofs PlanLoop.
From S2P Require Import RowSpec SharedKv SharedKvProofs Metadata MetaProofs SasMeta KvqMeta.
From S2P Require Import KvqProofs Fixtures.

Module KvqTheorems.
Import Kvq KvqProofs.

(** Physical cores, and the share of the schedule that a core works on. *)
Definition core_count (k : Kernel) : Z := if isN128 k then 2 * aicCoreNum_ k else aicCoreNum_ k.
Definition share_of (k : Kernel) (j : Z) : Z := if isN128 k then j / 2 else j.

Section Shares.
Context (k : Kernel) (track : bool) (fd : FlashDecodeResult) (r : SplitResult) (buf : list Z).
Context (HS : ScheduleOk (workload_of k) (aicCoreNum_ k) track fd r) (HM : KvqMetaOk k r buf).

Lemma share_range j : 0 <= j < core_count k -> 0 <= share_of k j < aicCoreNum_ k.
Proof. unfold core_count, share_of. destruct (isN128 k); [|lia]. intros. ediv. Qed.

(** The row of a core is the row of its share. *)
Lemma share_row_ok j :
  0 <= j < core_count k ->
  if share_of k j <? usedCoreNum r then core_row FA_METADATA_SIZE r (share_of k j) j buf
  else fa_get FA_METADATA_SIZE buf j FA_CORE_ENABLE_INDEX = 0.
Proof.
  intros Hj. pose proof (share_range j Hj) as Hs. revert Hj Hs HM.
  unfold core_count, share_of, KvqMetaOk. destruct (isN128 k); intros Hj Hs HM'.
  - destruct (pm_rows _ _ _ _ HM' (j / 2) Hs) as [[H0 _] [H1 _]].
    assert (j = 2 * (j / 2) \/ j = 2 * (j / 2) + 1) as [E|E] by ediv; rewrite <- E in *; done.
  - destruct (Z.ltb_spec j (usedCoreNum r)); [eapply mo_on|eapply mo_off]; try exact HM'; lia.
Qed.

Lemma share_on j :
  0 <= j < core_count k -> meta_on FA_METADATA_SIZE buf j <-> share_of k j < usedCoreNum r.
Proof.
  intros Hj. pose proof (share_row_ok j Hj) as H. unfold meta_on.
  destruct (Z.ltb_spec (share_of k j) (usedCoreNum r)).
  - by rewrite (cr_on _ _ _ _ _ H).
  - rewrite H. split; [done|lia].
Qed.

Lemma share_interval j :
  0 <= j < core_count k -> meta_on FA_METADATA_SIZE buf j ->
  meta_start FA_METADATA_SIZE buf j = pl_start (plan_of r) (share_of k j) /\
  meta_end FA_METADATA_SIZE buf j = pl_end (plan_of r) (share_of k j).
Proof.
  intros Hj Hon. pose proof (share_row_ok j Hj) as H. apply share_on in Hon; [|done].
  rewrite (proj2 (Z.ltb_lt _ _)) in H by done. by destruct H as [_ E1 _ E2 _ _].
Qed.

Lemma share_has j b q :
  0 <= j < core_count k ->
  meta_has FA_METADATA_SIZE buf j b q <->
  share_of k j < usedCoreNum r /\ in_core (plan_of r) (share_of k j) b q.
Proof.
  intros Hj. unfold meta_has. split.
  - intros (Hon & H1 & H2). destruct (share_interval j Hj Hon) as [Es Ee].
    rewrite Es in H1. rewrite Ee in H2. split; [by apply share_on|]. by split.
  - intros [Hu [H1 H2]]. apply share_on in Hu; [|done].
    destruct (share_interval j Hj Hu) as [Es Ee]. by rewrite Es, Ee.
Qed.
End Shares.

(** Two sequences on an Ascend950 with 128 heads: four cores, in two pairs. *)
Definition kvq_attrs : list (string * AttrValue) :=
  [("num_heads_q", int_attr 128); ("num_heads_kv", int_attr 1); ("head_dim", int_attr 512);
   ("soc_version", str_attr "Ascend950PR"); ("aic_core_num", int_attr 4);
   ("aiv_core_num", int_attr 8); ("cmp_topk", int_attr 512); ("cmp_ratio", int_attr 4);
   ("ori_mask_mode", int_attr 4); ("ori_win_left", int_attr 127);
   ("layout_q", str_attr "TND"); ("layout_kv", str_attr "PA_ND");
   ("has_ori_kv", bool_attr true); ("has_cmp_kv", bool_attr true)].
Definition kvq_ctx (lens : list Z) (attrs : list (string * AttrValue)) : CpuKernelContext :=
  context [vec [0; 3; 5]; None; None; None; vec lens] (words 1024) (attrs ++ kvq_attrs).
Definition kvq_kernel : Kernel := accepted (Prepare (kvq_ctx [300; 700] []) new_Kernel) new_Kernel.
Definition kvq_row : RowState := mkRowState (fun _ _ => 0) new_S1GCache.

Lemma kvq_demo_prepare : Prepare (kvq_ctx [300; 700] []) new_Kernel = Ok (true, kvq_kernel).
Proof. vm_compute. reflexivity. Qed.

Lemma kvq_demo_sane : Sane kvq_kernel.
Proof.
  split.
  - by_compute.
  - apply sizes_okb_sound. by vm_compute.
  - apply sizes_okb_sound1. by vm_compute.
  - by_compute.
  - by_compute.
  - by_compute.
  - by_compute.
Qed.

(** C32: every row of every sequence belongs to exactly one share of the
    schedule: the cores whose metadata contains the row are the cores of that
    share, one core, or two when 128 heads are split between a pair. *)
Theorem kvq_rows_partitioned c s k :
  Prepare c new_Kernel = Ok (true, k) -> Sane k ->
  returns (Compute c new_Kernel s) (fun '(status, buf) =>
    status = KERNEL_STATUS_OK /\
    forall b q, 0 <= b < batchSize_ k -> 0 <= q < rows_of k b ->
      exists i, 0 <= i < aicCoreNum_ k /\
        forall j, 0 <= j < core_count k ->
          meta_has FA_METADATA_SIZE buf j b q <-> share_of k j = i).
Proof.
  intros Hp HS. eapply returns_mono; [by apply kvq_Compute_returns|].
  intros [st buf] (-> & r & Hr & HM). split; [done|]. intros b q Hb Hq.
  pose proof (sch_shape _ _ _ _ _ Hr) as Hsh. pose proof (plan_n _ _ _ Hsh) as Hn. cbn in Hn.
  destruct (plan_partition _ _ _ Hsh b q Hb ltac:(lia)) as (i & Hi & Hin & Hu). cbn in Hi.
  exists i. split; [lia|]. intros j Hj. rewrite (share_has k r buf HM j b q Hj).
  pose proof (share_range k j Hj). split.
  - intros [Hl Hc]. apply Hu; [cbn; lia|done].
  - intros ->. split; [lia|done].
Qed.

Lemma kvq_rows_partitioned_witness :
  returns (Compute (kvq_ctx [300; 700] []) new_Kernel kvq_row) (fun '(status, buf) =>
    status = KERNEL_STATUS_OK /\
    forall b q, 0 <= b < batchSize_ kvq_kernel -> 0 <= q < rows_of kvq_kernel b ->
      exists i, 0 <= i < aicCoreNum_ kvq_kernel /\
        forall j, 0 <= j < core_count kvq_kernel ->
          meta_has FA_METADATA_SIZE buf j b q <-> share_of kvq_kernel j = i).
Proof. exact (kvq_rows_partitioned _ kvq_row kvq_kernel kvq_demo_prepare kvq_demo_sane). Defined.

(** C33: when the batch has work, no enabled core is idle, and none is loaded by
    more than an equal share of the work that the shares before its own left (or
    the most expensive row) plus half the most expensive row.  When there is none
    (all rows see no key), the cores of the first share alone are enabled, without
    work. *)
Theorem kvq_load_balanced c s k :
  Prepare c new_Kernel = Ok (true, k) -> Sane k ->
  returns (Compute c new_Kernel s) (fun '(status, buf) =>
    (0 < total (workload_of k) (row_cost k) ->
     exists maxRow, is_max_row (workload_of k) maxRow /\
       forall j, 0 <= j < core_count k -> meta_on FA_METADATA_SIZE buf j ->
         let start := meta_start FA_METADATA_SIZE buf j in
         0 < meta_work FA_METADATA_SIZE buf (workload_of k) j <=
           Z.max (Z.quot (rest (workload_of k) (row_cost k) start.1 start.2)
                    (aicCoreNum_ k - share_of k j)) maxRow + Z.quot maxRow 2) /\
    (total (workload_of k) (row_cost k) = 0 ->
     forall j, 0 <= j < core_count k -> meta_on FA_METADATA_SIZE buf j ->
       share_of k j = 0 /\ meta_work FA_METADATA_SIZE buf (workload_of k) j = 0)).
Proof.
  intros Hp HS. pose proof (ko_batch k (kvq_accepted_KernelOk k (kvq_Prepare_accepted c k Hp) HS)) as Hb.
  eapply returns_mono; [by apply kvq_Compute_returns|]. intros [st buf] (-> & r & Hr & HM).
  destruct (sch_case _ _ _ _ _ Hr) as [[Hz Hu He _ _]|(Ht & m & Hm & HP & _)];
    change (wl_cost (workload_of k)) with (row_cost k) in *; (split; [try (intros; lia)|try (intros; lia)]).
  { intros _ j Hj Hon. unfold meta_work. destruct (share_interval k r buf HM j Hj Hon) as [-> ->].
    apply (share_on k r buf HM j Hj) in Hon. pose proof (share_range k j Hj). assert (share_of k j = 0) as -> by lia.
    cbn [pl_start pl_end plan_of Z.eqb]. rewrite He. cbn [fst snd]. change (batchSize_ k) with (wl_nb (workload_of k)).
    rewrite rest_end, rest_start by (cbn; lia). split; [done|]. change (wl_cost (workload_of k)) with (row_cost k). lia. }
  intros _. exists m. split; [done|]. intros j Hj Hon. cbn zeta. unfold meta_work.
  destruct (share_interval k r buf HM j Hj Hon) as [-> ->].
  apply (share_on k r buf HM j Hj) in Hon. pose proof (share_range k j Hj).
  pose proof (plan_busy _ _ _ _ HP (share_of k j) ltac:(cbn; lia)).
  pose proof (plan_bounded _ _ _ _ HP (share_of k j) ltac:(cbn; lia)).
  unfold core_work, core_limit in *. cbn [workload_of wl_cost] in *. lia.
Qed.

Lemma kvq_load_balanced_witness :
  returns (Compute (kvq_ctx [300; 700] []) new_Kernel kvq_row) (fun '(status, buf) =>
    exists maxRow, is_max_row (workload_of kvq_kernel) maxRow /\
      forall j, 0 <= j < core_count kvq_kernel -> meta_on FA_METADATA_SIZE buf j ->
        let start := meta_start FA_METADATA_SIZE buf j in
        0 < meta_work FA_METADATA_SIZE buf (workload_of kvq_kernel) j <=
          Z.max (Z.quot (rest (workload_of kvq_kernel) (row_cost kvq_kernel) start.1 start.2)
                   (aicCoreNum_ kvq_kernel - share_of kvq_kernel j)) maxRow + Z.quot maxRow 2).
Proof.
  eapply returns_mono; [apply (kvq_load_balanced _ kvq_row kvq_kernel kvq_demo_prepare kvq_demo_sane)|].
  intros [st buf] [H _]. apply H. by vm_compute.
Defined.
(** S2 blocks of the interval of core [j]. *)
Definition meta_blocks (k : Kernel) (buf : list Z) (j : Z) : Z :=
  let '(b0, r0) := meta_start FA_METADATA_SIZE buf j in
  let '(b1, r1) := meta_end FA_METADATA_SIZE buf j in
  rest (workload_of k) (row_blk k) b0 r0 - rest (workload_of k) (row_blk k) b1 r1.

(** with 128 heads every core, enabled or not, is told the largest number
    of S2 blocks that any core has, which is attained. *)
Theorem kvq_max_blocks c s k :
  Prepare c new_Kernel = Ok (true, k) -> Sane k -> isN128 k = true ->
  0 < total (workload_of k) (row_cost k) ->
  returns (Compute c new_Kernel s) (fun '(status, buf) =>
    exists m, (forall j, 0 <= j < core_count k -> fa_get FA_METADATA_SIZE buf j FA_S2_MAX_NUM = m) /\
      (forall j, 0 <= j < core_count k -> meta_on FA_METADATA_SIZE buf j -> meta_blocks k buf j <= m) /\
      exists j, 0 <= j < core_count k /\ meta_on FA_METADATA_SIZE buf j /\ meta_blocks k buf j = m).
Proof.
  intros Hp HS HN Ht. eapply returns_mono; [by apply kvq_Compute_returns|].
  intros [st buf] (-> & r & Hr & HM).
  pose proof (kvq_accepted_KernelOk k (kvq_Prepare_accepted c k Hp) HS) as HK.
  destruct (sch_case _ _ _ _ _ Hr) as [[Hz _ _ _ _]|(_ & m & _ & _ & _ & _ & Hle & i & Hi & He)];
    [cbn in Hz; lia|].
  pose proof (sch_shape _ _ _ _ _ Hr) as Hsh. pose proof (plan_n _ _ _ Hsh) as Hn. cbn in Hn.
  assert (Hblk : forall j, 0 <= j < core_count k -> meta_on FA_METADATA_SIZE buf j ->
    meta_blocks k buf j = core_work (workload_of k) (row_blk k) (plan_of r) (share_of k j)).
  { intros j Hj Hon. unfold meta_blocks, core_work.
    destruct (share_interval k r buf HM j Hj Hon) as [-> ->].
    by destruct (pl_start _ _), (pl_end _ _). }
  assert (Hm : 0 <= maxS2GBaseNum r < 2 ^ 32) by (eapply max_blocks_range; eauto).
  assert (Ei : share_of k (2 * i) = i /\ 0 <= 2 * i < core_count k).
  { unfold share_of, core_count. rewrite HN. rewrite (Z.mul_comm 2 i), Z.div_mul; lia. }
  exists (maxS2GBaseNum r). split; [|split].
  - intros j Hj. pose proof (share_range k j Hj) as Hs. unfold KvqMetaOk in HM. unfold share_of in Hs.
    rewrite HN in HM, Hs. destruct (pm_rows _ _ _ _ HM (j / 2) Hs) as [[_ H0] [_ H1]].
    rewrite u32_id in H0, H1 by lia.
    assert (j = 2 * (j / 2) \/ j = 2 * (j / 2) + 1) as [E|E] by ediv; rewrite <- E in *; done.
  - intros j Hj Hon. rewrite Hblk by done. apply (share_on k r buf HM j Hj) in Hon.
    pose proof (share_range k j Hj). apply Hle. lia.
  - destruct Ei as [Ei Hci]. exists (2 * i). split; [done|].
    assert (Hon : meta_on FA_METADATA_SIZE buf (2 * i)) by (apply (share_on k r buf HM _ Hci); lia).
    split; [done|]. by rewrite Hblk, Ei.
Qed.

Lemma kvq_max_blocks_witness :
  returns (Compute (kvq_ctx [300; 700] []) new_Kernel kvq_row) (fun '(status, buf) =>
    exists m, (forall j, 0 <= j < core_count kvq_kernel -> fa_get FA_METADATA_SIZE buf j FA_S2_MAX_NUM = m) /\
      (forall j, 0 <= j < core_count kvq_kernel -> meta_on FA_METADATA_SIZE buf j ->
         meta_blocks kvq_kernel buf j <= m) /\
      exists j, 0 <= j < core_count kvq_kernel /\ meta_on FA_METADATA_SIZE buf j /\
        meta_blocks kvq_kernel buf j = m).
Proof.
  apply (kvq_max_blocks _ kvq_row kvq_kernel kvq_demo_prepare kvq_demo_sane); by vm_compute.
Defined.

(** preparing a fresh kernel object never faults, and an accepted object
    has passed every check the schedule relies on. *)
Theorem kvq_prepare_total c :
  returns (Prepare c new_Kernel) (fun '(ok, k) => ok = true -> Accepted k).
Proof. apply kvq_Prepare_accepts. Qed.

(** with 128 heads on Ascend950 the number of cores is halved after it was
    checked: a single core is accepted and the call reports success, but no
    core is enabled although there is work. *)
Theorem kvq_single_core_lost s :
  Compute (kvq_ctx [300; 700] [("aic_core_num", int_attr 1)]) new_Kernel s =
    Ok (KERNEL_STATUS_OK, replicate 1024 0).
Proof. vm_compute. reflexivity. Qed.

(** with a single core, 128 heads and no keys at all, the schedule is
    written outside its empty vectors. *)
Theorem kvq_single_core_fault s :
  Compute (kvq_ctx [0; 0] [("aic_core_num", int_attr 1)]) new_Kernel s = Fault OutOfBounds.
Proof. vm_compute. reflexivity. Qed.

(** on a chip other than Ascend950 128 heads write two rows per core for
    all the cores: 24 cores leave the table of 36 rows. *)
Theorem kvq_pairs_fault :
  Compute (kvq_ctx [300; 700] [("soc_version", str_attr "Ascend910_9391");
                               ("aic_core_num", int_attr 24)]) new_Kernel kvq_row = Fault OutOfBounds.
Proof. vm_compute. reflexivity. Qed.
End KvqTheorems.
