(* ===== verification/QliTheorems.v ===== *)
(** * Theorems on the vllm_quant_lightning_indexer metadata kernel *)

From stdpp Require Import sets.
From S2P Require Import Prelude SplitTypes Assign Workload AssignProofs PlanProofs PlanLoop.
From S2P Require Import RowSpec Metadata MetaProofs SasMeta QliMeta QliProofs Fixtures.

Module QliTheorems.
Import Qli QliProofs.

(** Two sequences of 9 and 4 query tokens over 9000 and 300 keys, compressed by
    four, with the causal mask, on four cores of an Ascend910B. *)
Definition qli_attrs : list (string * AttrValue) :=
  [("aic_core_num", int_attr 4); ("aiv_core_num", int_attr 8); ("soc_version", str_attr "Ascend910_9391");
   ("num_heads_q", int_attr 64); ("num_heads_k", int_attr 1); ("head_dim", int_attr 128);
   ("query_quant_mode", int_attr 0); ("key_quant_mode", int_attr 0);
   ("layout_query", str_attr "TND"); ("layout_key", str_attr "PA_BSND");
   ("sparse_mode", int_attr 3); ("cmp_ratio", int_attr 4)].
Definition qli_ctx (attrs : list (string * AttrValue)) : CpuKernelContext :=
  context [vec [9; 13]; vec [9000; 300]] (words 1024) (attrs ++ qli_attrs).
Definition qli_kernel : Kernel := accepted (Prepare (qli_ctx []) new_Kernel) new_Kernel.

Lemma qli_demo_prepare : Prepare (qli_ctx []) new_Kernel = Ok (true, qli_kernel).
Proof. vm_compute. reflexivity. Qed.

Lemma qli_demo_sane : Sane qli_kernel.
Proof.
  split.
  - by_compute.
  - apply sizes_okb_sound. by vm_compute.
  - apply sizes_okb_sound1. by vm_compute.
  - by_compute.
  - by_compute.
  - by_compute.
  - by_compute.
Qed.

Lemma qli_demo_ok : KernelOk qli_kernel.
Proof.
  apply qli_accepted_KernelOk; [|apply qli_demo_sane].
  apply (qli_Prepare_accepted (qli_ctx []) _ qli_demo_prepare).
Qed.

(** C34: the metadata that an accepted call writes assigns every row of query
    tokens to exactly one enabled AI core, and no reduction is scheduled. *)
Theorem qli_rows_partitioned c k :
  Prepare c new_Kernel = Ok (true, k) -> Sane k ->
  returns (Compute c new_Kernel) (fun '(status, buf) =>
    status = KERNEL_STATUS_OK /\
    (forall b q, 0 <= b < batchSize_ k -> 0 <= q < rows_of k b ->
      exists i, 0 <= i < aicCoreNum_ k /\ meta_has LI_METADATA_SIZE buf i b q /\
        forall j, 0 <= j < aicCoreNum_ k -> meta_has LI_METADATA_SIZE buf j b q -> j = i) /\
    forall i, 0 <= i < aivCoreNum_ k -> fd_get LI_METADATA_SIZE buf i FD_CORE_ENABLE_INDEX = 0).
Proof.
  intros Hp HS. eapply returns_mono; [by apply qli_Compute_returns|].
  intros [st buf] (-> & r & Hr & HM). split; [done|]. split; [|apply (mo_fd _ _ _ _ _ HM)].
  intros b q Hb Hq. eapply meta_partition; [exact Hr|exact HM|done|lia].
Qed.

Lemma qli_rows_partitioned_witness :
  returns (Compute (qli_ctx []) new_Kernel) (fun '(status, buf) =>
    status = KERNEL_STATUS_OK /\
    (forall b q, 0 <= b < batchSize_ qli_kernel -> 0 <= q < rows_of qli_kernel b ->
      exists i, 0 <= i < aicCoreNum_ qli_kernel /\ meta_has LI_METADATA_SIZE buf i b q /\
        forall j, 0 <= j < aicCoreNum_ qli_kernel -> meta_has LI_METADATA_SIZE buf j b q -> j = i) /\
    forall i, 0 <= i < aivCoreNum_ qli_kernel -> fd_get LI_METADATA_SIZE buf i FD_CORE_ENABLE_INDEX = 0).
Proof. exact (qli_rows_partitioned _ qli_kernel qli_demo_prepare qli_demo_sane). Defined.

(** C35: when the batch has work, no enabled core is idle, and none is loaded by
    more than an equal share of the work that its predecessors left (or the most
    expensive row) plus half the most expensive row.  When there is none (all
    rows see no key), the first core alone is enabled, without work. *)
Theorem qli_load_balanced c k :
  Prepare c new_Kernel = Ok (true, k) -> Sane k ->
  returns (Compute c new_Kernel) (fun '(status, buf) =>
    (0 < total (workload_of k) (wl_cost (workload_of k)) ->
     exists maxRow, is_max_row (workload_of k) maxRow /\
       forall i, 0 <= i < aicCoreNum_ k -> meta_on LI_METADATA_SIZE buf i ->
         0 < meta_work LI_METADATA_SIZE buf (workload_of k) i <=
           meta_limit LI_METADATA_SIZE buf (workload_of k) maxRow (aicCoreNum_ k) i + Z.quot maxRow 2) /\
    (total (workload_of k) (wl_cost (workload_of k)) = 0 ->
     forall i, 0 <= i < aicCoreNum_ k -> meta_on LI_METADATA_SIZE buf i ->
       i = 0 /\ meta_work LI_METADATA_SIZE buf (workload_of k) i = 0)).
Proof.
  intros Hp HS. pose proof (ko_batch k (qli_accepted_KernelOk k (qli_Prepare_accepted c k Hp) HS)) as Hb.
  eapply returns_mono; [by apply qli_Compute_returns|]. intros [st buf] (-> & r & Hr & HM). split.
  - intros Ht. by eapply meta_balance; [exact Hr|exact HM|].
  - intros Hz i Hi Hon. eapply meta_idle; [exact Hr|exact HM|done|cbn; lia|done|done].
Qed.

Lemma qli_load_balanced_witness :
  returns (Compute (qli_ctx []) new_Kernel) (fun '(status, buf) =>
    exists maxRow, is_max_row (workload_of qli_kernel) maxRow /\
      forall i, 0 <= i < aicCoreNum_ qli_kernel -> meta_on LI_METADATA_SIZE buf i ->
        0 < meta_work LI_METADATA_SIZE buf (workload_of qli_kernel) i <=
          meta_limit LI_METADATA_SIZE buf (workload_of qli_kernel) maxRow
            (aicCoreNum_ qli_kernel) i + Z.quot maxRow 2).
Proof.
  eapply returns_mono; [apply (qli_load_balanced _ qli_kernel qli_demo_prepare qli_demo_sane)|].
  intros [st buf] [H _]. apply H. by vm_compute.
Defined.

(** C36: the row routines compute the row of the specification from the
    compressed keys it sees, provided the cache they start from is at block 0. *)
Theorem qli_row_computed k b q g :
  KernelOk k -> 0 <= b < batchSize_ k -> 0 <= q < rows_of k b -> s2Start g = 0 ->
  returns (si ← CalcSplitInfo k (new_SplitInfo (batchSize_ k));
           bc ← CalcBatchCache k b si new_BatchCache;
           CalcS1GCache k q si bc g) (fun g' =>
    s1GBlock g' = seg_blk (s2BaseSize_ k) (row_len k b q) /\
    s1GCost g' = seg_cost (block_cost k) (s2BaseSize_ k) (row_m k b q) (row_len k b q) /\
    s1GLastBlockCost g' = seg_last (block_cost k) (s2BaseSize_ k) (row_m k b q) (row_len k b q) /\
    s2Start g' = 0).
Proof.
  intros HK Hb Hq Hs. eapply returns_bind_mono; [by apply qli_CalcSplitInfo_returns|]. intros si Hsi.
  eapply returns_bind_mono; [by apply qli_CalcBatchCache_returns|]. intros bc Hbc.
  eapply returns_mono; [eapply qli_CalcS1GCache_returns; try done; split; cbn; lia|].
  by intros st [].
Qed.

Lemma qli_row_computed_witness :
  returns (si ← CalcSplitInfo qli_kernel (new_SplitInfo (batchSize_ qli_kernel));
           bc ← CalcBatchCache qli_kernel 0 si new_BatchCache;
           CalcS1GCache qli_kernel 2 si bc new_S1GCache) (fun g' =>
    s1GBlock g' = seg_blk (s2BaseSize_ qli_kernel) (row_len qli_kernel 0 2) /\
    s1GCost g' = seg_cost (block_cost qli_kernel) (s2BaseSize_ qli_kernel) (row_m qli_kernel 0 2)
                   (row_len qli_kernel 0 2) /\
    s1GLastBlockCost g' = seg_last (block_cost qli_kernel) (s2BaseSize_ qli_kernel)
                   (row_m qli_kernel 0 2) (row_len qli_kernel 0 2) /\
    s2Start g' = 0).
Proof. apply (qli_row_computed qli_kernel 0 2 new_S1GCache qli_demo_ok); by_compute. Defined.

(** preparing a fresh kernel object never faults, and an accepted object
    has passed every check the schedule relies on. *)
Theorem qli_prepare_total c :
  returns (Prepare c new_Kernel) (fun '(ok, k) => ok = true -> Accepted k).
Proof. apply qli_Prepare_accepts. Qed.

(** The compression ratios each chip supports. *)
Definition ratio_ok (soc : ValidSocVersion) (ratio : Z) : Prop :=
  match soc with
  | ASCEND910 => ratio ∈ [1; 2; 4; 8; 16; 32; 64; 128]
  | _ => ratio ∈ [1; 4; 128]
  end.

(** The test for a power of two, on the range that reaches it. *)
Lemma pow2_test r :
  1 <= r <= 128 -> (Z.land r (r - 1) =? 0) = bool_decide (r ∈ [1; 2; 4; 8; 16; 32; 64; 128]).
Proof.
  intros Hr. assert (Hall : forallb (fun n => eqb (Z.land (Z.of_nat n) (Z.of_nat n - 1) =? 0)
    (bool_decide (Z.of_nat n ∈ [1; 2; 4; 8; 16; 32; 64; 128]))) (seq 1 128) = true) by by vm_compute.
  rewrite forallb_forall in Hall. specialize (Hall (Z.to_nat r) ltac:(apply in_seq; lia)).
  rewrite Z2Nat.id in Hall by lia. by apply eqb_prop.
Qed.

(** the feature check accepts exactly the compression ratios of the chip,
    and records the chip. *)
Theorem qli_ratio_exact k :
  (CheckFeature k).1 = true <->
  ratio_ok (ProcessSocVersion k) (cmpRatio_ k) /\
  (CheckFeature k).2 = k <| validSocVersion_ := ProcessSocVersion k |>.
Proof.
  unfold CheckFeature. destruct (_ || _) eqn:E.
  - split; [done|]. intros [Hr _]. exfalso. rewrite Z.gtb_ltb in E.
    assert (1 <= cmpRatio_ k <= 128).
    { unfold ratio_ok in Hr. destruct (ProcessSocVersion k); set_unfold; lia. }
    apply orb_true_iff in E as [E|E]; zify_tests; lia.
  - rewrite Z.gtb_ltb in E. zify_tests. cbn. unfold ratio_ok, ProcessSocVersion.
    destruct (string_contains _ _); cbn.
    + destruct (_ && _) eqn:Ec; cbn.
      * split; [done|]. intros [Hr _]. zify_tests. set_unfold. lia.
      * split; [|done]. intros _. split; [|done].
        apply andb_false_iff in Ec as [Ec|Ec]; [apply andb_false_iff in Ec as [Ec|Ec]|];
          zify_tests; set_unfold; lia.
    + rewrite pow2_test by lia. case_bool_decide; cbn; [done|]. split; [done|]. by intros [].
Qed.

(** the number of cores is not checked against the size of the metadata
    table: 37 cores are accepted and the last one is written outside it. *)
Theorem qli_core_count_fault :
  Compute (qli_ctx [("aic_core_num", int_attr 37); ("aiv_core_num", int_attr 37)]) new_Kernel =
    Fault OutOfBounds.
Proof. vm_compute. reflexivity. Qed.
End QliTheorems.
