(* ===== verification/FdSplit.v ===== *)
(** * Distribution of reduction tasks over the vector cores

    SplitFD of the kv_quant and lightning-indexer kernels cuts the rows of
    every reduction task into consecutive pieces, one per vector core.  When
    every task carries at least the average load, each row of each task gets
    exactly one vector core and no more cores are used than exist; a task below
    the average load makes it divide by zero. *)

From S2P Require Import Prelude SplitTypes RowSpec SharedKv SasMeta KvqMeta Fixtures.

(** Vector core [v] reduces row [m] of task [i]. *)
Definition fd_owns (fd : FlashDecodeResult) (v i m : Z) : Prop :=
  vat (fdIdx fd) v = i /\ vat (fdMStart fd) v <= m < vat (fdMStart fd) v + vat (fdMNum fd) v.

(** Results that agree on the tasks, and on the vector cores below [cur]. *)
Record fd_frame (cur : Z) (fd fd' : FlashDecodeResult) : Prop := {
  ff_size : fdMSize fd' = fdMSize fd;
  ff_split : fdS2SplitNum fd' = fdS2SplitNum fd;
  ff_l1 : length (fdIdx fd') = length (fdIdx fd);
  ff_l2 : length (fdMStart fd') = length (fdMStart fd);
  ff_l3 : length (fdMNum fd') = length (fdMNum fd);
  ff_low : forall v, 0 <= v < cur -> vat (fdIdx fd') v = vat (fdIdx fd) v /\
    vat (fdMStart fd') v = vat (fdMStart fd) v /\ vat (fdMNum fd') v = vat (fdMNum fd) v
}.

Lemma fd_frame_refl cur fd : fd_frame cur fd fd.
Proof. by split. Qed.

Lemma fd_frame_trans c c' fd1 fd2 fd3 :
  c <= c' -> fd_frame c fd1 fd2 -> fd_frame c' fd2 fd3 -> fd_frame c fd1 fd3.
Proof.
  intros Hc [A1 A2 A3 A4 A5 A6] [B1 B2 B3 B4 B5 B6]. split; try congruence.
  intros v Hv. destruct (A6 v Hv) as (E1 & E2 & E3). destruct (B6 v ltac:(lia)) as (F1 & F2 & F3).
  split; [congruence|split; congruence].
Qed.

Lemma fd_owns_frame cur fd fd' v i m :
  fd_frame cur fd fd' -> 0 <= v < cur -> fd_owns fd' v i m <-> fd_owns fd v i m.
Proof.
  intros HF Hv. destruct (ff_low _ _ _ HF v Hv) as (E1 & E2 & E3).
  unfold fd_owns. by rewrite E1, E2, E3.
Qed.

(** ** The pieces of one task *)

Section Task.
(** Vector cores [cur .. cur + num), [ave] rows each, the last one shorter. *)
Context (i size num ave cur aiv : Z).
Context (Hsize : 0 < size < 2 ^ 32) (Have : 0 < ave) (Hnum : num = ceil_div size ave).
Context (Hcur : 0 <= cur) (Hfit : cur + num <= aiv) (Haiv : aiv < 2 ^ 32).

(** Vector core [cur + v] has its piece. *)
Definition piece (fd : FlashDecodeResult) (v : Z) : Prop :=
  vat (fdIdx fd) (cur + v) = i /\ vat (fdMStart fd) (cur + v) = v * ave /\
  vat (fdMNum fd) (cur + v) = if v <? num - 1 then ave else size - v * ave.

Lemma num_range : 0 < num /\ (num - 1) * ave < size <= num * ave.
Proof.
  rewrite Hnum. pose proof (ceil_div_pos size ave Have ltac:(lia)).
  split; [done|]. unfold ceil_div in *.
  pose proof (Z.div_mod (size + ave - 1) ave ltac:(lia)).
  pose proof (Z.mod_pos_bound (size + ave - 1) ave Have). nia.
Qed.

Record pieces (fd0 : FlashDecodeResult) (n : Z) (st : FlashDecodeResult * Z) : Prop := {
  pc_cur : st.2 = cur + n;
  pc_frame : fd_frame cur fd0 st.1;
  pc_done : forall v, 0 <= v < n -> piece st.1 v
}.

Lemma SplitFD_vec_returns fd0 v st :
  Z.of_nat (length (fdIdx fd0)) = aiv -> Z.of_nat (length (fdMStart fd0)) = aiv ->
  Z.of_nat (length (fdMNum fd0)) = aiv ->
  0 <= v < num -> pieces fd0 v st ->
  returns (Sas.SplitFD_vec i size num ave v st) (pieces fd0 (v + 1)).
Proof.
  intros L1 L2 L3 Hv [Hc [F1 F2 F3 F4 F5 F6] Hd]. destruct st as [fd c]. cbn in *. subst c.
  pose proof num_range as [_ Hr]. assert (0 <= v * ave < size) by nia.
  unfold Sas.SplitFD_vec. rewrite (u32_id (v * ave)), (u32_id (num - 1)), (u32_id (size - v * ave)) by lia.
  repeat (returns_step; cbn -[vset u32]). rewrite u32_id by lia. split; cbn; [lia| |].
  - split; cbn -[vat]; rewrite ?length_insert; try done.
    intros q Hq. rewrite !vat_insert_ne by lia. by apply F6.
  - intros q Hq. unfold piece. cbn -[vat]. destruct (decide (q = v)) as [->|].
    + by rewrite !vat_insert_eq by lia.
    + rewrite !vat_insert_ne by lia. apply Hd. lia.
Qed.

(** The pieces partition the rows of the task. *)
Lemma pieces_own fd v m :
  (forall v, 0 <= v < num -> piece fd v) -> 0 <= v < num -> 0 <= m < size ->
  fd_owns fd (cur + v) i m <-> v = m / ave.
Proof using Hsize Have Hnum.
  clear Hfit Haiv Hcur aiv.
  intros Hd Hv Hm. destruct (Hd v Hv) as (E1 & E2 & E3). pose proof num_range as [_ Hr].
  unfold fd_owns. rewrite E1, E2, E3. destruct (Z.ltb_spec v (num - 1)).
  - split; [intros [_ H1]; apply Z.div_unique with (m - v * ave); nia|].
    intros ->. pose proof (Z.div_mod m ave ltac:(lia)). pose proof (Z.mod_pos_bound m ave Have). nia.
  - assert (v = num - 1) by lia. subst v. split.
    + intros [_ H1]. apply Z.div_unique with (m - (num - 1) * ave); nia.
    + intros E. pose proof (Z.mul_div_le m ave Have). nia.
Qed.

Lemma owner_range m : 0 <= m < size -> 0 <= m / ave < num.
Proof.
  intros Hm. pose proof num_range as [_ Hr]. split; [apply Z.div_pos; lia|].
  apply Z.div_lt_upper_bound; nia.
Qed.
End Task.

(** ** All tasks *)

Section Tasks.
Context (fd0 : FlashDecodeResult) (heads aiv : Z).

Definition task_load (j : Z) : Z := vat (fdS2SplitNum fd0) j * vat (fdMSize fd0) j.
Definition fd_total : Z := sumZ task_load 0 heads.
Definition fd_average : Z := ceil_div fd_total aiv.

(** The tasks, with vectors for the vector cores; every task carries at least
    the average load. *)
Record TasksOk : Prop := {
  tk_heads : 0 < heads < 2 ^ 31;
  tk_aiv : 0 < aiv < 2 ^ 31;
  tk_l1 : Z.of_nat (length (fdIdx fd0)) = aiv;
  tk_l2 : Z.of_nat (length (fdMStart fd0)) = aiv;
  tk_l3 : Z.of_nat (length (fdMNum fd0)) = aiv;
  tk_l4 : heads <= Z.of_nat (length (fdMSize fd0));
  tk_l5 : heads <= Z.of_nat (length (fdS2SplitNum fd0));
  tk_size : forall j, 0 <= j < heads -> 0 < vat (fdMSize fd0) j < 2 ^ 31;
  tk_load : forall j, 0 <= j < heads -> fd_average <= task_load j < 2 ^ 32;
  tk_pos : 0 < fd_total
}.

Context (HT : TasksOk).

Lemma average_pos : 0 < fd_average /\ fd_total <= fd_average * aiv.
Proof.
  pose proof (tk_aiv HT). pose proof (tk_pos HT). unfold fd_average.
  split; [by apply ceil_div_pos; lia|]. unfold ceil_div.
  pose proof (Z.div_mod (fd_total + aiv - 1) aiv ltac:(lia)).
  pose proof (Z.mod_pos_bound (fd_total + aiv - 1) aiv ltac:(lia)). nia.
Qed.

Lemma partial_load i : 0 <= i <= heads -> sumZ task_load 0 i <= fd_total.
Proof.
  intros Hi. unfold fd_total. rewrite (sumZ_split _ 0 i heads) by lia.
  pose proof average_pos as [Ha _].
  pose proof (sumZ_nonneg task_load i heads) as H. specialize (H ltac:(intros j Hj;
    pose proof (tk_load HT j ltac:(lia)); lia)). lia.
Qed.

Lemma fd_total_range : fd_total <= 2 ^ 32 * heads.
Proof.
  pose proof (tk_heads HT). unfold fd_total.
  pose proof (sumZ_scale (2 ^ 32) task_load (fun _ => 1) 0 heads) as H1.
  assert (E : sumZ (fun _ => 1) 0 heads = heads).
  { clear -H. assert (forall n, 0 <= n -> sumZ (fun _ => 1) 0 n = n) as Hn; [|apply Hn; lia].
    apply natlike_ind; [done|]. intros x Hx IH. rewrite <- Z.add_1_r, sumZ_snoc, IH by lia. done. }
  rewrite E in H1. apply H1. intros j Hj. pose proof (tk_load HT j Hj). lia.
Qed.

(** The total of the code. *)
Lemma SplitFD_total_returns : Sas.SplitFD_total fd0 heads = Ok fd_total.
Proof.
  pose proof (tk_heads HT). pose proof (tk_l4 HT). pose proof (tk_l5 HT).
  destruct (for_range_returns (fun i t => t = sumZ task_load 0 i) heads
    (fun i t => l ← Sas.fd_load fd0 i; Ok (u64 (t + l))) 0) as (t & E & Et); [lia|done| |].
  - intros i t Hi ->. unfold Sas.fd_load. rewrite !vget_ok by lia. cbn -[u32 u64 vat].
    fold (task_load i). pose proof (tk_load HT i Hi). pose proof average_pos as [Ha _].
    pose proof fd_total_range. pose proof (partial_load (i + 1) ltac:(lia)) as Hp.
    rewrite sumZ_snoc in Hp by lia.
    pose proof (sumZ_nonneg task_load 0 i) as Hn. specialize (Hn ltac:(intros j Hj;
      pose proof (tk_load HT j ltac:(lia)); lia)).
    apply returns_ok. rewrite (u32_id (task_load i)), u64_id by lia. by rewrite sumZ_snoc by lia.
  - unfold Sas.SplitFD_total. by rewrite E, Et.
Qed.

(** The first [i] tasks are distributed over the first [st.2] vector cores. *)
Record tasks_done (i : Z) (st : FlashDecodeResult * Z) : Prop := {
  td_frame : fd_frame 0 fd0 st.1;
  td_cur : 0 <= st.2 /\ fd_average * st.2 <= sumZ task_load 0 i;
  td_idx : forall v, 0 <= v < st.2 -> vat (fdIdx st.1) v < i;
  td_own : forall j m, 0 <= j < i -> 0 <= m < vat (fdMSize fd0) j ->
    exists v, 0 <= v < st.2 /\ fd_owns st.1 v j m /\
      forall v', 0 <= v' < st.2 -> fd_owns st.1 v' j m -> v' = v
}.

(** The pieces of task [i] added to those before. *)
Lemma tasks_done_step i size num ave fd cur st :
  0 <= i < heads -> size = vat (fdMSize fd0) i -> 0 < ave -> num = ceil_div size ave ->
  fd_average * num <= task_load i -> tasks_done i (fd, cur) ->
  pieces i size num ave cur fd num st -> tasks_done (i + 1) st.
Proof.
  intros Hi -> Ha Hn Hl [F0 [C1 C2] I0 O0] [P1 P2 P3]. cbn in *. destruct st as [fd' cur'].
  cbn in *. subst cur'. pose proof (tk_size HT i Hi) as Hs.
  pose proof (num_range (vat (fdMSize fd0) i) num ave ltac:(lia) Ha Hn) as [Hnp _].
  assert (Hlow : forall v, 0 <= v < cur + num -> vat (fdIdx fd') v = i -> cur <= v).
  { intros v Hv E. destruct (decide (v < cur)); [|lia].
    destruct (ff_low _ _ _ P2 v ltac:(lia)) as (E' & _). specialize (I0 v ltac:(lia)). lia. }
  split; cbn.
  - by eapply fd_frame_trans; [|exact F0|]; [|destruct P2; split; try done; intros; lia]; lia.
  - rewrite sumZ_snoc by lia. nia.
  - intros v Hv. destruct (decide (v < cur)).
    + destruct (ff_low _ _ _ P2 v ltac:(lia)) as (-> & _). specialize (I0 v ltac:(lia)). lia.
    + destruct (P3 (v - cur) ltac:(lia)) as (E & _). replace (cur + (v - cur)) with v in E by lia. lia.
  - intros j m Hj Hm. destruct (decide (j = i)) as [->|].
    + pose proof (owner_range (vat (fdMSize fd0) i) num ave ltac:(lia) Ha Hn m Hm) as Hr.
      exists (cur + m / ave). split; [lia|].
      assert (Hown : forall v, 0 <= v < num -> fd_owns fd' (cur + v) i m <-> v = m / ave)
        by (intros v Hv; apply (pieces_own i (vat (fdMSize fd0) i) num ave cur); done || lia).
      split; [by apply Hown|]. intros v' Hv' Ho. pose proof (Hlow v' Hv' (proj1 Ho)).
      replace v' with (cur + (v' - cur)) in Ho by lia. apply Hown in Ho; lia.
    + destruct (O0 j m ltac:(lia) Hm) as (v & Hv & Ho & Hu). exists v. split; [lia|].
      split; [by apply (fd_owns_frame cur fd fd')|]. intros v' Hv' Ho'.
      destruct (decide (v' < cur)).
      * apply Hu; [lia|]. apply (fd_owns_frame cur fd fd'); [done|lia|done].
      * destruct (P3 (v' - cur) ltac:(lia)) as (E & _). replace (cur + (v' - cur)) with v' in E by lia.
        destruct Ho' as [E' _]. lia.
Qed.

Lemma SplitFD_task_returns i st :
  0 <= i < heads -> tasks_done i st ->
  returns (Kvq.SplitFD_task fd_average i st) (tasks_done (i + 1)).
Proof.
  intros Hi Hd. pose proof Hd as [F0 [C1 C2] _ _]. destruct st as [fd cur]. cbn in *.
  pose proof F0 as [G1 G2 G3 G4 G5 _].
  pose proof (tk_l1 HT). pose proof (tk_l2 HT). pose proof (tk_l3 HT). pose proof (tk_l4 HT).
  pose proof (tk_l5 HT). pose proof (tk_aiv HT). pose proof average_pos as [Ha Ht].
  pose proof (tk_size HT i Hi) as Hs. pose proof (tk_load HT i Hi) as Hl.
  pose proof (partial_load (i + 1) ltac:(lia)) as Hp. rewrite sumZ_snoc in Hp by lia.
  set (n := task_load i / fd_average).
  assert (Hn : 0 < n /\ fd_average * n <= task_load i).
  { unfold n. split; [apply Z.div_str_pos; lia|]. apply Z.mul_div_le. lia. }
  set (size := vat (fdMSize fd0) i) in *. set (ave := ceil_div size n).
  assert (Have : 0 < ave) by (apply ceil_div_pos; lia).
  assert (Hsn : size <= n * ave).
  { unfold ave, ceil_div. pose proof (Z.div_mod (size + n - 1) n ltac:(lia)).
    pose proof (Z.mod_pos_bound (size + n - 1) n ltac:(lia)). nia. }
  assert (Hnum : ceil_div size ave <= n) by (apply ceil_div_le; lia).
  assert (Hcn : cur + n <= aiv) by nia.
  assert (Hav : ave <= size) by (apply ceil_div_le; nia).
  unfold Kvq.SplitFD_task, Sas.fd_load. rewrite G1, G2, !vget_ok by lia. cbn -[vat u32 udiv Sas.SplitFD_vec].
  fold (task_load i). fold size. rewrite (u32_id (task_load i)), udiv_ok by lia. fold n. cbn -[vat u32 udiv Sas.SplitFD_vec].
  rewrite (u32_id n), (u32_id (size + n - 1)), udiv_ok by lia. fold (ceil_div size n). fold ave.
  cbn -[vat u32 udiv Sas.SplitFD_vec].
  rewrite (u32_id (size + ave - 1)), udiv_ok by lia. fold (ceil_div size ave). cbn -[vat u32 Sas.SplitFD_vec].
  pose proof (ceil_div_nonneg size ave Have ltac:(lia)).
  eapply returns_mono.
  { apply (for_range_returns (pieces i size (ceil_div size ave) ave cur fd)); [done| |].
    - split; cbn; [lia|apply fd_frame_refl|intros; lia].
    - intros v st Hv Hpc. by eapply (SplitFD_vec_returns i size _ ave cur aiv); try done; lia. }
  intros st Hst. by eapply (tasks_done_step i size); try done; nia.
Qed.

(** Every row of every task is reduced by exactly one vector core. *)
Lemma SplitFD_on_returns r :
  fdRes r = fd0 -> numOfFdHead r = heads ->
  returns (Kvq.SplitFD_on aiv r) (fun r' =>
    0 < fdUsedVecNum (fdRes r') <= aiv /\
    forall j m, 0 <= j < heads -> 0 <= m < vat (fdMSize fd0) j ->
      exists v, 0 <= v < fdUsedVecNum (fdRes r') /\ fd_owns (fdRes r') v j m /\
        forall v', 0 <= v' < fdUsedVecNum (fdRes r') -> fd_owns (fdRes r') v' j m -> v' = v).
Proof.
  intros Hr Hh. unfold Kvq.SplitFD_on. rewrite Hr, Hh, SplitFD_total_returns. cbn [mbind res_bind].
  pose proof (tk_heads HT). pose proof (tk_aiv HT). pose proof (tk_pos HT).
  pose proof fd_total_range. pose proof average_pos as [Ha Ht].
  rewrite u64_id, udiv_ok by lia. cbn [mbind res_bind]. fold (ceil_div fd_total aiv). fold fd_average.
  eapply returns_bind_mono.
  { apply (for_range_returns tasks_done); [lia| |by intros; apply SplitFD_task_returns].
    split; cbn; [apply fd_frame_refl|rewrite sumZ_empty by lia; lia|intros; lia|intros; lia]. }
  intros [fd cur] [_ [C1 C2] _ Ho]. apply returns_ok. cbn in *. fold fd_total in C2.
  split; [|done]. split; [|nia].
  destruct (Ho 0 0 ltac:(lia)) as (v & Hv & _); [pose proof (tk_size HT 0 ltac:(lia)); lia|lia].
Qed.
End Tasks.

Module FdTheorems.
Import Kvq.

(** when every reduction task carries at least the average load, SplitFD
    uses no more vector cores than there are, and every row of every task is
    reduced by exactly one of them. *)
Theorem fd_rows_reduced_once k r :
  TasksOk (fdRes r) (numOfFdHead r) (aivCoreNum_ k) ->
  returns (SplitFD k r) (fun r' =>
    0 < fdUsedVecNum (fdRes r') <= aivCoreNum_ k /\
    forall j m, 0 <= j < numOfFdHead r -> 0 <= m < vat (fdMSize (fdRes r)) j ->
      exists v, 0 <= v < fdUsedVecNum (fdRes r') /\ fd_owns (fdRes r') v j m /\
        forall v', 0 <= v' < fdUsedVecNum (fdRes r') -> fd_owns (fdRes r') v' j m -> v' = v).
Proof. intros HT. by apply SplitFD_on_returns. Qed.

(** Two tasks, of [m0] and [m1] rows split over two cores each. *)
Definition two_tasks (m0 m1 : Z) : SplitResult :=
  let r := new_SplitResult 4 8 in
  r <| numOfFdHead := 2 |>
    <| fdRes := (fdRes r) <| fdMSize := [m0; m1; 0; 0] |> <| fdS2SplitNum := [2; 2; 0; 0] |> |>.
Definition eight_vectors : Kernel := new_Kernel <| aivCoreNum_ := 8 |>.

Lemma two_tasks_ok : TasksOk (fdRes (two_tasks 40 64)) 2 8.
Proof.
  assert (Hj : forall j, 0 <= j < 2 -> j = 0 \/ j = 1) by lia.
  split; try (by intros j [-> | ->]%Hj; by_compute).
  all: by_compute.
Qed.

Lemma fd_rows_reduced_once_witness :
  returns (SplitFD eight_vectors (two_tasks 40 64)) (fun r' =>
    0 < fdUsedVecNum (fdRes r') <= 8 /\
    forall j m, 0 <= j < 2 -> 0 <= m < vat (fdMSize (fdRes (two_tasks 40 64))) j ->
      exists v, 0 <= v < fdUsedVecNum (fdRes r') /\ fd_owns (fdRes r') v j m /\
        forall v', 0 <= v' < fdUsedVecNum (fdRes r') -> fd_owns (fdRes r') v' j m -> v' = v).
Proof. exact (fd_rows_reduced_once eight_vectors (two_tasks 40 64) two_tasks_ok). Defined.

(** a reduction task below the average load is given no vector core, and
    the size of its pieces is a division by zero. *)
Theorem fd_small_task_fault : SplitFD eight_vectors (two_tasks 1 64) = Fault DivByZero.
Proof. vm_compute. reflexivity. Qed.
End FdTheorems.
