(* ===== verification/SwaKernel.v ===== *)
(** * The AI-core side: sliding-window attention

    SparseAttnSharedkvSwa reads the metadata of its core and walks over the rows
    and S2 blocks of its interval.  Every block is a task of a three-stage
    pipeline over a ring of three slots (PreloadPipeline): cube matrix
    multiplication 1, then vector stage 1 and multiplication 2, then vector
    stage 2.  The numerical stages are calls into the cube and vector blocks;
    the model records them as events, in the order in which the core issues
    them. *)

From S2P Require Import Prelude SplitTypes Metadata SasMeta.

Module Swa.

Inductive SAS_LAYOUT := BSND | TND | PA_ND.
#[global] Instance SAS_LAYOUT_eq_dec : EqDecision SAS_LAYOUT.
Proof. solve_decision. Defined.

Definition PRELOAD_NUM : Z := 2.
Definition SAS_PRELOAD_TASK_CACHE_SIZE : Z := 3.
Definition N_BUFFER_M_BASIC_SIZE : Z := 256.
Definition kvHeadNum : Z := 1.
Definition headDim : Z := 512.
Definition BYTE_BLOCK : Z := 32.

(** ** Data *)

(** The members of [RunInfo] that this kernel sets. *)
Record RunInfo := mkRunInfo {
  loop : Z;
  cmpLoop : Z;
  bIdx : Z;
  s1Idx : Z;
  s2Idx : Z;
  n2IdxReal : Z;
  relativeS2Idx : Z;
  bn2IdxInCurCore : Z;
  curSInnerLoopTimes : Z;
  tensorCmpBOffset : Z;
  tensorAOffset : Z;
  tensorBOffset : Z;
  attenOutOffset : Z;
  actualSingleProcessSInnerSize : Z;
  actualSingleProcessSInnerSizeAlign : Z;
  isFirstSInnerLoop : bool;
  mSize : Z;
  mSizeV : Z;
  mSizeVStart : Z;
  tndIsS2SplitCore : bool;
  tndCoreStartKVSplitPos : Z;
  isBmm2Output : bool;
  isValid : bool;
  actS1Size : Z;
  gS1Idx : Z;
  actMBaseSize : Z;
  isLastS2Loop : bool;
  isOri : bool;
  s2StartPoint : Z;
  cmpS2IdLimit : Z
}.
#[global] Instance RunInfo_eta : Eta RunInfo := fun r =>
  mkRunInfo (loop r) (cmpLoop r) (bIdx r) (s1Idx r) (s2Idx r) (n2IdxReal r) (relativeS2Idx r)
    (bn2IdxInCurCore r) (curSInnerLoopTimes r) (tensorCmpBOffset r) (tensorAOffset r)
    (tensorBOffset r) (attenOutOffset r) (actualSingleProcessSInnerSize r)
    (actualSingleProcessSInnerSizeAlign r) (isFirstSInnerLoop r) (mSize r) (mSizeV r)
    (mSizeVStart r) (tndIsS2SplitCore r) (tndCoreStartKVSplitPos r) (isBmm2Output r) (isValid r)
    (actS1Size r) (gS1Idx r) (actMBaseSize r) (isLastS2Loop r) (isOri r) (s2StartPoint r)
    (cmpS2IdLimit r).

Definition new_RunInfo : RunInfo :=
  mkRunInfo 0 0 0 0 0 0 0 0 0 0 0 0 0 0 0 false 0 0 0 false 0 false false 1 0 0 false true 0 0.

(** [ConstInfo]: what the host sets, and the interval of the core. *)
Record ConstInfo := mkConstInfo {
  batchSize : Z;
  gSize : Z;
  qHeadNum : Z;
  kvSeqSize : Z;
  qSeqSize : Z;
  outputLayout : SAS_LAYOUT;
  isCFA : bool;
  actualLenDimsQ : Z;
  actualLenDimsKV : Z;
  s2Start : Z;
  s2End : Z;
  bN2Start : Z;
  bN2End : Z;
  gS1Start : Z;
  gS1End : Z;
  coreStartKVSplitPos : Z;
  mBaseSize : Z;
  s2BaseSize : Z;
  preLoadNum : Z;
  nBufferMBaseSize : Z;
  mmResUbSize : Z;
  bmm2ResUbSize : Z;
  cmpRatio : Z;
  oriWinRight : Z;
  oriWinLeft : Z;
  returnSoftmaxLse : bool;
  paOriBlockSize : Z;
  paCmpBlockSize : Z;
  oriMaxBlockNumPerBatch : Z;
  cmpMaxBlockNumPerBatch : Z;
  oriKvStride : Z;
  cmpKvStride : Z
}.
#[global] Instance ConstInfo_eta : Eta ConstInfo := fun c =>
  mkConstInfo (batchSize c) (gSize c) (qHeadNum c) (kvSeqSize c) (qSeqSize c) (outputLayout c) (isCFA c)
    (actualLenDimsQ c) (actualLenDimsKV c) (s2Start c) (s2End c) (bN2Start c) (bN2End c)
    (gS1Start c) (gS1End c) (coreStartKVSplitPos c) (mBaseSize c) (s2BaseSize c) (preLoadNum c)
    (nBufferMBaseSize c) (mmResUbSize c) (bmm2ResUbSize c) (cmpRatio c) (oriWinRight c)
    (oriWinLeft c) (returnSoftmaxLse c) (paOriBlockSize c) (paCmpBlockSize c)
    (oriMaxBlockNumPerBatch c) (cmpMaxBlockNumPerBatch c) (oriKvStride c) (cmpKvStride c).

Definition new_ConstInfo : ConstInfo :=
  mkConstInfo 0 0 0 0 1 BSND false 0 0 0 0 0 0 0 0 0 1 1 0 0 0 0 0 0 128 false 0 0 0 0 0 0.

(** The tiling data the host passes: [baseParams] and [cmpParams]. *)
Record TilingData := mkTilingData {
  td_batchSize : Z;
  td_nNumOfQInOneGroup : Z;
  td_kvSeqSize : Z;
  td_qSeqSize : Z;
  td_outputLayout : SAS_LAYOUT;
  td_actualLenDimsQ : Z;
  td_actualLenDimsKV : Z;
  td_s2BaseSize : Z;
  td_mmResUbSize : Z;
  td_bmm2ResUbSize : Z;
  td_oriWinRight : Z;
  td_oriWinLeft : Z;
  td_returnSoftmaxLse : bool;
  td_oriBlockSize : Z;
  td_cmpBlockSize : Z;
  td_oriMaxBlockNumPerBatch : Z;
  td_oriKvStride : Z;
  td_cmpRatio : Z;
  td_cmpMaxBlockNumPerBatch : Z;
  td_cmpKvStride : Z
}.

(** A row of the M axis is one query token: [mBaseSize] is the group size.
    [cfa] is [TEMPLATE_MODE == CFA_TEMPLATE].  The tiling data has block sizes,
    strides and window as [int64_t], the members are narrower or unsigned. *)
Definition InitTilingData (cfa : bool) (td : TilingData) (c : ConstInfo) : ConstInfo :=
  let c := c
    <| mmResUbSize := td_mmResUbSize td |> <| bmm2ResUbSize := td_bmm2ResUbSize td |>
    <| batchSize := td_batchSize td |> <| gSize := td_nNumOfQInOneGroup td |>
    <| qHeadNum := td_nNumOfQInOneGroup td |> <| kvSeqSize := td_kvSeqSize td |>
    <| qSeqSize := td_qSeqSize td |> <| oriMaxBlockNumPerBatch := td_oriMaxBlockNumPerBatch td |>
    <| paOriBlockSize := u64 (td_oriBlockSize td) |> <| paCmpBlockSize := u64 (td_cmpBlockSize td) |>
    <| outputLayout := td_outputLayout td |> <| oriKvStride := u32 (td_oriKvStride td) |>
    <| oriWinLeft := i32 (td_oriWinLeft td) |> <| oriWinRight := i32 (td_oriWinRight td) |>
    <| returnSoftmaxLse := td_returnSoftmaxLse td |>
    <| actualLenDimsQ := td_actualLenDimsQ td |> <| actualLenDimsKV := td_actualLenDimsKV td |>
    <| mBaseSize := u32 (td_nNumOfQInOneGroup td) |> <| s2BaseSize := td_s2BaseSize td |>
    <| preLoadNum := PRELOAD_NUM |> <| nBufferMBaseSize := N_BUFFER_M_BASIC_SIZE |>
    <| isCFA := cfa |> in
  if cfa then
    c <| cmpRatio := td_cmpRatio td |> <| cmpKvStride := u32 (td_cmpKvStride td) |>
      <| cmpMaxBlockNumPerBatch := td_cmpMaxBlockNumPerBatch td |>
  else c.

(** [SwaTempLoopInfo]. *)
Record TempLoopInfo := mkTempLoopInfo {
  t_bn2IdxInCurCore : Z;
  t_bIdx : Z;
  t_n2Idx : Z;
  s2LoopTimes : Z;
  t_actS1Size : Z;
  actOriS2Size : Z;
  actCmpS2Size : Z;
  curActSeqLenIsZero : bool;
  t_tndCoreStartKVSplitPos : Z;
  t_tndIsS2SplitCore : bool;
  t_gS1Idx : Z;
  s1StartIdx : Z;
  s1EndIdx : Z;
  mBasicSizeTail : Z;
  cmpLoopTimes : Z;
  oriLoopTimes : Z;
  oriMaskRight : Z;
  oriMaskLeft : Z;
  cmpMaskRight : Z;
  actualSeqQPrefixSum : Z;
  actualSeqKVPrefixSum : Z;
  actualSeqCmpKVPrefixSum : Z
}.
#[global] Instance TempLoopInfo_eta : Eta TempLoopInfo := fun t =>
  mkTempLoopInfo (t_bn2IdxInCurCore t) (t_bIdx t) (t_n2Idx t) (s2LoopTimes t) (t_actS1Size t)
    (actOriS2Size t) (actCmpS2Size t) (curActSeqLenIsZero t) (t_tndCoreStartKVSplitPos t)
    (t_tndIsS2SplitCore t) (t_gS1Idx t) (s1StartIdx t) (s1EndIdx t) (mBasicSizeTail t)
    (cmpLoopTimes t) (oriLoopTimes t) (oriMaskRight t) (oriMaskLeft t) (cmpMaskRight t)
    (actualSeqQPrefixSum t) (actualSeqKVPrefixSum t) (actualSeqCmpKVPrefixSum t).

Definition new_TempLoopInfo : TempLoopInfo :=
  mkTempLoopInfo 0 0 0 0 0 0 0 false 0 false 0 0 0 0 0 0 0 0 0 0 0 0.

(** Calls into the cube block, the vector block and the output initialisation:
    a task with the rows [start .. start + deal) of a buffer, a task, a part of
    the output or of the log-sum-exp output. *)
Inductive Event :=
  | EMm1 (info : RunInfo) (start deal : Z)
  | EMm2 (info : RunInfo) (start deal : Z)
  | EVec1 (info : RunInfo)
  | EVec2 (info : RunInfo)
  | EZero (offset size : Z)
  | EZeroLse (offset size : Z).

(** The template arguments and what a core keeps constant: its kind (cube or
    vector), its index, the tensors it reads. *)
Record Core := mkCore {
  LAYOUT_T : SAS_LAYOUT;
  KV_LAYOUT_T : SAS_LAYOUT;
  isAIV : bool;
  tmpBlockIdx : Z;
  aiCoreIdx : Z;
  metadataGm : list Z;
  actualSeqLengthsQGm : list Z;
  actualSeqLengthsKVGm : list Z;
  actualSeqLengthsCmpKVGm : list Z
}.

(** The members a run changes, the events so far, and the locals of
    ProcessBalance. *)
Record State := mkState {
  constInfo : ConstInfo;
  tempLoopInfo : TempLoopInfo;
  tensorACoreOffset : Z;
  tensorBCoreOffset : Z;
  tensorCmpBCoreOffset : Z;
  extraInfo : list RunInfo;
  gloop : Z;
  globalLoopStart : bool;
  trace : list Event
}.
#[global] Instance State_eta : Eta State := fun s =>
  mkState (constInfo s) (tempLoopInfo s) (tensorACoreOffset s) (tensorBCoreOffset s)
    (tensorCmpBCoreOffset s) (extraInfo s) (gloop s) (globalLoopStart s) (trace s).

Definition new_State (c : ConstInfo) : State :=
  mkState c new_TempLoopInfo 0 0 0 [new_RunInfo; new_RunInfo; new_RunInfo] 0 true [].

Definition emit (es : list Event) (s : State) : State := s <| trace := trace s ++ es |>.

(** ** Helpers at the widths of their uses *)

(** [CeilDiv] of 32-bit and of 64-bit operands. *)
Definition CeilDiv (num rnd : Z) : Z := if rnd =? 0 then 0 else u32 (num + rnd - 1) / rnd.
Definition CeilDiv64 (num rnd : Z) : Z := if rnd =? 0 then 0 else u64 (num + rnd - 1) / rnd.

(** [Min] of a [uint64_t] and an [int32_t]: the comparison is unsigned. *)
Definition Min64 (a b : Z) : Z := if a >? u64 b then u64 b else a.

Definition SASAlign (num rnd : Z) : Z :=
  if rnd =? 0 then 0 else u32 (u64 (u64 (num + rnd - 1) / rnd * rnd)).

Section Kernel.
Context (core : Core).
Implicit Types (s : State) (t : TempLoopInfo) (c : ConstInfo).

(** ** Reading the interval of the core *)

Definition meta_word (metaIdx : Z) : res Z :=
  vget (metadataGm core) (GetAttrAbsIndex Sas.FA_METADATA_SIZE (aiCoreIdx core) metaIdx false).

Definition InitCalcParamsEach c : res ConstInfo :=
  c ← (if negb (aiCoreIdx core =? 0) then
         b ← meta_word FA_BN2_START_INDEX;
         m ← meta_word FA_M_START_INDEX;
         z ← meta_word FA_S2_START_INDEX;
         Ok (c <| bN2Start := b |> <| gS1Start := m |> <| s2Start := z |>)
       else Ok c);
  b ← meta_word FA_BN2_END_INDEX;
  m ← meta_word FA_M_END_INDEX;
  z ← meta_word FA_S2_END_INDEX;
  Ok (c <| bN2End := b |> <| gS1End := m |> <| s2End := z |>).

(** ** Sequence lengths *)

Definition GetActualSeqLenQ c (b : Z) t : res (Z * TempLoopInfo) :=
  if decide (LAYOUT_T core = TND) then
    p ← vget (actualSeqLengthsQGm core) b;
    n ← vget (actualSeqLengthsQGm core) (u32 (b + 1));
    Ok (i32 (n - p), t <| actualSeqQPrefixSum := u64 p |>)
  else
    let t := t <| actualSeqQPrefixSum := u64 (b * qSeqSize c) |> in
    if actualLenDimsQ c =? 0 then Ok (i32 (qSeqSize c), t)
    else n ← vget (actualSeqLengthsQGm core) b; Ok (n, t).

Definition GetActualSeqLenKV c (b : Z) t : res (Z * TempLoopInfo) :=
  match KV_LAYOUT_T core with
  | PA_ND =>
      let t := t <| actualSeqKVPrefixSum := u64 (b * kvSeqSize c) |> in
      if actualLenDimsKV c =? 0 then Ok (i32 (kvSeqSize c), t)
      else n ← vget (actualSeqLengthsKVGm core) b; Ok (n, t)
  | BSND => Ok (i32 (kvSeqSize c), t)
  | TND =>
      p ← vget (actualSeqLengthsKVGm core) b;
      n ← vget (actualSeqLengthsKVGm core) (u32 (b + 1));
      t ← (if isCFA c then
             v ← vget (actualSeqLengthsCmpKVGm core) b;
             Ok (t <| actualSeqCmpKVPrefixSum := u64 v |>)
           else Ok t);
      Ok (i32 (n - p), t <| actualSeqKVPrefixSum := u64 p |>)
  end.

(** [(cmpMaskRight + s1EndIdx + 1) / cmpRatio], unsigned 32-bit over signed
    64-bit. *)
Definition cmp_limit c t : res Z := sdiv (u32 (u32 (cmpMaskRight t + s1EndIdx t) + 1)) (cmpRatio c).

Definition GetSparseActualSeqLen c t : res TempLoopInfo :=
  if i32 (s1EndIdx t) <? i32 (- i32 (actOriS2Size t - t_actS1Size t)) then
    Ok (t <| actOriS2Size := 0 |> <| actCmpS2Size := 0 |>)
  else if isCFA c then v ← cmp_limit c t; Ok (t <| actCmpS2Size := i32 v |>)
  else Ok t.

Definition UpdateInnerLoopCond c t : res TempLoopInfo :=
  if ((actCmpS2Size t =? 0) && (actOriS2Size t =? 0)) || (t_actS1Size t =? 0) then
    Ok (t <| curActSeqLenIsZero := true |>)
  else
    tail ← umod (u64 (t_actS1Size t * gSize c)) (mBaseSize c);
    Ok (t <| curActSeqLenIsZero := false |>
          <| mBasicSizeTail := if tail =? 0 then mBaseSize c else tail |>).

Definition GetBN2Idx (bN2Idx : Z) : Z * Z := (bN2Idx / kvHeadNum, bN2Idx mod kvHeadNum).

(** ** Output of a row without keys *)

Definition zero_row c (out lse : Z) : list Event :=
  EZero (u64 out) (u64 (gSize c * headDim)) ::
  (if returnSoftmaxLse c then [EZeroLse (u64 lse) (gSize c)] else []).

(** [tBase + s1Idx] is a 32-bit sum, the products are 64-bit. *)
Definition InitAllZeroOutput c t (b s1 n2 : Z) : res (list Event) :=
  match outputLayout c with
  | TND =>
      if t_actS1Size t =? 0 then Ok []
      else
        tBase ← vget (actualSeqLengthsQGm core) b;
        let row := u32 (u32 tBase + s1) in
        Ok (zero_row c (row * kvHeadNum * gSize c * headDim + n2 * gSize c * headDim)
              (row * gSize c + n2 * qSeqSize c * gSize c))
  | BSND =>
      Ok (zero_row c (b * qSeqSize c * kvHeadNum * gSize c * headDim +
                      s1 * kvHeadNum * gSize c * headDim + n2 * gSize c * headDim)
            (b * qSeqSize c * kvHeadNum * gSize c + n2 * qSeqSize c * gSize c + s1 * gSize c))
  | PA_ND => Ok []
  end.

(** ** The parameters of a task *)

(** Rows of the task on a vector core: the two vector cores of an AI core take
    one half each, in units of 16. *)
Definition vector_rows (info : RunInfo) : RunInfo :=
  if isAIV core then
    let m := actMBaseSize info in
    let v := if m <=? 16 then m else u32 ((CeilDiv m 16 + 1) / 2 * 16) in
    if tmpBlockIdx core mod 2 =? 1
    then info <| mSize := m |> <| mSizeVStart := v |> <| mSizeV := u32 (m - v) |>
    else info <| mSize := m |> <| mSizeV := v |> <| mSizeVStart := 0 |>
  else info.

(** Keys of the task: a block of the window, or of the compressed keys. *)
Definition task_keys c t (s2LoopIdx : Z) (info : RunInfo) : res RunInfo :=
  if s2LoopIdx <? oriLoopTimes t then
    let s2Offset := u32 (s2Idx info * s2BaseSize c) in
    Ok (info <| isOri := true |> <| relativeS2Idx := 0 |>
             <| actualSingleProcessSInnerSize :=
                  if u32 (s2LoopIdx + 1) =? oriLoopTimes t
                  then u32 (oriMaskRight t - oriMaskLeft t + 1 - s2Offset) else s2BaseSize c |>
             <| s2StartPoint := u64 (oriMaskLeft t) |> <| cmpS2IdLimit := 0 |>)
  else if isCFA c then
    let rel := u32 (s2Idx info - oriLoopTimes t) in
    let s2Offset := u32 (rel * s2BaseSize c) in
    limit ← cmp_limit c t;
    Ok (info <| isOri := false |> <| relativeS2Idx := rel |>
             <| actualSingleProcessSInnerSize :=
                  if u32 (s2LoopIdx + 1) =? s2LoopTimes t
                  then u32 (actCmpS2Size t - s2Offset) else s2BaseSize c |>
             <| s2StartPoint := 0 |> <| cmpS2IdLimit := limit |>)
  else Ok info.

Definition CalcParams (loopIdx cmpLoopIdx s2StartIdx s2LoopIdx : Z) (info : RunInfo) s
    : res (RunInfo * State) :=
  let c := constInfo s in
  let t := tempLoopInfo s in
  s1 ← udiv (t_gS1Idx t) (gSize c);
  let first := s2LoopIdx =? s2StartIdx in
  let t := if first then t <| t_bn2IdxInCurCore := u32 (t_bn2IdxInCurCore t + 1) |> else t in
  let s := s <| tempLoopInfo := t |> in
  let info := info
    <| isValid := s2LoopIdx <? s2LoopTimes t |> <| loop := loopIdx |> <| cmpLoop := cmpLoopIdx |>
    <| bIdx := t_bIdx t |> <| gS1Idx := t_gS1Idx t |> <| s1Idx := u32 s1 |> <| s2Idx := s2LoopIdx |>
    <| n2IdxReal := t_n2Idx t |> <| curSInnerLoopTimes := s2LoopTimes t |>
    <| tndIsS2SplitCore := t_tndIsS2SplitCore t |>
    <| tndCoreStartKVSplitPos := t_tndCoreStartKVSplitPos t |> <| isBmm2Output := false |>
    <| actS1Size := u64 (t_actS1Size t) |> <| actMBaseSize := u32 (mBasicSizeTail t) |> in
  let info := vector_rows info in
  let info := info
    <| isFirstSInnerLoop := first |> <| isLastS2Loop := s2LoopIdx =? u32 (s2LoopTimes t - 1) |>
    <| bn2IdxInCurCore := u32 (t_bn2IdxInCurCore t - 1) |> in
  let s := if first then
             s <| tensorACoreOffset :=
                    u64 (actualSeqQPrefixSum t * qHeadNum c * headDim + gS1Idx info * headDim) |>
               <| tensorBCoreOffset := u64 (actualSeqKVPrefixSum t * kvHeadNum * headDim) |>
               <| tensorCmpBCoreOffset := u64 (actualSeqCmpKVPrefixSum t * kvHeadNum * headDim) |>
           else s in
  let info := info
    <| tensorAOffset := tensorACoreOffset s |> <| tensorBOffset := tensorBCoreOffset s |>
    <| tensorCmpBOffset := tensorCmpBCoreOffset s |> <| attenOutOffset := tensorACoreOffset s |> in
  info ← task_keys c t s2LoopIdx info;
  Ok (info <| actualSingleProcessSInnerSizeAlign :=
                SASAlign (actualSingleProcessSInnerSize info) BYTE_BLOCK |>, s).

(** ** Stages of a task *)

(** The rows of a task in buffers of [base] rows, as [(start, rows)]. *)
Definition pieces (base loops m : Z) : list (Z * Z) :=
  (fun i => (u32 (i * base),
             if negb (u32 (i + 1) =? loops) then base else u32 (m - u32 (u32 (loops - 1) * base))))
    <$> seqZ 0 loops.

Definition ComputeMm1 c (info : RunInfo) : list Event :=
  (fun p => EMm1 info p.1 p.2) <$>
    pieces (nBufferMBaseSize c) (CeilDiv (actMBaseSize info) (nBufferMBaseSize c)) (actMBaseSize info).

Definition ComputeMm2 c (info : RunInfo) : res (list Event) :=
  loops ← udiv (u32 (actMBaseSize info + nBufferMBaseSize c - 1)) (nBufferMBaseSize c);
  Ok ((fun p => EMm2 info p.1 p.2) <$> pieces (nBufferMBaseSize c) loops (actMBaseSize info)).

(** One round: stage 1 of the new task, stage 2 of the task of the round
    before, stage 3 of the task before that one. *)
Definition PreloadPipeline (loopIdx cmpLoopIdx s2StartIdx s2LoopIdx : Z) s : res State :=
  let i0 := loopIdx mod SAS_PRELOAD_TASK_CACHE_SIZE in
  let i2 := u32 (loopIdx + 2) mod SAS_PRELOAD_TASK_CACHE_SIZE in
  let i1 := u32 (loopIdx + 1) mod SAS_PRELOAD_TASK_CACHE_SIZE in
  info ← vget (extraInfo s) i0;
  '(info, s) ← CalcParams loopIdx cmpLoopIdx s2StartIdx (u32 s2LoopIdx) info s;
  ring ← vset (extraInfo s) i0 info;
  let s := s <| extraInfo := ring |> in
  let s := if isValid info && negb (isAIV core) then emit (ComputeMm1 (constInfo s) info) s else s in
  info2 ← vget (extraInfo s) i2;
  s ← (if isValid info2 then
         if isAIV core then Ok (emit [EVec1 info2] s)
         else es ← ComputeMm2 (constInfo s) info2; Ok (emit es s)
       else Ok s);
  info1 ← vget (extraInfo s) i1;
  if isValid info1 then
    let s := if isAIV core then emit [EVec2 info1] s else s in
    ring ← vset (extraInfo s) i1 (info1 <| isValid := false |>);
    Ok (s <| extraInfo := ring |>)
  else Ok s.

(** ** The loops *)

(** [for (i = lo; i < hi; i++)] *)
Definition for_span (lo hi : Z) (body : Z -> State -> res State) s : res State :=
  for_loop (Z.to_nat (hi - lo)) lo body s.

(** The tokens of a row of the M axis: everything up to UpdateInnerLoopCond. *)
Definition row_setup (gS1LoopIdx : Z) s : res State :=
  let c := constInfo s in
  '(n, t) ← GetActualSeqLenKV c (t_bIdx (tempLoopInfo s)) (tempLoopInfo s);
  let t := t <| actOriS2Size := n |> <| t_gS1Idx := u32 (gS1LoopIdx * mBaseSize c) |> in
  s1 ← udiv (t_gS1Idx t) (gSize c);
  m ← udiv (mBaseSize c) (gSize c);
  let t := t <| s1StartIdx := u32 s1 |> in
  let t := t <| s1EndIdx := u32 (Min64 (u64 (s1StartIdx t + m - 1)) (i32 (t_actS1Size t - 1))) |> in
  let base := i32 (i32 (actOriS2Size t - t_actS1Size t) + i32 (s1EndIdx t)) in
  let t := t <| oriMaskRight := i32 (base + oriWinRight c) |>
             <| oriMaskLeft := Z.max (i32 (base - oriWinLeft c)) 0 |> in
  let t := if isCFA c then t <| cmpMaskRight := i32 (actOriS2Size t - t_actS1Size t) |> else t in
  t ← GetSparseActualSeqLen c t;
  t ← UpdateInnerLoopCond c t;
  Ok (s <| tempLoopInfo := t |>).

(** The rounds of a row; the last row of the core has [PRELOAD_NUM] more. *)
Definition row_rounds (isEnd : bool) s : res State :=
  let c := constInfo s in
  let t := tempLoopInfo s in
  let dead := curActSeqLenIsZero t in
  let oriSplitNum := if dead then 0
                     else CeilDiv (i32 (oriMaskRight t - oriMaskLeft t + 1)) (s2BaseSize c) in
  let cmpSplitNum := if dead then 0 else CeilDiv (actCmpS2Size t) (s2BaseSize c) in
  let s2SplitNum := if isCFA c then u32 (oriSplitNum + cmpSplitNum) else oriSplitNum in
  let t := if isCFA c && negb dead then t <| cmpLoopTimes := cmpSplitNum |> else t in
  let s2LoopEnd := if isEnd && negb (s2End c =? 0) then s2End c else s2SplitNum in
  let t := t <| oriLoopTimes := oriSplitNum |> <| s2LoopTimes := s2LoopEnd |>
             <| t_tndIsS2SplitCore := negb ((s2Start c =? 0) && (s2LoopEnd =? s2SplitNum)) |>
             <| t_tndCoreStartKVSplitPos := if globalLoopStart s then coreStartKVSplitPos c else 0 |> in
  let extraLoop := if isEnd then PRELOAD_NUM else 0 in
  s ← for_span (s2Start c) (u32 (s2LoopEnd + extraLoop))
        (fun s2LoopIdx s =>
           s ← PreloadPipeline (gloop s) 0 (s2Start (constInfo s)) s2LoopIdx s;
           Ok (s <| gloop := u32 (gloop s + 1) |>))
        (s <| tempLoopInfo := t |>);
  Ok (s <| globalLoopStart := false |> <| constInfo := (constInfo s) <| s2Start := 0 |> |>).

Definition ProcessRow (bN2LoopIdx gS1LoopEnd gS1LoopIdx : Z) s : res State :=
  s ← row_setup gS1LoopIdx s;
  let c := constInfo s in
  let t := tempLoopInfo s in
  let isEnd := (u32 (bN2LoopIdx + 1) =? bN2End c) && (u32 (gS1LoopIdx + 1) =? gS1LoopEnd) in
  s ← (if curActSeqLenIsZero t && isAIV core then
         es ← InitAllZeroOutput c t (t_bIdx t) (s1StartIdx t) (t_n2Idx t); Ok (emit es s)
       else Ok s);
  if curActSeqLenIsZero t && negb isEnd then Ok s else row_rounds isEnd s.

Definition ProcessBatch (bN2LoopIdx : Z) s : res State :=
  let c := constInfo s in
  let '(b, n2) := GetBN2Idx bN2LoopIdx in
  let t := (tempLoopInfo s) <| t_bIdx := b |> <| t_n2Idx := n2 |> in
  '(n, t) ← GetActualSeqLenQ c b t;
  let t := t <| t_actS1Size := n |> in
  let isS1ZeroAndLastBatch := (n =? 0) &&
    (bool_decide (outputLayout c = BSND) || (u32 (bN2LoopIdx + 1) =? bN2End c)) in
  let gS1SplitNum := u32 (CeilDiv64 (u64 (n * gSize c)) (mBaseSize c)) in
  let gS1LoopEnd := if (bN2LoopIdx =? u32 (bN2End c - 1)) && negb (gS1End c =? 0)
                    then gS1End c else gS1SplitNum in
  let gS1LoopEnd := if isS1ZeroAndLastBatch then u32 (gS1LoopEnd + 1) else gS1LoopEnd in
  s ← for_span (gS1Start c) gS1LoopEnd (ProcessRow bN2LoopIdx gS1LoopEnd) (s <| tempLoopInfo := t |>);
  Ok (s <| constInfo := (constInfo s) <| gS1Start := 0 |> |>).

(** The end of the interval is made exclusive in the batch index. *)
Definition ProcessBalance s : res State :=
  let c := constInfo s in
  let more := if bN2Start c =? bN2End c
              then negb (gS1Start c =? gS1End c) || negb (s2Start c =? s2End c)
              else negb (gS1End c =? 0) || negb (s2End c =? 0) in
  let c := if more then c <| bN2End := u32 (bN2End c + 1) |> else c in
  for_span (bN2Start c) (bN2End c) ProcessBatch
    (s <| constInfo := c |> <| extraInfo := [new_RunInfo; new_RunInfo; new_RunInfo] |>
       <| gloop := 0 |> <| globalLoopStart := true |>).

Definition Process s : res State :=
  hasLoad ← meta_word FA_CORE_ENABLE_INDEX;
  if hasLoad =? 0 then Ok s else ProcessBalance s.
End Kernel.

(** ** Init *)

(** The tensors of the launch. *)
Record Launch := mkLaunch {
  l_layout : SAS_LAYOUT;
  l_kvLayout : SAS_LAYOUT;
  l_cfa : bool;
  l_blockNum : Z;
  cuSeqlensQ : list Z;
  cuSeqlensKV : list Z;
  cuSeqlensCmpKV : list Z;
  seqUsedQ : list Z;
  seqUsedKV : list Z;
  l_metadata : list Z;
  l_tiling : TilingData
}.

(** [InitActualSeqLen]: a tensor without entries is not attached. *)
Definition InitActualSeqLen (dims : Z) (t : list Z) : list Z := if dims =? 0 then [] else t.

Definition dbWorkspaceRatio : Z := PRELOAD_NUM.
Definition sizeof_T : Z := 4.
Definition sizeof_KV_T : Z := 2.

(** Byte offsets in the workspace of the four buffers of an AI core: results
    of multiplication 1, of vector stage 1, of multiplication 2 and of vector
    stage 2.  The number of blocks is 64-bit, the core index is 32-bit. *)
Definition workspace_offsets (blockNum aiCore : Z) (c : ConstInfo) : list Z :=
  let mine := fun size => u32 (u32 (aiCore * dbWorkspaceRatio) * size) in
  let all := fun size => blockNum * dbWorkspaceRatio * size in
  let o1 := u64 (all (mmResUbSize c) * sizeof_T) in
  let o2 := u64 (o1 + all (mmResUbSize c) * sizeof_KV_T) in
  let o3 := u64 (o2 + all (bmm2ResUbSize c) * sizeof_T) in
  [u64 (mine (mmResUbSize c) * sizeof_T); u64 (o1 + mine (mmResUbSize c) * sizeof_KV_T);
   u64 (o2 + mine (bmm2ResUbSize c) * sizeof_T); u64 (o3 + mine (bmm2ResUbSize c) * sizeof_T)].

(** Core [blockIdx] of the launch: the layouts say which tensors hold the
    sequence lengths, an AI core has two vector cores. *)
Definition core_of (l : Launch) (aiv : bool) (blockIdx : Z) : Core :=
  let c := InitTilingData (l_cfa l) (l_tiling l) new_ConstInfo in
  let q := if decide (l_layout l = TND) then cuSeqlensQ l else seqUsedQ l in
  let kv := if decide (l_kvLayout l = TND) then cuSeqlensKV l else seqUsedKV l in
  let cmp := if decide (l_kvLayout l = TND) then if isCFA c then cuSeqlensCmpKV l else [] else [] in
  mkCore (l_layout l) (l_kvLayout l) aiv blockIdx (if aiv then blockIdx / 2 else blockIdx)
    (l_metadata l) (InitActualSeqLen (actualLenDimsQ c) q) (InitActualSeqLen (actualLenDimsKV c) kv)
    (InitActualSeqLen (actualLenDimsKV c) cmp).

Definition Init (l : Launch) (aiv : bool) (blockIdx : Z) : res (Core * State) :=
  let core := core_of l aiv blockIdx in
  c ← InitCalcParamsEach core (InitTilingData (l_cfa l) (l_tiling l) new_ConstInfo);
  Ok (core, new_State c).
End Swa.
