(* ===== verification/SwaProofs.v ===== *)
(** * The sliding-window kernel issues exactly the tasks of its interval

    The ring of three slots is a two-place shift register; the rounds of a row
    are the blocks of its window and of its compressed keys; the rounds of the
    rows of a batch follow each other. *)

From S2P Require Import Prelude SplitTypes RowSpec Metadata SasMeta SwaKernel.

Module SwaProofs.
Import Swa.

(** ** The pipeline, without the ring *)

Section Pipeline.
Context (core : Core) (c : ConstInfo).

Definition mm2_events (info : RunInfo) : list Event :=
  (fun p => EMm2 info p.1 p.2) <$>
    pieces (nBufferMBaseSize c) (CeilDiv (actMBaseSize info) (nBufferMBaseSize c)) (actMBaseSize info).

(** The three stages of a task on a cube core and on a vector core. *)
Definition stage1 (o : option RunInfo) : list Event :=
  match o with Some i => if isAIV core then [] else ComputeMm1 c i | None => [] end.
Definition stage2 (o : option RunInfo) : list Event :=
  match o with Some i => if isAIV core then [EVec1 i] else mm2_events i | None => [] end.
Definition stage3 (o : option RunInfo) : list Event :=
  match o with Some i => if isAIV core then [EVec2 i] else [] | None => [] end.

(** Rounds after a round with task [p1] and one with task [p2] before it. *)
Fixpoint rounds (p1 p2 : option RunInfo) (l : list (option RunInfo)) : list Event :=
  match l with
  | [] => []
  | o :: l => stage1 o ++ stage2 p1 ++ stage3 p2 ++ rounds o p1 l
  end.

(** The pipeline of a list of tasks: a round per task and two to drain it. *)
Definition pipeline (l : list RunInfo) : list Event :=
  rounds None None ((Some <$> l) ++ [None; None]).

(** The same events by history, newest round first. *)
Definition top (h : list (option RunInfo)) : option RunInfo := default None (head h).
Fixpoint events (h : list (option RunInfo)) : list Event :=
  match h with
  | [] => []
  | o :: h => events h ++ stage1 o ++ stage2 (top h) ++ stage3 (top (tail h))
  end.

Lemma events_rounds h l :
  events (rev l ++ h) = events h ++ rounds (top h) (top (tail h)) l.
Proof.
  revert h. induction l as [|o l IH]; intros h; simpl.
  - by rewrite app_nil_r.
  - rewrite <- app_assoc. simpl. rewrite IH. simpl. by rewrite <- !app_assoc.
Qed.

Lemma events_pipeline l : events (None :: None :: rev (Some <$> l)) = pipeline l.
Proof.
  unfold pipeline. pose proof (events_rounds [] ((Some <$> l) ++ [None; None])) as E.
  rewrite rev_app_distr, app_nil_r in E. exact E.
Qed.
End Pipeline.

(** ** The ring *)

Definition held (x : RunInfo) : option RunInfo := if isValid x then Some x else None.

(** The slots of the last two rounds. *)
Record Ring (s : State) (p1 p2 : option RunInfo) : Prop := {
  rg_len : length (extraInfo s) = 3%nat;
  rg_p1 : exists x, extraInfo s !! Z.to_nat ((gloop s + 2) mod 3) = Some x /\ held x = p1;
  rg_p2 : exists x, extraInfo s !! Z.to_nat ((gloop s + 1) mod 3) = Some x /\ held x = p2
}.

Lemma mod3_cases g : 0 <= g ->
  (g mod 3 = 0 /\ (g + 1) mod 3 = 1 /\ (g + 2) mod 3 = 2) \/
  (g mod 3 = 1 /\ (g + 1) mod 3 = 2 /\ (g + 2) mod 3 = 0) \/
  (g mod 3 = 2 /\ (g + 1) mod 3 = 0 /\ (g + 2) mod 3 = 1).
Proof. intros. Z.div_mod_to_equations. lia. Qed.

Lemma vget_lookup {A} (l : list A) i x : 0 <= i -> l !! Z.to_nat i = Some x -> vget l i = Ok x.
Proof. intros Hi E. unfold vget. rewrite (proj2 (Z.ltb_ge i 0)) by lia. by rewrite E. Qed.

(** What CalcParams leaves alone. *)
Record framed (s s' : State) : Prop := {
  fr_const : constInfo s' = constInfo s;
  fr_ring : extraInfo s' = extraInfo s;
  fr_gloop : gloop s' = gloop s;
  fr_start : globalLoopStart s' = globalLoopStart s;
  fr_trace : trace s' = trace s;
  fr_temp : exists v, tempLoopInfo s' = (tempLoopInfo s) <| t_bn2IdxInCurCore := v |>
}.

Lemma ComputeMm2_ok c info :
  nBufferMBaseSize c <> 0 -> ComputeMm2 c info = Ok (mm2_events c info).
Proof.
  intros H. unfold ComputeMm2, mm2_events, CeilDiv. rewrite udiv_ok by done.
  by rewrite (proj2 (Z.eqb_neq _ 0)).
Qed.

Lemma emit_nil s : emit [] s = s.
Proof. destruct s. unfold emit. cbn. by rewrite app_nil_r. Qed.

Lemma emit_emit a b s : emit b (emit a s) = emit (a ++ b) s.
Proof. destruct s. unfold emit. cbn. by rewrite app_assoc. Qed.

(** A round of the ring is a round of the shift register. *)
Lemma PreloadPipeline_returns core s z j p1 p2 (Q : RunInfo -> State -> Prop) :
  Ring s p1 p2 -> 0 <= gloop s < 2 ^ 32 - 2 -> nBufferMBaseSize (constInfo s) <> 0 ->
  (forall x, returns (CalcParams core (gloop s) 0 z (u32 j) x s)
     (fun '(info, s') => framed s s' /\ Q info s')) ->
  returns (PreloadPipeline core (gloop s) 0 z j s) (fun s2 => exists info s' ring,
    Q info s' /\ framed s s' /\
    s2 = emit (stage1 core (constInfo s) (held info) ++ stage2 core (constInfo s) p1 ++ stage3 core p2)
           s' <| extraInfo := ring |> /\
    Ring (s2 <| gloop := gloop s + 1 |>) (held info) p1).
Proof.
  intros [HL [x2 [E2 H2]] [x1 [E1 H1]]] Hg Hn Hc. unfold PreloadPipeline, SAS_PRELOAD_TASK_CACHE_SIZE.
  rewrite !(u32_id (gloop s + _)) by lia.
  pose proof (Z.mod_pos_bound (gloop s) 3 ltac:(lia)). pose proof (Z.mod_pos_bound (gloop s + 1) 3 ltac:(lia)).
  pose proof (Z.mod_pos_bound (gloop s + 2) 3 ltac:(lia)). 
  assert (Hd : gloop s mod 3 <> (gloop s + 1) mod 3 /\ gloop s mod 3 <> (gloop s + 2) mod 3 /\
               (gloop s + 1) mod 3 <> (gloop s + 2) mod 3)
    by (pose proof (mod3_cases (gloop s)); lia).
  destruct (lookup_lt_is_Some_2 (extraInfo s) (Z.to_nat (gloop s mod 3))) as [x0 E0]; [lia|].
  rewrite (vget_lookup _ (gloop s mod 3) x0 ltac:(lia) E0). cbn [mbind res_bind].
  eapply returns_bind_mono; [apply Hc|]. intros [info s'] [HF HQ].
  destruct HF as [F1 F2 F3 F4 F5 F6]. rewrite F2, vset_ok by lia. cbn [mbind res_bind].
  set (ring := <[Z.to_nat (gloop s mod 3) := info]> (extraInfo s)).
  assert (R2 : ring !! Z.to_nat ((gloop s + 2) mod 3) = Some x2)
    by (unfold ring; rewrite list_lookup_insert_ne by lia; done).
  assert (R1 : ring !! Z.to_nat ((gloop s + 1) mod 3) = Some x1)
    by (unfold ring; rewrite list_lookup_insert_ne by lia; done).
  assert (R0 : ring !! Z.to_nat (gloop s mod 3) = Some info)
    by (unfold ring; rewrite list_lookup_insert_eq by lia; done).
  assert (RL : length ring = 3%nat) by (unfold ring; by rewrite length_insert).
  set (sA := if isValid info && negb (isAIV core) then _ else _).
  assert (EA : sA = emit (stage1 core (constInfo s) (held info)) (s' <| extraInfo := ring |>)).
  { unfold sA, stage1, held. cbn. rewrite F1. destruct (isValid info), (isAIV core); cbn; by rewrite ?emit_nil. }
  assert (CA : constInfo sA = constInfo s) by (by rewrite EA).
  assert (XA : extraInfo sA = ring) by (by rewrite EA).
  clearbody sA. rewrite (vget_lookup _ ((gloop s + 2) mod 3) x2 ltac:(lia)) by (by rewrite XA).
  cbn [mbind res_bind].
  set (sB := if isValid x2 then _ else _).
  assert (EB : sB = Ok (emit (stage2 core (constInfo s) p1) sA)).
  { unfold sB. subst p1. unfold held.
    destruct (isValid x2); cbn [stage2]; [|by rewrite emit_nil].
    destruct (isAIV core); [done|]. by rewrite ComputeMm2_ok, CA by (by rewrite CA). }
  rewrite EB. cbn [mbind res_bind]. clear sB EB.
  rewrite (vget_lookup _ ((gloop s + 1) mod 3) x1 ltac:(lia)) by (by cbn; rewrite XA).
  cbn [mbind res_bind].
  assert (Rg : forall r t, r !! Z.to_nat (gloop s mod 3) = Some info ->
    r !! Z.to_nat ((gloop s + 2) mod 3) = Some x2 -> length r = 3%nat ->
    Ring ((emit t (s' <| extraInfo := r |>)) <| gloop := gloop s + 1 |>) (held info) p1).
  { intros r t A0 A2 AL. cbn. split; cbn; [done|exists info|exists x2]; (split; [|done]).
    - rewrite <- A0. f_equal. f_equal. Z.div_mod_to_equations; lia.
    - by replace (gloop s + 1 + 1) with (gloop s + 2) by lia. }
  unfold held in H1. destruct (isValid x1); subst p2; cbn [stage3].
  - rewrite vset_ok; [|destruct (isAIV core); cbn; rewrite XA; lia]. cbn [mbind res_bind].
    apply returns_ok.
    set (r := <[_ := _]> _).
    assert (Er : r = <[Z.to_nat ((gloop s + 1) mod 3) := x1 <| isValid := false |>]> ring)
      by (unfold r; destruct (isAIV core); cbn; by rewrite XA).
    exists info, s', r. split; [done|]. split; [done|].
    match goal with |- ?s2 = _ /\ _ =>
      assert (E : s2 = emit (stage1 core (constInfo s) (held info) ++ stage2 core (constInfo s) p1 ++
                             stage3 core (Some x1)) (s' <| extraInfo := r |>)) end.
    { rewrite EA. unfold stage3, emit.
      destruct (isAIV core), s'; cbn; by rewrite <- ?app_assoc, ?app_nil_r. }
    rewrite E. split; [done|].
    apply Rg; rewrite Er; rewrite ?list_lookup_insert_ne, ?length_insert by lia; done.
  - apply returns_ok. exists info, s', ring. rewrite app_nil_r, EA, emit_emit.
    split; [done|]. split; [done|]. split; [done|]. by apply Rg.
Qed.

(** ** The tasks of a core *)

(** A task as the stages use it: rows of a query token, block of the row, keys
    [k_first .. k_first + k_keys) of the window or of the compressed keys. *)
Record Task := mkTask {
  k_batch : Z;
  k_token : Z;
  k_m : Z;
  k_block : Z;
  k_ori : bool;
  k_first : Z;
  k_keys : Z;
  k_is_first : bool;
  k_is_last : bool;
  k_query : Z;
  k_kv : Z;
  k_cmp : Z
}.

(** The first key is computed by the cube block from the index of the block. *)
Definition view (c : ConstInfo) (i : RunInfo) : Task :=
  mkTask (bIdx i) (s1Idx i) (actMBaseSize i) (s2Idx i) (isOri i)
    (if isOri i then s2Idx i * s2BaseSize c + s2StartPoint i else relativeS2Idx i * s2BaseSize c)
    (actualSingleProcessSInnerSize i) (isFirstSInnerLoop i) (isLastS2Loop i)
    (tensorAOffset i) (tensorBOffset i) (tensorCmpBOffset i).

Section Spec.
Context (core : Core) (c : ConstInfo).

(** Sequence lengths and the tokens before a batch. *)
Definition q_len (b : Z) : Z :=
  if decide (LAYOUT_T core = TND)
  then vat (actualSeqLengthsQGm core) (b + 1) - vat (actualSeqLengthsQGm core) b
  else if actualLenDimsQ c =? 0 then qSeqSize c else vat (actualSeqLengthsQGm core) b.
Definition q_before (b : Z) : Z :=
  if decide (LAYOUT_T core = TND) then vat (actualSeqLengthsQGm core) b else b * qSeqSize c.
Definition kv_len (b : Z) : Z :=
  match KV_LAYOUT_T core with
  | PA_ND => if actualLenDimsKV c =? 0 then kvSeqSize c else vat (actualSeqLengthsKVGm core) b
  | BSND => kvSeqSize c
  | TND => vat (actualSeqLengthsKVGm core) (b + 1) - vat (actualSeqLengthsKVGm core) b
  end.
Definition kv_before (b : Z) : Z :=
  match KV_LAYOUT_T core with
  | PA_ND => b * kvSeqSize c
  | BSND => 0
  | TND => vat (actualSeqLengthsKVGm core) b
  end.
Definition cmp_before (b : Z) : Z :=
  match KV_LAYOUT_T core with
  | TND => if isCFA c then vat (actualSeqLengthsCmpKVGm core) b else 0
  | _ => 0
  end.

(** The key aligned with query token [q]: queries end where the keys end. *)
Definition diag (b q : Z) : Z := kv_len b - q_len b + q.
Definition live (b q : Z) : bool := (0 <=? diag b q) && (q <? q_len b).

(** Keys of the window and number of compressed keys. *)
Definition win_first (b q : Z) : Z := Z.max (diag b q - oriWinLeft c) 0.
Definition win_keys (b q : Z) : Z := diag b q - win_first b q + 1.
Definition cmp_keys (b q : Z) : Z := if isCFA c then (diag b q + 1) / cmpRatio c else 0.

Definition win_blocks (b q : Z) : Z := seg_blk (s2BaseSize c) (win_keys b q).
Definition cmp_blocks (b q : Z) : Z := seg_blk (s2BaseSize c) (cmp_keys b q).
Definition row_blocks (b q : Z) : Z := if live b q then win_blocks b q + cmp_blocks b q else 0.

(** Block [j] of [n] blocks over [keys] keys has a full block of keys, or the
    rest. *)
Definition block_keys (n keys j : Z) : Z :=
  if j + 1 =? n then keys - j * s2BaseSize c else s2BaseSize c.

Definition task (b q j : Z) : Task :=
  let ori := j <? win_blocks b q in
  mkTask b q (gSize c) j ori
    (if ori then win_first b q + j * s2BaseSize c else (j - win_blocks b q) * s2BaseSize c)
    (if ori then block_keys (win_blocks b q) (win_keys b q) j
     else block_keys (cmp_blocks b q) (cmp_keys b q) (j - win_blocks b q))
    (j =? 0) (j =? row_blocks b q - 1)
    (u64 (q_before b * qHeadNum c * headDim + q * gSize c * headDim))
    (u64 (kv_before b * headDim)) (u64 (cmp_before b * headDim)).

Definition row_tasks (b q : Z) : list Task := task b q <$> seqZ 0 (row_blocks b q).

(** The output of a row without keys is cleared by the vector cores; an empty
    batch of the padded layout has one row to clear. *)
Definition row_zero (b q : Z) : list Event :=
  if live b q || negb (isAIV core) then []
  else match outputLayout c with
       | TND => if q_len b =? 0 then []
                else let row := vat (actualSeqLengthsQGm core) b + q in
                     zero_row c (row * gSize c * headDim) (row * gSize c)
       | BSND => let row := b * qSeqSize c + q in zero_row c (row * gSize c * headDim) (row * gSize c)
       | PA_ND => []
       end.

(** ** Well-formed inputs *)

Record BatchOk (b : Z) : Prop := {
  bo_q : 0 <= q_len b /\ q_len b * gSize c < 2 ^ 31;
  bo_kv : 0 <= kv_len b /\ kv_len b + s2BaseSize c <= 2 ^ 31;
  bo_q_before : 0 <= q_before b < 2 ^ 64;
  bo_kv_before : 0 <= kv_before b < 2 ^ 64;
  bo_cmp_before : 0 <= cmp_before b < 2 ^ 64;
  bo_q_idx : LAYOUT_T core = TND \/ actualLenDimsQ c <> 0 ->
    b + (if decide (LAYOUT_T core = TND) then 1 else 0) < Z.of_nat (length (actualSeqLengthsQGm core));
  bo_kv_idx : KV_LAYOUT_T core = TND \/ (KV_LAYOUT_T core = PA_ND /\ actualLenDimsKV c <> 0) ->
    b + (if decide (KV_LAYOUT_T core = TND) then 1 else 0) < Z.of_nat (length (actualSeqLengthsKVGm core));
  bo_cmp_idx : KV_LAYOUT_T core = TND -> isCFA c = true ->
    b < Z.of_nat (length (actualSeqLengthsCmpKVGm core));
  bo_zero : outputLayout c = TND -> b < Z.of_nat (length (actualSeqLengthsQGm core)) /\
    0 <= vat (actualSeqLengthsQGm core) b /\ vat (actualSeqLengthsQGm core) b + q_len b < 2 ^ 32
}.

(** [nb] batches; what the host guarantees of the parameters. *)
Record CoreOk (nb : Z) : Prop := {
  co_nb : 0 <= nb < 2 ^ 31;
  co_g : 0 < gSize c < 2 ^ 31;
  co_m : mBaseSize c = gSize c;
  co_sb : 0 < s2BaseSize c < 2 ^ 31;
  co_nbuf : nBufferMBaseSize c <> 0;
  co_right : oriWinRight c = 0;
  co_left : 0 <= oriWinLeft c < 2 ^ 31;
  co_ratio : isCFA c = true -> 1 <= cmpRatio c < 2 ^ 31;
  co_batch : forall b, 0 <= b < nb -> BatchOk b
}.
End Spec.

(** ** Sequence lengths *)

Section Rows.
Context (core : Core) (c : ConstInfo) (nb : Z) (HC : CoreOk core c nb).

(** Prefix sums that no routine sets stay zero. *)
Record quiet (t : TempLoopInfo) : Prop := {
  qu_kv : KV_LAYOUT_T core = BSND -> actualSeqKVPrefixSum t = 0;
  qu_cmp : KV_LAYOUT_T core <> TND \/ isCFA c = false -> actualSeqCmpKVPrefixSum t = 0
}.

Lemma GetActualSeqLenQ_ok b t :
  0 <= b < nb -> GetActualSeqLenQ core c b t =
    Ok (q_len core c b, t <| actualSeqQPrefixSum := q_before core c b |>).
Proof.
  intros Hb. destruct (co_batch _ _ _ HC b Hb) as [[Q1 Q2] _ P _ _ I _ _ _].
  pose proof (co_nb _ _ _ HC). pose proof (co_g _ _ _ HC).
  assert (q_len core c b < 2 ^ 31) by nia.
  unfold GetActualSeqLenQ, q_len, q_before in *. destruct (decide (LAYOUT_T core = TND)) as [E|E].
  - specialize (I (or_introl E)). rewrite u32_id, !vget_ok by lia. cbn [mbind res_bind].
    by rewrite i32_id, u64_id by lia.
  - destruct (Z.eqb_spec (actualLenDimsQ c) 0) as [D|D].
    + by rewrite i32_id, u64_id by lia.
    + specialize (I (or_intror D)). rewrite vget_ok by lia. cbn [mbind res_bind].
      by rewrite u64_id by lia.
Qed.

Lemma GetActualSeqLenKV_ok b t :
  0 <= b < nb -> quiet t -> GetActualSeqLenKV core c b t =
    Ok (kv_len core c b, t <| actualSeqKVPrefixSum := kv_before core c b |>
                           <| actualSeqCmpKVPrefixSum := cmp_before core c b |>).
Proof.
  intros Hb [K1 K2]. destruct (co_batch _ _ _ HC b Hb) as [_ [Q1 Q2] _ P1 P2 _ I J _].
  pose proof (co_nb _ _ _ HC). pose proof (co_sb _ _ _ HC).
  unfold GetActualSeqLenKV, kv_len, kv_before, cmp_before in *. destruct (KV_LAYOUT_T core) eqn:E; rewrite ?E in *.
  - rewrite i32_id by lia. destruct t. cbn in *. by rewrite K1, K2 by auto.
  - specialize (I (or_introl eq_refl)). rewrite decide_True in I by done.
    rewrite u32_id, (vget_ok (actualSeqLengthsKVGm core) b), (vget_ok _ (b + 1)) by lia. cbn [mbind res_bind].
    rewrite i32_id, (u64_id (vat _ b)) by lia.
    destruct (isCFA c) eqn:Ec.
    + specialize (J eq_refl eq_refl). rewrite vget_ok by lia. cbn [mbind res_bind].
      by rewrite u64_id by lia.
    + destruct t. cbn in *. by rewrite K2 by auto.
  - destruct (Z.eqb_spec (actualLenDimsKV c) 0) as [D|D].
    + rewrite i32_id, u64_id by lia. destruct t. cbn in *. rewrite K2 by auto. done.
    + specialize (I (or_intror (conj eq_refl D))). rewrite decide_False in I by done. rewrite vget_ok by lia. cbn [mbind res_bind].
      rewrite u64_id by lia. destruct t. cbn in *. rewrite K2 by auto. done.
Qed.

(** ** The parameters of a row *)

(** A row of the loop: a query token, or the one row of an empty batch. *)
Definition row_ok (b q : Z) : Prop :=
  0 <= b < nb /\ 0 <= q /\ (q < q_len core c b \/ (q = 0 /\ q_len core c b = 0)).

Record row_ready (b q : Z) (t : TempLoopInfo) : Prop := {
  rr_b : t_bIdx t = b;
  rr_n2 : t_n2Idx t = 0;
  rr_s1 : t_actS1Size t = q_len core c b;
  rr_g : t_gS1Idx t = q * gSize c;
  rr_start : s1StartIdx t = q;
  rr_q : actualSeqQPrefixSum t = q_before core c b;
  rr_kv : actualSeqKVPrefixSum t = kv_before core c b;
  rr_cmp : actualSeqCmpKVPrefixSum t = cmp_before core c b;
  rr_dead : curActSeqLenIsZero t = negb (live core c b q);
  rr_live : live core c b q = true ->
    s1EndIdx t = q /\ oriMaskRight t = diag core c b q /\ oriMaskLeft t = win_first core c b q /\
    mBasicSizeTail t = gSize c /\
    (isCFA c = true -> cmpMaskRight t = kv_len core c b - q_len core c b /\
                       actCmpS2Size t = cmp_keys core c b q)
}.

Lemma cmp_limit_ok b q t :
  row_ok b q -> live core c b q = true -> isCFA c = true ->
  cmpMaskRight t = kv_len core c b - q_len core c b -> s1EndIdx t = q ->
  cmp_limit c t = Ok (cmp_keys core c b q) /\ 0 <= cmp_keys core c b q < 2 ^ 31.
Proof.
  intros (Hb & Hq & _) Hl Hc E1 E2. unfold cmp_limit, cmp_keys. rewrite E1, E2, Hc.
  pose proof (co_ratio _ _ _ HC Hc). destruct (co_batch _ _ _ HC b Hb) as [[Q1 Q2] [K1 K2] _ _ _ _ _ _ _].
  pose proof (co_sb _ _ _ HC). pose proof (co_g _ _ _ HC). unfold live, diag in *.
  rewrite sdiv_ok by lia. rewrite (u32_id (_ + q)) by nia. rewrite u32_id by nia.
  rewrite quot_nonneg_div by lia. split; [done|].
  assert (0 <= kv_len core c b - q_len core c b + q < 2 ^ 31 - 1) by nia.
  split; [apply Z.div_pos; lia|]. apply Z.div_lt_upper_bound; nia.
Qed.

Lemma cmp_limit_returns t :
  (isCFA c = true -> cmpRatio c <> 0) -> isCFA c = true -> returns (cmp_limit c t) (fun _ => True).
Proof. intros H E. unfold cmp_limit. rewrite sdiv_ok by auto. by apply returns_ok. Qed.

(** What a batch sets before its rows. *)
Record batch_ready (b : Z) (t : TempLoopInfo) : Prop := {
  br_b : t_bIdx t = b;
  br_n2 : t_n2Idx t = 0;
  br_s1 : t_actS1Size t = q_len core c b;
  br_q : actualSeqQPrefixSum t = q_before core c b;
  br_quiet : quiet t
}.

(** The last token of the row is the row: rows are single query tokens. *)
Lemma row_token b q :
  row_ok b q -> u32 (Min64 (u64 (q + 1 - 1)) (i32 (q_len core c b - 1))) = q.
Proof.
  intros (Hb & Hq & Hlt). destruct (co_batch _ _ _ HC b Hb) as [[Q1 Q2] _ _ _ _ _ _ _ _].
  pose proof (co_g _ _ _ HC). assert (q_len core c b < 2 ^ 31) by nia.
  unfold Min64. replace (q + 1 - 1) with q by lia. rewrite (u64_id q), i32_id, Z.gtb_ltb by lia.
  destruct Hlt as [Hlt|[-> ->]].
  - rewrite (u64_id (_ - 1)) by lia. rewrite (proj2 (Z.ltb_ge _ _)) by lia. apply u32_id. lia.
  - done.
Qed.

Lemma GetSparse_dead b q t :
  row_ok b q -> s1EndIdx t = q -> actOriS2Size t = kv_len core c b -> t_actS1Size t = q_len core c b ->
  (i32 (s1EndIdx t) <? i32 (- i32 (actOriS2Size t - t_actS1Size t))) = (diag core c b q <? 0).
Proof.
  intros (Hb & Hq & Hlt) -> -> ->. destruct (co_batch _ _ _ HC b Hb) as [[Q1 Q2] [K1 K2] _ _ _ _ _ _ _].
  pose proof (co_g _ _ _ HC). pose proof (co_sb _ _ _ HC). assert (q_len core c b < 2 ^ 31) by nia.
  unfold diag. rewrite (i32_id q), (i32_id (_ - _)), i32_id by lia.
  destruct (Z.ltb_spec q (- (kv_len core c b - q_len core c b))),
    (Z.ltb_spec (kv_len core c b - q_len core c b + q) 0); lia.
Qed.

(** UpdateInnerLoopCond of a row with keys. *)
Lemma UpdateInnerLoopCond_ok t (n : Z) :
  t_actS1Size t = n -> 0 <= n -> n * gSize c < 2 ^ 31 ->
  UpdateInnerLoopCond c t = Ok (
    if ((actCmpS2Size t =? 0) && (actOriS2Size t =? 0)) || (n =? 0)
    then t <| curActSeqLenIsZero := true |>
    else t <| curActSeqLenIsZero := false |> <| mBasicSizeTail := gSize c |>).
Proof.
  intros <- H0 H1. pose proof (co_g _ _ _ HC). unfold UpdateInnerLoopCond. destruct (_ || _); [done|].
  rewrite (co_m _ _ _ HC), umod_ok by lia. cbn [mbind res_bind].
  by rewrite u64_id, Z.mod_mul by nia.
Qed.

Lemma quiet_prefix b t :
  actualSeqKVPrefixSum t = kv_before core c b -> actualSeqCmpKVPrefixSum t = cmp_before core c b ->
  quiet t.
Proof.
  intros E1 E2. split.
  - intros E. rewrite E1. unfold kv_before. by rewrite E.
  - intros E. rewrite E2. unfold cmp_before.
    destruct (KV_LAYOUT_T core), (isCFA c); try done. by destruct E.
Qed.

(** The row before GetSparseActualSeqLen. *)
Record row_window (b q : Z) (t : TempLoopInfo) : Prop := {
  rw_b : batch_ready b t;
  rw_g : t_gS1Idx t = q * gSize c;
  rw_start : s1StartIdx t = q;
  rw_end : s1EndIdx t = q;
  rw_kv : actualSeqKVPrefixSum t = kv_before core c b;
  rw_cmp : actualSeqCmpKVPrefixSum t = cmp_before core c b;
  rw_ori : actOriS2Size t = kv_len core c b;
  rw_right : oriMaskRight t = diag core c b q;
  rw_left : 0 <= diag core c b q -> oriMaskLeft t = win_first core c b q;
  rw_cmp_right : isCFA c = true -> cmpMaskRight t = kv_len core c b - q_len core c b
}.

Lemma batch_ready_cmp b t z : batch_ready b t -> batch_ready b (t <| actCmpS2Size := z |>).
Proof. intros [? ? ? ? []]. by repeat split. Qed.

(** GetSparseActualSeqLen keeps the window and finds the rows without keys. *)
Lemma GetSparse_ok b q t :
  row_ok b q -> row_window b q t ->
  exists t', GetSparseActualSeqLen c t = Ok t' /\ batch_ready b t' /\
    (diag core c b q < 0 -> actOriS2Size t' = 0 /\ actCmpS2Size t' = 0 /\
       t' = t <| actOriS2Size := 0 |> <| actCmpS2Size := 0 |>) /\
    (0 <= diag core c b q -> row_window b q t' /\
       (q < q_len core c b -> isCFA c = true -> actCmpS2Size t' = cmp_keys core c b q)).
Proof.
  intros Hrow HW. pose proof HW as [B G S E KV CM O R L CR]. unfold GetSparseActualSeqLen.
  rewrite (GetSparse_dead b q) by (done || apply B).
  destruct (Z.ltb_spec (diag core c b q) 0) as [Hd|Hd].
  - eexists. split; [done|]. split; [destruct B as [? ? ? ? []]; by repeat split|]. split; [done|lia].
  - destruct (isCFA c) eqn:Ec.
    + unfold cmp_limit. pose proof (co_ratio _ _ _ HC Ec). rewrite sdiv_ok by lia. cbn [mbind res_bind].
      eexists. split; [done|]. split; [by apply batch_ready_cmp|]. split; [lia|]. intros _.
      split; [split; try done; [by apply batch_ready_cmp|intros _; by apply CR]|]. intros Hlt _. cbn.
      assert (Hl : live core c b q = true) by (unfold live; lia).
      destruct (cmp_limit_ok b q t Hrow Hl Ec (CR eq_refl) E) as [Ek Hk].
      unfold cmp_limit in Ek. rewrite sdiv_ok in Ek by lia. injection Ek as ->. apply i32_id. lia.
    + eexists. split; [done|]. split; [done|]. split; [lia|]. done.
Qed.

Lemma row_cond_ok b q t :
  row_ok b q -> row_window b q t ->
  exists t', (t ← GetSparseActualSeqLen c t; UpdateInnerLoopCond c t) = Ok t' /\
    row_ready b q t' /\ batch_ready b t'.
Proof.
  intros Hrow HW. pose proof Hrow as (Hb & Hq & Hlt).
  destruct (co_batch _ _ _ HC b Hb) as [[Q1 Q2] [K1 K2] _ _ _ _ _ _ _].
  destruct (GetSparse_ok b q t Hrow HW) as (t' & -> & B & Hdead & Hlive). cbn [mbind res_bind].
  rewrite (UpdateInnerLoopCond_ok t' _ (br_s1 _ _ B)) by done.
  destruct (Z.lt_ge_cases (diag core c b q) 0) as [Hd|Hd].
  - destruct (Hdead Hd) as (-> & -> & Et). cbn [andb orb Z.eqb]. eexists. split; [done|].
    destruct HW as [_ G S E KV CM O R L CR]. subst t'. destruct B as [? ? ? ? []].
    assert (live core c b q = false) as El by (unfold live; lia).
    split; [split; try done; by rewrite El|by repeat split].
  - destruct (Hlive Hd) as [[_ G S E KV CM O R L CR] Hc]. destruct B as [B1 B2 B3 B4 [B5 B6]].
    destruct (Z.eqb_spec (q_len core c b) 0) as [Ez|Ez].
    + rewrite orb_true_r. eexists. split; [done|].
      assert (live core c b q = false) as El by (unfold live; lia).
      split; [split; try done; by rewrite El|by repeat split].
    + assert (Hlive' : live core c b q = true) by (unfold live; lia).
      unfold diag in Hd. rewrite O, (proj2 (Z.eqb_neq (kv_len core c b) 0)), andb_false_r by lia.
      cbn [orb]. eexists. split; [done|]. split; [split; try done|by repeat split].
      * by rewrite Hlive'.
      * intros _. cbn. split; [done|]. split; [done|]. split; [auto|]. split; [done|].
        intros Ec. split; [auto|]. apply Hc; [lia|done].
Qed.

Lemma row_setup_ok b q s :
  row_ok b q -> constInfo s = c -> batch_ready b (tempLoopInfo s) ->
  exists t, row_setup core q s = Ok (s <| tempLoopInfo := t |>) /\ row_ready b q t /\ batch_ready b t.
Proof.
  intros Hrow Ec [B1 B2 B3 B4 B5]. pose proof Hrow as (Hb & Hq & Hlt).
  destruct (co_batch _ _ _ HC b Hb) as [[Q1 Q2] [K1 K2] _ _ _ _ _ _ _].
  pose proof (co_g _ _ _ HC). pose proof (co_sb _ _ _ HC). pose proof (co_m _ _ _ HC) as Hm.
  assert (q_len core c b < 2 ^ 31) by nia.
  unfold row_setup. rewrite Ec, B1, GetActualSeqLenKV_ok by done. cbn [mbind res_bind].
  rewrite Hm, !udiv_ok by lia. cbn [mbind res_bind].
  set (t0 := tempLoopInfo s) in *. cbn -[u32 u64 i32 Min64 GetSparseActualSeqLen UpdateInnerLoopCond Z.div Z.mul].
  rewrite (u32_id (q * gSize c)) by nia. rewrite Z.div_mul, Z.div_same by lia.
  rewrite (u32_id q) by nia. rewrite B3, row_token by done.
  match goal with |- exists t, (GetSparseActualSeqLen c ?tw ≫= _) = _ /\ _ =>
    assert (HW : row_window b q tw) end.
  { pose proof (co_right _ _ _ HC) as ->. pose proof (co_left _ _ _ HC).
    rewrite (i32_id q), (i32_id (kv_len core c b - q_len core c b)), (i32_id (_ + q)) by lia.
    split; try (destruct (isCFA c); done).
    1: split; try (destruct (isCFA c); done); apply (quiet_prefix b); by destruct (isCFA c).
    all: destruct (isCFA c); cbn -[i32]; unfold win_first, diag; intros; rewrite ?i32_id by lia; done || lia. }
  destruct (row_cond_ok b q _ Hrow HW) as (t' & E & HR & HB). exists t'. split; [|done].
  destruct (GetSparseActualSeqLen c _); [|done]. cbn [mbind res_bind] in *. by rewrite E.
Qed.

(** ** A round of a row *)

Lemma vector_rows_frame info :
  exists m v w, vector_rows core info = info <| mSize := m |> <| mSizeV := v |> <| mSizeVStart := w |>.
Proof.
  unfold vector_rows. destruct (isAIV core).
  - destruct (_ =? 1); by eexists _, _, _.
  - exists (mSize info), (mSizeV info), (mSizeVStart info). by destruct info.
Qed.

Lemma swa_row_bounds b q :
  row_ok b q -> live core c b q = true ->
  0 < win_keys core c b q < 2 ^ 31 /\ 0 <= win_first core c b q < 2 ^ 31 /\
  0 <= cmp_keys core c b q < 2 ^ 31 /\
  0 < win_blocks core c b q <= win_keys core c b q /\ 0 <= cmp_blocks core c b q <= cmp_keys core c b q.
Proof.
  intros (Hb & Hq & Hlt) Hl. destruct (co_batch _ _ _ HC b Hb) as [[Q1 Q2] [K1 K2] _ _ _ _ _ _ _].
  pose proof (co_g _ _ _ HC). pose proof (co_sb _ _ _ HC). pose proof (co_left _ _ _ HC).
  unfold live in Hl. assert (Hd : 0 <= diag core c b q < 2 ^ 31 - 1) by (unfold diag in *; lia).
  assert (Hw : 0 < win_keys core c b q < 2 ^ 31) by (unfold win_keys, win_first; lia).
  assert (Hk : 0 <= cmp_keys core c b q < 2 ^ 31).
  { unfold cmp_keys. destruct (isCFA c) eqn:Ec; [|lia]. pose proof (co_ratio _ _ _ HC Ec).
    split; [apply Z.div_pos; lia|]. apply Z.div_lt_upper_bound; nia. }
  split; [done|]. split; [unfold win_first; lia|]. split; [done|].
  unfold win_blocks, cmp_blocks. pose proof (seg_blk_range (s2BaseSize c) ltac:(lia) (win_keys core c b q) ltac:(lia)).
  pose proof (seg_blk_pos (s2BaseSize c) ltac:(lia) (win_keys core c b q) ltac:(lia)).
  pose proof (seg_blk_range (s2BaseSize c) ltac:(lia) (cmp_keys core c b q) ltac:(lia)). lia.
Qed.

(** CeilDiv is the number of blocks. *)
Lemma CeilDiv_blocks n :
  0 <= n -> n + s2BaseSize c <= 2 ^ 32 -> CeilDiv n (s2BaseSize c) = seg_blk (s2BaseSize c) n.
Proof.
  intros H0 H1. pose proof (co_sb _ _ _ HC). unfold CeilDiv, seg_blk, ceil_div.
  rewrite (proj2 (Z.eqb_neq _ 0)) by lia. by rewrite u32_id by lia.
Qed.

Record round_ready (b q : Z) (t : TempLoopInfo) : Prop := {
  rd_row : row_ready b q t;
  rd_ori : oriLoopTimes t = if live core c b q then win_blocks core c b q else 0;
  rd_loops : s2LoopTimes t = row_blocks core c b q
}.

Record offsets_ready (b q : Z) (s : State) : Prop := {
  of_a : tensorACoreOffset s = u64 (q_before core c b * qHeadNum c * headDim + q * gSize c * headDim);
  of_b : tensorBCoreOffset s = u64 (kv_before core c b * headDim);
  of_c : tensorCmpBCoreOffset s = u64 (cmp_before core c b * headDim)
}.

(** The keys of a block fit its place in the row. *)
Lemma block_keys_code n keys j :
  0 <= keys < 2 ^ 31 -> n = seg_blk (s2BaseSize c) keys -> 0 <= j < n ->
  (if u32 (j + 1) =? n then u32 (keys - u32 (j * s2BaseSize c)) else s2BaseSize c) = block_keys c n keys j.
Proof.
  intros Hk -> Hj. pose proof (co_sb _ _ _ HC).
  pose proof (proj1 (ceil_div_lt keys (s2BaseSize c) j ltac:(lia) ltac:(lia)) (proj2 Hj)).
  pose proof (seg_blk_range (s2BaseSize c) ltac:(lia) keys ltac:(lia)).
  unfold block_keys. rewrite (u32_id (j + 1)), (u32_id (j * _)), u32_id by nia. done.
Qed.

Lemma task_keys_returns b q t j info :
  row_ok b q -> round_ready b q t -> 0 <= j < 2 ^ 32 -> s2Idx info = j ->
  returns (task_keys c t j info) (fun info' => exists o r n p l,
    info' = info <| isOri := o |> <| relativeS2Idx := r |> <| actualSingleProcessSInnerSize := n |>
                 <| s2StartPoint := p |> <| cmpS2IdLimit := l |> /\
    (j < row_blocks core c b q ->
       let tk := task core c b q j in
       o = k_ori tk /\ n = k_keys tk /\
       k_first tk = if o then j * s2BaseSize c + p else r * s2BaseSize c)).
Proof.
  intros Hrow [HR HO HL] Hj Es. unfold task_keys. rewrite HO, HL, Es.
  unfold row_blocks. destruct (live core c b q) eqn:El.
  - destruct (swa_row_bounds b q Hrow El) as (W1 & W2 & C1 & W3 & C3).
    destruct (rr_live _ _ _ HR El) as (E1 & E2 & E3 & E4 & E5). unfold task. cbn [k_ori k_keys k_first].
    destruct (Z.ltb_spec j (win_blocks core c b q)) as [Hw|Hw].
    + apply returns_ok. eexists true, _, _, _, _. split; [done|]. intros _. cbn zeta.
      split; [done|]. rewrite E2, E3. split; [|rewrite u64_id by lia; lia].
      apply block_keys_code; [lia|done|lia].
    + destruct (isCFA c) eqn:Ec.
      * destruct (E5 eq_refl) as [E6 E7].
        destruct (cmp_limit_ok b q t Hrow El Ec E6 E1) as [-> _]. cbn [mbind res_bind].
        apply returns_ok. eexists false, _, _, _, _. split; [done|]. intros Hlt. cbn zeta.
        split; [done|]. rewrite E7. rewrite (u32_id (j - _)) by lia. split; [|done].
        rewrite <- (block_keys_code (cmp_blocks core c b q)) by (done || lia).
        rewrite !(u32_id (_ + 1)) by lia.
        destruct (Z.eqb_spec (j + 1) (win_blocks core c b q + cmp_blocks core c b q)),
          (Z.eqb_spec (j - win_blocks core c b q + 1) (cmp_blocks core c b q)); lia || done.
      * apply returns_ok.
        exists (isOri info), (relativeS2Idx info), (actualSingleProcessSInnerSize info),
          (s2StartPoint info), (cmpS2IdLimit info). split; [by destruct info|].
        unfold cmp_blocks, cmp_keys. rewrite Ec, seg_blk_zero by (pose proof (co_sb _ _ _ HC); lia). lia.
  - rewrite (proj2 (Z.ltb_ge j 0)) by lia. destruct (isCFA c) eqn:Ec.
    + unfold cmp_limit. pose proof (co_ratio _ _ _ HC Ec). rewrite sdiv_ok by lia. cbn [mbind res_bind].
      apply returns_ok. eexists false, _, _, _, _. split; [done|]. lia.
    + apply returns_ok.
      exists (isOri info), (relativeS2Idx info), (actualSingleProcessSInnerSize info),
        (s2StartPoint info), (cmpS2IdLimit info). split; [by destruct info|]. lia.
Qed.

Lemma round_ready_bn2 b q t v :
  round_ready b q t -> round_ready b q (t <| t_bn2IdxInCurCore := v |>).
Proof. intros [[] ? ?]. by split; [split|..]. Qed.

(** The counter of rows is bumped, and the offsets are set, in the first round. *)
Lemma bump_bn2 (first : bool) t :
  exists v, (if first then t <| t_bn2IdxInCurCore := u32 (t_bn2IdxInCurCore t + 1) |> else t) =
    t <| t_bn2IdxInCurCore := v |>.
Proof. destruct first; [by eexists|]. exists (t_bn2IdxInCurCore t). by destruct t. Qed.

Lemma CalcParams_returns b q j g x s :
  row_ok b q -> constInfo s = c -> round_ready b q (tempLoopInfo s) -> 0 <= j < 2 ^ 32 ->
  row_blocks core c b q < 2 ^ 32 -> j = 0 \/ offsets_ready b q s ->
  returns (CalcParams core g 0 0 j x s) (fun '(info, s') => framed s s' /\
    (offsets_ready b q s' /\ isValid info = (j <? row_blocks core c b q) /\
     (j < row_blocks core c b q -> view c info = task core c b q j))).
Proof.
  intros Hrow Ec HR Hj Hn Hoff. pose proof (co_g _ _ _ HC). pose proof Hrow as (Hb & Hq & Hlt).
  destruct (co_batch _ _ _ HC b Hb) as [[Q1 Q2] _ _ _ _ _ _ _ _].
  unfold CalcParams. rewrite Ec, (rr_g _ _ _ (rd_row _ _ _ HR)), udiv_ok, Z.div_mul by lia.
  cbn [mbind res_bind]. rewrite (u32_id q) by nia.
  destruct (bump_bn2 (j =? 0) (tempLoopInfo s)) as [v Ev]. rewrite !Ev. clear Ev.
  pose proof (round_ready_bn2 b q _ v HR) as HR'.
  remember ((tempLoopInfo s) <| t_bn2IdxInCurCore := v |>) as t eqn:Et.
  match goal with |- context [vector_rows core ?i] =>
    destruct (vector_rows_frame i) as (m & mv & ms & ->) end.
  cbn -[u32 u64 Z.mul Z.div task_keys SASAlign].
  match goal with |- context [tensorACoreOffset ?st] => set (sS := st) end.
  assert (HS : framed s sS /\ offsets_ready b q sS).
  { destruct HR' as [[R1 R2 R3 R4 R5 R6 R7 R8 R9 R10] _ _]. unfold sS.
    destruct (Z.eqb_spec j 0) as [->|Hne]; (split; [split; try done; exists v; by subst t|]).
    - split; cbn -[u64 Z.mul]; unfold kvHeadNum; rewrite ?R4, ?R6, ?R7, ?R8, ?Z.mul_1_r; done.
    - destruct Hoff as [|[]]; [done|]. by split. }
  clearbody sS.
  eapply returns_bind_mono; [by apply (task_keys_returns b q t j)|].
  intros info (o & r & n & p & l & -> & Hk). apply returns_ok.
  destruct HS as [HF HO]. split; [done|]. split; [done|].
  destruct HR' as [[R1 R2 R3 R4 R5 R6 R7 R8 R9 R10] _ HL].
  cbn -[u32 u64 Z.mul Z.div]. rewrite HL. split; [done|]. intros Hlt2.
  destruct (Hk Hlt2) as (-> & -> & Hf). destruct HO as [OA OB OC].
  assert (Hl : live core c b q = true) by (unfold row_blocks in Hlt2; destruct (live core c b q); [done|lia]).
  destruct (R10 Hl) as (_ & _ & _ & Em & _).
  unfold view. cbn -[u32 u64 Z.mul Z.div task]. rewrite <- Hf, R1, OA, OB, OC, Em, !u32_id by lia.
  reflexivity.
Qed.

(** ** The rounds so far *)

Definition is_zero (e : Event) : bool :=
  match e with EZero _ _ | EZeroLse _ _ => true | _ => false end.
Definition computed (tr : list Event) : list Event := List.filter (fun e => negb (is_zero e)) tr.
Definition zeroed (tr : list Event) : list Event := List.filter is_zero tr.

(** [h] is the history of the rounds, newest first; [z] the cleared rows. *)
Record Run (s : State) (h : list (option RunInfo)) (z : list Event) : Prop := {
  ru_ring : Ring s (top h) (top (tail h));
  ru_gloop : gloop s = Z.of_nat (length h);
  ru_trace : computed (trace s) = events core c h;
  ru_zero : zeroed (trace s) = z
}.

Lemma all_computed es : forallb (fun e => negb (is_zero e)) es = true ->
  computed es = es /\ zeroed es = [].
Proof.
  induction es as [|e es IH]; [done|]. cbn. intros [He Hes]%andb_true_iff. unfold computed, zeroed.
  cbn. rewrite He. apply negb_true_iff in He. rewrite He. destruct (IH Hes) as [E1 E2].
  unfold computed, zeroed in *. by rewrite E1, E2.
Qed.

Lemma stages_computed o p1 p2 :
  forallb (fun e => negb (is_zero e)) (stage1 core c o ++ stage2 core c p1 ++ stage3 core p2) = true.
Proof.
  assert (P : forall (g : Z * Z -> Event) l, (forall p, is_zero (g p) = false) ->
    forallb (fun e => negb (is_zero e)) (g <$> l) = true).
  { intros g l Hg. induction l as [|p l IH]; [done|]. cbn. by rewrite Hg. }
  rewrite !forallb_app. unfold stage1, stage2, stage3, ComputeMm1, mm2_events.
  destruct o, p1, p2, (isAIV core); cbn; rewrite ?P; done.
Qed.

Lemma computed_app a b : computed (a ++ b) = computed a ++ computed b.
Proof. apply List.filter_app. Qed.
Lemma zeroed_app a b : zeroed (a ++ b) = zeroed a ++ zeroed b.
Proof. apply List.filter_app. Qed.

(** State of the loop over the blocks of row [q], before round [j]. *)
Record in_row (b q j : Z) (s : State) : Prop := {
  ir_const : constInfo s = c;
  ir_batch : batch_ready b (tempLoopInfo s);
  ir_round : round_ready b q (tempLoopInfo s);
  ir_offsets : j = 0 \/ offsets_ready b q s
}.

Definition round (s2LoopIdx : Z) (s : State) : res State :=
  s ← PreloadPipeline core (gloop s) 0 (s2Start (constInfo s)) s2LoopIdx s;
  Ok (s <| gloop := u32 (gloop s + 1) |>).

Lemma batch_ready_bn2 b t v : batch_ready b t -> batch_ready b (t <| t_bn2IdxInCurCore := v |>).
Proof. intros [? ? ? ? []]. by repeat split. Qed.

Lemma round_returns b q j s h z :
  row_ok b q -> s2Start c = 0 -> in_row b q j s -> Run s h z -> 0 <= j ->
  row_blocks core c b q < 2 ^ 32 -> j < 2 ^ 32 -> Z.of_nat (length h) < 2 ^ 32 - 2 ->
  returns (round j s) (fun s' => in_row b q (j + 1) s' /\ exists o, Run s' (o :: h) z /\
    if j <? row_blocks core c b q then exists i, o = Some i /\ view c i = task core c b q j
    else o = None).
Proof.
  intros Hrow Hs2 [Ec HB HR HO] [RR RG RT RZ] Hj Hn Hj2 Hh. unfold round. rewrite Ec, Hs2.
  eapply returns_bind_mono.
  { apply (PreloadPipeline_returns core s 0 j _ _ (fun info s' =>
      offsets_ready b q s' /\ isValid info = (j <? row_blocks core c b q) /\
      (j < row_blocks core c b q -> view c info = task core c b q j)) RR).
    - lia.
    - rewrite Ec. apply (co_nbuf _ _ _ HC).
    - intros x. rewrite u32_id by lia. by apply CalcParams_returns. }
  intros s2 (info & s' & ring & (Hof & Hv & Hview) & HF & -> & HRing). apply returns_ok.
  destruct HF as [F1 F2 F3 F4 F5 [v F6]]. split.
  - split; cbn.
    + by rewrite F1.
    + rewrite F6. by apply batch_ready_bn2.
    + rewrite F6. by apply round_ready_bn2.
    + right. destruct Hof. by split.
  - exists (held info). split.
    + destruct (all_computed _ (stages_computed (held info) (top h) (top (tail h)))) as [A1 A2].
      rewrite Ec in *. split.
      * cbn in HRing |- *. rewrite u32_id by lia. rewrite F3. exact HRing.
      * cbn. rewrite F3, RG, u32_id by lia. lia.
      * cbn -[computed]. by rewrite F5, computed_app, A1, RT.
      * cbn -[zeroed]. by rewrite F5, zeroed_app, A2, RZ, app_nil_r.
    + unfold held. rewrite Hv. destruct (Z.ltb_spec j (row_blocks core c b q)) as [Hlt|]; [|done].
      exists info. auto.
Qed.

(** Rounds [0 .. j) of a row of [n] blocks: its tasks, then empty rounds. *)
Definition rounds_of (l : list RunInfo) (extra : nat) (h : list (option RunInfo)) : list (option RunInfo) :=
  replicate extra None ++ rev (Some <$> l) ++ h.

Lemma rounds_loop_returns b q n s h z :
  row_ok b q -> s2Start c = 0 -> in_row b q 0 s -> Run s h z ->
  row_blocks core c b q <= n <= row_blocks core c b q + 2 ->
  Z.of_nat (length h) + row_blocks core c b q + 4 <= 2 ^ 32 -> 0 <= row_blocks core c b q ->
  returns (for_span 0 n round s) (fun s' => (exists j, in_row b q j s') /\
    exists l, view c <$> l = row_tasks core c b q /\
      Run s' (rounds_of l (Z.to_nat (n - row_blocks core c b q)) h) z).
Proof.
  intros Hrow Hs2 HI HR Hn Hb H0. unfold for_span. set (k := row_blocks core c b q) in *.
  eapply returns_mono; [apply (for_loop_returns (fun j s => in_row b q j s /\
    exists l, view c <$> l = task core c b q <$> seqZ 0 (Z.min j k) /\
      Run s (rounds_of l (Z.to_nat (j - k)) h) z))|].
  - split; [done|]. exists []. rewrite Z.min_l by lia.
    split; [done|]. by replace (Z.to_nat (0 - k)) with O by lia.
  - intros j s1 Hj (HI1 & l & El & HR1).
    assert (Ll : Z.of_nat (length l) = Z.min j k).
    { rewrite <- (length_fmap (view c)), El, length_fmap, length_seqZ. lia. }
    eapply returns_mono; [apply (round_returns b q j s1 (rounds_of l (Z.to_nat (j - k)) h) z); try done; try lia|].
    { unfold rounds_of. rewrite !length_app, length_replicate, length_rev, length_fmap. lia. }
    intros s2 (HI2 & o & HR2 & Ho). split; [done|].
    fold k in Ho. destruct (Z.ltb_spec j k) as [Hlt|Hge].
    + destruct Ho as (i & -> & Ei). exists (l ++ [i]). rewrite fmap_app, El. cbn.
      rewrite Z.min_l, Ei by lia. split.
      * rewrite Z.min_l by lia. by rewrite seqZ_snoc, fmap_app by lia.
      * unfold rounds_of in *. replace (Z.to_nat (j - k)) with O in HR2 by lia.
        replace (Z.to_nat (j + 1 - k)) with O by lia. by rewrite fmap_app, rev_app_distr.
    + subst o. exists l. rewrite !Z.min_r in * by lia. split; [done|].
      unfold rounds_of in *. by replace (Z.to_nat (j + 1 - k)) with (S (Z.to_nat (j - k))) by lia.
  - intros s1 (HI1 & l & El & HR1). split; [by eexists|]. exists l.
    replace (0 + Z.of_nat (Z.to_nat (n - 0))) with n in * by lia. rewrite Z.min_r in El by lia. done.
Qed.

Definition drain (isEnd : bool) : nat := if isEnd then 2%nat else 0%nat.

(** The loop counts of a row are its blocks. *)
Lemma split_nums b q t :
  row_ok b q -> row_ready b q t -> row_blocks core c b q < 2 ^ 32 ->
  (if curActSeqLenIsZero t then 0 else CeilDiv (i32 (oriMaskRight t - oriMaskLeft t + 1)) (s2BaseSize c)) =
    (if live core c b q then win_blocks core c b q else 0) /\
  (if isCFA c then u32 ((if live core c b q then win_blocks core c b q else 0) +
                        (if curActSeqLenIsZero t then 0 else CeilDiv (actCmpS2Size t) (s2BaseSize c)))
   else if live core c b q then win_blocks core c b q else 0) = row_blocks core c b q /\
  0 <= row_blocks core c b q.
Proof.
  intros Hrow HR Hn. rewrite (rr_dead _ _ _ HR). pose proof (co_sb _ _ _ HC).
  unfold row_blocks in *. destruct (live core c b q) eqn:El; cbn [negb].
  - destruct (swa_row_bounds b q Hrow El) as (W1 & W2 & C1 & W3 & C3).
    destruct (rr_live _ _ _ HR El) as (_ & -> & -> & _ & E5).
    fold (win_keys core c b q). rewrite i32_id by lia.
    rewrite CeilDiv_blocks by lia. split; [done|]. split; [|lia].
    unfold cmp_blocks, win_blocks in *. destruct (isCFA c) eqn:Ec.
    + destruct (E5 eq_refl) as [_ ->]. rewrite CeilDiv_blocks by lia. apply u32_id. lia.
    + unfold cmp_keys. rewrite Ec, seg_blk_zero by lia. lia.
  - split; [done|]. split; [|lia]. by destruct (isCFA c).
Qed.

Lemma row_rounds_returns b q isEnd s h z :
  row_ok b q -> s2Start c = 0 -> s2End c = 0 -> constInfo s = c ->
  batch_ready b (tempLoopInfo s) -> row_ready b q (tempLoopInfo s) -> Run s h z ->
  Z.of_nat (length h) + row_blocks core c b q + 4 <= 2 ^ 32 ->
  returns (row_rounds core isEnd s) (fun s' => constInfo s' = c /\ batch_ready b (tempLoopInfo s') /\
    exists l, view c <$> l = row_tasks core c b q /\ Run s' (rounds_of l (drain isEnd) h) z).
Proof.
  intros Hrow Hs2 He2 Ec HB HR HU Hl. unfold row_rounds. cbv zeta.
  destruct (split_nums b q _ Hrow HR ltac:(lia)) as (E1 & E2 & Hn).
  rewrite Ec, Hs2, He2, andb_false_r, E1, E2. clear E1 E2.
  rewrite u32_id by (destruct isEnd; unfold PRELOAD_NUM; lia).
  eapply returns_bind_mono.
  { apply (rounds_loop_returns b q _ _ h z); try done.
    - destruct HB as [? ? ? ? []], HR. split; cbn; [done| | |by left].
      + destruct (isCFA c && _); by repeat split.
      + destruct (isCFA c && _); (split; [by split|done|done]).
    - destruct HU as [[] ? ? ?]. by repeat split.
    - destruct isEnd; unfold PRELOAD_NUM; lia. }
  intros s' ((j & [I1 I2 I3 I4]) & l & El & HU'). apply returns_ok. cbn. rewrite I1. split; [|split; [done|]].
  - destruct c. cbn in *. by rewrite Hs2.
  - exists l. split; [done|]. destruct HU' as [[] ? ? ?].
    replace (Z.to_nat _) with (drain isEnd) in * by (destruct isEnd; unfold PRELOAD_NUM, drain; lia).
    by repeat split.
Qed.

(** ** Rows and batches *)

Lemma InitAllZeroOutput_ok b q t :
  row_ok b q -> t_actS1Size t = q_len core c b -> live core c b q = false -> isAIV core = true ->
  InitAllZeroOutput core c t b q 0 = Ok (row_zero core c b q).
Proof.
  intros (Hb & Hq & Hlt) Es El Ea. unfold InitAllZeroOutput, row_zero. rewrite El, Ea. cbn [orb negb].
  destruct (co_batch _ _ _ HC b Hb) as [_ _ _ _ _ _ _ _ Z0].
  destruct (outputLayout c) eqn:Eo.
  - unfold kvHeadNum. f_equal. f_equal; ring.
  - rewrite Es. destruct (Z.eqb_spec (q_len core c b) 0); [done|].
    destruct (Z0 eq_refl) as (I & I1 & I2). rewrite vget_ok by lia. cbn [mbind res_bind].
    unfold kvHeadNum. rewrite (u32_id (vat _ b)), u32_id by lia. f_equal. f_equal; ring.
  - done.
Qed.

Lemma row_zero_events b q : computed (row_zero core c b q) = [] /\ zeroed (row_zero core c b q) = row_zero core c b q.
Proof.
  unfold row_zero, zero_row.
  repeat case_match; done.
Qed.

(** What holds between the rows of a batch. *)
Record in_batch (b : Z) (s : State) : Prop := {
  ib_const : constInfo s = c;
  ib_batch : batch_ready b (tempLoopInfo s)
}.

Lemma Run_frame s s' h z :
  extraInfo s' = extraInfo s -> gloop s' = gloop s -> trace s' = trace s -> Run s h z -> Run s' h z.
Proof. intros E1 E2 E3 [[] ? ? ?]. by repeat split; rewrite ?E1, ?E2, ?E3. Qed.

Lemma Run_zero b q s h z : Run s h z -> Run (emit (row_zero core c b q) s) h (z ++ row_zero core c b q).
Proof.
  intros [[] ? RT RZ]. destruct (row_zero_events b q) as [E1 E2].
  split; [by split|done|..]; cbn -[computed zeroed].
  - by rewrite computed_app, E1, app_nil_r.
  - by rewrite zeroed_app, E2, RZ.
Qed.

Lemma ProcessRow_returns b q hi s h z :
  row_ok b q -> s2Start c = 0 -> s2End c = 0 -> in_batch b s -> Run s h z ->
  Z.of_nat (length h) + row_blocks core c b q + 4 <= 2 ^ 32 -> q + 1 < 2 ^ 32 ->
  returns (ProcessRow core b hi q s) (fun s' => in_batch b s' /\
    exists l, view c <$> l = row_tasks core c b q /\
      Run s' (rounds_of l (drain ((b + 1 =? bN2End c) && (q + 1 =? hi))) h) (z ++ row_zero core c b q)).
Proof.
  intros Hrow Hs2 He2 [Ec HB] HU Hl Hq2. pose proof Hrow as (Hb & Hq0 & _). pose proof (co_nb _ _ _ HC).
  unfold ProcessRow. destruct (row_setup_ok b q s Hrow Ec HB) as (t & -> & HR & HB'). cbn [mbind res_bind].
  cbn -[InitAllZeroOutput row_rounds u32 emit]. rewrite Ec, !u32_id by lia.
  set (isEnd := (b + 1 =? bN2End c) && (q + 1 =? hi)).
  rewrite (rr_dead _ _ _ HR), (rr_b _ _ _ HR), (rr_n2 _ _ _ HR), (rr_start _ _ _ HR).
  match goal with |- returns (?m ≫= _) _ =>
    assert (Em : m = Ok (emit (row_zero core c b q) (s <| tempLoopInfo := t |>))) end.
  { destruct (live core c b q) eqn:El; cbn [negb andb].
    - unfold row_zero. rewrite El. by rewrite emit_nil.
    - destruct (isAIV core) eqn:Ea.
      + rewrite InitAllZeroOutput_ok by (done || apply HR). done.
      + unfold row_zero. rewrite Ea, orb_true_r. by rewrite emit_nil. }
  rewrite Em. cbn [mbind res_bind]. clear Em.
  assert (HU' : Run (emit (row_zero core c b q) (s <| tempLoopInfo := t |>)) h (z ++ row_zero core c b q))
    by (apply Run_zero; by eapply Run_frame; [..|exact HU]).
  destruct (negb (live core c b q) && negb isEnd) eqn:Eskip.
  - apply andb_true_iff in Eskip as [El Ee]. apply negb_true_iff in El, Ee. rewrite Ee. apply returns_ok.
    split; [by split|]. exists []. unfold row_tasks, row_blocks. by rewrite El.
  - eapply returns_mono; [by apply (row_rounds_returns b q isEnd _ h (z ++ row_zero core c b q))|].
    intros s' (E1 & E2 & l & E3 & E4). split; [by split|]. by exists l.
Qed.

Lemma rounds_of_app l l' n h : rounds_of l' n (rounds_of l 0 h) = rounds_of (l ++ l') n h.
Proof. unfold rounds_of. cbn. by rewrite fmap_app, rev_app_distr, <- !app_assoc. Qed.

(** The end of the rows of batch [b]; an empty batch has a row to clear or to
    drain the pipeline. *)
Definition batch_hi (b : Z) : Z :=
  if q_len core c b =? 0
  then if bool_decide (outputLayout c = BSND) || (b + 1 =? bN2End c) then 1 else 0
  else if (b + 1 =? bN2End c) && negb (gS1End c =? 0) then gS1End c else q_len core c b.

Lemma row_loop_returns b lo hi s h z :
  s2Start c = 0 -> s2End c = 0 -> (forall q, lo <= q < hi -> row_ok b q) -> hi < 2 ^ 32 ->
  in_batch b s -> Run s h z ->
  Z.of_nat (length h) + Z.of_nat (length (span_flat (row_tasks core c b) lo hi)) + 4 <= 2 ^ 32 ->
  returns (for_span lo hi (ProcessRow core b hi) s) (fun s' => in_batch b s' /\
    exists l, view c <$> l = span_flat (row_tasks core c b) lo hi /\
      Run s' (rounds_of l (drain ((b + 1 =? bN2End c) && (lo <? hi))) h)
        (z ++ span_flat (row_zero core c b) lo hi)).
Proof.
  intros Hs2 He2 Hrows Hhi HI HU Hl. unfold for_span.
  eapply returns_mono; [apply (for_loop_returns (fun q s => in_batch b s /\
    exists l, view c <$> l = span_flat (row_tasks core c b) lo q /\
      Run s (rounds_of l (drain ((b + 1 =? bN2End c) && (q =? hi) && (lo <? q))) h)
        (z ++ span_flat (row_zero core c b) lo q)))|].
  - split; [done|]. exists []. rewrite !span_flat_empty, app_nil_r, Z.ltb_irrefl, andb_false_r by lia. done.
  - intros q s1 Hq (HI1 & l & El & HU1). rewrite (proj2 (Z.eqb_neq q hi)), andb_false_r in HU1 by lia.
    pose proof (span_flat_length (row_tasks core c b) lo q hi ltac:(lia)) as Hlen.
    unfold row_tasks at 2 in Hlen. rewrite length_fmap, length_seqZ, <- El, length_fmap in Hlen.
    eapply returns_mono; [apply (ProcessRow_returns b q hi s1 (rounds_of l 0 h)); try done; try lia|].
    { apply Hrows. lia. }
    { unfold rounds_of. cbn. rewrite length_app, length_rev, length_fmap. lia. }
    intros s2 (HI2 & l' & El' & HU2). split; [done|]. exists (l ++ l').
    rewrite fmap_app, El, El', span_flat_snoc by lia. split; [done|].
    rewrite rounds_of_app, <- app_assoc, <- span_flat_snoc in HU2 by lia.
    rewrite (proj2 (Z.ltb_lt lo (q + 1))), andb_true_r by lia. done.
  - intros s1 (HI1 & l & El & HU1). split; [done|]. exists l.
    destruct (Z.le_gt_cases hi lo) as [Hle|Hgt].
    + replace (lo + Z.of_nat (Z.to_nat (hi - lo))) with lo in * by lia.
      rewrite (span_flat_empty _ lo hi), (span_flat_empty _ lo hi) by lia.
      rewrite Z.ltb_irrefl, andb_false_r in HU1. rewrite (proj2 (Z.ltb_ge lo hi)), andb_false_r by lia.
      by rewrite !span_flat_empty in * by lia.
    + replace (lo + Z.of_nat (Z.to_nat (hi - lo))) with hi in * by lia.
      by rewrite Z.eqb_refl, andb_true_r in HU1.
Qed.

Lemma ProcessBatch_returns b s h z :
  s2Start c = 0 -> s2End c = 0 -> 0 <= b < bN2End c -> bN2End c <= nb ->
  0 <= gS1Start c -> (b + 1 = bN2End c -> 0 <= gS1End c <= q_len core c b) ->
  constInfo s = c -> quiet (tempLoopInfo s) -> Run s h z ->
  Z.of_nat (length h) +
    Z.of_nat (length (span_flat (row_tasks core c b) (gS1Start c) (batch_hi b))) + 4 <= 2 ^ 32 ->
  returns (ProcessBatch core b s) (fun s' => constInfo s' = c <| gS1Start := 0 |> /\
    quiet (tempLoopInfo s') /\
    exists l, view c <$> l = span_flat (row_tasks core c b) (gS1Start c) (batch_hi b) /\
      Run s' (rounds_of l (drain ((b + 1 =? bN2End c) && (gS1Start c <? batch_hi b))) h)
        (z ++ span_flat (row_zero core c b) (gS1Start c) (batch_hi b))).
Proof.
  intros Hs2 He2 Hb Hend Hlo Hg Ec HQ HU Hl. pose proof (co_nb _ _ _ HC). pose proof (co_g _ _ _ HC).
  destruct (co_batch _ _ _ HC b ltac:(lia)) as [[Q1 Q2] _ _ _ _ _ _ _ _].
  unfold ProcessBatch, GetBN2Idx, kvHeadNum. rewrite Ec, Z.div_1_r, Z.mod_1_r.
  rewrite GetActualSeqLenQ_ok by lia. cbn [mbind res_bind].
  assert (Ehi : (if (q_len core c b =? 0) && (bool_decide (outputLayout c = BSND) || (u32 (b + 1) =? bN2End c))
    then u32 ((if (b =? u32 (bN2End c - 1)) && negb (gS1End c =? 0) then gS1End c
               else u32 (CeilDiv64 (u64 (q_len core c b * gSize c)) (mBaseSize c))) + 1)
    else if (b =? u32 (bN2End c - 1)) && negb (gS1End c =? 0) then gS1End c
         else u32 (CeilDiv64 (u64 (q_len core c b * gSize c)) (mBaseSize c))) = batch_hi b).
  { assert (Ecd : CeilDiv64 (u64 (q_len core c b * gSize c)) (mBaseSize c) = q_len core c b).
    { unfold CeilDiv64. rewrite (co_m _ _ _ HC), (proj2 (Z.eqb_neq (gSize c) 0)) by lia.
      rewrite (u64_id (_ * _)), u64_id by nia.
      replace (_ + _ - 1) with (gSize c - 1 + q_len core c b * gSize c) by lia.
      rewrite Z.div_add, Z.div_small by lia. lia. }
    unfold batch_hi. rewrite Ecd, (u32_id (q_len core c b)), (u32_id (b + 1)), (u32_id (_ - 1)) by nia.
    destruct (Z.eqb_spec b (bN2End c - 1)), (Z.eqb_spec (b + 1) (bN2End c)); try lia;
      try specialize (Hg ltac:(lia)); destruct (Z.eqb_spec (q_len core c b) 0) as [E|],
      (Z.eqb_spec (gS1End c) 0), (bool_decide (outputLayout c = BSND));
      cbn [andb orb negb]; rewrite ?E in *; try done; lia. }
  rewrite Ehi. clear Ehi.
  assert (Hhi : batch_hi b <= Z.max 1 (q_len core c b))
    by (unfold batch_hi; repeat case_match; try lia; specialize (Hg ltac:(lia)); lia).
  eapply returns_bind_mono.
  { apply (row_loop_returns b _ _ _ h z); try done; try nia.
    - intros q Hq. split; [lia|]. split; [lia|]. unfold batch_hi in *.
      destruct (Z.eqb_spec (q_len core c b) 0); [right; repeat case_match; lia|left; lia].
    - destruct HQ. split; [done|]. by repeat split.
    - by eapply Run_frame; [..|exact HU]. }
  intros s' ([I1 I2] & l & El & HU'). apply returns_ok. cbn. rewrite I1. split; [done|].
  split; [apply I2|]. exists l. split; [done|]. by eapply Run_frame; [..|exact HU'].
Qed.
End Rows.

End SwaProofs.
