(* ===== verification/SwaRun.v ===== *)
(** * A run of the sliding-window kernel

    The tasks of the interval of a core, in order, and the proof that
    ProcessBalance issues exactly these, as one pipeline that is empty at the
    end.  Every query token meets every key of its window and every compressed
    key it may see in exactly one task. *)

From S2P Require Import Prelude SplitTypes RowSpec Metadata SasMeta SwaKernel SwaProofs.

Module SwaRun.
Import Swa SwaProofs.

(** ** The run of a core *)

Section Core.
Context (core : Core) (c : ConstInfo) (nb : Z) (HC : CoreOk core c nb).

(** The interval the core reads: from row [(bN2Start, gS1Start)] up to row
    [(bN2End, gS1End)], which is not included; rows are not split. *)
Record IntervalOk : Prop := {
  iv_b : 0 <= bN2Start c <= bN2End c /\ bN2End c <= nb;
  iv_g : 0 <= gS1Start c;
  iv_end : 0 <= gS1End c /\ (gS1End c <> 0 -> bN2End c < nb /\ gS1End c <= q_len core c (bN2End c));
  iv_same : bN2Start c = bN2End c -> gS1Start c <= gS1End c;
  iv_s2 : s2Start c = 0 /\ s2End c = 0
}.

Definition row_lo (b : Z) : Z := if b =? bN2Start c then gS1Start c else 0.
Definition row_hi (b : Z) : Z := if b =? bN2End c then gS1End c else q_len core c b.

(** Tasks of the rows of the interval, in order. *)
Definition batch_tasks (b : Z) : list Task := span_flat (row_tasks core c b) (row_lo b) (row_hi b).
Definition core_tasks : list Task := span_flat batch_tasks (bN2Start c) (bN2End c + 1).

(** Rows to clear. *)
Definition zero_hi (b : Z) : Z :=
  if b =? bN2End c then gS1End c
  else if (q_len core c b =? 0) && bool_decide (outputLayout c = BSND) then 1 else q_len core c b.
Definition batch_zeros (b : Z) : list Event := span_flat (row_zero core c b) (row_lo b) (zero_hi b).
Definition core_zeros : list Event := span_flat batch_zeros (bN2Start c) (bN2End c + 1).

(** The constants while the loop runs. *)
Definition running (e g : Z) : ConstInfo := c <| bN2End := e |> <| gS1Start := g |>.

Lemma CoreOk_running e g : CoreOk core (running e g) nb.
Proof.
  destruct HC as [? ? ? ? ? ? ? ? Hb]. split; try done. intros b Hr. destruct (Hb b Hr). by split.
Qed.

Lemma quiet_running e g t : quiet core (running e g) t <-> quiet core c t.
Proof. split; intros []; by split. Qed.

Lemma Run_running e g s h z : Run core (running e g) s h z <-> Run core c s h z.
Proof. split; intros []; by split. Qed.

Lemma running_row e g b :
  row_tasks core (running e g) b = row_tasks core c b /\ row_zero core (running e g) b = row_zero core c b.
Proof.
  unfold row_tasks, task, row_blocks, win_blocks, cmp_blocks, win_keys, win_first, cmp_keys,
    live, diag, q_before, kv_before, cmp_before, kv_len, q_len, block_keys, row_zero.
  split; reflexivity.
Qed.

Lemma running_q_len e g b : q_len core (running e g) b = q_len core c b.
Proof. reflexivity. Qed.

Definition end_batch : Z := if gS1End c =? 0 then bN2End c else bN2End c + 1.

(** The adjustment of ProcessBalance includes the last batch if it has rows. *)
Lemma end_batch_code :
  IntervalOk ->
  (if (if bN2Start c =? bN2End c then negb (gS1Start c =? gS1End c) || negb (s2Start c =? s2End c)
       else negb (gS1End c =? 0) || negb (s2End c =? 0))
   then c <| bN2End := u32 (bN2End c + 1) |> else c) =
  (if (bN2Start c =? bN2End c) && (gS1Start c =? gS1End c) then c else c <| bN2End := end_batch |>).
Proof.
  intros [[B1 B2] G [E1 E2] S [-> ->]]. pose proof (co_nb _ _ _ HC). unfold end_batch.
  rewrite Z.eqb_refl, !orb_false_r, u32_id by lia.
  destruct (Z.eqb_spec (bN2Start c) (bN2End c)), (Z.eqb_spec (gS1Start c) (gS1End c)),
    (Z.eqb_spec (gS1End c) 0); cbn [andb negb]; try done; try lia; by destruct c.
Qed.

Lemma empty_batch_tasks b q : q_len core c b = 0 -> 0 <= q -> row_tasks core c b q = [].
Proof.
  intros E Hq. unfold row_tasks, row_blocks, live. rewrite E, (proj2 (Z.ltb_ge q 0)), andb_false_r by lia. done.
Qed.

Lemma empty_batch_zeros b q :
  q_len core c b = 0 -> 0 <= q -> outputLayout c <> BSND -> row_zero core c b q = [].
Proof. intros E Hq Ho. unfold row_zero. rewrite E. by destruct (_ || _), (outputLayout c). Qed.

(** The rows the loop visits in a batch are those of the interval, up to the
    row of an empty batch. *)
Lemma batch_hi_row b g :
  IntervalOk -> bN2Start c <= b < end_batch ->
  (batch_hi core (running end_batch g) b = row_hi b /\ row_hi b = zero_hi b) \/
  (b < bN2End c /\ q_len core c b = 0 /\ 0 <= batch_hi core (running end_batch g) b <= 1 /\
   (outputLayout c = BSND -> batch_hi core (running end_batch g) b = zero_hi b)).
Proof.
  intros HI Hb. destruct HI as [[B1 B2] G [E1 E2] S _].
  destruct (co_batch _ _ _ HC b) as [[Q1 _] _ _ _ _ _ _ _ _]; [unfold end_batch in *; case_match; lia|].
  unfold batch_hi, zero_hi, row_hi, end_batch in *. cbn -[Z.eqb].
  change (q_len core (running _ g) b) with (q_len core c b).
  destruct (Z.eqb_spec (gS1End c) 0) as [Eg|Eg]; [|destruct (E2 Eg)];
    destruct (Z.eqb_spec b (bN2End c)) as [->|]; try lia; rewrite ?Eg;
    destruct (Z.eqb_spec (q_len core c b) 0) as [Eq|Eq] || destruct (Z.eqb_spec (q_len core c (bN2End c)) 0) as [Eq|Eq];
    rewrite ?Eq; try lia; cbn [andb negb];
    try (left; rewrite ?andb_false_r, ?(proj2 (Z.eqb_neq (b + 1) (bN2End c + 1))), ?Z.eqb_refl by lia; done);
    right; destruct (bool_decide (outputLayout c = BSND)) eqn:Eo; cbn [orb]; repeat case_match;
      repeat split; try lia; intros Ho; rewrite Ho in Eo; done.
Qed.

Lemma visited_tasks b g :
  IntervalOk -> bN2Start c <= b < end_batch ->
  span_flat (row_tasks core c b) (row_lo b) (batch_hi core (running end_batch g) b) = batch_tasks b.
Proof.
  intros HI Hb. pose proof (iv_g HI). unfold batch_tasks.
  destruct (batch_hi_row b g HI Hb) as [[-> _]|(Hlt & Eq & H1 & _)]; [done|].
  rewrite !span_flat_nil; [done|..]; intros i Hi; apply empty_batch_tasks; try done;
    unfold row_lo in Hi; case_match; lia.
Qed.

Lemma visited_zeros b g :
  IntervalOk -> bN2Start c <= b < end_batch ->
  span_flat (row_zero core c b) (row_lo b) (batch_hi core (running end_batch g) b) = batch_zeros b.
Proof.
  intros HI Hb. pose proof (iv_g HI). unfold batch_zeros.
  destruct (batch_hi_row b g HI Hb) as [[-> ->]|(Hlt & Eq & H1 & Hz)]; [done|].
  destruct (decide (outputLayout c = BSND)) as [Eo|Eo]; [by rewrite Hz|].
  rewrite !span_flat_nil; [done|..]; intros i Hi; apply empty_batch_zeros; try done;
    unfold row_lo in Hi; case_match; lia.
Qed.

Definition drained : bool := row_lo (end_batch - 1) <? batch_hi core (running end_batch 0) (end_batch - 1).

(** Between the batches. *)
Record in_core (b : Z) (s : State) : Prop := {
  ic_const : constInfo s = running end_batch (if b =? bN2Start c then gS1Start c else 0);
  ic_quiet : quiet core c (tempLoopInfo s);
  ic_run : exists l, view c <$> l = span_flat batch_tasks (bN2Start c) b /\
    Run core c s (rounds_of l (drain ((b =? end_batch) && drained)) [])
      (span_flat batch_zeros (bN2Start c) b)
}.

Lemma tasks_end (f : Z -> list Task) (g : Z -> list Event) :
  IntervalOk -> (gS1End c = 0 -> f (bN2End c) = []) -> (gS1End c = 0 -> g (bN2End c) = []) ->
  span_flat f (bN2Start c) end_batch = span_flat f (bN2Start c) (bN2End c + 1) /\
  span_flat g (bN2Start c) end_batch = span_flat g (bN2Start c) (bN2End c + 1).
Proof.
  intros [[B1 B2] _ _ _ _] Hf Hg. unfold end_batch. destruct (Z.eqb_spec (gS1End c) 0) as [E|]; [|done].
  by rewrite !span_flat_snoc, Hf, Hg, !app_nil_r by (done || lia).
Qed.

Lemma core_tasks_end :
  IntervalOk -> span_flat batch_tasks (bN2Start c) end_batch = core_tasks /\
    span_flat batch_zeros (bN2Start c) end_batch = core_zeros.
Proof.
  intros HI. pose proof (iv_g HI). apply tasks_end; [done|..]; intros E;
    unfold batch_tasks, batch_zeros, row_hi, zero_hi; rewrite Z.eqb_refl, E;
    apply span_flat_empty; unfold row_lo; case_match; lia.
Qed.

(** If the pipeline is not drained there was nothing in it. *)
Lemma undrained_empty :
  IntervalOk -> bN2Start c < end_batch -> drained = false ->
  span_flat batch_tasks (bN2Start c) end_batch = [].
Proof.
  intros HI Hlt Hd. apply Z.ltb_ge in Hd. destruct HI as [[B1 B2] G [E1 E2] S I].
  assert (Hone : end_batch - 1 = bN2Start c).
  { destruct (Z.eq_dec (end_batch - 1) (bN2Start c)) as [|Hne]; [done|].
    exfalso. unfold row_lo in Hd. rewrite (proj2 (Z.eqb_neq _ _) Hne) in Hd.
    destruct (co_batch _ _ _ HC (end_batch - 1)) as [[Q1 _] _ _ _ _ _ _ _ _];
      [unfold end_batch in *; case_match; lia|].
    unfold batch_hi in Hd. cbn -[Z.eqb end_batch] in Hd. replace (end_batch - 1 + 1) with end_batch in Hd by lia.
    rewrite Z.eqb_refl, orb_true_r in Hd. change (q_len core (running _ 0) ?b) with (q_len core c b) in Hd.
    destruct (Z.eqb_spec (q_len core c (end_batch - 1)) 0), (Z.eqb_spec (gS1End c) 0); cbn [andb negb] in Hd; lia. }
  replace end_batch with (bN2Start c + 1) by lia. rewrite span_flat_one.
  rewrite <- (visited_tasks (bN2Start c) 0) by (done || lia). apply span_flat_empty. by rewrite <- Hone.
Qed.

Lemma batch_loop_returns s :
  IntervalOk -> bN2Start c < end_batch -> in_core (bN2Start c) s ->
  Z.of_nat (length core_tasks) + 4 <= 2 ^ 32 ->
  returns (for_span (bN2Start c) end_batch (ProcessBatch core) s) (in_core end_batch).
Proof.
  intros HI Hlt HS Hl. destruct (core_tasks_end HI) as [Et _]. unfold for_span.
  eapply returns_mono; [apply (for_loop_returns in_core _ _ _ _ HS)|].
  2: { intros s'. by replace (bN2Start c + Z.of_nat (Z.to_nat (end_batch - bN2Start c))) with end_batch by lia. }
  intros b s1 Hb [Ec HQ (l & El & HU)]. rewrite (proj2 (Z.eqb_neq b end_batch)) in HU by lia.
  cbn [andb drain] in HU. set (g := if b =? bN2Start c then gS1Start c else 0) in *.
  assert (Hbr : bN2Start c <= b < end_batch) by lia.
  destruct (running_row end_batch g b) as [Erow Ezero].
  assert (Elo : gS1Start (running end_batch g) = row_lo b) by done.
  pose proof (visited_tasks b g HI Hbr) as Ev. pose proof (visited_zeros b g HI Hbr) as Ez.
  pose proof (span_flat_length batch_tasks (bN2Start c) b end_batch ltac:(lia)) as Hlen.
  rewrite Et, <- El, length_fmap in Hlen.
  destruct HI as [[B1 B2] G [E1 E2] S [I1 I2]].
  eapply returns_mono; [apply (ProcessBatch_returns core (running end_batch g) nb (CoreOk_running _ _) b s1
    (rounds_of l 0 []) (span_flat batch_zeros (bN2Start c) b))|].
  - done.
  - done.
  - cbn. lia.
  - cbn. unfold end_batch. destruct (Z.eqb_spec (gS1End c) 0) as [|Eg]; [|destruct (E2 Eg)]; lia.
  - cbn. unfold g. case_match; lia.
  - cbn. intros Hbe. destruct (Z.eqb_spec (gS1End c) 0) as [Eg|Eg].
    + rewrite Eg. destruct (co_batch _ _ _ HC b) as [[Q1 _] _ _ _ _ _ _ _ _]; [unfold end_batch in *; case_match; lia|].
      rewrite running_q_len. lia.
    + destruct (E2 Eg) as [_ Hle]. rewrite running_q_len.
      assert (b = bN2End c) as -> by (unfold end_batch in Hbe; rewrite (proj2 (Z.eqb_neq _ _) Eg) in Hbe; lia).
      split; [exact E1|exact Hle].
  - done.
  - by apply quiet_running.
  - by apply Run_running.
  - rewrite Erow, Elo, Ev. unfold rounds_of. cbn. rewrite app_nil_r, length_rev, length_fmap. lia.
  - intros s2 (Ec2 & HQ2 & l' & El' & HU2).
    rewrite Erow, Elo, Ev in El'. rewrite Ezero, Elo, Ez in HU2. split.
    + rewrite (proj2 (Z.eqb_neq (b + 1) (bN2Start c))) by lia. done.
    + by apply quiet_running in HQ2.
    + exists (l ++ l'). rewrite fmap_app, El. change (view c <$> l') with (view (running end_batch g) <$> l').
      rewrite El', !span_flat_snoc by lia. split; [done|].
      apply Run_running in HU2. rewrite rounds_of_app in HU2.
      replace ((b + 1 =? end_batch) && drained) with
        ((b + 1 =? bN2End (running end_batch g)) && (row_lo b <? batch_hi core (running end_batch g) b)); [done|].
      cbn -[Z.eqb batch_hi]. destruct (Z.eqb_spec (b + 1) end_batch) as [Ee|]; [|done]. cbn [andb].
      unfold drained. by replace (end_batch - 1) with b by lia.
Qed.

Lemma ProcessBalance_returns s :
  IntervalOk -> constInfo s = c -> quiet core c (tempLoopInfo s) -> trace s = [] ->
  Z.of_nat (length core_tasks) + 4 <= 2 ^ 32 ->
  returns (ProcessBalance core s) (fun s' => exists l, view c <$> l = core_tasks /\
    computed (trace s') = pipeline core c l /\ zeroed (trace s') = core_zeros).
Proof.
  intros HI Ec HQ Ht Hl. unfold ProcessBalance. cbv zeta. rewrite Ec, end_batch_code by done.
  destruct (core_tasks_end HI) as [Et Ez].
  destruct ((bN2Start c =? bN2End c) && (gS1Start c =? gS1End c)) eqn:Eempty.
  - apply andb_true_iff in Eempty as [E1%Z.eqb_eq E2%Z.eqb_eq]. rewrite E1. unfold for_span.
    rewrite Z.sub_diag. apply returns_ok. exists []. cbn [trace]. cbn. rewrite Ht.
    unfold core_tasks, core_zeros. rewrite E1, !span_flat_one. unfold batch_tasks, batch_zeros, row_lo, row_hi, zero_hi.
    rewrite E1, Z.eqb_refl, !span_flat_empty by lia. done.
  - assert (Hlt : bN2Start c < end_batch).
    { destruct HI as [[B1 B2] G [D1 D2] S _]. unfold end_batch. apply andb_false_iff in Eempty as [E%Z.eqb_neq|E%Z.eqb_neq];
        destruct (Z.eqb_spec (gS1End c) 0); lia. }
    eapply returns_mono; [apply (batch_loop_returns _ HI Hlt); [|done]|].
    + split; [rewrite Z.eqb_refl; done|done|]. exists []. rewrite !span_flat_empty by lia. split; [done|].
      rewrite (proj2 (Z.eqb_neq _ _)) by lia. split; [|done|cbn; by rewrite Ht..].
      split; cbn; [done|by exists new_RunInfo|by exists new_RunInfo].
    + intros s' [_ _ (l & El & [_ _ HT HZ])]. exists l. rewrite El, HT, HZ, Z.eqb_refl. split; [done|]. split; [|done].
      cbn [andb]. destruct drained eqn:Ed.
      * unfold rounds_of. cbn [drain]. rewrite app_nil_r. apply events_pipeline.
      * rewrite undrained_empty in El by done. apply fmap_nil_inv in El. by subst l.
Qed.

(** ** Every key exactly once *)

(** The task lets token [q] of batch [b] meet key [t] of its window ([ori]) or
    compressed key [t]. *)
Definition meets (b q : Z) (ori : bool) (t : Z) (k : Task) : bool :=
  (k_batch k =? b) && (k_token k =? q) && eqb (k_ori k) ori &&
  (k_first k <=? t) && (t <? k_first k + k_keys k).

(** The keys a token may see. *)
Definition visible (b q : Z) (ori : bool) (t : Z) : bool :=
  live core c b q &&
  (if ori then (win_first core c b q <=? t) && (t <=? diag core c b q)
   else (0 <=? t) && (t <? cmp_keys core c b q)).

Definition in_interval (b q : Z) : bool :=
  (bN2Start c <=? b) && (b <? bN2End c + 1) && (row_lo b <=? q) && (q <? row_hi b).

(** In a segment of [keys] keys from [first], key [t] is in block
    [(t - first) / sb]. *)
Lemma block_of_key first keys j t :
  0 < s2BaseSize c -> 0 <= keys -> 0 <= j < seg_blk (s2BaseSize c) keys ->
  (first + j * s2BaseSize c <=? t) &&
  (t <? first + j * s2BaseSize c + block_keys c (seg_blk (s2BaseSize c) keys) keys j) =
  (first <=? t) && (t <? first + keys) && (j =? (t - first) / s2BaseSize c).
Proof.
  intros Hsb Hk Hj. pose proof (proj1 (ceil_div_lt keys (s2BaseSize c) j ltac:(lia) ltac:(lia)) (proj2 Hj)).
  assert (Hlast : j + 1 = seg_blk (s2BaseSize c) keys \/ (j + 1) * s2BaseSize c < keys).
  { destruct (Z.eq_dec (j + 1) (seg_blk (s2BaseSize c) keys)); [by left|right].
    apply (ceil_div_lt keys (s2BaseSize c) (j + 1)); [lia|lia|]. unfold seg_blk in *. lia. }
  assert (Hfull : j + 1 = seg_blk (s2BaseSize c) keys -> keys <= (j + 1) * s2BaseSize c).
  { intros E. apply Z.le_ngt. intros Hc. apply (ceil_div_lt keys (s2BaseSize c) (j + 1)) in Hc; [|lia|lia].
    unfold seg_blk in E. lia. }
  pose proof (Z.div_mod (t - first) (s2BaseSize c) ltac:(lia)).
  pose proof (Z.mod_pos_bound (t - first) (s2BaseSize c) ltac:(lia)).
  unfold block_keys. destruct (Z.eqb_spec (j + 1) (seg_blk (s2BaseSize c) keys)) as [E|E];
    [specialize (Hfull E)|];
    destruct (Z.leb_spec (first + j * s2BaseSize c) t), (Z.leb_spec first t), (Z.ltb_spec t (first + keys)),
      (Z.eqb_spec j ((t - first) / s2BaseSize c)); cbn [andb];
    try (apply Z.ltb_lt); try (apply Z.ltb_ge); try done; try nia.
Qed.

(** The block of a key of the segment is one of its blocks. *)
Lemma key_block first keys t :
  0 < s2BaseSize c -> 0 <= keys -> first <= t < first + keys ->
  0 <= (t - first) / s2BaseSize c < seg_blk (s2BaseSize c) keys.
Proof.
  intros Hsb Hk Ht. split; [apply Z.div_pos; lia|].
  apply (ceil_div_lt keys (s2BaseSize c)); [lia|lia|].
  pose proof (Z.mul_div_le (t - first) (s2BaseSize c) Hsb). lia.
Qed.

(** First key, number of keys and first block of the two parts of a row. *)
Definition part_first (ori : bool) (b q : Z) : Z := if ori then win_first core c b q else 0.
Definition part_keys (ori : bool) (b q : Z) : Z := if ori then win_keys core c b q else cmp_keys core c b q.
Definition part_shift (ori : bool) (b q : Z) : Z := if ori then 0 else win_blocks core c b q.

Lemma task_meets b q ori t j :
  row_ok core c nb b q -> live core c b q = true -> 0 <= j < win_blocks core c b q + cmp_blocks core c b q ->
  meets b q ori t (task core c b q j) =
  (part_first ori b q <=? t) && (t <? part_first ori b q + part_keys ori b q) &&
  (j =? part_shift ori b q + (t - part_first ori b q) / s2BaseSize c).
Proof.
  intros Hrow El Hj. destruct (swa_row_bounds core c nb HC b q Hrow El) as (W1 & W2 & C1 & W3 & C3).
  pose proof (co_sb _ _ _ HC) as Hsb. unfold meets, task. cbn [k_batch k_token k_ori k_first k_keys].
  rewrite !Z.eqb_refl. cbn [andb].
  pose proof (key_block (part_first ori b q) (part_keys ori b q) t ltac:(lia)) as Hkb.
  destruct (Z.ltb_spec j (win_blocks core c b q)) as [Hw|Hw], ori; cbn [eqb andb];
    unfold part_first, part_keys, part_shift, win_blocks, cmp_blocks in *.
  - rewrite block_of_key by lia. by rewrite Z.add_0_l.
  - destruct (Z.leb_spec 0 t), (Z.ltb_spec t (0 + cmp_keys core c b q)); cbn [andb]; try done. lia.
  - destruct (Z.leb_spec (win_first core c b q) t),
      (Z.ltb_spec t (win_first core c b q + win_keys core c b q)); cbn [andb]; try done. lia.
  - rewrite <- (Z.add_0_l ((j - _) * _)), block_of_key by lia. f_equal.
    destruct (Z.eqb_spec (j - seg_blk (s2BaseSize c) (win_keys core c b q)) ((t - 0) / s2BaseSize c)),
      (Z.eqb_spec j (seg_blk (s2BaseSize c) (win_keys core c b q) + (t - 0) / s2BaseSize c)); done || lia.
Qed.

Lemma row_meets b q ori t :
  row_ok core c nb b q ->
  count (meets b q ori t) (row_tasks core c b q) = if visible b q ori t then 1%nat else O.
Proof.
  intros Hrow. unfold row_tasks, visible, row_blocks. destruct (live core c b q) eqn:El; [|done].
  destruct (swa_row_bounds core c nb HC b q Hrow El) as (W1 & W2 & C1 & W3 & C3).
  pose proof (co_sb _ _ _ HC) as Hsb. rewrite count_fmap. cbn [andb].
  rewrite (count_ext _ _ _ (fun j Hj => task_meets b q ori t j Hrow El (proj1 (elem_of_seqZ _ _ _) Hj))).
  pose proof (key_block (part_first ori b q) (part_keys ori b q) t ltac:(lia)) as Hkb.
  destruct ((part_first ori b q <=? t) && (t <? part_first ori b q + part_keys ori b q)) eqn:Ein; cbn [andb].
  - rewrite (count_seqZ _ (part_shift ori b q + (t - part_first ori b q) / s2BaseSize c)) by done.
    assert (Hin : part_first ori b q <= t < part_first ori b q + part_keys ori b q) by lia.
    unfold part_first, part_keys, part_shift, win_blocks, cmp_blocks, win_keys in *.
    destruct ori; repeat case_match; lia || done.
  - unfold part_first, part_keys, win_keys in *. 
    transitivity O; [by induction (seqZ 0 (win_blocks core c b q + cmp_blocks core c b q))|].
    destruct ori; case_match; lia || done.
Qed.

Lemma row_meets_other b q b' q' ori t :
  b' <> b \/ q' <> q -> count (meets b q ori t) (row_tasks core c b' q') = O.
Proof.
  intros H. unfold row_tasks. rewrite count_fmap.
  transitivity (count (fun _ : Z => false) (seqZ 0 (row_blocks core c b' q'))).
  - apply count_ext. intros j _. unfold meets, task. cbn [k_batch k_token].
    destruct (Z.eqb_spec b' b), (Z.eqb_spec q' q); done || lia.
  - by induction (seqZ 0 (row_blocks core c b' q')).
Qed.

Lemma interval_row_ok b q :
  IntervalOk -> bN2Start c <= b < bN2End c + 1 -> row_lo b <= q < row_hi b -> row_ok core c nb b q.
Proof.
  intros [[B1 B2] G [E1 E2] S _] Hb Hq. assert (0 <= q) by (unfold row_lo in Hq; case_match; lia).
  unfold row_hi in Hq. destruct (Z.eqb_spec b (bN2End c)) as [->|].
  - destruct E2; [lia|]. split; [lia|]. split; [done|]. lia.
  - split; [lia|]. split; [done|]. lia.
Qed.

(** In the tasks of a core a token meets a key once, if the token is in the
    interval and may see the key, and never otherwise. *)
Lemma core_meets b q ori t :
  IntervalOk ->
  count (meets b q ori t) core_tasks = if in_interval b q && visible b q ori t then 1%nat else O.
Proof.
  intros HI. unfold core_tasks, in_interval.
  set (n := if (row_lo b <=? q) && (q <? row_hi b) && visible b q ori t then 1%nat else O).
  rewrite (count_span _ _ b n).
  - unfold n. by destruct (bN2Start c <=? b), (b <? bN2End c + 1), (row_lo b <=? q), (q <? row_hi b).
  - intros b' Hb'. unfold batch_tasks.
    destruct (Z.eqb_spec b' b) as [->|Hne].
    + rewrite (count_span _ _ q (if visible b q ori t then 1%nat else O)).
      * unfold n. by destruct (row_lo b <=? q), (q <? row_hi b).
      * intros q' Hq'. destruct (Z.eqb_spec q' q) as [->|]; [|by apply row_meets_other; right].
        apply row_meets. by apply interval_row_ok.
    + rewrite (count_span _ _ q O); [by case_match|]. intros q' _.
      rewrite row_meets_other by (by left). by case_match.
Qed.
End Core.

(** ** The tasks in the trace *)

(** A task is issued by its first multiplication, or by its first vector
    stage. *)
Definition issued_by (e : Event) : option RunInfo :=
  match e with
  | EMm1 i start _ => if start =? 0 then Some i else None
  | EVec1 i => Some i
  | _ => None
  end.
Definition issued (tr : list Event) : list RunInfo := omap issued_by tr.

Lemma issued_computed tr : issued (computed tr) = issued tr.
Proof. unfold issued, computed. induction tr as [|[] tr IH]; cbn; by rewrite ?IH. Qed.

Section Issued.
Context (core : Core) (c : ConstInfo).

Lemma issued_pieces i base m :
  0 < base < 2 ^ 31 -> 0 < m < 2 ^ 31 ->
  omap issued_by ((fun p => EMm1 i p.1 p.2) <$> pieces base (CeilDiv m base) m) = [i].
Proof.
  intros Hb Hm. unfold pieces, CeilDiv. rewrite (proj2 (Z.eqb_neq base 0)), u32_id by lia.
  assert (Hc : 0 < (m + base - 1) / base) by (apply Z.div_str_pos; lia).
  assert (Hmax : (m + base - 1) / base * base <= m + base - 1) by (rewrite Z.mul_comm; apply Z.mul_div_le; lia).
  rewrite <- list_fmap_compose, seqZ_cons by lia. rewrite fmap_cons. cbn [omap list_omap compose fst].
  rewrite Z.mul_0_l. cbn [issued_by]. change (u32 0 =? 0) with true. f_equal.
  match goal with |- omap _ (?h <$> _) = _ =>
    assert (P : forall l, (forall x, x ∈ l -> 0 < x < (m + base - 1) / base) -> omap issued_by (h <$> l) = []) end.
  { induction l as [|x l IH]; intros Hl; [done|]. rewrite fmap_cons. cbn -[u32 Z.mul].
    pose proof (Hl x ltac:(left)). rewrite u32_id by nia. rewrite (proj2 (Z.eqb_neq _ 0)) by nia.
    apply IH. intros y Hy. apply Hl. by right. }
  apply P. intros x Hx%elem_of_seqZ. lia.
Qed.

Lemma issued_stage1 i :
  0 < nBufferMBaseSize c < 2 ^ 31 -> 0 < actMBaseSize i < 2 ^ 31 ->
  issued (stage1 core c (Some i)) = if isAIV core then [] else [i].
Proof. intros Hb Hm. unfold issued, stage1, ComputeMm1. destruct (isAIV core); [done|]. by apply issued_pieces. Qed.

Lemma issued_stage2 o : issued (stage2 core c o) = if isAIV core then option_list o else [].
Proof.
  unfold issued, stage2, mm2_events. destruct o as [i|], (isAIV core); try done.
  by induction (pieces _ _ _) as [|p l IH].
Qed.

Lemma issued_stage3 o : issued (stage3 core o) = [].
Proof. unfold issued, stage3. by destruct o, (isAIV core). Qed.

(** The pipeline issues its tasks, each once, in order. *)
Lemma issued_pipeline l :
  0 < nBufferMBaseSize c < 2 ^ 31 -> Forall (fun i => 0 < actMBaseSize i < 2 ^ 31) l ->
  issued (pipeline core c l) = l.
Proof.
  intros Hb Hl. unfold pipeline. set (p2 := @None RunInfo) at 2.
  enough (H : forall p1 p2, issued (rounds core c p1 p2 ((Some <$> l) ++ [None; None])) =
    (if isAIV core then option_list p1 else []) ++ l) by (rewrite H; by destruct (isAIV core)).
  clear p2. induction l as [|i l IH]; intros p1 p2; cbn [rounds fmap list_fmap app].
  - unfold issued at 1. rewrite !omap_app. fold (issued (stage2 core c p1)).
    fold (issued (stage3 core p1)). fold (issued (stage3 core p2)). fold (issued (stage2 core c None)).
    rewrite !issued_stage2, !issued_stage3. by destruct (isAIV core), p1.
  - apply Forall_cons_1 in Hl as [Hi Hl]. unfold issued at 1. rewrite !omap_app.
    fold (issued (stage1 core c (Some i))). fold (issued (stage2 core c p1)). fold (issued (stage3 core p2)).
    fold (issued (rounds core c (Some i) p1 ((Some <$> l) ++ [None; None]))).
    rewrite issued_stage1, issued_stage2, issued_stage3, IH by done. by destruct (isAIV core), p1.
Qed.
End Issued.

(** ** Stages *)

(** The events of a stage. *)
Definition is_mm1 (e : Event) : bool := match e with EMm1 _ _ _ => true | _ => false end.
Definition is_mm2 (e : Event) : bool := match e with EMm2 _ _ _ => true | _ => false end.
Definition is_vec1 (e : Event) : bool := match e with EVec1 _ => true | _ => false end.
Definition is_vec2 (e : Event) : bool := match e with EVec2 _ => true | _ => false end.

Definition stage_events (f : Event -> bool) (tr : list Event) : list Event := List.filter f tr.

Lemma stage_computed f tr : (forall e, f e = true -> is_zero e = false) ->
  stage_events f (computed tr) = stage_events f tr.
Proof.
  intros H. unfold stage_events, computed. induction tr as [|e tr IH]; [done|]. cbn.
  destruct (is_zero e) eqn:Ez; cbn.
  - destruct (f e) eqn:Ef; [by rewrite H in Ez|done].
  - by rewrite IH.
Qed.

Section Stages.
Context (core : Core) (c : ConstInfo).

(** A stage that selects only events of one of the three positions sees the
    tasks in order. *)
Lemma stage_pipeline (f : Event -> bool) (g1 g2 g3 : RunInfo -> list Event) l :
  (forall i, stage_events f (stage1 core c (Some i)) = g1 i) ->
  (forall i, stage_events f (stage2 core c (Some i)) = g2 i) ->
  (forall i, stage_events f (stage3 core (Some i)) = g3 i) ->
  ((forall i, g2 i = []) /\ (forall i, g3 i = [])) \/ ((forall i, g1 i = []) /\ (forall i, g3 i = [])) \/
  ((forall i, g1 i = []) /\ (forall i, g2 i = [])) ->
  stage_events f (pipeline core c l) = concat ((fun i => g1 i ++ g2 i ++ g3 i) <$> l).
Proof.
  intros H1 H2 H3 Hone. unfold pipeline.
  set (opt := fun (g : RunInfo -> list Event) o => match o with Some i => g i | None => [] end).
  assert (E1 : forall o, stage_events f (stage1 core c o) = opt g1 o) by (by intros [i|]).
  assert (E2 : forall o, stage_events f (stage2 core c o) = opt g2 o) by (by intros [i|]).
  assert (E3 : forall o, stage_events f (stage3 core o) = opt g3 o) by (by intros [i|]).
  enough (H : forall p1 p2, stage_events f (rounds core c p1 p2 ((Some <$> l) ++ [None; None])) =
    opt g3 p2 ++ opt g2 p1 ++ opt g3 p1 ++ concat ((fun i => g1 i ++ g2 i ++ g3 i) <$> l)) by apply (H None None).
  unfold stage_events in *.
  induction l as [|i l IH]; intros p1 p2; cbn [rounds fmap list_fmap app concat];
    rewrite !List.filter_app, ?E1, ?E2, ?E3; [|rewrite IH].
  - cbn. destruct Hone as [[A B]|[[A B]|[A B]]]; destruct p1, p2; cbn; rewrite ?A, ?B, ?app_nil_r; done.
  - destruct Hone as [[A B]|[[A B]|[A B]]]; destruct p1, p2; cbn; rewrite ?A, ?B; cbn; rewrite ?app_nil_r, <- ?app_assoc; done.
Qed.

Lemma filter_all {A} (f : Event -> bool) (g : A -> Event) l :
  (forall p, f (g p) = true) -> stage_events f (g <$> l) = g <$> l.
Proof. intros H. unfold stage_events. induction l as [|p l IH]; [done|]. cbn. by rewrite H, IH. Qed.
Lemma filter_none {A} (f : Event -> bool) (g : A -> Event) l :
  (forall p, f (g p) = false) -> stage_events f (g <$> l) = [].
Proof. intros H. unfold stage_events. induction l as [|p l IH]; [done|]. cbn. by rewrite H. Qed.

(** Every task goes through every stage once; the stages of a kind are in the
    order of the tasks. *)
Lemma pipeline_stages l :
  stage_events is_mm1 (pipeline core c l) = (if isAIV core then [] else concat (ComputeMm1 c <$> l)) /\
  stage_events is_mm2 (pipeline core c l) = (if isAIV core then [] else concat (mm2_events c <$> l)) /\
  stage_events is_vec1 (pipeline core c l) = (if isAIV core then EVec1 <$> l else []) /\
  stage_events is_vec2 (pipeline core c l) = (if isAIV core then EVec2 <$> l else []).
Proof.
  set (no := fun _ : RunInfo => @nil Event).
  assert (Hn : concat (no <$> l) = []) by (by induction l).
  assert (H1 : forall g : RunInfo -> Event, concat ((fun i => [g i]) <$> l) = g <$> l)
    by (intros g; induction l as [|x l IH]; cbn; [done|by rewrite IH]).
  assert (Hext : forall g h : RunInfo -> list Event, (forall i, g i = h i) -> concat (g <$> l) = concat (h <$> l))
    by (intros g h Hgh; f_equal; apply list_fmap_ext; auto).
  destruct (isAIV core) eqn:Ea; (split; [|split; [|split]]).
  - rewrite (stage_pipeline _ no no no); unfold stage1, stage2, stage3; rewrite ?Ea; auto.
  - rewrite (stage_pipeline _ no no no); unfold stage1, stage2, stage3; rewrite ?Ea; auto.
  - rewrite (stage_pipeline _ no (fun i => [EVec1 i]) no); unfold stage1, stage2, stage3; rewrite ?Ea; auto.
    apply (H1 EVec1).
  - rewrite (stage_pipeline _ no no (fun i => [EVec2 i])); unfold stage1, stage2, stage3; rewrite ?Ea; auto.
    apply (H1 EVec2).
  - rewrite (stage_pipeline _ (ComputeMm1 c) no no); unfold stage1, stage2, stage3; rewrite ?Ea; auto.
    + apply Hext. intros i. apply app_nil_r.
    + intros i. by apply filter_all.
    + intros i. by apply filter_none.
  - rewrite (stage_pipeline _ no (mm2_events c) no); unfold stage1, stage2, stage3; rewrite ?Ea; auto.
    + apply Hext. intros i. apply app_nil_r.
    + intros i. by apply filter_none.
    + intros i. by apply filter_all.
  - rewrite (stage_pipeline _ no no no); unfold stage1, stage2, stage3; rewrite ?Ea; auto;
      intros i; by apply filter_none.
  - rewrite (stage_pipeline _ no no no); unfold stage1, stage2, stage3; rewrite ?Ea; auto;
      intros i; by apply filter_none.
Qed.
End Stages.

(** ** From the launch to the trace *)

Definition params_of (l : Launch) : ConstInfo := InitTilingData (l_cfa l) (l_tiling l) new_ConstInfo.

(** The interval AI core [i] reads; core 0 starts at the first row. *)
Definition with_interval (faw : Z) (buf : list Z) (i : Z) (c : ConstInfo) : ConstInfo :=
  c <| bN2Start := if i =? 0 then bN2Start c else fa_get faw buf i FA_BN2_START_INDEX |>
    <| gS1Start := if i =? 0 then gS1Start c else fa_get faw buf i FA_M_START_INDEX |>
    <| s2Start := if i =? 0 then s2Start c else fa_get faw buf i FA_S2_START_INDEX |>
    <| bN2End := fa_get faw buf i FA_BN2_END_INDEX |>
    <| gS1End := fa_get faw buf i FA_M_END_INDEX |>
    <| s2End := fa_get faw buf i FA_S2_END_INDEX |>.

(** An index of a word of a row. *)
Ltac by_words :=
  cbv [FA_CORE_ENABLE_INDEX FA_BN2_START_INDEX FA_M_START_INDEX FA_S2_START_INDEX FA_BN2_END_INDEX
       FA_M_END_INDEX FA_S2_END_INDEX Sas.FA_METADATA_SIZE]; lia.

Lemma meta_word_ok core j :
  0 <= aiCoreIdx core < AIC_CORE_NUM -> 0 <= j < Sas.FA_METADATA_SIZE ->
  meta_words Sas.FA_METADATA_SIZE <= Z.of_nat (length (metadataGm core)) ->
  meta_word core j = Ok (fa_get Sas.FA_METADATA_SIZE (metadataGm core) (aiCoreIdx core) j).
Proof.
  intros Hi Hj Hl. unfold meta_word, fa_get.
  rewrite GetAttrAbsIndex_fa by (unfold Sas.FA_METADATA_SIZE in *; lia).
  apply vget_ok. unfold meta_words, AIC_CORE_NUM, AIV_CORE_NUM, FD_METADATA_SIZE, Sas.FA_METADATA_SIZE in *. lia.
Qed.

Lemma InitCalcParamsEach_ok core c :
  0 <= aiCoreIdx core < AIC_CORE_NUM ->
  meta_words Sas.FA_METADATA_SIZE <= Z.of_nat (length (metadataGm core)) ->
  InitCalcParamsEach core c =
    Ok (with_interval Sas.FA_METADATA_SIZE (metadataGm core) (aiCoreIdx core) c).
Proof.
  intros Hi Hl. unfold InitCalcParamsEach, with_interval.
  rewrite !meta_word_ok by (done || by_words). cbn [mbind res_bind].
  destruct (aiCoreIdx core =? 0); cbn [negb mbind res_bind]; [by destruct c|done].
Qed.

(** The parameters of a launch over [nb] batches are in the range the kernel is
    built for. *)
Definition LaunchOk (l : Launch) (nb : Z) : Prop := CoreOk (core_of l false 0) (params_of l) nb.

(** The block of AI core [i]: a cube core, or one of two vector cores. *)
Definition block_of (aiv : bool) (half i : Z) : Z := if aiv then 2 * i + half else i.

Section Launch.
Context (l : Launch) (nb : Z) (HL : LaunchOk l nb).
Context (Hlen : meta_words Sas.FA_METADATA_SIZE <= Z.of_nat (length (l_metadata l))).
Context (aiv : bool) (half : Z) (Hhalf : 0 <= half < 2).
Context (i : Z) (Hi : 0 <= i < AIC_CORE_NUM).

Abbreviation core := (core_of l aiv (block_of aiv half i)).
Definition const_of : ConstInfo := with_interval Sas.FA_METADATA_SIZE (l_metadata l) i (params_of l).

Lemma core_idx : aiCoreIdx core = i.
Proof. unfold block_of. cbn. destruct aiv; [|done]. Z.div_mod_to_equations. lia. Qed.

Lemma Init_ok : Init l aiv (block_of aiv half i) = Ok (core, new_State const_of).
Proof.
  unfold Init. fold (params_of l). rewrite InitCalcParamsEach_ok by (rewrite ?core_idx; done).
  by rewrite core_idx.
Qed.

Lemma launch_CoreOk : CoreOk core const_of nb.
Proof.
  destruct HL as [H1 H2 H3 H4 H5 H6 H7 H8 Hb]. split; try done. intros b Hr. by destruct (Hb b Hr).
Qed.

Lemma Process_returns :
  IntervalOk core const_of nb -> Z.of_nat (length (core_tasks core const_of)) + 4 <= 2 ^ 32 ->
  fa_get Sas.FA_METADATA_SIZE (l_metadata l) i FA_CORE_ENABLE_INDEX <> 0 ->
  returns (Process core (new_State const_of)) (fun s' =>
    view const_of <$> issued (trace s') = core_tasks core const_of /\
    computed (trace s') = pipeline core const_of (issued (trace s')) /\
    zeroed (trace s') = core_zeros core const_of).
Proof.
  intros HI Ht Hon. unfold Process. rewrite meta_word_ok by (rewrite ?core_idx; done || by_words).
  cbn [mbind res_bind]. rewrite core_idx, (proj2 (Z.eqb_neq _ 0)) by done.
  eapply returns_mono; [by apply (ProcessBalance_returns core const_of nb launch_CoreOk)|].
  intros s' (infos & Ev & Ec & Ez).
  assert (Ei : issued (trace s') = infos).
  { rewrite <- issued_computed, Ec. apply issued_pipeline.
    { change (nBufferMBaseSize const_of) with (nBufferMBaseSize (params_of l)).
      unfold params_of, InitTilingData. by destruct (l_cfa l). }
    apply List.Forall_forall. intros x Hx%list_elem_of_In.
    assert (Hv : view const_of x ∈ core_tasks core const_of) by (rewrite <- Ev; apply list_elem_of_fmap; by exists x).
    apply elem_of_span_flat in Hv as (b & _ & Hv). apply elem_of_span_flat in Hv as (q & _ & Hv).
    unfold row_tasks in Hv. apply list_elem_of_fmap in Hv as (j & Ej & _).
    apply (f_equal k_m) in Ej. change (actMBaseSize x = gSize (params_of l)) in Ej.
    rewrite Ej. apply (co_g _ _ _ HL). }
  by rewrite Ei.
Qed.
End Launch.
End SwaRun.
