(* ===== verification/SwaTheorems.v ===== *)
(** * Theorems on the sliding-window kernel and on its metadata

    What a core computes from the interval it reads, and what all cores compute
    together from the metadata that the AICPU kernel wrote: the scheduler and
    the attention kernel composed. *)

From S2P Require Import Prelude SplitTypes Workload RowSpec SharedKv SharedKvProofs.
From S2P Require Import Metadata PlanLoop MetaProofs SasMeta SasProofs Fixtures.
From S2P Require Import SwaKernel SwaProofs SwaRun.

Module SwaTheorems.
Import Swa SwaProofs SwaRun.

(** ** A launch that belongs to a metadata call *)

(** All tasks of a launch over [nb] batches. *)
Definition all_tasks (l : Launch) (nb : Z) : list Task :=
  span_flat (fun b => span_flat (row_tasks (core_of l false 0) (params_of l) b) 0
                        (q_len (core_of l false 0) (params_of l) b)) 0 nb.

(** The attention operator is launched for the problem that the scheduler [k]
    was asked to split: the same batches and, in each, as many rows as query
    tokens. *)
Record Agrees (k : Kernel) (l : Launch) : Prop := {
  ag_launch : LaunchOk l (batchSize_ k);
  ag_rows : forall b, 0 <= b < batchSize_ k ->
    q_len (core_of l false 0) (params_of l) b = rows_of k b;
  ag_tasks : Z.of_nat (length (all_tasks l (batchSize_ k))) + 4 <= 2 ^ 32
}.

(** The whole run of a block. *)
Definition run (l : Launch) (aiv : bool) (blockIdx : Z) : res State :=
  '(core, s) ← Init l aiv blockIdx; Process core s.

(** The number of tasks of a run in which token [q] of batch [b] meets key [t]. *)
Definition meetings (l : Launch) (b q : Z) (ori : bool) (t : Z) (s : State) : nat :=
  count (fun i => meets b q ori t (view (params_of l) i)) (issued (trace s)).

Section Composition.
Context (k : Kernel) (l : Launch) (HK : KernelOk k) (HA : Agrees k l).
Context (r : SplitResult) (vecNum : Z) (fd : FlashDecodeResult).
Context (HS : ScheduleOk (workload_of k) (aicCoreNum_ k) false fd r).
Context (HM : MetaOk Sas.FA_METADATA_SIZE (aicCoreNum_ k) vecNum r (l_metadata l)).
Context (Hlen : meta_words Sas.FA_METADATA_SIZE <= Z.of_nat (length (l_metadata l))).
Context (Hcores : aicCoreNum_ k <= AIC_CORE_NUM).
Context (aiv : bool) (half : Z) (Hhalf : 0 <= half < 2).

Abbreviation core i := (core_of l aiv (block_of aiv half i)).
Abbreviation const i := (const_of l i).
Abbreviation plan := (plan_of r).

(** The interval of a used core is that of the plan. *)
Lemma const_interval i :
  0 <= i < usedCoreNum r ->
  (bN2Start (const i), gS1Start (const i)) = pl_start plan i /\
  (bN2End (const i), gS1End (const i)) = pl_end plan i /\
  s2Start (const i) = 0 /\ s2End (const i) = 0.
Proof.
  intros Hi. destruct (mo_on _ _ _ _ _ HM i Hi) as [_ E1 E2 E3 E4 _].
  unfold const_of, with_interval. cbn -[fa_get params_of].
  destruct (Z.eqb_spec i 0) as [->|]; [|by rewrite E1, E3].
  rewrite E3. unfold params_of, InitTilingData. by destruct (l_cfa l).
Qed.

Lemma plan_pos i :
  0 <= i < usedCoreNum r -> 0 <= (pl_end plan i).1 <= batchSize_ k /\ 0 <= (pl_end plan i).2 /\
  ((pl_end plan i).2 <> 0 -> (pl_end plan i).1 < batchSize_ k /\
                             (pl_end plan i).2 <= rows_of k (pl_end plan i).1).
Proof.
  intros Hi. pose proof (sch_shape _ _ _ _ _ HS) as [Hn He Hl _]. pose proof (ko_batch k HK).
  destruct (Z.eq_dec i (usedCoreNum r - 1)) as [->|Hne].
  - cbn in Hl. cbn [pl_end plan_of]. rewrite Hl. cbn. lia.
  - destruct (He i ltac:(cbn; lia)) as [H1 H2]. cbn in H1, H2. cbn. lia.
Qed.

Lemma interval_ok i : 0 <= i < usedCoreNum r -> IntervalOk (core i) (const i) (batchSize_ k).
Proof.
  intros Hi. destruct (const_interval i Hi) as (Es & Ee & E1 & E2).
  pose proof (plan_pos i Hi) as (P1 & P2 & P3).
  assert (Q : 0 <= (pl_start plan i).1 /\ 0 <= (pl_start plan i).2).
  { unfold pl_start. destruct (Z.eqb_spec i 0); [done|]. destruct (plan_pos (i - 1) ltac:(lia)) as (? & ? & _). lia. }
  pose proof (plan_increasing _ _ _ (sch_shape _ _ _ _ _ HS) i ltac:(cbn; lia)) as Hinc.
  rewrite <- Es, <- Ee in *. unfold lexlt in Hinc. cbn [fst snd] in *.
  split; try done; try lia. split; [lia|]. intros Hne. destruct (P3 Hne) as [P4 P5]. split; [done|].
  change (q_len (core i) (const i) (bN2End (const i))) with (q_len (core_of l false 0) (params_of l) (bN2End (const i))).
  rewrite (ag_rows _ _ HA) by lia. done.
Qed.

(** A row is in the interval of a core exactly when the plan gives it to the
    core. *)
Lemma in_interval_plan i b q :
  0 <= i < usedCoreNum r -> 0 <= b < batchSize_ k -> 0 <= q < rows_of k b ->
  in_interval (core i) (const i) b q = true <-> Workload.in_core plan i b q.
Proof.
  intros Hi Hb Hq. destruct (const_interval i Hi) as (Es & Ee & _). unfold Workload.in_core.
  rewrite <- Es, <- Ee. unfold lexle, lexlt, in_interval, row_lo, row_hi. cbn [fst snd].
  change (q_len (core i) (const i) b) with (q_len (core_of l false 0) (params_of l) b).
  rewrite (ag_rows _ _ HA) by lia. rewrite !andb_true_iff, !Z.leb_le, !Z.ltb_lt.
  rewrite pair_eq. generalize (bN2Start (const i)) (bN2End (const i)) (gS1Start (const i)) (gS1End (const i)).
  intros b0 b1 g0 g1. destruct (Z.eqb_spec b b0), (Z.eqb_spec b b1); lia.
Qed.

(** The rows do not depend on the core. *)
Lemma row_tasks_launch i b :
  row_tasks (core i) (const i) b = row_tasks (core_of l false 0) (params_of l) b.
Proof.
  unfold row_tasks, task, row_blocks, win_blocks, cmp_blocks, win_keys, win_first, cmp_keys,
    live, diag, q_before, kv_before, cmp_before, kv_len, q_len, block_keys. reflexivity.
Qed.

Lemma q_len_launch i b : q_len (core i) (const i) b = q_len (core_of l false 0) (params_of l) b.
Proof. reflexivity. Qed.

Lemma core_tasks_le i :
  0 <= i < usedCoreNum r -> (length (core_tasks (core i) (const i)) <= length (all_tasks l (batchSize_ k)))%nat.
Proof.
  intros Hi. pose proof (interval_ok i Hi) as HI.
  destruct (core_tasks_end (core i) (const i) (batchSize_ k) HI) as [<- _].
  destruct HI as [[B1 B2] G [E1 E2] S _]. unfold all_tasks.
  assert (He : end_batch (const i) <= batchSize_ k).
  { unfold end_batch. destruct (Z.eqb_spec (gS1End (const i)) 0) as [|Hne]; [done|]. destruct (E2 Hne). lia. }
  apply span_flat_length_le; [lia|done|]. intros b Hb. unfold batch_tasks. rewrite row_tasks_launch.
  apply span_flat_length_le; [unfold row_lo; case_match; lia| |done].
  unfold row_hi. rewrite <- (q_len_launch i). destruct (Z.eqb_spec b (bN2End (const i))) as [->|]; [|done].
  destruct (Z.eq_dec (gS1End (const i)) 0) as [->|Hne]; [|by apply E2].
  rewrite q_len_launch, (ag_rows _ _ HA); [|unfold end_batch in *; case_match; lia].
  apply rows_range; [done|]. unfold end_batch in *; case_match; lia.
Qed.

(** The run of a used core, and of a core without work. *)
Lemma run_used i :
  0 <= i < usedCoreNum r ->
  returns (run l aiv (block_of aiv half i)) (fun s' =>
    view (const i) <$> issued (trace s') = core_tasks (core i) (const i) /\
    computed (trace s') = pipeline (core i) (const i) (issued (trace s')) /\
    zeroed (trace s') = core_zeros (core i) (const i)).
Proof.
  intros Hi. pose proof (plan_n _ _ _ (sch_shape _ _ _ _ _ HS)) as Hn. cbn in Hn.
  unfold run. rewrite Init_ok by (done || lia). cbn [mbind res_bind].
  pose proof (core_tasks_le i Hi). pose proof (ag_tasks _ _ HA).
  apply (Process_returns l (batchSize_ k)); try done; try lia.
  - apply (ag_launch _ _ HA).
  - by apply interval_ok.
  - destruct (mo_on _ _ _ _ _ HM i Hi) as [-> _ _ _ _ _]. done.
Qed.

Lemma run_unused i :
  usedCoreNum r <= i < aicCoreNum_ k ->
  run l aiv (block_of aiv half i) = Ok (new_State (const i)).
Proof.
  intros Hi. pose proof (plan_n _ _ _ (sch_shape _ _ _ _ _ HS)) as Hn. cbn in Hn.
  unfold run. rewrite Init_ok by (done || lia). cbn [mbind res_bind]. unfold Process.
  rewrite meta_word_ok; [|rewrite core_idx; lia|by_words|done]. rewrite core_idx by lia.
  cbn [metadataGm core_of]. rewrite (mo_off _ _ _ _ _ HM i Hi). done.
Qed.

Lemma run_meets i b q ori t :
  0 <= i < usedCoreNum r ->
  returns (run l aiv (block_of aiv half i)) (fun s' =>
    meetings l b q ori t s' =
      if in_interval (core i) (const i) b q && visible (core i) (const i) b q ori t then 1%nat else O).
Proof.
  intros Hi. eapply returns_mono; [by apply run_used|]. intros s' [Ev _].
  rewrite <- (core_meets (core i) (const i) (batchSize_ k)); [|by apply launch_CoreOk, (ag_launch _ _ HA)|by apply interval_ok].
  rewrite <- Ev, count_fmap. reflexivity.
Qed.
End Composition.

(** ** A concrete launch *)

(** Two sequences of 3 and 2 query tokens over 300 and 700 keys, 64 heads, a
    window of 128 keys and keys compressed by 4, on four AI cores. *)
Definition swa_demo_ctx : CpuKernelContext :=
  context [vec [0; 3; 5]; None; None; None; vec [300; 700]] (words 1024)
    [("num_heads_q", int_attr 64); ("num_heads_kv", int_attr 1); ("head_dim", int_attr 512);
     ("soc_version", str_attr "Ascend910_9391"); ("aic_core_num", int_attr 4);
     ("aiv_core_num", int_attr 8); ("cmp_topk", int_attr 0); ("cmp_ratio", int_attr 4);
     ("ori_mask_mode", int_attr 4); ("ori_win_left", int_attr 127);
     ("layout_q", str_attr "TND"); ("layout_kv", str_attr "PA_ND");
     ("has_ori_kv", bool_attr true); ("has_cmp_kv", bool_attr true)].
Definition swa_demo_kernel : Kernel := accepted (Sas.Prepare swa_demo_ctx new_Kernel) new_Kernel.
Definition swa_demo_row : RowState := mkRowState (fun _ _ => 0) new_S1GCache.
Definition swa_demo_meta : Z * list Z :=
  match Sas.Compute swa_demo_ctx new_Kernel swa_demo_row with Ok r => r | Fault _ => (0, []) end.

Definition swa_demo_tiling : TilingData :=
  mkTilingData 2 64 1024 3 TND 3 2 512 65536 65536 0 127 false 128 128 8 65536 4 2 65536.
Definition swa_demo_launch : Launch :=
  mkLaunch TND PA_ND true 4 [0; 3; 5] [] [] [] [300; 700] swa_demo_meta.2 swa_demo_tiling.

Lemma swa_demo_prepare : Sas.Prepare swa_demo_ctx new_Kernel = Ok (true, swa_demo_kernel).
Proof. vm_compute. reflexivity. Qed.

Lemma swa_demo_compute : Sas.Compute swa_demo_ctx new_Kernel swa_demo_row = Ok (swa_demo_meta.1, swa_demo_meta.2).
Proof. vm_compute. reflexivity. Qed.

Lemma swa_demo_metadata : l_metadata swa_demo_launch = swa_demo_meta.2.
Proof. unfold swa_demo_launch. cbn [l_metadata]. reflexivity. Qed.

Lemma swa_demo_sane : SasProofs.Sane swa_demo_kernel.
Proof.
  split.
  - by_compute.
  - by_compute.
  - apply sizes_okb_sound. by vm_compute.
  - apply sizes_okb_sound1. by vm_compute.
  - by_compute.
  - by_compute.
  - by_compute.
  - by_compute.
Qed.

Lemma swa_demo_LaunchOk : LaunchOk swa_demo_launch 2.
Proof.
  split.
  1-7: by_compute.
  - intros _. by_compute.
  - intros b Hb. assert (b = 0 \/ b = 1) as [-> | ->] by lia; split; try (intros; by_compute); by_compute.
Qed.

Lemma swa_demo_Agrees : Agrees swa_demo_kernel swa_demo_launch.
Proof.
  split.
  - replace (batchSize_ swa_demo_kernel) with 2 by by_compute. apply swa_demo_LaunchOk.
  - replace (batchSize_ swa_demo_kernel) with 2 by by_compute.
    intros b Hb. assert (b = 0 \/ b = 1) as [-> | ->] by lia; by_compute.
  - by_compute.
Qed.

(** ** What all cores compute together *)

(** The schedule behind a buffer that the metadata kernel wrote. *)
Lemma metadata_schedule c k srow status buf :
  Sas.Prepare c new_Kernel = Ok (true, k) -> SasProofs.Sane k ->
  Sas.Compute c new_Kernel srow = Ok (status, buf) ->
  KernelOk k /\ meta_words Sas.FA_METADATA_SIZE <= Z.of_nat (length buf) /\
  exists r, ScheduleOk (workload_of k) (aicCoreNum_ k) false
              (new_FlashDecodeResult (aicCoreNum_ k) (aivCoreNum_ k)) r /\
            MetaOk Sas.FA_METADATA_SIZE (aicCoreNum_ k) (aivCoreNum_ k) r buf.
Proof.
  intros Hp HS Hc. destruct (SasProofs.sas_Prepare_accepted c k Hp) as (A & _ & _).
  split; [by apply SasProofs.sas_accepted_KernelOk|].
  destruct (SasProofs.sas_Compute_returns_sized c srow k Hp HS) as ([st b] & E & _ & H).
  rewrite Hc in E. by injection E as _ <-.
Qed.

(** C1: scheduler and attention kernel together compute every attention score
    once: for every query token there is one AI core whose tasks meet the token
    with every key of its window and every compressed key it may see exactly
    once and with no other key, and no other core has a task for the token.
    Holds for the cube cores and for each half of the vector cores. *)
Theorem swa_each_key_once c k srow status buf l aiv half :
  Sas.Prepare c new_Kernel = Ok (true, k) -> SasProofs.Sane k ->
  Sas.Compute c new_Kernel srow = Ok (status, buf) -> l_metadata l = buf -> Agrees k l ->
  0 <= half < 2 ->
  forall b q, 0 <= b < batchSize_ k -> 0 <= q < q_len (core_of l false 0) (params_of l) b ->
  exists i, 0 <= i < aicCoreNum_ k /\
    forall j ori t, 0 <= j < aicCoreNum_ k ->
      returns (run l aiv (block_of aiv half j)) (fun s =>
        meetings l b q ori t s =
          if (j =? i) && visible (core_of l false 0) (params_of l) b q ori t then 1%nat else O).
Proof.
  intros Hp HS Hc Hl HA Hh b q Hb Hq.
  destruct (metadata_schedule c k srow status buf Hp HS Hc) as (HK & Hlen & r & Hr & HM).
  subst buf. rewrite (ag_rows _ _ HA) in Hq by done. pose proof (SasProofs.sn_aic _ HS) as Hcores.
  pose proof (sch_shape _ _ _ _ _ Hr) as Hsh. pose proof (plan_n _ _ _ Hsh) as Hn. cbn in Hn.
  destruct (plan_partition _ _ _ Hsh b q Hb (proj1 Hq)) as (i & Hi & Hin & Hu). cbn in Hi.
  exists i. split; [lia|]. intros j ori t Hj.
  destruct (Z.lt_ge_cases j (usedCoreNum r)) as [Hused|Hunused].
  - eapply returns_mono; [apply (run_meets k l HK HA r _ _ Hr HM Hlen Hcores aiv half Hh); lia|].
    intros s ->. pose proof (in_interval_plan k l HA r _ HM aiv half j b q ltac:(lia) Hb Hq) as Hiff.
    change (visible (core_of l aiv (block_of aiv half j)) (const_of l j) b q ori t)
      with (visible (core_of l false 0) (params_of l) b q ori t).
    destruct (Z.eqb_spec j i) as [->|Hne].
    + by rewrite (proj2 Hiff Hin).
    + destruct (in_interval _ _ b q); [|done]. exfalso. apply Hne, Hu; [cbn; lia|]. by apply Hiff.
  - rewrite (run_unused k l r _ _ Hr HM Hlen Hcores aiv half Hh) by lia. apply returns_ok. cbn.
    by rewrite (proj2 (Z.eqb_neq j i)) by lia.
Qed.

Lemma swa_each_key_once_witness :
  exists i, 0 <= i < aicCoreNum_ swa_demo_kernel /\
    forall j ori t, 0 <= j < aicCoreNum_ swa_demo_kernel ->
      returns (run swa_demo_launch true (block_of true 1 j)) (fun s =>
        meetings swa_demo_launch 1 1 ori t s =
          if (j =? i) && visible (core_of swa_demo_launch false 0) (params_of swa_demo_launch) 1 1 ori t
          then 1%nat else O).
Proof.
  apply (swa_each_key_once swa_demo_ctx swa_demo_kernel swa_demo_row swa_demo_meta.1 swa_demo_meta.2 swa_demo_launch true 1
           swa_demo_prepare swa_demo_sane swa_demo_compute swa_demo_metadata swa_demo_Agrees); by_compute.
Defined.

(** ** What one core computes *)

(** C18: an enabled core issues exactly the tasks of the rows of its interval, in
    order, as one pipeline over the three stages that is empty at the end; a
    vector core clears exactly the output rows without keys.  The run ends
    without a fault. *)
Theorem swa_core_run l nb aiv half i :
  LaunchOk l nb -> meta_words Sas.FA_METADATA_SIZE <= Z.of_nat (length (l_metadata l)) ->
  0 <= half < 2 -> 0 <= i < AIC_CORE_NUM ->
  fa_get Sas.FA_METADATA_SIZE (l_metadata l) i FA_CORE_ENABLE_INDEX <> 0 ->
  IntervalOk (core_of l aiv (block_of aiv half i)) (const_of l i) nb ->
  Z.of_nat (length (core_tasks (core_of l aiv (block_of aiv half i)) (const_of l i))) + 4 <= 2 ^ 32 ->
  returns (run l aiv (block_of aiv half i)) (fun s =>
    view (const_of l i) <$> issued (trace s) =
      core_tasks (core_of l aiv (block_of aiv half i)) (const_of l i) /\
    computed (trace s) = pipeline (core_of l aiv (block_of aiv half i)) (const_of l i) (issued (trace s)) /\
    zeroed (trace s) = core_zeros (core_of l aiv (block_of aiv half i)) (const_of l i)).
Proof.
  intros HL Hlen Hh Hi Hon HI Ht. unfold run. rewrite Init_ok by done. cbn [mbind res_bind].
  by apply (Process_returns l nb).
Qed.

Lemma swa_core_run_witness :
  returns (run swa_demo_launch false 1) (fun s =>
    view (const_of swa_demo_launch 1) <$> issued (trace s) =
      core_tasks (core_of swa_demo_launch false 1) (const_of swa_demo_launch 1) /\
    computed (trace s) = pipeline (core_of swa_demo_launch false 1) (const_of swa_demo_launch 1) (issued (trace s)) /\
    zeroed (trace s) = core_zeros (core_of swa_demo_launch false 1) (const_of swa_demo_launch 1)).
Proof.
  apply (swa_core_run swa_demo_launch 2 false 0 1 swa_demo_LaunchOk); by_compute.
Defined.

(** C21: every task a core issues goes through all its stages, each once and in
    the order of the tasks: both multiplications on a cube core, both vector
    stages on a vector core. *)
Theorem swa_stages_complete l nb aiv half i :
  LaunchOk l nb -> meta_words Sas.FA_METADATA_SIZE <= Z.of_nat (length (l_metadata l)) ->
  0 <= half < 2 -> 0 <= i < AIC_CORE_NUM ->
  fa_get Sas.FA_METADATA_SIZE (l_metadata l) i FA_CORE_ENABLE_INDEX <> 0 ->
  IntervalOk (core_of l aiv (block_of aiv half i)) (const_of l i) nb ->
  Z.of_nat (length (core_tasks (core_of l aiv (block_of aiv half i)) (const_of l i))) + 4 <= 2 ^ 32 ->
  returns (run l aiv (block_of aiv half i)) (fun s =>
    let tasks := issued (trace s) in
    if aiv then
      stage_events is_vec1 (trace s) = EVec1 <$> tasks /\ stage_events is_vec2 (trace s) = EVec2 <$> tasks
    else
      stage_events is_mm1 (trace s) = concat (ComputeMm1 (const_of l i) <$> tasks) /\
      stage_events is_mm2 (trace s) = concat (mm2_events (const_of l i) <$> tasks)).
Proof.
  intros HL Hlen Hh Hi Hon HI Ht. unfold run. rewrite Init_ok by done. cbn [mbind res_bind].
  eapply returns_mono; [by apply (Process_returns l nb)|]. intros s (_ & Ec & _).
  destruct (pipeline_stages (core_of l aiv (block_of aiv half i)) (const_of l i) (issued (trace s)))
    as (P1 & P2 & P3 & P4).
  change (isAIV (core_of l aiv (block_of aiv half i))) with aiv in P1, P2, P3, P4. rewrite <- Ec in P1, P2, P3, P4.
  rewrite !stage_computed in P1, P2, P3, P4 by (by intros []).
  cbn zeta. rewrite P1, P2, P3, P4. destruct aiv; split; reflexivity.
Qed.

Lemma swa_stages_complete_witness :
  returns (run swa_demo_launch true 2) (fun s =>
    stage_events is_vec1 (trace s) = EVec1 <$> issued (trace s) /\
    stage_events is_vec2 (trace s) = EVec2 <$> issued (trace s)).
Proof.
  apply (swa_stages_complete swa_demo_launch 2 true 0 1 swa_demo_LaunchOk); by_compute.
Defined.

(** ** The scheduler's prediction *)

(** The scheduler and the kernel are told the same keys: lengths, window,
    compression and size of a block. *)
Record SameKeys (k : Kernel) (l : Launch) : Prop := {
  sk_agrees : Agrees k l;
  sk_m : mBaseSize_ k = groupSize_ k;
  sk_sb : s2BaseSize_ k = s2BaseSize (params_of l);
  sk_s2 : forall b, 0 <= b < batchSize_ k -> kv_len (core_of l false 0) (params_of l) b = s2_of k b;
  sk_mask : mask_of k = Band (oriWinLeft (params_of l));
  sk_cmp : forall n, 0 <= n -> cmp_tokens k n =
    if Swa.isCFA (params_of l) then n / Swa.cmpRatio (params_of l) else 0
}.

Section Prediction.
Context (k : Kernel) (l : Launch) (HK : KernelOk k) (HK2 : SameKeys k l).
Abbreviation core0 := (core_of l false 0).
Abbreviation c0 := (params_of l).

Lemma rows_tokens b : 0 <= b < batchSize_ k -> rows_of k b = s1_of k b.
Proof.
  intros Hb. unfold rows_of, ceil_div. rewrite (sk_m _ _ HK2). pose proof (ko_g k HK).
  destruct (s1_spec k HK b Hb) as (_ & H1 & _).
  replace (_ + _ - 1) with (groupSize_ k - 1 + s1_of k b * groupSize_ k) by lia.
  rewrite Z.div_add, Z.div_small by lia. lia.
Qed.

(** The number of blocks of a row that the scheduler counts is the number of
    rounds the kernel makes for it. *)
Lemma predicted_blocks b q :
  0 <= b < batchSize_ k -> 0 <= q < rows_of k b -> row_blk k b q = row_blocks core0 c0 b q.
Proof.
  intros Hb Hq. pose proof (ag_rows _ _ (sk_agrees _ _ HK2) b Hb) as Eq. pose proof (rows_tokens b Hb) as Er.
  pose proof (sk_s2 _ _ HK2 b Hb) as Es. pose proof (ko_g k HK).
  destruct (s2_spec k HK b Hb) as (_ & H2 & _).
  assert (Et : tokens k b q = (Z.max 0 (q + s2_of k b - s1_of k b - oriWinLeft c0), q + s2_of k b - s1_of k b)).
  { unfold tokens. rewrite (sk_mask _ _ HK2). unfold row_tokens, row_first, row_last. rewrite (sk_m _ _ HK2).
    rewrite Z.div_mul, Z.min_l by nia. replace (_ - 1) with (groupSize_ k - 1 + q * groupSize_ k) by lia.
    by rewrite Z.div_add, Z.div_small by lia. }
  assert (Ed : diag core0 c0 b q = q + s2_of k b - s1_of k b) by (unfold diag; rewrite Es, Eq, Er; lia).
  assert (Ea : attends k b q = live core0 c0 b q).
  { unfold attends, live. rewrite Et, Ed, Eq. cbn [snd].
    rewrite (proj2 (Z.leb_le 0 q)), (proj2 (Z.ltb_lt q _)) by lia. cbn [andb]. rewrite andb_true_r.
    destruct (Z.ltb_spec 0 (s2_of k b)), (Z.leb_spec 0 (q + s2_of k b - s1_of k b)); done || lia. }
  unfold row_blk, row_blocks, win_blocks, cmp_blocks, win_len, cmp_len. rewrite Ea, (sk_sb _ _ HK2), Et.
  pose proof (co_sb _ _ _ (ag_launch _ _ (sk_agrees _ _ HK2))) as Hsb.
  destruct (live core0 c0 b q) eqn:El; [|by rewrite seg_blk_zero by lia].
  unfold live in El. unfold win_keys, win_first, cmp_keys. rewrite Ed, (sk_cmp _ _ HK2) by (cbn; lia). cbn [fst snd].
  by rewrite (Z.max_comm 0).
Qed.

(** Number of tasks of rows, of batches and of an interval. *)
Lemma rows_length b lo hi :
  0 <= b < batchSize_ k -> 0 <= lo -> hi <= rows_of k b ->
  Z.of_nat (length (span_flat (row_tasks core0 c0 b) lo hi)) = sumZ (row_blk k b) lo hi.
Proof.
  intros Hb Hlo Hhi. rewrite span_flat_length_sum. apply sumZ_ext. intros q Hq.
  unfold row_tasks. rewrite length_fmap, length_seqZ, Z2Nat.id; rewrite <- predicted_blocks by lia; [done|].
  apply (SharedKvProofs.row_bounds k HK). lia.
Qed.

Context (r : SplitResult) (vecNum : Z) (fd : FlashDecodeResult).
Context (HS : ScheduleOk (workload_of k) (aicCoreNum_ k) false fd r).
Context (HM : MetaOk Sas.FA_METADATA_SIZE (aicCoreNum_ k) vecNum r (l_metadata l)).
Context (aiv : bool) (half : Z).

Lemma core_tasks_work i :
  0 <= i < usedCoreNum r ->
  Z.of_nat (length (core_tasks (core_of l aiv (block_of aiv half i)) (const_of l i))) =
    core_work (workload_of k) (row_blk k) (plan_of r) i.
Proof.
  intros Hi. pose proof (sk_agrees _ _ HK2) as HA.
  pose proof (interval_ok k l HK HA r _ _ HS HM aiv half i Hi) as [[B1 B2] G [E1 E2] S _].
  destruct (const_interval k l r _ HM i Hi) as (Es & Ee & _).
  pose proof (plan_increasing _ _ _ (sch_shape _ _ _ _ _ HS) i ltac:(cbn; lia)) as Hinc.
  assert (Hst : gS1Start (const_of l i) <= rows_of k (bN2Start (const_of l i)) \/ gS1Start (const_of l i) = 0).
  { assert (F1 : bN2Start (const_of l i) = (pl_start (plan_of r) i).1) by (by rewrite <- Es).
    assert (F2 : gS1Start (const_of l i) = (pl_start (plan_of r) i).2) by (by rewrite <- Es). rewrite F1, F2.
    unfold pl_start. destruct (Z.eqb_spec i 0); [by right|].
    destruct (plan_pos k l HK r _ HS (i - 1) ltac:(lia)) as (_ & _ & P). lia. }
  unfold core_work. rewrite <- Es, <- Ee in *. cbn [fst snd] in *.
  assert (Hend : gS1End (const_of l i) <> 0 -> bN2End (const_of l i) < batchSize_ k /\
    gS1End (const_of l i) <= rows_of k (bN2End (const_of l i))).
  { intros Hne. destruct (E2 Hne) as [E3 E4]. rewrite q_len_launch, (ag_rows _ _ HA) in E4 by lia. done. }
  assert (Hrng : forall b, 0 <= b < batchSize_ k -> 0 <= rows_of k b) by (intros b Hb; by apply rows_range).
  unfold core_tasks. rewrite span_flat_length_sum, rest_diff; cbn [wl_nb wl_rows workload_of]; try done; try lia.
  - apply sumZ_ext. intros b Hb. unfold batch_tasks. rewrite row_tasks_launch. fold (row_lo (const_of l i) b).
    unfold row_hi. destruct (Z.eq_dec b (batchSize_ k)) as [Enb|Hne].
    + rewrite (proj2 (Z.eqb_eq b (bN2End (const_of l i)))) by lia.
      rewrite span_flat_empty, sumZ_empty; [done| |]; unfold row_lo; case_match; lia.
    + rewrite q_len_launch, (ag_rows _ _ HA), rows_length; [done|lia|unfold row_lo; case_match; lia| |lia].
      destruct (Z.eqb_spec b (bN2End (const_of l i))) as [->|]; [|done].
      specialize (Hrng (bN2End (const_of l i))). lia.
  - intros Hlt. destruct Hst as [|E0]; [done|]. rewrite E0. apply Hrng. lia.
  - intros Hlt. specialize (Hrng (bN2End (const_of l i))). lia.
Qed.
End Prediction.

(** S2 blocks of the interval of core [i], by the scheduler's model. *)
Definition meta_blocks (faw : Z) (buf : list Z) (wl : Workload) (i : Z) : Z :=
  rest wl (wl_blk wl) (meta_start faw buf i).1 (meta_start faw buf i).2 -
  rest wl (wl_blk wl) (meta_end faw buf i).1 (meta_end faw buf i).2.

(** C31: the work that the scheduler predicts is the work that is done: an
    enabled core executes exactly as many tasks as the scheduler counted S2
    blocks in its interval. *)
Theorem swa_predicted_work c k srow status buf l aiv half i :
  Sas.Prepare c new_Kernel = Ok (true, k) -> SasProofs.Sane k ->
  Sas.Compute c new_Kernel srow = Ok (status, buf) -> l_metadata l = buf -> SameKeys k l ->
  0 <= half < 2 -> 0 <= i < aicCoreNum_ k -> meta_on Sas.FA_METADATA_SIZE buf i ->
  returns (run l aiv (block_of aiv half i)) (fun s =>
    Z.of_nat (length (issued (trace s))) = meta_blocks Sas.FA_METADATA_SIZE buf (workload_of k) i).
Proof.
  intros Hp HS Hc Hl HK2 Hh Hi Hon. pose proof (sk_agrees _ _ HK2) as HA.
  destruct (metadata_schedule c k srow status buf Hp HS Hc) as (HK & Hlen & r & Hr & HM).
  apply (meta_on_used _ _ _ _ _ HM _ Hi) in Hon. subst buf.
  eapply returns_mono.
  { apply (run_used k l HK HA r _ _ Hr HM Hlen (SasProofs.sn_aic _ HS) aiv half Hh i). lia. }
  intros s (Ev & _). apply (f_equal length) in Ev. rewrite length_fmap in Ev. rewrite Ev.
  rewrite (core_tasks_work k l HK HK2 r _ _ Hr HM) by lia.
  destruct (meta_interval _ _ _ _ _ HM i ltac:(lia)) as [Es Ee].
  unfold core_work, meta_blocks. by rewrite Es, Ee.
Qed.

Lemma swa_demo_SameKeys : SameKeys swa_demo_kernel swa_demo_launch.
Proof.
  split; [apply swa_demo_Agrees|by_compute|by_compute| |by_compute|].
  - replace (batchSize_ swa_demo_kernel) with 2 by by_compute.
    intros b Hb. assert (b = 0 \/ b = 1) as [-> | ->] by lia; by_compute.
  - intros n Hn. unfold cmp_tokens.
    replace (hasCmpKv_ swa_demo_kernel) with true by by_compute.
    replace (SharedKv.isCFA swa_demo_kernel) with true by by_compute.
    replace (SharedKv.cmpRatio_ swa_demo_kernel) with 4 by by_compute. done.
Qed.

Lemma swa_predicted_work_witness :
  returns (run swa_demo_launch false 1) (fun s =>
    Z.of_nat (length (issued (trace s))) =
      meta_blocks Sas.FA_METADATA_SIZE swa_demo_meta.2 (workload_of swa_demo_kernel) 1).
Proof.
  apply (swa_predicted_work swa_demo_ctx swa_demo_kernel swa_demo_row swa_demo_meta.1 swa_demo_meta.2
           swa_demo_launch false 0 1 swa_demo_prepare swa_demo_sane swa_demo_compute swa_demo_metadata
           swa_demo_SameKeys); by_compute.
Defined.

(** ** Writing and reading the metadata *)

(** the interval that a core reads back from the metadata is the one that
    the schedule recorded for it: from the end of its predecessor (the first
    row for core 0) to its own end. *)
Theorem swa_interval_roundtrip k srow buf :
  KernelOk k -> supportFd k = false -> 0 < aicCoreNum_ k <= AIC_CORE_NUM ->
  0 <= aivCoreNum_ k <= AIV_CORE_NUM -> meta_words Sas.FA_METADATA_SIZE <= Z.of_nat (length buf) ->
  returns (r ← Sas.BalanceSchedule k srow (new_SplitResult (aicCoreNum_ k) (aivCoreNum_ k));
           buf ← Sas.GenMetaData k r buf; Ok (r, buf)) (fun '(r, buf) =>
    forall core c, metadataGm core = buf -> 0 <= aiCoreIdx core < usedCoreNum r ->
      (bN2Start c, gS1Start c, s2Start c) = (0, 0, 0) ->
      InitCalcParamsEach core c = Ok (c
        <| bN2Start := if aiCoreIdx core =? 0 then 0 else vat (SplitTypes.bN2End r) (aiCoreIdx core - 1) |>
        <| gS1Start := if aiCoreIdx core =? 0 then 0 else vat (SplitTypes.gS1End r) (aiCoreIdx core - 1) |>
        <| s2Start := 0 |>
        <| bN2End := vat (SplitTypes.bN2End r) (aiCoreIdx core) |>
        <| gS1End := vat (SplitTypes.gS1End r) (aiCoreIdx core) |>
        <| s2End := 0 |>)).
Proof.
  intros HK Hfd Hc Hv Hl. eapply returns_bind_mono.
  { apply (SasProofs.sas_BalanceSchedule_returns k (workload_of k) Hfd);
      [unfold AIC_CORE_NUM in *; lia|by apply SharedKv_KernelModel]. }
  intros r Hr. eapply returns_bind_mono.
  { unfold Sas.GenMetaData. eapply (gen_metadata_returns _ (workload_of k)); try exact Hr; try done; try lia.
    - apply (ko_batch k HK).
    - intros b Hb. by apply rows_range. }
  intros buf' [El HM]. apply returns_ok. intros core c Em Hi [= E1 E2 E3].
  pose proof (plan_n _ _ _ (sch_shape _ _ _ _ _ Hr)) as Hn. cbn in Hn.
  rewrite InitCalcParamsEach_ok; [|unfold AIC_CORE_NUM in *; lia|rewrite Em, El; done].
  destruct (mo_on _ _ _ _ _ HM _ Hi) as [_ S1 S3 D1 D3 _]. rewrite Em. unfold with_interval.
  unfold pl_start in S1. cbn [pl_end plan_of] in S1, D1. injection D1 as -> ->. rewrite D3.
  destruct (aiCoreIdx core =? 0); [by rewrite E1, E2, E3|]. injection S1 as -> ->. by rewrite S3.
Qed.

Lemma swa_interval_roundtrip_witness :
  returns (r ← Sas.BalanceSchedule swa_demo_kernel swa_demo_row (new_SplitResult 4 8);
           buf ← Sas.GenMetaData swa_demo_kernel r (replicate 1024 7); Ok (r, buf)) (fun '(r, buf) =>
    forall core c, metadataGm core = buf -> 0 <= aiCoreIdx core < usedCoreNum r ->
      (bN2Start c, gS1Start c, s2Start c) = (0, 0, 0) ->
      InitCalcParamsEach core c = Ok (c
        <| bN2Start := if aiCoreIdx core =? 0 then 0 else vat (SplitTypes.bN2End r) (aiCoreIdx core - 1) |>
        <| gS1Start := if aiCoreIdx core =? 0 then 0 else vat (SplitTypes.gS1End r) (aiCoreIdx core - 1) |>
        <| s2Start := 0 |>
        <| bN2End := vat (SplitTypes.bN2End r) (aiCoreIdx core) |>
        <| gS1End := vat (SplitTypes.gS1End r) (aiCoreIdx core) |>
        <| s2End := 0 |>)).
Proof.
  replace (new_SplitResult 4 8)
    with (new_SplitResult (aicCoreNum_ swa_demo_kernel) (aivCoreNum_ swa_demo_kernel)) by by_compute.
  apply (swa_interval_roundtrip swa_demo_kernel swa_demo_row (replicate 1024 7)); try by_compute.
  apply SasProofs.sas_accepted_KernelOk; [|apply swa_demo_sane].
  apply (SasProofs.sas_Prepare_accepted swa_demo_ctx _ swa_demo_prepare).
Defined.

(** ** The workspace *)

(** Bytes of the four buffers of a core. *)
Definition workspace_sizes (c : ConstInfo) : list Z :=
  [dbWorkspaceRatio * mmResUbSize c * sizeof_T; dbWorkspaceRatio * mmResUbSize c * sizeof_KV_T;
   dbWorkspaceRatio * bmm2ResUbSize c * sizeof_T; dbWorkspaceRatio * bmm2ResUbSize c * sizeof_T].

Lemma workspace_offsets_ok c n i :
  0 <= i < n -> 0 <= mmResUbSize c -> 0 <= bmm2ResUbSize c ->
  n * dbWorkspaceRatio * mmResUbSize c < 2 ^ 32 -> n * dbWorkspaceRatio * bmm2ResUbSize c < 2 ^ 32 ->
  let m := mmResUbSize c in let d := bmm2ResUbSize c in
  workspace_offsets n i c =
    [8 * (i * m); 8 * (n * m) + 4 * (i * m); 12 * (n * m) + 8 * (i * d);
     12 * (n * m) + 8 * (n * d) + 8 * (i * d)].
Proof.
  intros Hi Hm Hb Hwm Hwb m d. unfold workspace_offsets, dbWorkspaceRatio, PRELOAD_NUM, sizeof_T, sizeof_KV_T in *.
  fold m d in Hm, Hb, Hwm, Hwb |- *.
  assert (U : forall y, 0 <= y -> n * 2 * y < 2 ^ 32 -> u32 (u32 (i * 2) * y) = i * 2 * y).
  { intros y Hy Hw. destruct (Z.eq_dec y 0) as [->|]; [by rewrite !Z.mul_0_r|].
    rewrite (u32_id (i * 2)), u32_id by nia. done. }
  rewrite !U by done. assert (0 <= i * m <= n * m /\ 0 <= i * d <= n * d) by nia.
  rewrite (u64_id (n * 2 * m * 4)), (u64_id (_ + n * 2 * m * 2)), (u64_id (_ + n * 2 * d * 4)), !u64_id by lia.
  repeat (apply (f_equal2 cons); [ring|]). done.
Qed.

(** the workspace buffers of the cores do not overlap: two different buffers
    of one or two of the [n] cores are disjoint ranges of bytes, and all of
    them lie within the sum of the sizes. *)
Theorem swa_workspace_disjoint c n i i' (j j' : nat) o o' z z' :
  0 <= i < n -> 0 <= i' < n -> 0 <= mmResUbSize c -> 0 <= bmm2ResUbSize c ->
  n * dbWorkspaceRatio * mmResUbSize c < 2 ^ 32 -> n * dbWorkspaceRatio * bmm2ResUbSize c < 2 ^ 32 ->
  workspace_offsets n i c !! j = Some o -> workspace_offsets n i' c !! j' = Some o' ->
  workspace_sizes c !! j = Some z -> workspace_sizes c !! j' = Some z' -> (i, j) <> (i', j') ->
  (o + z <= o' \/ o' + z' <= o) /\ 0 <= o /\ o + z <= n * foldr Z.add 0 (workspace_sizes c).
Proof.
  intros Hi Hi' Hm Hb Hwm Hwb. rewrite !workspace_offsets_ok by done.
  unfold workspace_sizes, dbWorkspaceRatio, PRELOAD_NUM, sizeof_T, sizeof_KV_T. cbn zeta.
  set (m := mmResUbSize c) in *. set (d := bmm2ResUbSize c) in *. clearbody m d.
  assert (P : 0 <= i * m /\ i * m + m <= n * m /\ 0 <= i * d /\ i * d + d <= n * d) by nia.
  assert (P' : 0 <= i' * m /\ i' * m + m <= n * m /\ 0 <= i' * d /\ i' * d + d <= n * d) by nia.
  assert (Q : i = i' \/ (i * m + m <= i' * m /\ i * d + d <= i' * d) \/ (i' * m + m <= i * m /\ i' * d + d <= i * d)) by nia.
  cbn [foldr].
  assert (Et : n * (2 * m * 4 + (2 * m * 2 + (2 * d * 4 + (2 * d * 4 + 0)))) = 12 * (n * m) + 16 * (n * d)) by ring.
  rewrite Et.
  intros Ho Ho' Hz Hz' Hne.
  destruct j as [|[|[|[|]]]]; try done; cbn in Ho, Hz; injection Ho as <-; injection Hz as <-;
    (split; [|lia]); destruct j' as [|[|[|[|]]]]; try done; cbn in Ho', Hz'; injection Ho' as <-;
    injection Hz' as <-; (destruct Q as [<-|Q]; [done || lia|lia]).
Qed.

Lemma swa_workspace_disjoint_witness :
  (2359296 + 262144 <= 2621440 \/ 2621440 + 262144 <= 2359296) /\ 0 <= 2359296 /\
  2359296 + 262144 <= 4 * foldr Z.add 0 (workspace_sizes (params_of swa_demo_launch)).
Proof.
  apply (swa_workspace_disjoint (params_of swa_demo_launch) 4 1 2 1 1 2359296 2621440 262144 262144); by_compute.
Defined.
End SwaTheorems.
