(* ===== verification/SwaCube.v ===== *)
(** * Loading keys and values on the cube core

    DataCopyPA follows the block table of a paged cache; ComputeMm1 and
    ComputeMm2 of the cube block load the keys of a task in pieces of 128 and
    multiply them.  The model has the copies from global memory to L1, with
    their addresses; the multiplications and the flags between the pipes are
    left out. *)

From S2P Require Import Prelude SplitTypes RowSpec SwaKernel.

Module SwaCube.
Import Swa.

(** ** Data *)

Record PAShape := mkPAShape {
  blockSize : Z;
  pa_headNum : Z;
  pa_headDim : Z;
  kvStride : Z;
  maxblockNumPerBatch : Z;
  actHeadDim : Z;
  copyRowNum : Z;
  copyRowNumAlign : Z
}.

Record Position := mkPosition {
  p_bIdx : Z;
  p_n2Idx : Z;
  p_s2Idx : Z;
  p_dIdx : Z
}.

(** A DataCopy of a matrix: from element [cp_src] of the cache (of the window or
    of the compressed keys), [cp_rows] rows of [cp_cols] elements that are
    [cp_stride] apart, to element [cp_dst] of an L1 buffer.  The buffer holds
    columns in groups of 16; a group takes [cp_align] rows. *)
Record Copy := mkCopy {
  cp_cmp : bool;
  cp_src : Z;
  cp_rows : Z;
  cp_cols : Z;
  cp_stride : Z;
  cp_align : Z;
  cp_dst : Z
}.

Definition N_SPLIT_SIZE : Z := 128.
Definition K_L0_SPLIT_SIZE : Z := 128.
Definition K_L1_SPLIT_SIZE : Z := 256.
Definition D_SPLIT_SIZE : Z := 256.

(** [32 / sizeof(T)] for two-byte elements. *)
Definition blockElementCnt : Z := 16.

(** ** Copies of a paged cache *)

Record PaState := mkPaState {
  copyFinishRowCnt : Z;
  curS2 : Z;
  copies : list Copy
}.

(** Rows that can be copied without leaving the block of token [cur]. *)
Definition rows_in_block (size total fin rem : Z) : Z :=
  let cnt := u32 (size - rem) in
  if u32 (fin + cnt) >? total then u32 (total - fin) else cnt.

Definition DataCopyPA_step (cmp : bool) (table : list Z) (sh : PAShape) (pos : Position) (dst : Z)
    (st : PaState) : res (bool * PaState) :=
  if copyFinishRowCnt st <? copyRowNum sh then
    blk ← udiv (curS2 st) (blockSize sh);
    rem ← umod (curS2 st) (blockSize sh);
    idInBlockTable ← vget table (u64 (u32 (p_bIdx pos * maxblockNumPerBatch sh) + blk));
    let n := rows_in_block (blockSize sh) (copyRowNum sh) (copyFinishRowCnt st) rem in
    let offset := u64 (u64 idInBlockTable * kvStride sh +
                       u32 (u32 (p_n2Idx pos * pa_headDim sh) * blockSize sh) +
                       rem * pa_headDim sh + p_dIdx pos) in
    Ok (true, mkPaState (u32 (copyFinishRowCnt st + n)) (u32 (curS2 st + n))
                (copies st ++ [mkCopy cmp offset n (actHeadDim sh) (pa_headDim sh) (copyRowNumAlign sh)
                                 (dst + copyFinishRowCnt st * blockElementCnt)]))
  else Ok (false, st).

Definition DataCopyPA (cmp : bool) (table : list Z) (sh : PAShape) (pos : Position) (dst : Z)
    : res (list Copy) :=
  st ← while_loop (S (Z.to_nat (copyRowNum sh))) (DataCopyPA_step cmp table sh pos dst)
         (mkPaState 0 (p_s2Idx pos) []);
  Ok (copies st).

(** ** Loads of the two multiplications *)

(** The caches of a core: block tables of the window keys and of the compressed
    keys. *)
Record Tables := mkTables {
  oriBlockTableGm : list Z;
  cmpBlockTableGm : list Z
}.

Section Loads.
Context (core : Core) (tables : Tables) (c : ConstInfo) (info : RunInfo).

(** Block size, stride and table width of the cache of the task. *)
Definition pa_block : Z := if isOri info then paOriBlockSize c else paCmpBlockSize c.
Definition pa_table : list Z := if isOri info then oriBlockTableGm tables else cmpBlockTableGm tables.
Definition pa_shape (cols align rows : Z) : PAShape :=
  mkPAShape (u32 pa_block) kvHeadNum headDim (if isOri info then oriKvStride c else cmpKvStride c)
    (if isOri info then oriMaxBlockNumPerBatch c else cmpMaxBlockNumPerBatch c) cols rows align.

(** [n] rows from token [cur] of a paged cache, block by block. *)
Definition pa_step (n cols align d dst : Z) (st : PaState) : res (bool * PaState) :=
  if copyFinishRowCnt st <? n then
    rem ← umod (curS2 st) pa_block;
    let cnt := rows_in_block pa_block n (copyFinishRowCnt st) rem in
    cs ← DataCopyPA (negb (isOri info)) pa_table (pa_shape cols align cnt)
           (mkPosition (bIdx info) 0 (curS2 st) d) (dst + copyFinishRowCnt st * 16);
    Ok (true, mkPaState (u32 (copyFinishRowCnt st + cnt)) (u32 (curS2 st + cnt)) (copies st ++ cs))
  else Ok (false, st).
Definition pa_rows (n cols align cur d dst : Z) : res (list Copy) :=
  st ← while_loop (S (Z.to_nat n)) (pa_step n cols align d dst) (mkPaState 0 cur []);
  Ok (copies st).

Definition seqStride : Z := u32 (kvHeadNum * headDim).

(** The first token of a task, at the width of the code. *)
Definition task_start : Z :=
  if isOri info then s2Idx info * s2BaseSize c + s2StartPoint info else relativeS2Idx info * s2BaseSize c.

(** Keys [nL1 * 128 ..] of the task, half [kL1] of the head dimension. *)
Definition mm1_load (nL1 kL1 n : Z) : res (list Copy) :=
  let off := nL1 * N_SPLIT_SIZE in
  let cmp := negb (isOri info) in
  match KV_LAYOUT_T core with
  | PA_ND => pa_rows n 256 (SASAlign n 16) (u32 (task_start + off)) (u32 (kL1 * 256)) 0
  | BSND =>
      rows ← (if isOri info then Ok (kvSeqSize c) else udiv (kvSeqSize c) (u64 (cmpRatio c)));
      let batchStride := u32 (rows * seqStride) in
      let cur := if isOri info then u32 task_start else u32 (task_start + off) in
      Ok [mkCopy cmp (u64 (bIdx info * batchStride + cur * seqStride + u32 (kL1 * D_SPLIT_SIZE)))
            n D_SPLIT_SIZE headDim (SASAlign n 16) 0]
  | TND =>
      let cur := u32 (task_start + off) in
      let base := if isOri info then tensorBOffset info else tensorCmpBOffset info in
      let half := if kL1 =? 0 then 0 else headDim / 2 in
      let more := if isOri info then nL1 * N_SPLIT_SIZE * headDim else 0 in
      Ok [mkCopy cmp (u64 (base + cur * headDim + half + more)) n (headDim / 2) headDim (SASAlign n 16) 0]
  end.

(** The loads of ComputeMm1: pieces of 128 keys, two halves of each. *)
Definition mm1_keys : res (list (Z * list Copy)) :=
  let nSize := actualSingleProcessSInnerSize info in
  let nL1Loops := CeilDiv nSize N_SPLIT_SIZE in
  for_range nL1Loops (fun nL1 acc =>
    let n := if nL1 =? u32 (nL1Loops - 1) then u32 (nSize - u32 (u32 (nL1Loops - 1) * N_SPLIT_SIZE))
             else N_SPLIT_SIZE in
    for_range 2 (fun kL1 acc => cs ← mm1_load nL1 kL1 n; Ok (acc ++ [(kL1, cs)])) acc) [].

(** Rows of the second multiplication: [n] values from piece [kL1] of the task,
    columns [nL1 * 128 ..] of the head dimension, to place [kL1 - kOffset]. *)
Definition mm2_load (nL1 nL1Size kL1 kOffset n : Z) : res (list Copy) :=
  let off := kL1 * K_L0_SPLIT_SIZE in
  let cmp := negb (isOri info) in
  let dst := u32 (u32 (kL1 - kOffset) * K_L0_SPLIT_SIZE * N_SPLIT_SIZE) in
  let d := u32 (nL1 * N_SPLIT_SIZE) in
  match KV_LAYOUT_T core with
  | PA_ND => pa_rows n nL1Size (SASAlign n 16) (u32 (task_start + off)) d dst
  | BSND =>
      rows ← (if isOri info then Ok (kvSeqSize c) else udiv (kvSeqSize c) (u64 (cmpRatio c)));
      let batchStride := u32 (rows * seqStride) in
      Ok [mkCopy cmp (u64 (bIdx info * batchStride + u32 (task_start + off) * seqStride + d))
            n nL1Size headDim (SASAlign n 16) dst]
  | TND =>
      let base := if isOri info then tensorBOffset info else tensorCmpBOffset info in
      Ok [mkCopy cmp (u64 (base + u32 (task_start + off) * headDim + d)) n N_SPLIT_SIZE headDim
            (SASAlign n 16) dst]
  end.

(** The loads of one L1 piece of up to 256 values, in parts of 128. *)
Definition mm2_piece (nL1 nL1Size kL1Size kOffset : Z) : res (list Copy) :=
  let kL0Loops := u32 (kL1Size + 128 - 1) / 128 in
  for_range kL0Loops (fun j acc =>
    let n := if j =? u32 (kL0Loops - 1) then u32 (kL1Size - u32 (u32 (kL0Loops - 1) * 128)) else 128 in
    cs ← mm2_load nL1 nL1Size (u32 (kOffset + j)) kOffset n; Ok (acc ++ cs)) [].

(** The loads of ComputeMm2: columns of 128, pieces of 256 values.  The offset of
    a piece is computed from the number of parts of the piece before. *)
Definition mm2_values : res (list (Z * list Copy)) :=
  let nSize := headDim in
  let nL1Loops := u32 (nSize + N_SPLIT_SIZE - 1) / N_SPLIT_SIZE in
  let kSize := actualSingleProcessSInnerSize info in
  let kL1Loops := u32 (kSize + 256 - 1) / 256 in
  '(acc, _) ← for_range nL1Loops (fun nL1 st =>
    let nL1Size := if nL1 =? u32 (nL1Loops - 1) then u32 (nSize - u32 (u32 (nL1Loops - 1) * N_SPLIT_SIZE))
                   else N_SPLIT_SIZE in
    for_range kL1Loops (fun k1 '(acc, kL0Loops) =>
      let kL1Size := if k1 =? u32 (kL1Loops - 1)
                     then u32 (kSize - u32 (u32 (kL1Loops - 1) * K_L1_SPLIT_SIZE)) else 256 in
      cs ← mm2_piece nL1 nL1Size kL1Size (u32 (k1 * kL0Loops));
      Ok (acc ++ [(nL1, cs)], u32 (kL1Size + 128 - 1) / 128)) st) ([], 2);
  Ok acc.
End Loads.
End SwaCube.
