(* ===== verification/SwaCubeProofs.v ===== *)
(** * The loads of the cube core, row by row

    The rows that a sequence of copies brings to L1, the walk over the blocks of
    a paged cache, and the rows of the pieces of both multiplications. *)

From S2P Require Import Prelude SplitTypes RowSpec SwaKernel SwaCube.

Module SwaCubeProofs.
Import Swa SwaCube.

(** ** Rows of copies *)

(** A row in L1: [r_cols] elements from element [r_src] of a cache. *)
Record Row := mkRow {
  r_dst : Z;
  r_cmp : bool;
  r_src : Z;
  r_cols : Z;
  r_align : Z
}.

Definition copy_row (cp : Copy) (r : Z) : Row :=
  mkRow (cp_dst cp + r * 16) (cp_cmp cp) (cp_src cp + r * cp_stride cp) (cp_cols cp) (cp_align cp).
Definition rows_copied (cs : list Copy) : list Row :=
  concat ((fun cp => copy_row cp <$> seqZ 0 (cp_rows cp)) <$> cs).

(** [n] rows at [dst], of which row [r] is the one at [addr r]. *)
Definition tile (dst : Z) (cmp : bool) (cols align : Z) (addr : Z -> Z) (n : Z) : list Row :=
  (fun r => mkRow (dst + r * 16) cmp (addr r) cols align) <$> seqZ 0 n.

Lemma rows_copied_app a b : rows_copied (a ++ b) = rows_copied a ++ rows_copied b.
Proof. unfold rows_copied. by rewrite fmap_app, concat_app. Qed.

Lemma tile_ext dst cmp cols align f g n :
  (forall r, 0 <= r < n -> f r = g r) -> tile dst cmp cols align f n = tile dst cmp cols align g n.
Proof.
  intros H. apply list_fmap_ext. intros i r [-> Hr]%lookup_seqZ. by rewrite H by lia.
Qed.

Lemma fmap_seqZ_shift {A} (f : Z -> A) m n : f <$> seqZ m n = (fun r => f (m + r)) <$> seqZ 0 n.
Proof.
  replace (seqZ m n) with (Z.add m <$> seqZ 0 n) by (rewrite fmap_add_seqZ; f_equal; lia).
  by rewrite <- list_fmap_compose.
Qed.

Lemma tile_app dst cmp cols align f n m :
  0 <= n -> 0 <= m -> tile dst cmp cols align f (n + m) =
  tile dst cmp cols align f n ++ tile (dst + n * 16) cmp cols align (fun r => f (n + r)) m.
Proof.
  intros Hn Hm. unfold tile. rewrite seqZ_app, fmap_app by done. f_equal.
  rewrite fmap_seqZ_shift. apply list_fmap_ext. intros i r _. f_equal. lia.
Qed.

(** One copy of rows that are [stride] apart. *)
Lemma one_copy cmp src n cols stride align dst :
  rows_copied [mkCopy cmp src n cols stride align dst] =
  tile dst cmp cols align (fun r => src + r * stride) n.
Proof. unfold rows_copied. cbn. by rewrite app_nil_r. Qed.

(** ** The walk over the blocks of a paged cache *)

Lemma rows_in_block_min size total fin rem :
  0 <= rem < size -> size <= 2 ^ 31 -> 0 <= fin < total -> total <= 2 ^ 31 ->
  rows_in_block size total fin rem = Z.min (size - rem) (total - fin).
Proof.
  intros Hr Hs Hf Ht. unfold rows_in_block. rewrite !u32_id by (rewrite ?u32_id; lia).
  destruct (Z.gtb_spec (fin + (size - rem)) total); lia.
Qed.

(** Both loops over a cache bring the rows [s2], [s2 + 1], ... to consecutive
    places. *)
Section Walk.
Context (dst s2 n : Z) (cmp : bool) (cols align : Z) (addr : Z -> Z).
Context (Hs2 : 0 <= s2) (Hend : s2 + n <= 2 ^ 31).

Record Walk (st : PaState) : Prop := {
  wk_fin : 0 <= copyFinishRowCnt st <= n;
  wk_cur : curS2 st = s2 + copyFinishRowCnt st;
  wk_rows : rows_copied (copies st) = tile dst cmp cols align (fun r => addr (s2 + r)) (copyFinishRowCnt st)
}.

Lemma Walk_start : 0 <= n -> Walk (mkPaState 0 s2 []).
Proof. split; cbn; try lia. done. Qed.

Lemma Walk_step st k cs :
  Walk st -> 0 <= k -> copyFinishRowCnt st + k <= n ->
  rows_copied cs = tile (dst + copyFinishRowCnt st * 16) cmp cols align (fun r => addr (curS2 st + r)) k ->
  Walk (mkPaState (u32 (copyFinishRowCnt st + k)) (u32 (curS2 st + k)) (copies st ++ cs)).
Proof.
  intros [Hf Hc Hr] Hk Hle E. split; cbn [copyFinishRowCnt curS2 copies]; rewrite ?u32_id by lia; [lia|lia|].
  rewrite rows_copied_app, Hr, E, tile_app by lia. f_equal.
  apply tile_ext. intros r _. f_equal. lia.
Qed.

(** A loop whose rounds make progress brings all rows. *)
Lemma Walk_loop step :
  0 <= n ->
  (forall st, Walk st -> copyFinishRowCnt st < n -> returns (step st) (fun '(again, st') =>
     again = true /\ Walk st' /\ copyFinishRowCnt st < copyFinishRowCnt st')) ->
  (forall st, n <= copyFinishRowCnt st -> step st = Ok (false, st)) ->
  returns (st ← while_loop (S (Z.to_nat n)) step (mkPaState 0 s2 []); Ok (copies st))
    (fun cs => rows_copied cs = tile dst cmp cols align (fun r => addr (s2 + r)) n).
Proof.
  intros Hn Hgo Hstop. eapply (returns_bind_mono _ _ (fun st => Walk st /\ copyFinishRowCnt st = n)).
  - apply (while_loop_returns Walk _ (fun st => Z.to_nat (n - copyFinishRowCnt st)));
      [|by apply Walk_start|cbn; lia].
    intros st HW. pose proof (wk_fin _ HW). destruct (Z.lt_ge_cases (copyFinishRowCnt st) n) as [Hlt|Hge].
    + eapply returns_mono; [by apply Hgo|]. intros [[] st'] (? & HW' & Hp); [|done].
      pose proof (wk_fin _ HW'). split; [done|lia].
    + rewrite Hstop by done. apply returns_ok. split; [done|lia].
  - intros st [HW E]. apply returns_ok. by rewrite (wk_rows _ HW), E.
Qed.
End Walk.

(** A paged cache: the block table, the width of its rows, the size of a block
    and the distance of the blocks in memory. *)
Definition paged (table : list Z) (first size stride d t : Z) : Z :=
  vat table (first + t / size) * stride + t mod size * headDim + d.

Record PagedOk (table : list Z) (first size stride s2 n : Z) : Prop := {
  pg_first : 0 <= first < 2 ^ 32;
  pg_size : 0 < size <= 2 ^ 31;
  pg_stride : 0 <= stride < 2 ^ 32;
  pg_ids : forall i, 0 <= vat table i < 2 ^ 31;
  pg_start : 0 <= s2;
  pg_end : s2 + n <= 2 ^ 31;
  pg_len : forall t, s2 <= t < s2 + n -> first + t / size < Z.of_nat (length table)
}.

Lemma paged_next table first size stride d t r :
  0 < size -> 0 <= t -> 0 <= r < size - t mod size ->
  paged table first size stride d (t + r) = paged table first size stride d t + r * headDim.
Proof.
  intros Hs Ht Hr. unfold paged.
  pose proof (Z.div_mod t size ltac:(lia)). pose proof (Z.mod_pos_bound t size ltac:(lia)).
  rewrite <- (Z.div_unique (t + r) size (t / size) (t mod size + r)) by lia.
  rewrite <- (Z.mod_unique (t + r) size (t / size) (t mod size + r)) by lia. lia.
Qed.

Lemma paged_range table first size stride d t :
  0 < size <= 2 ^ 31 -> 0 <= stride < 2 ^ 32 -> (forall i, 0 <= vat table i < 2 ^ 31) ->
  0 <= d < 2 ^ 32 -> 0 <= paged table first size stride d t < 2 ^ 64.
Proof.
  intros Hs Hst Hi Hd. unfold paged, headDim. specialize (Hi (first + t / size)).
  pose proof (Z.mod_pos_bound t size ltac:(lia)). nia.
Qed.

(** DataCopyPA brings the rows of [n] consecutive tokens. *)
Lemma DataCopyPA_returns cmp table cols align n b maxb size stride s2 d dst :
  let first := b * maxb in
  PagedOk table first size stride s2 n -> 0 <= n -> 0 <= d < 2 ^ 32 ->
  returns (DataCopyPA cmp table (mkPAShape size kvHeadNum headDim stride maxb cols n align)
             (mkPosition b 0 s2 d) dst)
    (fun cs => rows_copied cs = tile dst cmp cols align (fun r => paged table first size stride d (s2 + r)) n).
Proof.
  intros first [Hf Hs Hst Hi H0 He Hl] Hn Hd. unfold DataCopyPA. cbn [copyRowNum p_s2Idx].
  apply Walk_loop; try lia.
  - intros st HW Hlt. unfold DataCopyPA_step. cbn [copyRowNum blockSize p_bIdx maxblockNumPerBatch kvStride p_n2Idx pa_headDim p_dIdx actHeadDim copyRowNumAlign].
    rewrite (proj2 (Z.ltb_lt _ _) Hlt). pose proof (wk_fin _ _ _ _ _ _ _ _ HW). pose proof (wk_cur _ _ _ _ _ _ _ _ HW) as Ec.
    pose proof (Z.mod_pos_bound (curS2 st) size ltac:(lia)).
    assert (Hq : 0 <= curS2 st / size <= curS2 st) by (split; [apply Z.div_pos; lia|apply Z.div_le_upper_bound; nia]).
    rewrite udiv_ok, umod_ok by lia. cbn [mbind res_bind].
    specialize (Hl (curS2 st) ltac:(lia)).
    rewrite (u32_id (b * maxb)), u64_id by (fold first; lia). fold first.
    rewrite vget_ok by lia. cbn [mbind res_bind]. rewrite rows_in_block_min by lia.
    set (k := Z.min (size - curS2 st mod size) (n - copyFinishRowCnt st)).
    assert (Eo : u64 (u64 (vat table (first + curS2 st / size)) * stride + u32 (u32 (0 * headDim) * size) +
                      curS2 st mod size * headDim + d) = paged table first size stride d (curS2 st)).
    { pose proof (paged_range table first size stride d (curS2 st) Hs Hst Hi Hd) as Hr.
      rewrite (u64_id (vat _ _)) by (specialize (Hi (first + curS2 st / size)); lia).
      replace (u32 (u32 (0 * headDim) * size)) with 0 by done. rewrite Z.add_0_r. by apply u64_id. }
    rewrite Eo. apply returns_ok. split; [done|]. split; [|cbn; rewrite u32_id; lia].
    apply Walk_step; try done; try lia. rewrite one_copy. unfold blockElementCnt.
    apply tile_ext. intros r Hr. by rewrite paged_next by lia.
  - intros st Hge. unfold DataCopyPA_step. cbn [copyRowNum]. by rewrite (proj2 (Z.ltb_ge _ _) Hge).
Qed.

Lemma PagedOk_part table first size stride s2 n s2' n' :
  PagedOk table first size stride s2 n -> s2 <= s2' -> s2' + n' <= s2 + n ->
  PagedOk table first size stride s2' n'.
Proof. intros [] ? ?. split; try done; try lia. intros t Ht. apply pg_len0. lia. Qed.

Lemma paged_shift table first size stride d t :
  paged table first size stride d t = paged table first size stride 0 t + d.
Proof. unfold paged. lia. Qed.

(** ** Loads of a task *)

Section Loads.
Context (core : Core) (tables : Tables) (c : ConstInfo) (info : RunInfo).

Abbreviation keys := (actualSingleProcessSInnerSize info).
Abbreviation start := (task_start c info).
Abbreviation cmp := (negb (isOri info)).

Definition pa_first : Z := bIdx info * (if isOri info then oriMaxBlockNumPerBatch c else cmpMaxBlockNumPerBatch c).
Definition pa_stride : Z := if isOri info then oriKvStride c else cmpKvStride c.
Definition seq_rows : Z := if isOri info then kvSeqSize c else kvSeqSize c / cmpRatio c.
Definition tnd_base : Z := if isOri info then tensorBOffset info else tensorCmpBOffset info.

(** Where the cache of the task has key [t] of its batch. *)
Definition key_addr (t : Z) : Z :=
  match KV_LAYOUT_T core with
  | PA_ND => paged (pa_table tables info) pa_first (pa_block c info) pa_stride 0 t
  | BSND => bIdx info * (seq_rows * headDim) + t * headDim
  | TND => tnd_base + t * headDim
  end.

Record LoadOk : Prop := {
  lo_keys : 0 <= keys;
  lo_start : 0 <= start;
  lo_end : start + keys <= 2 ^ 31;
  lo_paged : KV_LAYOUT_T core = PA_ND ->
    PagedOk (pa_table tables info) pa_first (pa_block c info) pa_stride start keys;
  lo_bsnd : KV_LAYOUT_T core = BSND ->
    0 < cmpRatio c < 2 ^ 63 /\ 0 <= seq_rows /\ seq_rows * headDim < 2 ^ 32 /\ 0 <= bIdx info < 2 ^ 31;
  lo_tnd : KV_LAYOUT_T core = TND -> 0 <= tnd_base < 2 ^ 63
}.
Context (HL : LoadOk).

Lemma pa_rows_returns n cols align cur d dst :
  PagedOk (pa_table tables info) pa_first (pa_block c info) pa_stride cur n -> 0 <= n -> 0 <= d < 2 ^ 32 ->
  returns (pa_rows tables c info n cols align cur d dst) (fun cs => rows_copied cs =
    tile dst cmp cols align (fun r => paged (pa_table tables info) pa_first (pa_block c info) pa_stride d (cur + r)) n).
Proof.
  intros HP Hn Hd. destruct (HP) as [Hf Hs Hst Hi H0 He Hl]. unfold pa_rows.
  apply Walk_loop; try lia.
  - intros st HW Hlt. unfold pa_step. rewrite (proj2 (Z.ltb_lt _ _) Hlt).
    pose proof (wk_fin _ _ _ _ _ _ _ _ HW). pose proof (wk_cur _ _ _ _ _ _ _ _ HW) as Ec.
    pose proof (Z.mod_pos_bound (curS2 st) (pa_block c info) ltac:(lia)).
    rewrite umod_ok by lia. cbn [mbind res_bind]. rewrite rows_in_block_min by lia.
    set (k := Z.min _ _). unfold pa_shape. rewrite (u32_id (pa_block c info)) by lia. fold pa_stride.
    eapply returns_bind_mono.
    { apply DataCopyPA_returns; fold pa_first; [|lia|done]. eapply PagedOk_part; [exact HP|lia|lia]. }
    fold pa_first. intros cs Ecs. apply returns_ok. split; [done|]. split; [|cbn; rewrite u32_id; lia].
    apply Walk_step; try done; lia.
  - intros st Hge. unfold pa_step. by rewrite (proj2 (Z.ltb_ge _ _) Hge).
Qed.

Lemma seq_rows_code : KV_LAYOUT_T core = BSND ->
  (if isOri info then Ok (kvSeqSize c) else udiv (kvSeqSize c) (u64 (cmpRatio c))) = Ok seq_rows.
Proof.
  intros E. destruct (lo_bsnd HL E) as (Hr & _). unfold seq_rows. destruct (isOri info); [done|].
  rewrite u64_id by lia. by rewrite udiv_ok by lia.
Qed.

(** Piece [p] of the first multiplication: of the layouts without blocks, the
    window is loaded from its first key only. *)
Lemma mm1_load_returns p h n :
  0 <= p -> 0 <= h < 2 -> 0 <= n -> p * 128 + n <= keys ->
  p = 0 \/ isOri info = false \/ KV_LAYOUT_T core = PA_ND ->
  returns (mm1_load core tables c info p h n) (fun cs => rows_copied cs =
    tile 0 cmp 256 (SASAlign n 16) (fun r => key_addr (start + p * 128 + r) + h * 256) n).
Proof.
  intros Hp Hh Hn Hle Hfirst. pose proof (lo_start HL). pose proof (lo_end HL).
  unfold mm1_load, N_SPLIT_SIZE, D_SPLIT_SIZE, key_addr. destruct (KV_LAYOUT_T core) eqn:EL.
  - destruct (lo_bsnd HL EL) as (Hr & R0 & R1 & Hb). rewrite seq_rows_code by done. cbn [mbind res_bind].
    unfold seqStride, kvHeadNum in *. change (u32 (1 * headDim)) with headDim. rewrite (u32_id (_ * headDim)) by (unfold headDim in *; lia).
    assert (Ec : (if isOri info then u32 start else u32 (start + p * 128)) = start + p * 128).
    { destruct Hfirst as [->|[->|?]]; [|by rewrite u32_id by lia|congruence].
      rewrite Z.mul_0_l, Z.add_0_r. destruct (isOri info); by rewrite u32_id by lia. }
    rewrite Ec, (u32_id (h * 256)), u64_id by (unfold headDim in *; nia). apply returns_ok. rewrite one_copy.
    apply tile_ext. intros r Hr'. lia.
  - destruct (lo_tnd HL EL) as [T0 T1]. fold tnd_base. apply returns_ok. rewrite one_copy.
    change (headDim / 2) with 256. apply tile_ext. intros r Hr'.
    assert (Em : (if isOri info then p * 128 * headDim else 0) = 0).
    { destruct Hfirst as [->|[->|?]]; [|done|congruence]. by destruct (isOri info). }
    rewrite Em, (u32_id (start + _)) by lia. destruct (Z.eqb_spec h 0); rewrite u64_id by (unfold headDim; lia); lia.
  - eapply returns_mono.
    { apply pa_rows_returns; [|done|rewrite u32_id; lia]. rewrite u32_id by lia.
      eapply PagedOk_part; [by apply (lo_paged HL)|lia|lia]. }
    intros cs ->. apply tile_ext. intros r Hr. rewrite paged_shift, !u32_id by lia. done.
Qed.

(** Columns [j * 128 ..] of part [p] of the values, to place [p - p0] of L1. *)
Lemma mm2_load_returns j p p0 n :
  0 <= j < 4 -> 0 <= p0 <= p -> p < p0 + 2 -> 0 <= n -> p * 128 + n <= keys ->
  returns (mm2_load core tables c info j 128 p p0 n) (fun cs => rows_copied cs =
    tile ((p - p0) * 16384) cmp 128 (SASAlign n 16) (fun r => key_addr (start + p * 128 + r) + j * 128) n).
Proof.
  intros Hj Hp Hp1 Hn Hle. pose proof (lo_start HL). pose proof (lo_end HL).
  unfold mm2_load, N_SPLIT_SIZE, K_L0_SPLIT_SIZE, key_addr.
  rewrite (u32_id (start + _)), (u32_id (j * 128)), (u32_id (p - p0)), u32_id by (rewrite ?u32_id; lia).
  replace ((p - p0) * 128 * 128) with ((p - p0) * 16384) by lia. destruct (KV_LAYOUT_T core) eqn:EL.
  - destruct (lo_bsnd HL EL) as (Hr & R0 & R1 & Hb). rewrite seq_rows_code by done. cbn [mbind res_bind].
    unfold seqStride, kvHeadNum in *. change (u32 (1 * headDim)) with headDim. rewrite (u32_id (_ * headDim)) by (unfold headDim in *; lia).
    rewrite u64_id by (unfold headDim in *; nia). apply returns_ok. rewrite one_copy. apply tile_ext. lia.
  - destruct (lo_tnd HL EL) as [T0 T1]. fold tnd_base. apply returns_ok. rewrite one_copy.
    apply tile_ext. intros r Hr'. rewrite u64_id by (unfold headDim; lia). lia.
  - eapply returns_mono.
    { apply pa_rows_returns; [|done|lia]. eapply PagedOk_part; [by apply (lo_paged HL)|lia|lia]. }
    intros cs ->. apply tile_ext. intros r Hr. by rewrite paged_shift.
Qed.
(** ** All loads of a task *)

Definition entry_rows (e : Z * list Copy) : Z * list Row := (e.1, rows_copied e.2).

Lemma entry_snoc acc j cs : entry_rows <$> (acc ++ [(j, cs)]) = (entry_rows <$> acc) ++ [(j, rows_copied cs)].
Proof. by rewrite fmap_app. Qed.

(** Keys of part [p], when [n] keys are taken [size] at a time. *)
Definition part (size n p : Z) : Z := Z.min size (n - p * size).

Lemma parts_range size n p :
  0 < size -> 0 <= p < (n + size - 1) / size -> 0 < part size n p <= size /\ p * size + part size n p <= n.
Proof. intros Hs Hp. unfold part. pose proof (Z.div_mod (n + size - 1) size). pose proof (Z.mod_pos_bound (n + size - 1) size). nia. Qed.

(** The size that the code computes, the last part apart from the others. *)
Lemma part_code size n p :
  0 < size -> size <= 512 -> 0 <= n <= 2 ^ 31 -> 0 <= p < (n + size - 1) / size ->
  (if p =? u32 ((n + size - 1) / size - 1) then u32 (n - u32 (u32 ((n + size - 1) / size - 1) * size)) else size) =
  part size n p.
Proof.
  intros Hs Hs' Hn Hp. pose proof (Z.div_mod (n + size - 1) size ltac:(lia)) as Ed.
  pose proof (Z.mod_pos_bound (n + size - 1) size ltac:(lia)) as Hm.
  set (k := (n + size - 1) / size) in *. assert (k * size <= n + size - 1) by lia.
  assert (k <= n + size - 1) by nia. assert (0 <= (k - 1) * size <= n) by nia.
  rewrite (u32_id (k - 1)), (u32_id ((k - 1) * size)), u32_id by lia.
  unfold part. destruct (Z.eqb_spec p (k - 1)) as [->|]; nia.
Qed.

(** The tile of part [p] of the keys, half [h] of the columns. *)
Definition mm1_tile (p h : Z) : list Row :=
  tile 0 cmp 256 (SASAlign (part 128 keys p) 16) (fun r => key_addr (start + p * 128 + r) + h * 256) (part 128 keys p).

Lemma mm1_keys_returns :
  keys <= 128 \/ isOri info = false \/ KV_LAYOUT_T core = PA_ND ->
  returns (mm1_keys core tables c info) (fun out => entry_rows <$> out =
    span_flat (fun p => [(0, mm1_tile p 0); (1, mm1_tile p 1)]) 0 ((keys + 128 - 1) / 128)).
Proof.
  intros Hfirst. pose proof (lo_keys HL). pose proof (lo_start HL). pose proof (lo_end HL).
  unfold mm1_keys, CeilDiv, N_SPLIT_SIZE. cbn [Z.eqb]. rewrite (u32_id (keys + _ - _)) by lia.
  apply (for_range_returns (fun i out => entry_rows <$> out =
    span_flat (fun p => [(0, mm1_tile p 0); (1, mm1_tile p 1)]) 0 i)); [apply Z.div_pos; lia|done|].
  intros p out Hp Eout. rewrite part_code by lia. destruct (parts_range 128 keys p) as [Hr Hr']; [lia..|].
  rewrite span_flat_snoc by lia. rewrite <- Eout.
  assert (Hf : p = 0 \/ isOri info = false \/ KV_LAYOUT_T core = PA_ND)
    by (destruct Hfirst as [|]; [left; ediv|by right]).
  eapply returns_mono; [apply (for_range_returns (fun h acc => entry_rows <$> acc =
    (entry_rows <$> out) ++ span_flat (fun h => [(h, mm1_tile p h)]) 0 h)); [lia|by rewrite app_nil_r|]|done].
  intros h acc Hh Eacc. eapply returns_bind_mono; [apply mm1_load_returns; done || lia|].
  intros cs Ecs. apply returns_ok. by rewrite entry_snoc, Eacc, Ecs, span_flat_snoc, app_assoc by lia.
Qed.

(** The tiles of piece [k] of the values, columns [j * 128 ..]. *)
Definition mm2_tile (j k i : Z) : list Row :=
  tile (i * 16384) cmp 128 (SASAlign (part 128 keys (2 * k + i)) 16)
    (fun r => key_addr (start + (2 * k + i) * 128 + r) + j * 128) (part 128 keys (2 * k + i)).
Definition mm2_parts (k : Z) : Z := (part 256 keys k + 128 - 1) / 128.
Definition mm2_rows (j k : Z) : list Row := span_flat (mm2_tile j k) 0 (mm2_parts k).

Lemma mm2_part k i :
  0 <= k < (keys + 256 - 1) / 256 -> 0 <= i < mm2_parts k ->
  part 128 (part 256 keys k) i = part 128 keys (2 * k + i) /\
  0 <= 2 * k + i < (keys + 128 - 1) / 128 /\ i < 2.
Proof. unfold mm2_parts, part. intros Hk Hi. split; [|split]; ediv. Qed.

Lemma mm2_piece_returns j k :
  0 <= j < 4 -> 0 <= k < (keys + 256 - 1) / 256 ->
  returns (mm2_piece core tables c info j 128 (part 256 keys k) (2 * k))
    (fun cs => rows_copied cs = mm2_rows j k).
Proof.
  intros Hj Hk. pose proof (lo_keys HL). pose proof (lo_start HL). pose proof (lo_end HL).
  destruct (parts_range 256 keys k) as [P0 P1]; [lia..|].
  assert (Hk2 : k < 2 ^ 30) by lia.
  unfold mm2_piece. rewrite (u32_id (part 256 keys k + _ - _)) by lia. fold (mm2_parts k).
  apply (for_range_returns (fun i cs => rows_copied cs = span_flat (mm2_tile j k) 0 i));
    [apply Z.div_pos; lia|done|].
  intros i cs Hi Ecs. destruct (mm2_part k i Hk Hi) as (Ep & Hp & Hi2).
  pose proof (part_code 128 (part 256 keys k) i) as Ec. fold (mm2_parts k) in Ec. rewrite Ec, Ep by lia.
  destruct (parts_range 128 keys (2 * k + i)) as [Q0 Q1]; [lia..|]. rewrite (u32_id (2 * k + i)) by lia.
  eapply returns_bind_mono; [apply mm2_load_returns; lia|].
  intros cs' Ecs'. apply returns_ok. rewrite rows_copied_app, Ecs, Ecs', span_flat_snoc by lia. f_equal.
  unfold mm2_tile. by replace (2 * k + i - 2 * k) with i by lia.
Qed.

Lemma mm2_values_returns :
  returns (mm2_values core tables c info) (fun out => entry_rows <$> out =
    span_flat (fun j => span_flat (fun k => [(j, mm2_rows j k)]) 0 ((keys + 256 - 1) / 256)) 0 4).
Proof.
  pose proof (lo_keys HL). pose proof (lo_start HL). pose proof (lo_end HL).
  unfold mm2_values, N_SPLIT_SIZE, K_L1_SPLIT_SIZE. change (u32 (headDim + 128 - 1) / 128) with 4.
  rewrite (u32_id (keys + 256 - 1)) by lia. set (loops := (keys + 256 - 1) / 256).
  set (cols := fun j => span_flat (fun k => [(j, mm2_rows j k)]) 0 loops).
  eapply (returns_bind_mono _ _ (fun '(out, _) => entry_rows <$> out = span_flat cols 0 4));
    [|intros [out kl] E; by apply returns_ok].
  apply (for_range_returns (fun j '(out, _) => entry_rows <$> out = span_flat cols 0 j)); [lia|done|].
  intros j [out kl] Hj Eout.
  replace (if j =? _ then _ else 128) with 128 by (case_match; done). rewrite span_flat_snoc, <- Eout by lia.
  eapply returns_mono; [apply (for_range_returns (fun k '(acc, kl) =>
    entry_rows <$> acc = (entry_rows <$> out) ++ span_flat (fun k => [(j, mm2_rows j k)]) 0 k /\
    (0 < k < loops -> kl = 2)) loops)|].
  - apply Z.div_pos; lia.
  - split; [by rewrite app_nil_r|lia].
  - intros k [acc kl'] Hk [Eacc Ekl]. pose proof (part_code 256 keys k) as Ec. fold loops in Ec. rewrite Ec by lia.
    destruct (parts_range 256 keys k) as [P0 P1]; [lia..|].
    replace (u32 (k * kl')) with (2 * k)
      by (destruct (Z.eq_dec k 0) as [->|]; [done|rewrite Ekl, u32_id by lia; lia]).
    eapply returns_bind_mono; [by apply mm2_piece_returns|]. intros cs Ecs. apply returns_ok. split.
    + by rewrite entry_snoc, Eacc, Ecs, span_flat_snoc, app_assoc by lia.
    + intros Hk'. rewrite u32_id by lia. unfold part in *. unfold loops in *. ediv.
  - intros [acc kl'] [E _]. done.
Qed.
End Loads.
End SwaCubeProofs.
