(* ===== verification/SwaCubeTheorems.v ===== *)
(** * Theorems on the loads of the cube core

    The keys and values that reach L1 are those of the task, whatever the layout
    of the cache and the order of its blocks; they fit the buffer; and the keys
    of all tasks of a run are those that the tasks are about. *)

From S2P Require Import Prelude SplitTypes RowSpec Metadata MetaProofs SasMeta Fixtures.
From S2P Require Import SwaKernel SwaProofs SwaRun SwaTheorems SwaCube SwaCubeProofs.

Module SwaCubeTheorems.
Import Swa SwaProofs SwaRun SwaTheorems SwaCube SwaCubeProofs.

(** ** What has been loaded *)

(** Rows of the entries [j]: half [j] of the columns of the keys, quarter [j] of
    the columns of the values. *)
Definition of_column (j : Z) (l : list (Z * list Row)) : list Row :=
  concat (snd <$> List.filter (fun e => e.1 =? j) l).
Definition loaded (j : Z) (out : list (Z * list Copy)) : list Row := of_column j (entry_rows <$> out).

Lemma of_column_app j a b : of_column j (a ++ b) = of_column j a ++ of_column j b.
Proof. unfold of_column. by rewrite List.filter_app, fmap_app, concat_app. Qed.

Lemma of_column_cons j e l : of_column j (e :: l) = (if e.1 =? j then e.2 else []) ++ of_column j l.
Proof. unfold of_column. cbn. by destruct (e.1 =? j). Qed.

(** The columns [j] of entries that are grouped by column. *)
Lemma of_column_spans j n m (f : Z -> Z -> list Row) :
  0 <= j < n ->
  of_column j (span_flat (fun i => span_flat (fun k => [(i, f i k)]) 0 m) 0 n) = span_flat (f j) 0 m.
Proof.
  intros Hj. rewrite (span_flat_hom (of_column j)) by (done || apply of_column_app).
  assert (E : forall i, of_column j (span_flat (fun k => [(i, f i k)]) 0 m) =
    if i =? j then span_flat (f i) 0 m else []).
  { intros i. rewrite (span_flat_hom (of_column j)) by (done || apply of_column_app).
    destruct (i =? j) eqn:Ei; [apply span_flat_ext|apply span_flat_nil]; intros k _;
      rewrite of_column_cons; cbn [fst snd]; by rewrite Ei, ?app_nil_r. }
  rewrite (span_flat_split _ 0 j), (span_flat_split _ j (j + 1)), span_flat_one, E, Z.eqb_refl by lia.
  rewrite (span_flat_nil _ 0 j), (span_flat_nil _ (j + 1) n); [by rewrite app_nil_r|..]; intros i Hi; cbn beta; by rewrite E, (proj2 (Z.eqb_neq i j)) by lia.
Qed.

(** Parts of [size] keys one after the other are all keys. *)
Lemma parts_all {A} (f : Z -> A) size n :
  0 < size -> 0 <= n ->
  span_flat (fun p => f <$> seqZ (p * size) (part size n p)) 0 ((n + size - 1) / size) = f <$> seqZ 0 n.
Proof.
  intros Hs Hn. assert (H : forall i, 0 <= i -> i <= (n + size - 1) / size ->
    span_flat (fun p => f <$> seqZ (p * size) (part size n p)) 0 i = f <$> seqZ 0 (Z.min n (i * size))).
  { apply (natlike_ind (fun i => i <= _ -> _)); [by rewrite Z.min_r by lia|].
    intros i Hi IH Hle. destruct (parts_range size n i Hs ltac:(lia)). unfold Z.succ.
    rewrite span_flat_snoc, IH, <- fmap_app by lia. f_equal. unfold part in *.
    replace (Z.min n ((i + 1) * size)) with (Z.min n (i * size) + Z.min size (n - i * size)) by lia.
    rewrite seqZ_app by lia. repeat f_equal. lia. }
  rewrite H; [|apply Z.div_pos; lia|done]. repeat f_equal.
  pose proof (Z.div_mod (n + size - 1) size ltac:(lia)). pose proof (Z.mod_pos_bound (n + size - 1) size Hs). lia.
Qed.

Lemma tile_src dst cmp cols align f n : r_src <$> tile dst cmp cols align f n = f <$> seqZ 0 n.
Proof. unfold tile. by rewrite <- list_fmap_compose. Qed.

Section Loads.
Context (core : Core) (tables : Tables) (c : ConstInfo) (info : RunInfo) (HL : LoadOk core tables c info).
Abbreviation keys := (actualSingleProcessSInnerSize info).
Abbreviation start := (task_start c info).
Abbreviation addr := (key_addr core tables c info).

Lemma src_mm1 p h :
  r_src <$> mm1_tile core tables c info p h =
  (fun i => addr (start + i) + h * 256) <$> seqZ (p * 128) (part 128 keys p).
Proof.
  unfold mm1_tile. rewrite tile_src, fmap_seqZ_shift. rewrite (fmap_seqZ_shift _ (p * 128)).
  apply list_fmap_ext. intros i r _. cbn. do 2 f_equal. lia.
Qed.

Lemma src_mm2 j k i :
  r_src <$> mm2_tile core tables c info j k i =
  (fun i => addr (start + i) + j * 128) <$> seqZ ((2 * k + i) * 128) (part 128 keys (2 * k + i)).
Proof.
  unfold mm2_tile. rewrite tile_src, fmap_seqZ_shift. rewrite (fmap_seqZ_shift _ (_ * 128)).
  apply list_fmap_ext. intros x r _. cbn. do 2 f_equal. lia.
Qed.

(** The two parts of a piece of values. *)
Lemma src_mm2_rows j k :
  0 <= k < (keys + 256 - 1) / 256 ->
  r_src <$> mm2_rows core tables c info j k =
  (fun i => addr (start + i) + j * 128) <$> seqZ (k * 256) (part 256 keys k).
Proof.
  intros Hk. destruct (parts_range 256 keys k) as [P0 P1]; [lia..|]. unfold mm2_rows.
  rewrite (span_flat_hom (fmap r_src)), (fmap_seqZ_shift _ (k * 256)); [|done|intros; apply fmap_app].
  rewrite <- (parts_all _ 128 (part 256 keys k)) by lia. apply span_flat_ext. intros i Hi.
  destruct (mm2_part info k i Hk Hi) as (Ep & _). rewrite src_mm2, Ep, fmap_seqZ_shift, (fmap_seqZ_shift _ (i * 128)).
  apply list_fmap_ext. intros x r _. cbn. do 2 f_equal. lia.
Qed.
End Loads.

Lemma loads_exact core tables c info :
  LoadOk core tables c info ->
  let keys := actualSingleProcessSInnerSize info in
  let sources d := (fun i => key_addr core tables c info (task_start c info + i) + d) <$> seqZ 0 keys in
  (keys <= 128 \/ isOri info = false \/ KV_LAYOUT_T core = PA_ND ->
   returns (mm1_keys core tables c info) (fun out =>
     forall h, 0 <= h < 2 -> r_src <$> loaded h out = sources (h * 256))) /\
  returns (mm2_values core tables c info) (fun out =>
    forall j, 0 <= j < 4 -> r_src <$> loaded j out = sources (j * 128)).
Proof.
  intros HL keys sources. pose proof (lo_keys _ _ _ _ HL). split.
  - intros Hf. eapply returns_mono; [by apply mm1_keys_returns|]. intros out Eout h Hh. unfold loaded. rewrite Eout.
    rewrite (span_flat_hom (of_column h)), (span_flat_hom (fmap r_src)); try done; [|intros; apply fmap_app|apply of_column_app].
    unfold sources. rewrite <- (parts_all _ 128 keys) by lia. apply span_flat_ext. intros p Hp.
    rewrite !of_column_cons. cbn [fst snd of_column].
    assert (h = 0 \/ h = 1) as [-> | ->] by lia; cbn [Z.eqb app Pos.eqb]; rewrite ?app_nil_r; apply src_mm1.
  - eapply returns_mono; [by apply mm2_values_returns|]. intros out Eout j Hj. unfold loaded.
    rewrite Eout, of_column_spans, (span_flat_hom (fmap r_src)); try done; [|intros; apply fmap_app].
    unfold sources. rewrite <- (parts_all _ 256 keys) by lia. apply span_flat_ext. intros k Hk.
    by apply src_mm2_rows.
Qed.

(** each multiplication has exactly the keys of its task, in order: each half
    of the columns of the keys and each quarter of the columns of the values
    comes from the addresses of keys [start .. start + keys) of the batch, in
    whatever layout the cache has.  (The first multiplication loads a window of
    more than 128 keys correctly from a paged cache only.) *)
Theorem swa_task_loads core tables c info :
  LoadOk core tables c info ->
  let keys := actualSingleProcessSInnerSize info in
  let sources d := (fun i => key_addr core tables c info (task_start c info + i) + d) <$> seqZ 0 keys in
  (keys <= 128 \/ isOri info = false \/ KV_LAYOUT_T core = PA_ND ->
   returns (mm1_keys core tables c info) (fun out =>
     forall h, 0 <= h < 2 -> r_src <$> loaded h out = sources (h * 256))) /\
  returns (mm2_values core tables c info) (fun out =>
    forall j, 0 <= j < 4 -> r_src <$> loaded j out = sources (j * 128)).
Proof. exact (loads_exact core tables c info). Qed.

(** ** Tiles in L1 *)

(** Elements of an L1 buffer, and the place of column [j] of a row: columns are
    stored in groups of 16. *)
Definition L1_BLOCK_OFFSET : Z := 64 * 512.
Definition place (x : Row) (j : Z) : Z := r_dst x + j / 16 * (r_align x * 16) + j mod 16.

(** The rows occupy [lo .. hi), and no two of their elements the same place. *)
Definition fits (l : list Row) (lo hi : Z) : Prop :=
  (forall i x j, l !! i = Some x -> 0 <= j < r_cols x -> lo <= place x j < hi) /\
  (forall i i' x x' j j', l !! i = Some x -> l !! i' = Some x' -> 0 <= j < r_cols x -> 0 <= j' < r_cols x' ->
     place x j = place x' j' -> i = i' /\ j = j').

Lemma fits_nil lo : fits [] lo lo.
Proof. split; intros i; intros; by destruct i. Qed.

Lemma fits_weaken l lo hi lo' hi' : fits l lo hi -> lo' <= lo -> hi <= hi' -> fits l lo' hi'.
Proof. intros [H1 H2] ? ?. split; [|done]. intros i x j Hx Hj. specialize (H1 i x j Hx Hj). lia. Qed.

Lemma fits_app a b lo mid hi : fits a lo mid -> fits b mid hi -> lo <= mid <= hi -> fits (a ++ b) lo hi.
Proof.
  intros [A1 A2] [B1 B2] Hm. split.
  - intros i x j Hx Hj. apply lookup_app_Some in Hx as [Hx|[_ Hx]].
    + specialize (A1 _ _ _ Hx Hj). lia.
    + specialize (B1 _ _ _ Hx Hj). lia.
  - intros i i' x x' j j' Hx Hx' Hj Hj' E.
    apply lookup_app_Some in Hx as [Hx|[Hl Hx]]; apply lookup_app_Some in Hx' as [Hx'|[Hl' Hx']].
    + by eapply A2.
    + pose proof (A1 _ _ _ Hx Hj). pose proof (B1 _ _ _ Hx' Hj'). lia.
    + pose proof (B1 _ _ _ Hx Hj). pose proof (A1 _ _ _ Hx' Hj'). lia.
    + destruct (B2 _ _ _ _ _ _ Hx Hx' Hj Hj' E). lia.
Qed.

(** A tile of [n] rows whose groups of columns hold at least [n] rows. *)
Lemma fits_tile dst cmp cols align f n :
  n <= align -> fits (tile dst cmp (cols * 16) align f n) dst (dst + cols * 16 * align).
Proof.
  intros Ha. assert (L : forall i x, tile dst cmp (cols * 16) align f n !! i = Some x ->
    r_cols x = cols * 16 /\ r_align x = align /\ r_dst x = dst + Z.of_nat i * 16 /\ Z.of_nat i < n).
  { intros i x. unfold tile. rewrite list_lookup_fmap_Some. intros (r & -> & Hr).
    apply lookup_seqZ in Hr as [-> Hr]. cbn. by rewrite Z.add_0_l. }
  split.
  - intros i x j Hx Hj. destruct (L i x Hx) as (Ec & El & Ed & Hi). unfold place. rewrite Ec in Hj. rewrite El, Ed.
    assert (0 <= j / 16 < cols /\ 0 <= j mod 16 < 16) by (split; ediv). nia.
  - intros i i' x x' j j' Hx Hx' Hj Hj' E.
    destruct (L i x Hx) as (Ec & El & Ed & Hi), (L i' x' Hx') as (Ec' & El' & Ed' & Hi').
    unfold place in E. rewrite Ec in Hj. rewrite Ec' in Hj'. rewrite El, Ed, El', Ed' in E.
    pose proof (Z.div_mod j 16 ltac:(lia)). pose proof (Z.div_mod j' 16 ltac:(lia)).
    pose proof (Z.mod_pos_bound j 16 ltac:(lia)). pose proof (Z.mod_pos_bound j' 16 ltac:(lia)).
    assert (j mod 16 = j' mod 16 /\ Z.of_nat i + j / 16 * align = Z.of_nat i' + j' / 16 * align) as [E1 E2] by lia.
    assert (j / 16 = j' / 16) by nia. split; nia.
Qed.

Lemma SASAlign_16 n : 0 < n <= 128 -> n <= SASAlign n 16 <= 128.
Proof. intros Hn. unfold SASAlign. cbn [Z.eqb]. rewrite !u64_id, u32_id by (rewrite ?u64_id; ediv). ediv. Qed.

Section Fit.
Context (core : Core) (tables : Tables) (c : ConstInfo) (info : RunInfo) (HL : LoadOk core tables c info).
Abbreviation keys := (actualSingleProcessSInnerSize info).

Lemma mm1_fits p h : 0 <= p < (keys + 128 - 1) / 128 -> fits (mm1_tile core tables c info p h) 0 L1_BLOCK_OFFSET.
Proof.
  intros Hp. destruct (parts_range 128 keys p) as [P0 _]; [lia..|]. pose proof (SASAlign_16 _ P0).
  eapply fits_weaken; [apply (fits_tile _ _ 16)|..]; unfold L1_BLOCK_OFFSET; lia.
Qed.

Lemma mm2_fits j k : 0 <= k < (keys + 256 - 1) / 256 -> fits (mm2_rows core tables c info j k) 0 L1_BLOCK_OFFSET.
Proof.
  intros Hk. destruct (parts_range 256 keys k) as [P0 _]; [lia..|].
  assert (H : forall i, 0 <= i -> i <= mm2_parts info k ->
    fits (span_flat (mm2_tile core tables c info j k) 0 i) 0 (i * 16384)).
  { apply (natlike_ind (fun i => i <= _ -> _)); [intros _; apply fits_nil|].
    intros i Hi IH Hle. destruct (mm2_part info k i Hk) as (_ & Hp & _); [lia|].
    destruct (parts_range 128 keys (2 * k + i)) as [Q0 _]; [lia..|]. pose proof (SASAlign_16 _ Q0).
    unfold Z.succ. rewrite span_flat_snoc by lia. eapply fits_app; [apply IH; lia| |lia].
    eapply fits_weaken; [apply (fits_tile _ _ 8)|..]; lia. }
  unfold mm2_rows. eapply fits_weaken; [apply H|..]; unfold L1_BLOCK_OFFSET, mm2_parts, part in *; try lia; ediv.
Qed.
End Fit.

(** C37: what is loaded together fits an L1 buffer of 64 * 512 elements, and no
    two elements are stored in the same place: for every piece of keys, and for
    the two parts of every piece of values. *)
Theorem swa_tiles_fit core tables c info :
  LoadOk core tables c info ->
  (actualSingleProcessSInnerSize info <= 128 \/ isOri info = false \/ KV_LAYOUT_T core = PA_ND ->
   returns (mm1_keys core tables c info) (fun out =>
     forall e, e ∈ out -> fits (rows_copied e.2) 0 L1_BLOCK_OFFSET)) /\
  returns (mm2_values core tables c info) (fun out =>
    forall e, e ∈ out -> fits (rows_copied e.2) 0 L1_BLOCK_OFFSET).
Proof.
  intros HL. assert (K : forall out e, e ∈ out -> entry_rows e ∈ entry_rows <$> out)
    by (intros out e He; by apply list_elem_of_fmap_2). split.
  - intros Hf. eapply returns_mono; [by apply mm1_keys_returns|]. intros out Eout e He%K.
    rewrite Eout, elem_of_span_flat in He. destruct He as (p & Hp & He).
    rewrite !elem_of_cons, elem_of_nil in He. change (rows_copied e.2) with (entry_rows e).2.
    destruct He as [->|[->|[]]]; by apply mm1_fits.
  - eapply returns_mono; [by apply mm2_values_returns|]. intros out Eout e He%K.
    rewrite Eout, elem_of_span_flat in He. destruct He as (j & Hj & He).
    rewrite elem_of_span_flat in He. destruct He as (k & Hk & He).
    rewrite elem_of_cons, elem_of_nil in He. change (rows_copied e.2) with (entry_rows e).2.
    destruct He as [->|[]]. by apply mm2_fits.
Qed.

(** ** Windows of more than 128 keys *)

(** Keys before the first one that piece [p] of a window starts with. *)
Definition window_skip (layout : SAS_LAYOUT) (p : Z) : Z :=
  match layout with BSND => 0 | TND => 2 * (p * 128) | PA_ND => p * 128 end.

(** the first multiplication takes piece [p] of a window from the right keys
    in a paged cache only: from a BSND cache every piece has the keys of piece 0
    again, from a TND cache the distance of the pieces is doubled.  The host
    admits windows of 128 keys only, which have one piece. *)
Theorem swa_window_pieces core tables c info p h n :
  LoadOk core tables c info -> isOri info = true ->
  0 <= p -> 0 <= h < 2 -> 0 <= n -> p * 128 + n <= actualSingleProcessSInnerSize info ->
  returns (mm1_load core tables c info p h n) (fun cs => r_src <$> rows_copied cs =
    (fun r => key_addr core tables c info (task_start c info + window_skip (KV_LAYOUT_T core) p + r) + h * 256)
      <$> seqZ 0 n).
Proof.
  intros HL Ho Hp Hh Hn Hle. destruct (KV_LAYOUT_T core) eqn:EL; cbn [window_skip].
  - replace (mm1_load core tables c info p h n) with (mm1_load core tables c info 0 h n)
      by (unfold mm1_load; by rewrite EL, Ho).
    eapply returns_mono; [apply (mm1_load_returns core tables c info HL 0 h n); lia|].
    intros cs ->. apply tile_src.
  - destruct (lo_tnd _ _ _ _ HL EL) as [T0 T1]. pose proof (lo_start _ _ _ _ HL). pose proof (lo_end _ _ _ _ HL).
    unfold mm1_load, N_SPLIT_SIZE. rewrite EL, Ho. unfold tnd_base in T0, T1. rewrite Ho in T0, T1.
    apply returns_ok. rewrite one_copy, tile_src. apply list_fmap_ext. intros i r [-> _]%lookup_seqZ.
    unfold key_addr, tnd_base. rewrite EL, Ho, (u32_id (_ + _)) by lia. change (headDim / 2) with 256.
    destruct (Z.eqb_spec h 0); rewrite u64_id by (unfold headDim; lia); lia.
  - eapply returns_mono; [apply (mm1_load_returns core tables c info HL p h n); try lia; by right; right|].
    intros cs ->. apply tile_src.
Qed.

(** ** The loads of a whole run *)

(** Where a paged cache has key [t] of batch [b]. *)
Definition paged_key (tables : Tables) (c : ConstInfo) (ori : bool) (b t : Z) : Z :=
  if ori then paged (oriBlockTableGm tables) (b * oriMaxBlockNumPerBatch c) (paOriBlockSize c) (oriKvStride c) 0 t
  else paged (cmpBlockTableGm tables) (b * cmpMaxBlockNumPerBatch c) (paCmpBlockSize c) (cmpKvStride c) 0 t.

(** The block tables have the blocks of all keys of [nb] batches. *)
Record CacheOk (core : Core) (c : ConstInfo) (tables : Tables) (nb : Z) : Prop := {
  ca_ori : forall b, 0 <= b < nb ->
    PagedOk (oriBlockTableGm tables) (b * oriMaxBlockNumPerBatch c) (paOriBlockSize c) (oriKvStride c)
      0 (kv_len core c b);
  ca_cmp : isCFA c = true -> forall b, 0 <= b < nb ->
    PagedOk (cmpBlockTableGm tables) (b * cmpMaxBlockNumPerBatch c) (paCmpBlockSize c) (cmpKvStride c)
      0 (kv_len core c b / cmpRatio c)
}.

Section Core.
Context (core : Core) (c : ConstInfo) (nb : Z) (HC : CoreOk core c nb) (HI : IntervalOk core c nb).

(** Keys of block [j] of a segment are keys of the segment. *)
Lemma block_in_segment n j :
  0 <= n -> 0 <= j < seg_blk (s2BaseSize c) n ->
  0 < block_keys c (seg_blk (s2BaseSize c) n) n j /\
  0 <= j * s2BaseSize c /\ j * s2BaseSize c + block_keys c (seg_blk (s2BaseSize c) n) n j <= n.
Proof.
  intros Hn Hj. pose proof (co_sb _ _ _ HC).
  pose proof (proj1 (ceil_div_lt n (s2BaseSize c) j ltac:(lia) ltac:(lia)) (proj2 Hj)).
  unfold block_keys. destruct (Z.eqb_spec (j + 1) (seg_blk (s2BaseSize c) n)); [lia|].
  assert ((j + 1) * s2BaseSize c < n); [|lia].
  apply (ceil_div_lt n (s2BaseSize c) (j + 1)); [lia|lia|]. unfold seg_blk in *. lia.
Qed.

(** The keys of a task are keys of its batch. *)
Lemma core_task_keys x :
  x ∈ core_tasks core c ->
  0 <= k_batch x < nb /\ 0 <= k_first x /\ 0 < k_keys x /\ (k_ori x = false -> isCFA c = true) /\
  k_first x + k_keys x <= if k_ori x then kv_len core c (k_batch x) else kv_len core c (k_batch x) / cmpRatio c.
Proof.
  unfold core_tasks, batch_tasks, row_tasks. rewrite elem_of_span_flat. intros (b & Hb & Hx).
  rewrite elem_of_span_flat in Hx. destruct Hx as (q & Hq & Hx).
  apply list_elem_of_fmap in Hx as (j & -> & Hj). apply elem_of_seqZ in Hj.
  pose proof (interval_row_ok core c nb b q HI Hb Hq) as Hrow. unfold row_blocks in Hj.
  destruct (live core c b q) eqn:El; [|lia].
  destruct (swa_row_bounds core c nb HC b q Hrow El) as (W1 & W2 & C1 & W3 & C3). unfold live in El.
  destruct Hrow as (Hb' & Hq' & _). unfold task. cbn [k_batch k_first k_keys k_ori]. split; [done|].
  destruct (Z.ltb_spec j (win_blocks core c b q)).
  - destruct (block_in_segment (win_keys core c b q) j) as (B1 & B2 & B3); [lia|unfold win_blocks in *; lia|].
    fold (win_blocks core c b q) in *. unfold win_keys, diag in *. repeat split; lia || done.
  - destruct (block_in_segment (cmp_keys core c b q) (j - win_blocks core c b q)) as (B1 & B2 & B3);
      [lia|unfold cmp_blocks in *; lia|].
    fold (cmp_blocks core c b q) in *. assert (Ec : isCFA c = true).
    { unfold cmp_keys in *. destruct (isCFA c); [done|]. unfold cmp_blocks, cmp_keys in *. lia. }
    pose proof (co_ratio _ _ _ HC Ec). repeat split; try lia; [done|].
    etransitivity; [exact B3|]. unfold cmp_keys. rewrite Ec. apply Z.div_le_mono; unfold diag in *; lia.
Qed.

Lemma core_LoadOk tables i :
  KV_LAYOUT_T core = PA_ND -> CacheOk core c tables nb -> view c i ∈ core_tasks core c ->
  LoadOk core tables c i /\ forall t, key_addr core tables c i t = paged_key tables c (isOri i) (bIdx i) t.
Proof.
  intros EL [Ho Hk] Hin. destruct (core_task_keys _ Hin) as (Hb & H0 & H1 & Hc & Hle).
  destruct (co_batch _ _ _ HC _ Hb) as [_ [K1 K2] _ _ _ _ _ _ _]. pose proof (co_sb _ _ _ HC).
  cbn [view k_batch k_first k_keys k_ori] in *.
  assert (HP : PagedOk (pa_table tables i) (pa_first c i) (pa_block c i) (pa_stride c i) (task_start c i)
                 (actualSingleProcessSInnerSize i)).
  { unfold pa_table, pa_first, pa_block, pa_stride, task_start.
    destruct (isOri i); (eapply PagedOk_part; [|exact H0|exact Hle]); [by apply Ho|by apply Hk, Hb; apply Hc]. }
  split.
  - split; [lia|exact H0|apply HP|done|congruence|congruence].
  - intros t. unfold key_addr, paged_key, pa_table, pa_first, pa_block, pa_stride. rewrite EL. by destruct (isOri i).
Qed.
End Core.

(** The addresses that a task needs, [d] columns into the rows. *)
Definition task_sources (tables : Tables) (c : ConstInfo) (x : Task) (d : Z) : list Z :=
  (fun t => paged_key tables c (k_ori x) (k_batch x) t + d) <$> seqZ (k_first x) (k_keys x).

(** The loads of one task of a core with a paged cache. *)
Lemma core_task_loads core c nb tables i :
  CoreOk core c nb -> IntervalOk core c nb -> KV_LAYOUT_T core = PA_ND -> CacheOk core c tables nb ->
  view c i ∈ core_tasks core c ->
  returns (mm1_keys core tables c i) (fun out =>
    forall h, 0 <= h < 2 -> r_src <$> loaded h out = task_sources tables c (view c i) (h * 256)) /\
  returns (mm2_values core tables c i) (fun out =>
    forall j, 0 <= j < 4 -> r_src <$> loaded j out = task_sources tables c (view c i) (j * 128)).
Proof.
  intros HC HI EL HT Hin. destruct (core_LoadOk core c nb HC HI tables i EL HT Hin) as [HL Ea].
  assert (E : forall d, (fun r => key_addr core tables c i (task_start c i + r) + d) <$>
    seqZ 0 (actualSingleProcessSInnerSize i) = task_sources tables c (view c i) d).
  { intros d. unfold task_sources. rewrite (fmap_seqZ_shift _ (k_first _)). apply list_fmap_ext. intros n r _. by rewrite Ea. }
  destruct (loads_exact core tables c i HL) as [L1 L2].
  split; (eapply returns_mono; [first [apply L1; by right; right|apply L2]|]); intros out H h Hh; by rewrite H, E.
Qed.

(** C22: in the run of a cube core with a paged cache, every task loads exactly
    the keys and values of its part of the window or of the compressed keys: the
    block table is followed from the first key of the task to its last one. *)
Theorem swa_core_loads l nb i tables :
  LaunchOk l nb -> meta_words Sas.FA_METADATA_SIZE <= Z.of_nat (length (l_metadata l)) ->
  0 <= i < AIC_CORE_NUM -> fa_get Sas.FA_METADATA_SIZE (l_metadata l) i FA_CORE_ENABLE_INDEX <> 0 ->
  let core := core_of l false i in
  let c := const_of l i in
  IntervalOk core c nb -> Z.of_nat (length (core_tasks core c)) + 4 <= 2 ^ 32 ->
  KV_LAYOUT_T core = PA_ND -> CacheOk core c tables nb ->
  returns (run l false i) (fun s => forall x, x ∈ issued (trace s) ->
    returns (mm1_keys core tables c x) (fun out =>
      forall h, 0 <= h < 2 -> r_src <$> loaded h out = task_sources tables c (view c x) (h * 256)) /\
    returns (mm2_values core tables c x) (fun out =>
      forall j, 0 <= j < 4 -> r_src <$> loaded j out = task_sources tables c (view c x) (j * 128))).
Proof.
  intros HL Hlen Hi Hon core c HI Ht EL HT. change (run l false i) with (run l false (block_of false 0 i)).
  unfold run. rewrite Init_ok by (done || lia). cbn [mbind res_bind].
  eapply returns_mono; [apply (Process_returns l nb HL Hlen false 0); done || lia|].
  intros s (Ev & _) x Hx. apply (core_task_loads core c nb); try done.
  - by apply (launch_CoreOk l nb HL false 0 i).
  - change (view (const_of l i) x ∈ core_tasks (core_of l false (block_of false 0 i)) (const_of l i)).
    rewrite <- Ev.
    by apply list_elem_of_fmap_2.
Qed.

(** ** A concrete cache *)

(** Block tables of the two sequences of the launch, in any order of blocks. *)
Definition swa_demo_tables : Tables :=
  mkTables [5; 3; 9; 0; 0; 0; 0; 0; 1; 7; 2; 8; 4; 6; 0; 0] [2; 0; 3; 1].
Abbreviation swa_demo_core := (core_of swa_demo_launch false 1).
Abbreviation swa_demo_const := (const_of swa_demo_launch 1).

(** Keys 0 .. 160 of the compressed keys of batch 1; keys 10 .. 210 of a window
    in a cache without blocks. *)
Definition swa_demo_cmp_task : RunInfo :=
  new_RunInfo <| bIdx := 1 |> <| isOri := false |> <| actualSingleProcessSInnerSize := 160 |>.
Definition swa_demo_win_task : RunInfo :=
  new_RunInfo <| bIdx := 1 |> <| isOri := true |> <| s2StartPoint := 10 |>
    <| actualSingleProcessSInnerSize := 200 |>.
Definition swa_bsnd_core : Core :=
  core_of (mkLaunch TND BSND true 4 [0; 3; 5] [] [] [] [300; 700] [] swa_demo_tiling) false 1.

Lemma vat_all (P : Z -> Prop) l i : P 0 -> Forall P l -> P (vat l i).
Proof. intros H0 Hl. unfold vat. destruct (l !! _) eqn:E; [|done]. by eapply Forall_lookup_1. Qed.

Lemma paged_demo table first size stride n :
  Forall (fun x => 0 <= x < 2 ^ 31) table -> 0 <= first < 2 ^ 32 -> 0 < size <= 2 ^ 31 ->
  0 <= stride < 2 ^ 32 -> n <= 2 ^ 31 -> first + (n - 1) / size < Z.of_nat (length table) ->
  PagedOk table first size stride 0 n.
Proof.
  intros Ht Hf Hs Hst Hn Hl. split; try done; try lia.
  - intros i. by apply (vat_all (fun x => 0 <= x < 2 ^ 31)).
  - intros t Hlt. assert (t / size <= (n - 1) / size) by (apply Z.div_le_mono; lia). lia.
Qed.

Lemma swa_demo_CacheOk : CacheOk swa_demo_core swa_demo_const swa_demo_tables 2.
Proof.
  assert (T : Forall (fun x => 0 <= x < 2 ^ 31) (oriBlockTableGm swa_demo_tables)) by (repeat constructor; cbn; lia).
  assert (T' : Forall (fun x => 0 <= x < 2 ^ 31) (cmpBlockTableGm swa_demo_tables)) by (repeat constructor; cbn; lia).
  split; [intros b Hb|intros _ b Hb]; assert (b = 0 \/ b = 1) as [-> | ->] by lia;
    (apply paged_demo; [assumption|by_compute..]).
Qed.

Lemma swa_demo_cmp_LoadOk : LoadOk swa_demo_core swa_demo_tables swa_demo_const swa_demo_cmp_task.
Proof.
  split; [by_compute..| |intros E; discriminate E|intros E; discriminate E]. intros _.
  replace (task_start _ _) with 0 by by_compute. apply paged_demo; [repeat constructor; cbn; lia|by_compute..].
Qed.

Lemma swa_demo_win_LoadOk : LoadOk swa_bsnd_core swa_demo_tables swa_demo_const swa_demo_win_task.
Proof. split; [by_compute..|intros E; discriminate E|intros _; by_compute|intros E; discriminate E]. Qed.

Lemma swa_task_loads_witness :
  let sources d := (fun i => key_addr swa_demo_core swa_demo_tables swa_demo_const swa_demo_cmp_task
    (task_start swa_demo_const swa_demo_cmp_task + i) + d) <$> seqZ 0 160 in
  returns (mm1_keys swa_demo_core swa_demo_tables swa_demo_const swa_demo_cmp_task) (fun out =>
    forall h, 0 <= h < 2 -> r_src <$> loaded h out = sources (h * 256)) /\
  returns (mm2_values swa_demo_core swa_demo_tables swa_demo_const swa_demo_cmp_task) (fun out =>
    forall j, 0 <= j < 4 -> r_src <$> loaded j out = sources (j * 128)).
Proof.
  destruct (swa_task_loads _ _ _ _ swa_demo_cmp_LoadOk) as [H1 H2]. split; [|exact H2].
  apply H1. right. left. reflexivity.
Defined.

Lemma swa_tiles_fit_witness :
  returns (mm1_keys swa_demo_core swa_demo_tables swa_demo_const swa_demo_cmp_task) (fun out =>
    forall e, e ∈ out -> fits (rows_copied e.2) 0 L1_BLOCK_OFFSET) /\
  returns (mm2_values swa_demo_core swa_demo_tables swa_demo_const swa_demo_cmp_task) (fun out =>
    forall e, e ∈ out -> fits (rows_copied e.2) 0 L1_BLOCK_OFFSET).
Proof.
  destruct (swa_tiles_fit _ _ _ _ swa_demo_cmp_LoadOk) as [H1 H2]. split; [|exact H2].
  apply H1. right. left. reflexivity.
Defined.

Lemma swa_window_pieces_witness :
  returns (mm1_load swa_bsnd_core swa_demo_tables swa_demo_const swa_demo_win_task 1 0 72) (fun cs =>
    r_src <$> rows_copied cs = (fun r => key_addr swa_bsnd_core swa_demo_tables swa_demo_const swa_demo_win_task
      (task_start swa_demo_const swa_demo_win_task + 0 + r) + 0 * 256) <$> seqZ 0 72).
Proof.
  apply (swa_window_pieces swa_bsnd_core swa_demo_tables swa_demo_const swa_demo_win_task 1 0 72
           swa_demo_win_LoadOk); by_compute.
Defined.

Lemma swa_core_loads_witness :
  returns (run swa_demo_launch false 1) (fun s => forall x, x ∈ issued (trace s) ->
    returns (mm1_keys swa_demo_core swa_demo_tables swa_demo_const x) (fun out =>
      forall h, 0 <= h < 2 -> r_src <$> loaded h out =
        task_sources swa_demo_tables swa_demo_const (view swa_demo_const x) (h * 256)) /\
    returns (mm2_values swa_demo_core swa_demo_tables swa_demo_const x) (fun out =>
      forall j, 0 <= j < 4 -> r_src <$> loaded j out =
        task_sources swa_demo_tables swa_demo_const (view swa_demo_const x) (j * 128))).
Proof.
  apply (swa_core_loads swa_demo_launch 2 1 swa_demo_tables swa_demo_LaunchOk); try by_compute.
  apply swa_demo_CacheOk.
Defined.

(** C38: DataCopyPA ends and brings the rows of [n] consecutive tokens, in order
    and to consecutive places, each from the block that the table of the batch
    names for it; wherever in a block the first token is and whatever the block
    size. *)
Theorem data_copy_pa_rows cmp table cols align n b maxb size stride s2 d dst :
  PagedOk table (b * maxb) size stride s2 n -> 0 <= n -> 0 <= d < 2 ^ 32 ->
  returns (DataCopyPA cmp table (mkPAShape size kvHeadNum headDim stride maxb cols n align)
             (mkPosition b 0 s2 d) dst)
    (fun cs => rows_copied cs =
       (fun r => mkRow (dst + r * 16) cmp
                   (vat table (b * maxb + (s2 + r) / size) * stride + (s2 + r) mod size * headDim + d) cols align)
         <$> seqZ 0 n).
Proof. exact (DataCopyPA_returns cmp table cols align n b maxb size stride s2 d dst). Qed.

Lemma data_copy_pa_rows_witness :
  returns (DataCopyPA true [2; 0; 3; 1] (mkPAShape 16 kvHeadNum headDim 8192 2 256 30 32) (mkPosition 1 0 0 256) 0)
    (fun cs => rows_copied cs =
       (fun r => mkRow (0 + r * 16) true
                   (vat [2; 0; 3; 1] (1 * 2 + (0 + r) / 16) * 8192 + (0 + r) mod 16 * headDim + 256) 256 32)
         <$> seqZ 0 30).
Proof.
  apply (data_copy_pa_rows true [2; 0; 3; 1] 256 32 30 1 2 16 8192 0 256 0); [|by_compute|by_compute].
  apply paged_demo; [repeat constructor; lia|by_compute..].
Defined.
End SwaCubeTheorems.
