(* ===== verification/Ascend.v ===== *)
(** * The AscendC operations that the speculative-decoding kernels use

    The transfers between global memory and the unified buffer of a vector core,
    and the comparison with a scalar, are operations of the AscendC library.  A
    kernel is modelled over an implementation of them ([AscendC]); its theorems
    assume what the library documents ([AscendCLaws]).  Tensors of 32-bit
    elements and of bytes are lists. *)

From S2P Require Import Prelude.

(** 32 bytes are 8 elements of 4 bytes. *)
Definition align8 (n : Z) : Z := (n + 7) / 8 * 8.

Class AscendC := {
  (** [DataCopyPad(dst[d], src[s], ...)] of [n] elements from global memory. *)
  DataCopyPad_in : list Z -> Z -> list Z -> Z -> Z -> list Z;
  (** The same to global memory. *)
  DataCopyPad_out : list Z -> Z -> list Z -> Z -> Z -> list Z;
  (** [CompareScalar(mask, src[s], x, EQ, n)]: a bit per element. *)
  CompareScalar : list Z -> list Z -> Z -> Z -> Z -> list Z
}.

(** A copy to the buffer fills whole units of 32 bytes; what it writes behind
    the data is not specified.  A copy to global memory writes the data only. *)
Class AscendCLaws `{AscendC} : Prop := {
  in_length dst d src s n : length (DataCopyPad_in dst d src s n) = length dst;
  in_data dst d src s n i :
    0 <= d -> d + align8 n <= Z.of_nat (length dst) -> 0 <= i < n ->
    vat (DataCopyPad_in dst d src s n) (d + i) = vat src (s + i);
  in_other dst d src s n i :
    0 <= d -> 0 <= i -> i < d \/ d + align8 n <= i -> vat (DataCopyPad_in dst d src s n) i = vat dst i;
  out_length dst d src s n : length (DataCopyPad_out dst d src s n) = length dst;
  out_data dst d src s n i :
    0 <= d -> d + n <= Z.of_nat (length dst) -> 0 <= i < n ->
    vat (DataCopyPad_out dst d src s n) (d + i) = vat src (s + i);
  out_other dst d src s n i :
    0 <= d -> 0 <= i -> i < d \/ d + n <= i -> vat (DataCopyPad_out dst d src s n) i = vat dst i;
  cmp_length mask src s x n : length (CompareScalar mask src s x n) = length mask;
  cmp_bit mask src s x n i :
    n mod 64 = 0 -> n / 8 <= Z.of_nat (length mask) -> 0 <= i < n ->
    Z.testbit (vat (CompareScalar mask src s x n) (i / 8)) (i mod 8) = (vat src (s + i) =? x)
}.

Section Checked.
Context `{AscendC}.

(** A transfer that leaves one of its tensors is a fault. *)
Definition copy_in (dst : list Z) (d : Z) (src : list Z) (s n : Z) : res (list Z) :=
  if (0 <=? d) && (0 <=? s) && (d + align8 n <=? Z.of_nat (length dst)) && (s + n <=? Z.of_nat (length src))
  then Ok (DataCopyPad_in dst d src s n) else Fault OutOfBounds.

Definition copy_out (dst : list Z) (d : Z) (src : list Z) (s n : Z) : res (list Z) :=
  if (0 <=? d) && (0 <=? s) && (d + n <=? Z.of_nat (length dst)) && (s + n <=? Z.of_nat (length src))
  then Ok (DataCopyPad_out dst d src s n) else Fault OutOfBounds.

(** The comparison works on units of 64 elements. *)
Definition compare (mask src : list Z) (s x n : Z) : res (list Z) :=
  if (0 <=? s) && (s + n <=? Z.of_nat (length src)) && (n / 8 <=? Z.of_nat (length mask))
  then Ok (CompareScalar mask src s x n) else Fault OutOfBounds.
End Checked.

(** ** An implementation *)

(** The elements of a list with their positions. *)
Fixpoint mapi (f : Z -> Z -> Z) (i : Z) (l : list Z) : list Z :=
  match l with [] => [] | x :: l => f i x :: mapi f (i + 1) l end.

(** [n] elements of [src] from [s], in place of those of [dst] from [d]. *)
Definition overwrite (dst : list Z) (d : Z) (src : list Z) (s n : Z) : list Z :=
  mapi (fun i x => if (d <=? i) && (i <? d + n) then vat src (s + (i - d)) else x) 0 dst.

(** The byte of the eight elements from [s]. *)
Definition mask_byte (src : list Z) (s x : Z) : Z :=
  foldr (fun i b => Z.lor (if vat src (s + i) =? x then Z.shiftl 1 i else 0) b) 0 (seqZ 0 8).

Definition soft_mask (mask src : list Z) (s x n : Z) : list Z :=
  mapi (fun j y => if j <? n / 8 then mask_byte src (s + j * 8) x else y) 0 mask.

Definition SoftAscendC : AscendC :=
  {| DataCopyPad_in := overwrite; DataCopyPad_out := overwrite; CompareScalar := soft_mask |}.

Lemma mapi_length f i l : length (mapi f i l) = length l.
Proof. revert i. induction l as [|x l IH]; intros i; cbn; [done|]. by rewrite IH. Qed.

Lemma vat_mapi f i l j : 0 <= j < Z.of_nat (length l) -> vat (mapi f i l) j = f (i + j) (vat l j).
Proof.
  revert i j. induction l as [|x l IH]; intros i j Hj; cbn [length] in Hj; [lia|].
  destruct (Z.eq_dec j 0) as [->|]; [cbn; by rewrite Z.add_0_r|].
  replace j with (Z.succ (j - 1)) by lia. unfold vat in *. rewrite Z2Nat.inj_succ by lia. cbn [mapi lookup list_lookup].
  change (list_lookup (Z.to_nat (j - 1)) ?l) with (l !! Z.to_nat (j - 1)).
  rewrite IH by lia. f_equal. lia.
Qed.

Lemma vat_beyond (l : list Z) i : Z.of_nat (length l) <= i -> vat l i = 0.
Proof. intros Hi. unfold vat. rewrite lookup_ge_None_2 by lia. done. Qed.

Lemma vat_overwrite dst d src s n i :
  0 <= i < Z.of_nat (length dst) -> vat (overwrite dst d src s n) i =
  if (d <=? i) && (i <? d + n) then vat src (s + (i - d)) else vat dst i.
Proof. intros Hi. unfold overwrite. by rewrite vat_mapi. Qed.

Lemma vat_overwrite_in dst d src s n i :
  0 <= d -> d + n <= Z.of_nat (length dst) -> 0 <= i < n -> vat (overwrite dst d src s n) (d + i) = vat src (s + i).
Proof.
  intros Hd Hl Hi. rewrite vat_overwrite by lia.
  rewrite (proj2 (Z.leb_le d (d + i))), (proj2 (Z.ltb_lt (d + i) (d + n))) by lia. cbn [andb]. f_equal. lia.
Qed.

Lemma overwrite_length dst d src s n : length (overwrite dst d src s n) = length dst.
Proof. apply mapi_length. Qed.

Lemma overwrite_other dst d src s n m i :
  n <= m -> 0 <= i -> i < d \/ d + m <= i -> vat (overwrite dst d src s n) i = vat dst i.
Proof.
  intros Hm Hi Ho. destruct (Z.lt_ge_cases i (Z.of_nat (length dst))).
  - rewrite vat_overwrite by lia. destruct (Z.leb_spec d i), (Z.ltb_spec i (d + n)); done || lia.
  - by rewrite !vat_beyond by (rewrite ?overwrite_length; lia).
Qed.

Lemma align8_ge n : n <= align8 n.
Proof. unfold align8. ediv. Qed.

Lemma testbit_mask_byte src s x i :
  0 <= i < 8 -> Z.testbit (mask_byte src s x) i = (vat src (s + i) =? x).
Proof.
  intros Hi. unfold mask_byte.
  assert (E : seqZ 0 8 = [0; 1; 2; 3; 4; 5; 6; 7]) by reflexivity. rewrite E. cbn [foldr].
  rewrite !Z.lor_spec, Z.bits_0.
  assert (B : forall (b : bool) k, 0 <= k -> Z.testbit (if b then Z.shiftl 1 k else 0) i = b && (i =? k)).
  { intros b k Hk. destruct b; [|apply Z.bits_0]. rewrite Z.shiftl_spec by lia.
    destruct (Z.eqb_spec i k) as [->|]; [by rewrite Z.sub_diag|].
    destruct (Z.lt_ge_cases (i - k) 0); [by rewrite Z.testbit_neg_r by lia|].
    apply (Z.bits_above_log2 1); cbn; lia. }
  rewrite !B by lia.
  assert (i = 0 \/ i = 1 \/ i = 2 \/ i = 3 \/ i = 4 \/ i = 5 \/ i = 6 \/ i = 7) as Hc by lia.
  repeat destruct Hc as [->|Hc]; [..|subst i]; cbn [Z.eqb Pos.eqb]; rewrite ?andb_false_r, ?andb_true_r, ?orb_false_r; done.
Qed.

Lemma SoftAscendC_laws : @AscendCLaws SoftAscendC.
Proof.
  split; cbn [DataCopyPad_in DataCopyPad_out CompareScalar SoftAscendC].
  - apply overwrite_length.
  - intros dst d src s n i Hd Hl Hi. pose proof (align8_ge n).
    by apply vat_overwrite_in; lia.
  - intros dst d src s n i Hd Hi Ho. apply (overwrite_other _ _ _ _ _ (align8 n)); [apply align8_ge|done|done].
  - apply overwrite_length.
  - intros dst d src s n i Hd Hl Hi. by apply vat_overwrite_in.
  - intros dst d src s n i Hd Hi Ho. by apply (overwrite_other _ _ _ _ _ n).
  - intros. apply mapi_length.
  - intros mask src s x n i Hn Hl Hi. assert (0 <= i / 8 < n / 8) by ediv.
    unfold soft_mask. rewrite vat_mapi, Z.add_0_l by lia. rewrite (proj2 (Z.ltb_lt (i / 8) (n / 8))) by lia.
    rewrite testbit_mask_byte by ediv. f_equal. f_equal. ediv.
Qed.

(** * Copies of whole tensors

    [DataCopy] and [DataCopyPad] between global memory and the start of a local
    tensor, and between local tensors, counted in elements. *)

Class AscendCopy := {
  (** [DataCopy(local, gm[s], n)], [DataCopy(local, local', n)],
      [DataCopy(gm[d], local, n)]. *)
  DataCopy_in : list Z -> list Z -> Z -> Z -> list Z;
  DataCopy_local : list Z -> list Z -> Z -> list Z;
  DataCopy_out : list Z -> Z -> list Z -> Z -> list Z;
  (** [DataCopyPad] of one block, into and out of a local tensor. *)
  CopyPad_in : list Z -> list Z -> Z -> Z -> list Z;
  CopyPad_out : list Z -> Z -> list Z -> Z -> list Z
}.

(** [DataCopy] is specified for multiples of 32 bytes ([block] elements);
    [DataCopyPad] for every count. *)
Class AscendCopyLaws `{AscendCopy} (block : Z) : Prop := {
  dci_length dst src s n : length (DataCopy_in dst src s n) = length dst;
  dci_data dst src s n i :
    n mod block = 0 -> n <= Z.of_nat (length dst) -> 0 <= i < n -> vat (DataCopy_in dst src s n) i = vat src (s + i);
  dcl_length dst src n : length (DataCopy_local dst src n) = length dst;
  dcl_data dst src n i :
    n mod block = 0 -> n <= Z.of_nat (length dst) -> 0 <= i < n -> vat (DataCopy_local dst src n) i = vat src i;
  dco_length dst d src n : length (DataCopy_out dst d src n) = length dst;
  dco_data dst d src n i :
    n mod block = 0 -> 0 <= d -> d + n <= Z.of_nat (length dst) -> 0 <= i < n ->
    vat (DataCopy_out dst d src n) (d + i) = vat src i;
  dco_other dst d src n i :
    n mod block = 0 -> 0 <= d -> 0 <= i -> i < d \/ d + n <= i -> vat (DataCopy_out dst d src n) i = vat dst i;
  cpi_length dst src s n : length (CopyPad_in dst src s n) = length dst;
  cpi_data dst src s n i :
    n <= Z.of_nat (length dst) -> 0 <= i < n -> vat (CopyPad_in dst src s n) i = vat src (s + i);
  cpo_length dst d src n : length (CopyPad_out dst d src n) = length dst;
  cpo_data dst d src n i :
    0 <= d -> d + n <= Z.of_nat (length dst) -> 0 <= i < n -> vat (CopyPad_out dst d src n) (d + i) = vat src i;
  cpo_other dst d src n i :
    0 <= d -> 0 <= i -> i < d \/ d + n <= i -> vat (CopyPad_out dst d src n) i = vat dst i
}.

(** A copy that leaves one of its tensors is a fault. *)
Definition in_tensor (l : list Z) (s n : Z) : bool := (0 <=? s) && (0 <=? n) && (s + n <=? Z.of_nat (length l)).

Lemma in_tensor_ok l s n : 0 <= s -> 0 <= n -> s + n <= Z.of_nat (length l) -> in_tensor l s n = true.
Proof.
  intros H1 H2 H3. unfold in_tensor.
  by rewrite (proj2 (Z.leb_le _ _) H1), (proj2 (Z.leb_le _ _) H2), (proj2 (Z.leb_le _ _) H3).
Qed.

Section CheckedCopies.
Context `{AscendCopy}.

Definition data_copy_in (dst src : list Z) (s n : Z) : res (list Z) :=
  if in_tensor dst 0 n && in_tensor src s n then Ok (DataCopy_in dst src s n) else Fault OutOfBounds.
Definition data_copy_local (dst src : list Z) (n : Z) : res (list Z) :=
  if in_tensor dst 0 n && in_tensor src 0 n then Ok (DataCopy_local dst src n) else Fault OutOfBounds.
Definition data_copy_out (dst : list Z) (d : Z) (src : list Z) (n : Z) : res (list Z) :=
  if in_tensor dst d n && in_tensor src 0 n then Ok (DataCopy_out dst d src n) else Fault OutOfBounds.
Definition copy_pad_in (dst src : list Z) (s n : Z) : res (list Z) :=
  if in_tensor dst 0 n && in_tensor src s n then Ok (CopyPad_in dst src s n) else Fault OutOfBounds.
Definition copy_pad_out (dst : list Z) (d : Z) (src : list Z) (n : Z) : res (list Z) :=
  if in_tensor dst d n && in_tensor src 0 n then Ok (CopyPad_out dst d src n) else Fault OutOfBounds.
End CheckedCopies.

Definition SoftCopy : AscendCopy :=
  {| DataCopy_in dst src s n := overwrite dst 0 src s n;
     DataCopy_local dst src n := overwrite dst 0 src 0 n;
     DataCopy_out dst d src n := overwrite dst d src 0 n;
     CopyPad_in dst src s n := overwrite dst 0 src s n;
     CopyPad_out dst d src n := overwrite dst d src 0 n |}.

Lemma SoftCopy_laws block : @AscendCopyLaws SoftCopy block.
Proof.
  split; cbn [DataCopy_in DataCopy_local DataCopy_out CopyPad_in CopyPad_out SoftCopy]; intros;
    first [apply overwrite_length | by apply vat_overwrite_in | by apply (overwrite_other _ _ _ _ _ n)
          | by apply (vat_overwrite_in dst 0)].
Qed.
