(* ===== verification/Tensor.v ===== *)
(** * Writes to tensors

    What a loop over elements, pieces or rows of a tensor leaves; the transfers
    of the AscendC library as such writes; a tensor that several cores write in
    disjoint places, in any order. *)

From S2P Require Import Prelude Ascend.

(** ** The rest of a tensor is as before *)

Definition outside (lo hi : Z) (l l' : list Z) : Prop :=
  length l' = length l /\ forall i, 0 <= i -> i < lo \/ hi <= i -> vat l' i = vat l i.

Lemma outside_refl lo hi l : outside lo hi l l.
Proof. done. Qed.

Lemma outside_trans lo hi l1 l2 l3 : outside lo hi l1 l2 -> outside lo hi l2 l3 -> outside lo hi l1 l3.
Proof. intros [L1 H1] [L2 H2]. split; [congruence|]. intros i Hi Ho. rewrite H2, H1; done. Qed.

Lemma outside_weaken lo hi lo' hi' l l' : outside lo hi l l' -> lo' <= lo -> hi <= hi' -> outside lo' hi' l l'.
Proof. intros [L H] ? ?. split; [done|]. intros i Hi Ho. apply H; lia. Qed.

Lemma outside_insert lo hi l i x :
  0 <= lo -> lo <= i < hi -> outside lo hi l (<[Z.to_nat i := x]> l).
Proof.
  intros H0 Hi. split; [by rewrite length_insert|]. intros j Hj Ho. apply vat_insert_ne; lia.
Qed.

(** Filling [n] consecutive entries. *)
Lemma fill_returns (base n : Z) (f : Z -> Z) body l :
  0 <= base -> 0 <= n -> base + n <= Z.of_nat (length l) ->
  (forall j l', 0 <= j < n -> outside base (base + n) l l' -> body j l' = vset l' (base + j) (f j)) ->
  returns (for_range n body l) (fun l' => outside base (base + n) l l' /\
    forall j, 0 <= j < n -> vat l' (base + j) = f j).
Proof.
  intros Hb Hn Hl Hbody. apply (for_range_returns (fun i l' => outside base (base + n) l l' /\
    forall j, 0 <= j < i -> vat l' (base + j) = f j)); [done|split; [apply outside_refl|lia]|].
  intros i l' Hi [Ho Hf]. rewrite Hbody by done. pose proof (proj1 Ho).
  rewrite vset_ok by lia. apply returns_ok. split.
  - eapply outside_trans; [exact Ho|]. apply outside_insert; lia.
  - intros j Hj. destruct (Z.eq_dec j i) as [->|]; [by rewrite vat_insert_eq by lia|].
    rewrite vat_insert_ne by lia. apply Hf. lia.
Qed.

(** A loop that writes one row after the other. *)
Lemma rows_returns (s rows W W' : Z) (f : Z -> Z -> Z) body l :
  0 <= s -> 0 <= rows -> 0 <= W' <= W ->
  (forall r l', 0 <= r < rows -> outside (s * W) ((s + rows) * W) l l' ->
     returns (body r l') (fun l'' => outside ((s + r) * W) ((s + r + 1) * W) l' l'' /\
       forall i, 0 <= i < W' -> vat l'' ((s + r) * W + i) = f r i)) ->
  returns (for_range rows body l) (fun l' => outside (s * W) ((s + rows) * W) l l' /\
    forall r i, 0 <= r < rows -> 0 <= i < W' -> vat l' ((s + r) * W + i) = f r i).
Proof.
  intros Hs Hr HW Hbody. apply (for_range_returns (fun n l' => outside (s * W) ((s + rows) * W) l l' /\
    forall r i, 0 <= r < n -> 0 <= i < W' -> vat l' ((s + r) * W + i) = f r i)); [done|split; [done|lia]|].
  intros n l' Hn [Ho Hv]. eapply returns_mono; [by apply Hbody|]. intros l'' [Ho' Hv']. split.
  - eapply outside_trans; [exact Ho|]. eapply outside_weaken; [exact Ho'|nia|nia].
  - intros r i Hri Hi. destruct (Z.eq_dec r n) as [->|]; [by apply Hv'|].
    rewrite (proj2 Ho'); [apply Hv; lia|nia|left; nia].
Qed.

(** ** Transfers *)

Lemma chunk_size off n size :
  0 < size -> 0 <= off < n -> (if off + size <=? n then size else n - off) = Z.min n (off + size) - off.
Proof. intros. destruct (Z.leb_spec (off + size) n); lia. Qed.

Lemma align8_mono a b : a <= b -> align8 a <= align8 b.
Proof. intros H. unfold align8. ediv. Qed.

Section Copies.
Context `{HA : AscendC} `{HAL : !AscendCLaws}.

Lemma copy_in_returns dst d src s n :
  0 <= d -> 0 <= s -> d + align8 n <= Z.of_nat (length dst) -> s + n <= Z.of_nat (length src) ->
  returns (copy_in dst d src s n) (fun l => outside d (d + align8 n) dst l /\
    forall i, 0 <= i < n -> vat l (d + i) = vat src (s + i)).
Proof.
  intros H1 H2 H3 H4. unfold copy_in.
  rewrite (proj2 (Z.leb_le _ _) H1), (proj2 (Z.leb_le _ _) H2), (proj2 (Z.leb_le _ _) H3), (proj2 (Z.leb_le _ _) H4).
  cbn [andb]. apply returns_ok. split; [split; [apply in_length|]|].
  - intros i Hi Ho. by apply in_other.
  - intros i Hi. by apply in_data.
Qed.

Lemma copy_out_returns dst d src s n :
  0 <= d -> 0 <= s -> d + n <= Z.of_nat (length dst) -> s + n <= Z.of_nat (length src) ->
  returns (copy_out dst d src s n) (fun l => outside d (d + n) dst l /\
    forall i, 0 <= i < n -> vat l (d + i) = vat src (s + i)).
Proof.
  intros H1 H2 H3 H4. unfold copy_out.
  rewrite (proj2 (Z.leb_le _ _) H1), (proj2 (Z.leb_le _ _) H2), (proj2 (Z.leb_le _ _) H3), (proj2 (Z.leb_le _ _) H4).
  cbn [andb]. apply returns_ok. split; [split; [apply out_length|]|].
  - intros i Hi Ho. by apply out_other.
  - intros i Hi. by apply out_data.
Qed.

(** A long row in pieces. *)
Lemma pieces_returns (size n base width : Z) (f : Z -> Z) step l :
  0 < size -> 0 <= base -> 0 <= n <= width ->
  (forall off l', 0 <= off < n -> off mod size = 0 -> outside base (base + width) l l' ->
     returns (step off l') (fun '(go, l'') => go = true /\
       outside (base + off) (base + width) l' l'' /\
       forall i, off <= i < Z.min n (off + size) -> vat l'' (base + i) = f i)) ->
  returns (for_step 0 n size step l) (fun l' => outside base (base + width) l l' /\
    forall i, 0 <= i < n -> vat l' (base + i) = f i).
Proof.
  intros Hs Hb Hn Hstep. apply (for_step_returns (fun off l' => 0 <= off /\ off mod size = 0 /\ outside base (base + width) l l' /\
    forall i, 0 <= i < Z.min n off -> vat l' (base + i) = f i)); [done| | |].
  - split; [lia|]. split; [apply Z.mod_0_l; lia|]. split; [done|lia].
  - intros off l' Hoff (H0 & Hm & Ho & Hv). eapply returns_mono; [by apply Hstep|].
    intros [go l''] (-> & Ho' & Hv'). split; [lia|]. split.
    { rewrite <- (Z.mul_1_l size) at 1. by rewrite Z.mod_add by lia. }
    split; [eapply outside_trans; [exact Ho|]; eapply outside_weaken; [exact Ho'|lia|lia]|].
    intros i Hi. destruct (Z.lt_ge_cases i off); [|apply Hv'; lia].
    rewrite (proj2 Ho') by lia. apply Hv. lia.
  - intros off l' _ Hge (_ & _ & Ho & Hv). split; [done|]. intros i Hi. apply Hv. lia.
Qed.
End Copies.

(** ** Disjoint writes in any order *)

(** The items of a list, one after the other. *)
Fixpoint run_list {X S : Type} (body : X -> S -> res S) (xs : list X) (s : S) : res S :=
  match xs with
  | [] => Ok s
  | x :: xs => s ← body x s; run_list body xs s
  end.

Lemma run_list_app {X S} (body : X -> S -> res S) xs ys s :
  run_list body (xs ++ ys) s = (s ← run_list body xs s; run_list body ys s).
Proof. revert s. induction xs as [|x xs IH]; intros s; [done|]. cbn. destruct (body x s); [apply IH|done]. Qed.

Section Writes.
Context {X : Type}.

(** Item [x] writes [v x i] to the entries [i] from [lo x] to [hi x]. *)
Context (lo hi : X -> Z) (v : X -> Z -> Z).

(** What the items of a list leave of a tensor. *)
Definition wrote (xs : list X) (l l' : list Z) : Prop :=
  length l' = length l /\
  (forall x i, x ∈ xs -> lo x <= i < hi x -> vat l' i = v x i) /\
  forall i, 0 <= i -> (forall x, x ∈ xs -> i < lo x \/ hi x <= i) -> vat l' i = vat l i.

(** The places of different items are different. *)
Record apart (xs : list X) : Prop := {
  ap_once : NoDup xs;
  ap_pos : forall x, x ∈ xs -> 0 <= lo x;
  ap_disjoint : forall x y i, x ∈ xs -> y ∈ xs -> x <> y -> lo x <= i < hi x -> i < lo y \/ hi y <= i
}.

Lemma apart_perm xs ys : xs ≡ₚ ys -> apart xs -> apart ys.
Proof.
  intros Hp [A1 A2 A3]. split; [by rewrite <- Hp| |].
  - intros x Hx. apply A2. by rewrite Hp.
  - intros x y i Hx Hy. apply A3; by rewrite Hp.
Qed.

Lemma apart_app xs ys : apart (xs ++ ys) -> apart xs /\ apart ys.
Proof.
  intros [A1 A2 A3]. apply list.NoDup_app in A1 as (N1 & _ & N2).
  split; (split; [done|intros x Hx; apply A2|intros x y i Hx Hy; apply A3]); apply elem_of_app; auto.
Qed.

Lemma wrote_nil l : wrote [] l l.
Proof. split; [done|]. split; [|done]. intros x i Hx. by apply elem_of_nil in Hx. Qed.

Lemma wrote_one x l l' :
  outside (lo x) (hi x) l l' -> (forall i, lo x <= i < hi x -> vat l' i = v x i) -> wrote [x] l l'.
Proof.
  intros [Hl Ho] Hv. split; [done|]. split.
  - intros y i ->%list_elem_of_singleton. apply Hv.
  - intros i Hi Hn. apply Ho; [done|]. apply Hn. by left.
Qed.

Lemma wrote_app xs ys l1 l2 l3 : apart (xs ++ ys) -> wrote xs l1 l2 -> wrote ys l2 l3 -> wrote (xs ++ ys) l1 l3.
Proof.
  intros [A1 A2 A3] (L1 & V1 & O1) (L2 & V2 & O2). apply list.NoDup_app in A1 as (_ & A1 & _). split; [congruence|]. split.
  - intros x i [Hx|Hx]%elem_of_app Hi; [|by apply V2]. rewrite O2; [by apply V1| |].
    + specialize (A2 x ltac:(apply elem_of_app; auto)). lia.
    + intros y Hy. apply (A3 x y); [apply elem_of_app; auto..|intros ->; by apply (A1 y)|done].
  - intros i Hi Hn. rewrite O2; [apply O1|..]; try done; intros x Hx; apply Hn, elem_of_app; auto.
Qed.

Lemma wrote_perm xs ys l l' : xs ≡ₚ ys -> wrote xs l l' -> wrote ys l l'.
Proof.
  intros Hp (L & V & O). split; [done|]. split.
  - intros x i Hx. apply V. by rewrite Hp.
  - intros i Hi Hn. apply O; [done|]. intros x Hx. apply Hn. by rewrite <- Hp.
Qed.

(** [get s] is the tensor, [I] what every item keeps of the rest of the state. *)
Lemma run_list_wrote_inv {S} (get : S -> list Z) (I : S -> Prop) (body : X -> S -> res S) xs s :
  apart xs -> I s ->
  (forall x s', x ∈ xs -> I s' -> length (get s') = length (get s) ->
     returns (body x s') (fun s'' => I s'' /\ wrote [x] (get s') (get s''))) ->
  returns (run_list body xs s) (fun s' => I s' /\ wrote xs (get s) (get s')).
Proof.
  revert s. induction xs as [|x xs IH]; intros s HA Hi Hw; [apply returns_ok; split; [done|apply wrote_nil]|]. cbn [run_list].
  eapply returns_bind_mono; [apply Hw; [by left|done|done]|]. intros s1 [I1 H1].
  destruct (apart_app [x] xs HA) as [_ HA']. eapply returns_mono; [apply IH; [done|done|]|].
  - intros y s' Hy Hi' Hl. apply Hw; [by right|done|]. rewrite Hl. apply H1.
  - intros s2 [I2 H2]. split; [done|]. by apply (wrote_app [x] xs (get s) (get s1)).
Qed.

Lemma run_list_wrote (body : X -> list Z -> res (list Z)) xs l :
  apart xs -> (forall x l', x ∈ xs -> length l' = length l -> returns (body x l') (wrote [x] l')) ->
  returns (run_list body xs l) (wrote xs l).
Proof.
  intros HA Hw. eapply returns_mono; [apply (run_list_wrote_inv id (fun _ => True)); [done|done|]|by intros ? [_ ?]].
  intros x l' Hx _ Hl. eapply returns_mono; [by apply Hw|done].
Qed.

(** Cores that run their own items. *)
Lemma run_list_wrote_bind {Y} (f : Y -> list X) (body : Y -> list Z -> res (list Z)) ys l :
  apart (ys ≫= f) -> (forall y l', y ∈ ys -> apart (f y) -> length l' = length l -> returns (body y l') (wrote (f y) l')) ->
  returns (run_list body ys l) (wrote (ys ≫= f) l).
Proof.
  revert l. induction ys as [|y ys IH]; intros l HA Hw; [apply returns_ok, wrote_nil|]. cbn in HA |- *.
  destruct (apart_app _ _ HA) as [HA1 HA2].
  eapply returns_bind_mono; [apply Hw; [by left|done|done]|]. intros l1 H1.
  eapply returns_mono; [apply IH; [done|]|].
  - intros z l' Hz HA' Hl. apply Hw; [by right|done|]. rewrite Hl. apply H1.
  - intros l2 H2. by apply (wrote_app _ _ l l1).
Qed.
End Writes.

(** Items that are written in two parts. *)
Section Parts.
Context {X : Type} (lo mid hi : X -> Z) (v : X -> Z -> Z).

Lemma apart_part xs (lo' hi' : X -> Z) :
  (forall x, x ∈ xs -> lo x <= lo' x /\ hi' x <= hi x) -> apart lo hi xs -> apart lo' hi' xs.
Proof.
  intros Hs [A1 A2 A3]. split; [done| |].
  - intros x Hx. specialize (A2 x Hx). destruct (Hs x Hx). lia.
  - intros x y i Hx Hy Hn Hi. destruct (Hs x Hx), (Hs y Hy). destruct (A3 x y i Hx Hy Hn); lia.
Qed.

Lemma wrote_join xs l1 l2 l3 :
  (forall x, x ∈ xs -> lo x <= mid x <= hi x) -> apart lo hi xs ->
  wrote lo mid v xs l1 l2 -> wrote mid hi v xs l2 l3 -> wrote lo hi v xs l1 l3.
Proof.
  intros Hm [A1 A2 A3] (L1 & V1 & O1) (L2 & V2 & O2). split; [congruence|]. split.
  - intros x i Hx Hi. destruct (Z.lt_ge_cases i (mid x)); [|apply V2; [done|lia]].
    rewrite O2; [apply V1; [done|lia]|specialize (A2 x Hx); lia|].
    intros y Hy. specialize (Hm y Hy). destruct (Z.lt_ge_cases i (mid y)); [by left|].
    assert (Hn : x <> y) by (intros ->; lia). destruct (A3 x y i Hx Hy Hn); lia.
  - intros i Hi Hn. rewrite O2, O1; [done|done|..|done|]; intros x Hx; specialize (Hn x Hx); specialize (Hm x Hx); lia.
Qed.

Lemma wrote_empty xs l : (forall x, x ∈ xs -> hi x <= lo x) -> wrote lo hi v xs l l.
Proof. intros E. split; [done|]. split; [|done]. intros x i Hx Hi. specialize (E x Hx). lia. Qed.

Lemma wrote_hi (hi' : X -> Z) xs l l' :
  (forall x, x ∈ xs -> hi x = hi' x) -> wrote lo hi v xs l l' -> wrote lo hi' v xs l l'.
Proof.
  intros E (L & V & O). split; [done|]. split.
  - intros x i Hx. rewrite <- E by done. by apply V.
  - intros i Hi Hn. apply O; [done|]. intros x Hx. rewrite E by done. by apply Hn.
Qed.
End Parts.

(** ** Items dealt to the cores *)

Lemma list_bind_ext_in {X Y} (f g : X -> list Y) xs : (forall x, x ∈ xs -> f x = g x) -> xs ≫= f = xs ≫= g.
Proof.
  induction xs as [|x xs IH]; intros E; [done|]. rewrite !bind_cons, E by (by left). f_equal. apply IH. intros y Hy. apply E. by right.
Qed.

Lemma bind_empty {X Y} (f : X -> list Y) xs : (forall x, x ∈ xs -> f x = []) -> xs ≫= f = [].
Proof.
  induction xs as [|x xs IH]; intros E; [done|]. rewrite bind_cons, E by (by left). apply IH. intros y Hy. apply E. by right.
Qed.

Lemma bind_assoc_list {X Y W} (f : X -> list Y) (g : Y -> list W) xs : (xs ≫= f) ≫= g = xs ≫= fun x => f x ≫= g.
Proof. induction xs as [|x xs IH]; [done|]. by rewrite !bind_cons, bind_app, IH. Qed.

(** [lo, lo + step, ...] below [hi]. *)
Definition strided (lo hi step : Z) : list Z :=
  (fun q => lo + q * step) <$> seqZ 0 ((hi - lo + step - 1) / step).

Lemma elem_of_strided lo hi step x :
  0 < step -> x ∈ strided lo hi step <-> lo <= x < hi /\ (x - lo) mod step = 0.
Proof.
  intros Hs. unfold strided. rewrite list_elem_of_fmap. split.
  - intros (q & -> & Hq%elem_of_seqZ). replace (lo + q * step - lo) with (q * step) by lia.
    rewrite Z.mod_mul by lia. split; [|done]. split; [nia|].
    pose proof (Z.mul_div_le (hi - lo + step - 1) step Hs). nia.
  - intros [Hx Hm]. exists ((x - lo) / step). pose proof (Z.div_mod (x - lo) step ltac:(lia)). split; [lia|].
    apply elem_of_seqZ. split; [apply Z.div_pos; lia|]. rewrite Z.add_0_l.
    apply Z.div_lt_upper_bound; [lia|]. pose proof (Z.div_mod (hi - lo + step - 1) step ltac:(lia)).
    pose proof (Z.mod_pos_bound (hi - lo + step - 1) step Hs). nia.
Qed.

Lemma strided_NoDup lo hi step : 0 < step -> NoDup (strided lo hi step).
Proof. intros Hs. apply NoDup_fmap_2; [|apply NoDup_seqZ]. intros a b E. nia. Qed.

(** A loop with a step runs the items of the stride. *)
Lemma for_step_run_list {S} (body : Z -> S -> res S) lo hi step s :
  for_step lo hi step (fun i s => s ← body i s; Ok (true, s)) s = run_list body (strided lo hi step) s.
Proof.
  unfold for_step, strided. destruct (Z.le_gt_cases ((hi - lo + step - 1) / step) 0).
  { rewrite seqZ_nil by lia. by replace (Z.to_nat _) with 0%nat by lia. }
  remember (Z.to_nat ((hi - lo + step - 1) / step)) as n eqn:En.
  replace ((hi - lo + step - 1) / step) with (Z.of_nat n) by lia. clear En H.
  generalize 0 as q. revert s. induction n as [|n IH]; intros s q; [done|].
  rewrite seqZ_cons by lia. cbn [for_break fmap list_fmap run_list].
  replace (Z.pred (Z.of_nat (Datatypes.S n))) with (Z.of_nat n) by lia.
  destruct (body (lo + q * step) s) as [s'|]; [|done]. cbn [mbind res_bind]. apply IH.
Qed.

Lemma for_range_run_list {S} (body : Z -> S -> res S) n s : for_range n body s = run_list body (seqZ 0 n) s.
Proof.
  unfold for_range. destruct (Z.le_gt_cases n 0).
  { rewrite seqZ_nil by lia. by replace (Z.to_nat n) with 0%nat by lia. }
  remember (Z.to_nat n) as k eqn:Ek. replace n with (Z.of_nat k) by lia. clear Ek H.
  generalize 0 as q. revert s. induction k as [|k IH]; intros s q; [done|].
  rewrite seqZ_cons by lia. cbn [for_loop run_list].
  replace (Z.pred (Z.of_nat (Datatypes.S k))) with (Z.of_nat k) by lia.
  destruct (body q s) as [s'|]; [|done]. cbn [mbind res_bind]. apply IH.
Qed.

Lemma run_list_fmap {X Y S} (g : X -> Y) (body : Y -> S -> res S) xs s :
  run_list body (g <$> xs) s = run_list (fun x => body (g x)) xs s.
Proof. revert s. induction xs as [|x xs IH]; intros s; [done|]. cbn. destruct (body (g x) s); [apply IH|done]. Qed.

Lemma run_list_ext {X S} (f g : X -> S -> res S) xs s :
  (forall x s, x ∈ xs -> f x s = g x s) -> run_list f xs s = run_list g xs s.
Proof.
  revert s. induction xs as [|x xs IH]; intros s H; [done|]. cbn. rewrite H by (by left).
  destruct (g x s); [apply IH; intros; apply H; by right|done].
Qed.

(** The shares of a division with rest: core [b] has [per] items, and one more if
    it is below the rest. *)
Lemma strided_share b per tail nb :
  0 <= tail < nb -> 0 <= b < nb ->
  strided b (per * nb + tail) nb = (fun q => b + q * nb) <$> seqZ 0 (if b <? tail then per + 1 else per).
Proof.
  intros Ht Hb. unfold strided. f_equal. f_equal.
  replace (per * nb + tail - b + nb - 1) with (tail - b + nb - 1 + per * nb) by lia.
  rewrite Z.div_add by lia. destruct (Z.ltb_spec b tail).
  - rewrite <- (Z.div_unique (tail - b + nb - 1) nb 1 (tail - b - 1)) by lia. lia.
  - rewrite Z.div_small by lia. lia.
Qed.

(** Core [b] of [nb] gets the items b, b + nb, ...: together they get every item
    once, in whatever order the cores run. *)
Lemma strided_partition (order : list Z) nb n :
  0 < nb -> order ≡ₚ seqZ 0 nb -> (order ≫= fun b => strided b n nb) ≡ₚ seqZ 0 n.
Proof.
  intros Hnb Hp. apply NoDup_Permutation; [| |].
  - assert (Hr : forall b, b ∈ order -> 0 <= b < nb) by (intros b Hb; rewrite Hp in Hb; apply elem_of_seqZ in Hb; lia).
    assert (Hnd : NoDup order) by (rewrite Hp; apply NoDup_seqZ). clear Hp.
    induction order as [|b bs IH]; [apply NoDup_nil_2|]. apply list.NoDup_cons in Hnd as [Hb Hnd]. cbn.
    apply list.NoDup_app. split; [by apply strided_NoDup|]. split.
    + intros x Hx Hx'. apply elem_of_strided in Hx as [Hx Hm]; [|done].
      apply list_elem_of_bind in Hx' as (b' & Hx' & Hb'). apply elem_of_strided in Hx' as [Hx' Hm']; [|done].
      assert (b = b'); [|by subst]. pose proof (Hr b ltac:(by left)). pose proof (Hr b' ltac:(by right)).
      apply Z.mod_divide in Hm as [q Eq]; [|lia]. apply Z.mod_divide in Hm' as [q' Eq']; [|lia].
      assert (q = q') by nia. nia.
    + apply IH; [|done]. intros b' Hb'. apply Hr. by right.
  - apply NoDup_seqZ.
  - intros x. rewrite list_elem_of_bind, elem_of_seqZ. split.
    + intros (b & Hx & Hb). rewrite Hp in Hb. apply elem_of_seqZ in Hb. apply elem_of_strided in Hx as [Hx _]; lia.
    + intros Hx. exists (x mod nb). pose proof (Z.mod_pos_bound x nb Hnb). pose proof (Z.div_mod x nb ltac:(lia)).
      rewrite Hp. split; [|apply elem_of_seqZ; lia]. apply elem_of_strided; [done|]. split; [pose proof (Z.mod_le x nb); lia|].
      replace (x - x mod nb) with (x / nb * nb) by lia. apply Z.mod_mul. lia.
Qed.

(** ** Items in consecutive shares *)

Definition share_start (per rest c : Z) : Z := per * c + Z.min c rest.
Definition share_len (per rest c : Z) : Z := if c <? rest then per + 1 else per.

Lemma share_next per rest c : share_start per rest (c + 1) = share_start per rest c + share_len per rest c.
Proof. unfold share_start, share_len. destruct (Z.ltb_spec c rest); lia. Qed.

(** The shares of [nc] cores divide [per * nc + rest] items. *)
Lemma shares_partition (order : list Z) nc per rest :
  0 <= per -> 0 <= rest < nc -> order ≡ₚ seqZ 0 nc ->
  (order ≫= fun c => seqZ (share_start per rest c) (share_len per rest c)) ≡ₚ seqZ 0 (per * nc + rest).
Proof.
  intros Hper Hrest Hp. rewrite Hp. clear Hp.
  assert (H : forall k : nat, Z.of_nat k <= nc ->
    (seqZ 0 (Z.of_nat k) ≫= fun c => seqZ (share_start per rest c) (share_len per rest c)) = seqZ 0 (share_start per rest (Z.of_nat k))).
  { induction k as [|k IH]; intros Hk.
    - replace (share_start per rest (Z.of_nat 0)) with 0 by (unfold share_start; lia). done.
    - replace (Z.of_nat (S k)) with (Z.of_nat k + 1) by lia. rewrite seqZ_app, bind_app, IH by lia.
      rewrite (seqZ_cons (0 + Z.of_nat k)), (seqZ_nil _ (Z.pred 1)), bind_cons, app_nil_r, Z.add_0_l by lia.
      rewrite share_next, (seqZ_app _ (share_start per rest (Z.of_nat k))), Z.add_0_l; [done|unfold share_start; nia|].
      unfold share_len. destruct (_ <? _); lia. }
  specialize (H (Z.to_nat nc)). rewrite Z2Nat.id in H by lia. rewrite H by lia.
  by replace (share_start per rest nc) with (per * nc + rest) by (unfold share_start; lia).
Qed.

(** Page [p] of [e] elements of one tensor is page [p'] of another. *)
Definition page_eq (e : Z) (l : list Z) (p : Z) (l' : list Z) (p' : Z) : Prop :=
  forall i, 0 <= i < e -> vat l (p * e + i) = vat l' (p' * e + i).
