(* ===== verification/NgramKernel.v ===== *)
(** * The n-gram proposer: ngram_spec_decode

    KernelNgramSpecDecode of
    src/csrc/attention/ngram_spec_decode/op_kernel/ngram_spec_decode.cpp and its
    tiling function.  A vector core takes some rows of the batch; for each row it
    appends the sampled tokens to the sequence, looks for an earlier occurrence
    of the n-gram that ends the sequence and proposes the tokens behind it.
    Members of the object are records: the sizes, the buffers of the core and
    the tensors in global memory. *)

From S2P Require Import Prelude Ascend.

Module Ngram.

(** ** Tiling *)

Record NgramSpecDecodeInfo := mkInfo {
  batchSize : Z;
  maxSeqLen : Z;
  maxNewTokens : Z;
  vocabSize : Z;
  minN : Z;
  maxN : Z;
  k : Z;
  formerNum : Z;
  rowsPerCore : Z;
  tailRows : Z;
  blockRows : Z
}.

Definition ELEM_SIZE : Z := 4.
Definition SAFE_CHUNK : Z := 32768.

(** [((n + 8 - 1) / 8) * 8]: 32 bytes are 8 elements. *)
Definition align_elems (n : Z) : Z := Z.quot (n + 8 - 1) 8 * 8.

(** Shapes, attributes and platform of a call. *)
Record TilingContext := mkTilingContext {
  tc_batch_size : Z;
  tc_max_seq_len : Z;
  tc_max_new_tokens : Z;
  tc_vocab_size : Z;
  tc_min_n : Z;
  tc_max_n : Z;
  tc_k : Z;
  tc_aivNum : Z;
  tc_ubSize : Z
}.

(** The tiling data and the number of blocks. *)
Definition NgramSpecDecodeTilingFunc (t : TilingContext) : res (NgramSpecDecodeInfo * Z) :=
  let ub_per_row := (align_elems (tc_max_seq_len t) + align_elems (tc_max_new_tokens t) + align_elems (tc_k t)) * ELEM_SIZE in
  let ub_overhead := 4 * 32 + tc_max_n t * ELEM_SIZE + Z.quot (align_elems (tc_max_seq_len t) + 7) 8 in
  let ub_available := tc_ubSize t - ub_overhead in
  max_block_rows ← (if ub_available >? 0 then sdiv ub_available ub_per_row else Ok 1);
  let max_block_rows := Z.max max_block_rows 1 in
  let block_dim := Z.min (tc_batch_size t) (tc_aivNum t) in
  let rows_per_core := if block_dim >? 0 then Z.quot (tc_batch_size t) block_dim else 0 in
  let former_num := if block_dim >? 0 then block_dim - 1 else 0 in
  let tail_rows := tc_batch_size t - former_num * rows_per_core in
  let block_rows := Z.min rows_per_core max_block_rows in
  Ok (mkInfo (u32 (tc_batch_size t)) (u32 (tc_max_seq_len t)) (u32 (tc_max_new_tokens t))
        (u32 (tc_vocab_size t)) (u32 (tc_min_n t)) (u32 (tc_max_n t)) (u32 (tc_k t))
        (u32 former_num) (u32 rows_per_core) (u32 tail_rows) (u32 block_rows), u32 block_dim).

(** ** The object *)

Record Conf := mkConf {
  batch_size : Z;
  max_seq_len : Z;
  max_seq_len_align : Z;
  max_new_tokens : Z;
  max_new_tokens_align : Z;
  k_val : Z;
  k_align : Z;
  vocab_size_val : Z;
  min_n_val : Z;
  max_n_val : Z;
  block_rows : Z;
  my_rows : Z;
  row_offset : Z;
  is_large_row : bool
}.

(** Buffers of the core. *)
Record Ub := mkUb {
  tokenLocal : list Z;
  sampledLocal : list Z;
  numTokensLocal : list Z;
  discardLocal : list Z;
  nextLocal : list Z;
  draftLocal : list Z;
  numValidLocal : list Z;
  suffixLocal : list Z;
  maskLocal : list Z
}.
#[global] Instance Ub_eta : Eta Ub := fun u =>
  mkUb (tokenLocal u) (sampledLocal u) (numTokensLocal u) (discardLocal u) (nextLocal u)
    (draftLocal u) (numValidLocal u) (suffixLocal u) (maskLocal u).

(** Tensors in global memory. *)
Record Gm := mkGm {
  tokenGm : list Z;
  numTokensGm : list Z;
  sampledGm : list Z;
  discardGm : list Z;
  nextTokensGm : list Z;
  draftTokensGm : list Z;
  numValidGm : list Z
}.
#[global] Instance Gm_eta : Eta Gm := fun g =>
  mkGm (tokenGm g) (numTokensGm g) (sampledGm g) (discardGm g) (nextTokensGm g)
    (draftTokensGm g) (numValidGm g).

(** The sizes of block [blockIdx]. *)
Definition Init (t : NgramSpecDecodeInfo) (blockIdx : Z) : Conf :=
  let msa := align_elems (i32 (maxSeqLen t)) in
  let former := blockIdx <? u32 (i32 (formerNum t)) in
  let rows := u32 (i32 (rowsPerCore t)) in
  mkConf (i32 (batchSize t)) (i32 (maxSeqLen t)) msa (i32 (maxNewTokens t))
    (align_elems (i32 (maxNewTokens t))) (i32 (k t)) (align_elems (i32 (k t))) (i32 (vocabSize t))
    (i32 (minN t)) (i32 (maxN t)) (i32 (blockRows t))
    (if former then rows else u32 (i32 (tailRows t)))
    (if former then u32 (rows * blockIdx) else u32 (rows * u32 (i32 (formerNum t))))
    (msa >? SAFE_CHUNK).

(** Elements of the buffers that Init allocates (bytes of the mask). *)
Definition buffer_sizes (c : Conf) : list Z :=
  let br := u32 (block_rows c) in
  let br_align := u32 (u32 (br * ELEM_SIZE + 31) / 32 * 32) / ELEM_SIZE in
  [if is_large_row c then u32 (u32 (SAFE_CHUNK + u32 (max_n_val c)) + 7) / 8 * 8
   else u32 (br * u32 (max_seq_len_align c));
   u32 (br * u32 (max_new_tokens_align c)); br_align; br_align; br_align;
   u32 (br * u32 (k_align c)); br_align; u32 (max_n_val c); (SAFE_CHUNK + 7) / 8].

Section Kernel.
Context `{AscendC} (c : Conf).

Abbreviation msa := (max_seq_len_align c).
Abbreviation mnta := (max_new_tokens_align c).

(** ** Sampled tokens of a row *)

(** Invalid tokens are replaced by -1, valid ones counted. *)
Definition validate (discard base : Z) (sampled : list Z) : res (list Z * Z) :=
  for_range (max_new_tokens c) (fun j '(sampled, valid_count) =>
    val ← vget sampled (u32 (base + j));
    if negb (discard =? 0) then s ← vset sampled (u32 (base + j)) (-1); Ok (s, valid_count)
    else if negb (val =? -1) && (val <? vocab_size_val c) then Ok (sampled, valid_count + 1)
    else s ← vset sampled (u32 (base + j)) (-1); Ok (s, valid_count)) (sampled, 0).

(** No more than fit into the row. *)
Definition clip_count (seq_len valid_count : Z) : Z :=
  let avail_space := max_seq_len c - seq_len in
  let avail_space := if avail_space <? 0 then 0 else avail_space in
  if valid_count >? avail_space then avail_space else valid_count.

(** ** Search *)

(** A match so far: position and length, (-1, 0) when there is none. *)
Abbreviation best := (Z * Z)%type.

(** [for (s = lo; s < n; ++s)]: the tokens are compared until two differ. *)
Definition all_match (lo n : Z) (same : Z -> res bool) : res bool :=
  for_break (Z.to_nat (n - lo)) lo (fun s _ => ok ← same s; Ok (ok, ok)) true.

(** [for (p = 0; p < elements; ++p)]: the first candidate whose other tokens
    match. *)
Definition scan (elements : Z) (candidate : Z -> res bool) (rest : Z -> res bool) (off n : Z) (b : best) : res best :=
  for_break (Z.to_nat elements) 0 (fun p b =>
    hit ← candidate p;
    if hit : bool then
      ok ← rest p;
      if ok : bool then Ok (false, (off + p, n)) else Ok (true, b)
    else Ok (true, b)) b.

(** Bit [p] of the mask. *)
Definition mask_bit (mask : list Z) (p : Z) : res bool :=
  byte ← vget mask (Z.shiftr p 3); Ok (negb (Z.land byte (Z.shiftl 1 (Z.land p 7)) =? 0)).

Definition CMP_MAX : Z := 8192.

(** One row in the buffer: comparison with the first token of the n-gram by the
    vector unit, in pieces of 8192. *)
Definition search_vector (token : list Z) (nt : Z) (mask : list Z) : res (list Z * best) :=
  for_break (Z.to_nat (max_n_val c - min_n_val c + 1)) (min_n_val c) (fun n '(mask, b) =>
    let wc := nt - n in
    if n >? nt then Ok (false, (mask, b))
    else if wc <=? 0 then Ok (false, (mask, b))
    else
      suffix0 ← vget token (u32 (nt - n));
      st ← for_step 0 wc CMP_MAX (fun cmp_off '(mask, b) =>
        let remaining := u32 (wc - cmp_off) in
        let elements := if remaining >=? CMP_MAX then CMP_MAX else remaining in
        let count_aligned := u32 (elements + 63) / 64 * 64 in
        let buf_avail := u32 (msa - cmp_off) in
        let count_aligned := if count_aligned >? buf_avail then buf_avail / 64 * 64 else count_aligned in
        let rest p := all_match 1 n (fun s =>
          sv ← vget token (u32 (nt - n + s)); tv ← vget token (u32 (cmp_off + p + s)); Ok (tv =? sv)) in
        if count_aligned =? 0 then
          b ← scan elements (fun p => t ← vget token (u32 (cmp_off + p)); Ok (t =? suffix0)) rest cmp_off n b;
          Ok (negb (b.1 >=? 0), (mask, b))
        else
          mask ← compare mask token cmp_off suffix0 count_aligned;
          b ← scan elements (mask_bit mask) rest cmp_off n b;
          Ok (negb (b.1 >=? 0), (mask, b))) (mask, b);
      Ok (true, st)) (mask, (-1, 0)).

(** Several rows in the buffer: token by token. *)
Definition search_scalar (token : list Z) (row_base nt : Z) (suffix : list Z) : res (list Z * best) :=
  for_break (Z.to_nat (max_n_val c - min_n_val c + 1)) (min_n_val c) (fun n '(suffix, b) =>
    if n >? nt then Ok (false, (suffix, b))
    else
      suffix ← for_range n (fun s suffix =>
        t ← vget token (u32 (row_base + nt - n + s)); vset suffix (u32 s) t) suffix;
      b ← for_break (Z.to_nat (nt - n - 1 + 1)) 0 (fun pos b =>
        ok ← all_match 0 n (fun s =>
          tv ← vget token (u32 (row_base + pos + s)); sv ← vget suffix (u32 s); Ok (tv =? sv));
        if ok : bool then Ok (false, (pos, n)) else Ok (true, b)) b;
      Ok (true, (suffix, b))) (suffix, (-1, 0)).

(** ** Draft tokens *)

Definition write_draft (base : Z) (token : Z -> res Z) (available : Z) (draft : list Z) : res (list Z) :=
  for_range (k_val c) (fun j draft =>
    if j <? available then t ← token j; vset draft (u32 (base + j)) t
    else vset draft (u32 (base + j)) (-1)) draft.

Definition count_draft (base : Z) (draft : list Z) : res Z :=
  for_break (Z.to_nat (k_val c)) 0 (fun j n =>
    t ← vget draft (u32 (base + j)); if negb (t =? -1) then Ok (true, n + 1) else Ok (false, n)) 0.

(** ** A row that is in the buffer *)

Definition search_row (idx nt : Z) (u : Ub) : res (Ub * best) :=
  if block_rows c <=? 1 then
    '(mask, b) ← search_vector (tokenLocal u) nt (maskLocal u); Ok (u <| maskLocal := mask |>, b)
  else
    '(suffix, b) ← search_scalar (tokenLocal u) (u32 (idx * msa)) nt (suffixLocal u);
    Ok (u <| suffixLocal := suffix |>, b).

Definition ComputeOneRow (idx : Z) (u : Ub) : res Ub :=
  seq_len ← vget (numTokensLocal u) idx;
  discard ← vget (discardLocal u) idx;
  let trow := u32 (idx * u32 msa) in
  let srow := u32 (idx * u32 mnta) in
  let drow := u32 (idx * u32 (k_align c)) in
  let backup_pos := if seq_len >? 0 then seq_len - 1 else 0 in
  backup_token ← vget (tokenLocal u) (u32 (trow + backup_pos));
  '(sampled, valid_count) ← validate discard srow (sampledLocal u);
  let valid_count := clip_count seq_len valid_count in
  nexts ← (if valid_count >? 0
           then t ← vget sampled (u32 (srow + valid_count - 1)); vset (nextLocal u) idx t
           else vset (nextLocal u) idx backup_token);
  let num_tokens_tmp := seq_len + valid_count in
  token ← for_range valid_count (fun j token =>
    t ← vget sampled (u32 (srow + j)); vset token (u32 (trow + seq_len + j)) t) (tokenLocal u);
  let u := u <| sampledLocal := sampled |> <| nextLocal := nexts |> <| tokenLocal := token |> in
  '(u, (best_match_pos, best_ngram_len)) ←
    (if (valid_count >? 0) && (num_tokens_tmp >=? min_n_val c) then search_row idx num_tokens_tmp u
     else Ok (u, (-1, 0)));
  let draft_start := best_match_pos + best_ngram_len in
  let tokens_available := if best_match_pos >=? 0 then num_tokens_tmp - draft_start else 0 in
  draft ← write_draft drow (fun j => vget (tokenLocal u) (u32 (trow + draft_start + j))) tokens_available (draftLocal u);
  n ← count_draft drow draft;
  nv ← vset (numValidLocal u) idx n;
  Ok (u <| draftLocal := draft |> <| numValidLocal := nv |>).

Definition Compute (rows : Z) (u : Ub) : res Ub := for_range rows ComputeOneRow u.

(** ** Transfers of a block of rows *)

Definition MAX_CHUNK_ELEMS : Z := 8192.

Definition copy_row_in (token gm : list Z) (ubRow gmRow : Z) : res (list Z) :=
  for_step 0 (max_seq_len c) MAX_CHUNK_ELEMS (fun off token =>
    let chunk := if off + MAX_CHUNK_ELEMS <=? max_seq_len c then MAX_CHUNK_ELEMS else max_seq_len c - off in
    token ← copy_in token (ubRow + off) gm (gmRow + off) chunk; Ok (true, token)) token.

Definition copy_row_out (gm token : list Z) (gmRow ubRow : Z) : res (list Z) :=
  for_step 0 (max_seq_len c) MAX_CHUNK_ELEMS (fun off gm =>
    let chunk := if off + MAX_CHUNK_ELEMS <=? max_seq_len c then MAX_CHUNK_ELEMS else max_seq_len c - off in
    gm ← copy_out gm (gmRow + off) token (ubRow + off) chunk; Ok (true, gm)) gm.

(** The sampled tokens, lengths and discard flags of [rows] rows. *)
Definition load_rows (start_row rows : Z) (g : Gm) (u : Ub) : res Ub :=
  sampled ← for_range rows (fun r s =>
    copy_in s (r * mnta) (sampledGm g) (u32 (start_row + r) * max_new_tokens c) (max_new_tokens c)) (sampledLocal u);
  nums ← copy_in (numTokensLocal u) 0 (numTokensGm g) start_row rows;
  discards ← copy_in (discardLocal u) 0 (discardGm g) start_row rows;
  Ok (u <| sampledLocal := sampled |> <| numTokensLocal := nums |> <| discardLocal := discards |>).

(** Next tokens, drafts and their numbers of [rows] rows. *)
Definition store_rows (start_row rows : Z) (u : Ub) (g : Gm) : res Gm :=
  nexts ← copy_out (nextTokensGm g) start_row (nextLocal u) 0 rows;
  drafts ← for_range rows (fun r d =>
    copy_out d (u32 (start_row + r) * k_val c) (draftLocal u) (r * k_align c) (k_val c)) (draftTokensGm g);
  nums ← copy_out (numValidGm g) start_row (numValidLocal u) 0 rows;
  Ok (g <| nextTokensGm := nexts |> <| draftTokensGm := drafts |> <| numValidGm := nums |>).

Definition CopyIn (start_row rows : Z) (g : Gm) (u : Ub) : res Ub :=
  token ← for_range rows (fun r token =>
    copy_row_in token (tokenGm g) (u32 (r * msa)) (u32 (start_row + r) * max_seq_len c)) (tokenLocal u);
  load_rows start_row rows g (u <| tokenLocal := token |>).

Definition CopyOut (start_row rows : Z) (u : Ub) (g : Gm) : res Gm :=
  token ← for_range rows (fun r gm =>
    copy_row_out gm (tokenLocal u) (u32 (start_row + r) * max_seq_len c) (u32 (r * msa))) (tokenGm g);
  store_rows start_row rows u (g <| tokenGm := token |>).
(** ** Rows longer than the buffer *)

(** [LoadGmElements]: tokens of global memory to the start of the buffer. *)
Definition LoadGmElements (gm : list Z) (gm_offset count : Z) (token : list Z) : res (list Z) :=
  if count <=? 0 then Ok token else copy_in token 0 gm gm_offset count.

Definition STORE_MAX : Z := 16383.

Definition StoreGmElements (token : list Z) (gm_offset count : Z) (gm : list Z) : res (list Z) :=
  if count <=? 0 then Ok gm
  else for_step 0 count STORE_MAX (fun off gm =>
    let chunk := if off + STORE_MAX <=? count then STORE_MAX else count - off in
    gm ← copy_out gm (gm_offset + off) token off chunk; Ok (true, gm)) gm.

(** The buffers that the search of a long row changes: tokens and mask. *)
Record Chunk := mkChunk { ck_token : list Z; ck_mask : list Z; ck_best : Z * Z }.

(** One comparison of at most 8192 tokens of the chunk from [chunk_start]. *)
Definition search_piece (suffix : list Z) (n chunk_start chunk_count load_count cmp_count suffix0 cmp_off : Z)
    (s : Chunk) : res (bool * Chunk) :=
  let suffix_offset := max_n_val c - n in
  let rem := u32 (chunk_count - cmp_off) in
  let elements := if rem >=? cmp_count then cmp_count else rem in
  let aligned := u32 (elements + 63) / 64 * 64 in
  mask ← compare (ck_mask s) (ck_token s) cmp_off suffix0 aligned;
  b ← scan elements (mask_bit mask)
        (fun p => all_match 1 n (fun i =>
           sv ← vget suffix (u32 (suffix_offset + i));
           if u32 (cmp_off + p + i) <? u32 load_count
           then tv ← vget (ck_token s) (u32 (cmp_off + p + i)); Ok (tv =? sv)
           else Ok false))
        (chunk_start + cmp_off) n (ck_best s);
  Ok (negb (b.1 >=? 0), mkChunk (ck_token s) mask b).

Definition search_chunk (gm : list Z) (gmRow nt : Z) (suffix : list Z) (n suffix0 chunk_start : Z) (s : Chunk)
    : res (bool * Chunk) :=
  let wc := nt - n in
  let chunk_count := if chunk_start + SAFE_CHUNK <=? wc then SAFE_CHUNK else wc - chunk_start in
  let load_count := chunk_count + (n - 1) in
  let load_count := if chunk_start + load_count >? nt then nt - chunk_start else load_count in
  token ← LoadGmElements gm (gmRow + chunk_start) load_count (ck_token s);
  let cmp_count := u32 (u32 chunk_count + 63) / 64 * 64 in
  let cmp_count := if cmp_count >? 8192 then 8192 else cmp_count in
  let cmp_count := if cmp_count >? u32 load_count then u32 (u32 load_count + 63) / 64 * 64 else cmp_count in
  s ← for_step 0 (u32 chunk_count) cmp_count
        (search_piece suffix n chunk_start chunk_count load_count cmp_count suffix0)
        (mkChunk token (ck_mask s) (ck_best s));
  Ok (negb ((ck_best s).1 >=? 0), s).

(** The first length with a match ends the search. *)
Definition search_chunked (gm : list Z) (gmRow nt : Z) (suffix : list Z) (s : Chunk) : res Chunk :=
  for_break (Z.to_nat (max_n_val c - min_n_val c + 1)) (min_n_val c) (fun n s =>
    let wc := nt - n in
    if n >? nt then Ok (false, s)
    else if wc <=? 0 then Ok (false, s)
    else
      suffix0 ← vget suffix (u32 (max_n_val c - n));
      s ← for_step 0 wc SAFE_CHUNK (search_chunk gm gmRow nt suffix n suffix0) s;
      Ok (negb ((ck_best s).1 >=? 0), s)) s.

Definition ProcessChunkedRow (start_row i : Z) (st : Gm * Ub) : res (Gm * Ub) :=
  let '(g, u) := st in
  let gmRow := u32 (start_row + i) * max_seq_len c in
  let srow := u32 (i * u32 mnta) in
  let drow := u32 (i * u32 (k_align c)) in
  seq_len ← vget (numTokensLocal u) i;
  discard ← vget (discardLocal u) i;
  let backup_pos := if seq_len >? 0 then seq_len - 1 else 0 in
  '(sampled, valid_count) ← validate discard srow (sampledLocal u);
  let valid_count := clip_count seq_len valid_count in
  token ← LoadGmElements (tokenGm g) (gmRow + backup_pos) 1 (tokenLocal u);
  backup_token ← vget token 0;
  nexts ← (if valid_count >? 0
           then t ← vget sampled (u32 (srow + valid_count - 1)); vset (nextLocal u) i t
           else vset (nextLocal u) i backup_token);
  let nt := seq_len + valid_count in
  '(gm, token) ← (if valid_count >? 0 then
      token ← for_range valid_count (fun j token =>
        t ← vget sampled (u32 (srow + j)); vset token j t) token;
      gm ← StoreGmElements token (gmRow + seq_len) valid_count (tokenGm g);
      Ok (gm, token)
    else Ok (tokenGm g, token));
  '(suffix, s) ← (if (valid_count >? 0) && (nt >=? min_n_val c) then
      let suffix_gm_start := nt - max_n_val c in
      let suffix_gm_start := if suffix_gm_start <? 0 then 0 else suffix_gm_start in
      token ← LoadGmElements gm (gmRow + suffix_gm_start) (max_n_val c) token;
      suffix ← for_range (max_n_val c) (fun s suffix =>
        t ← vget token (u32 s); vset suffix (u32 s) t) (suffixLocal u);
      s ← search_chunked gm gmRow nt suffix (mkChunk token (maskLocal u) (-1, 0));
      Ok (suffix, s)
    else Ok (suffixLocal u, mkChunk token (maskLocal u) (-1, 0)));
  let '(best_match_pos, best_ngram_len) := ck_best s in
  let draft_start := best_match_pos + best_ngram_len in
  let tokens_available := if best_match_pos >=? 0 then nt - draft_start else 0 in
  let draft_load := if tokens_available <? k_val c then tokens_available else k_val c in
  token ← LoadGmElements gm (gmRow + draft_start) draft_load (ck_token s);
  draft ← write_draft drow (fun j => vget token (u32 j)) draft_load (draftLocal u);
  n ← count_draft drow draft;
  nv ← vset (numValidLocal u) i n;
  Ok (g <| tokenGm := gm |>,
      mkUb token sampled (numTokensLocal u) (discardLocal u) nexts draft nv suffix (ck_mask s)).

Definition ProcessChunkedRows (start_row rows : Z) (st : Gm * Ub) : res (Gm * Ub) :=
  let '(g, u) := st in
  u ← load_rows start_row rows g u;
  '(g, u) ← for_range rows (ProcessChunkedRow start_row) (g, u);
  g ← store_rows start_row rows u g;
  Ok (g, u).

(** ** Process *)

(** A round of [while (remaining > 0)]. *)
Record Progress := mkProgress { remaining : Z; cur_offset : Z; pr_state : Gm * Ub }.

Definition Process_step (p : Progress) : res (bool * Progress) :=
  if remaining p >? 0 then
    let cur_rows := if remaining p >? u32 (block_rows c) then u32 (block_rows c) else remaining p in
    let start_row := u32 (row_offset c + cur_offset p) in
    st ← (if is_large_row c then ProcessChunkedRows start_row cur_rows (pr_state p)
          else let '(g, u) := pr_state p in
               u ← CopyIn start_row cur_rows g u;
               u ← Compute cur_rows u;
               g ← CopyOut start_row cur_rows u g;
               Ok (g, u));
    Ok (true, mkProgress (u32 (remaining p - cur_rows)) (u32 (cur_offset p + cur_rows)) st)
  else Ok (false, p).

Definition Process (st : Gm * Ub) : res (Gm * Ub) :=
  p ← while_loop (S (Z.to_nat (my_rows c))) Process_step (mkProgress (my_rows c) 0 st);
  Ok (pr_state p).
End Kernel.

(** The kernel on block [blockIdx]: the object is initialised and run. *)
Definition ngram_spec_decode `{AscendC} (t : NgramSpecDecodeInfo) (blockIdx : Z) (g : Gm) (u : Ub) : res Gm :=
  '(g, _) ← Process (Init t blockIdx) (g, u); Ok g.

(** ** The adapter *)

(** Elements that npu_ngram_spec_decode allocates for an output with [width]
    elements per row; the kernel gets the first [batch_size] rows. *)
Definition OVER_WRITE_MARGIN : Z := 8.
Definition storage_elems (batch_size width : Z) : Z := (batch_size + OVER_WRITE_MARGIN) * width.
End Ngram.
