(* ===== verification/NgramSpec.v ===== *)
(** * What an n-gram proposal is

    Definitions on sequences of tokens as functions of the position: the n-gram
    that ends a sequence of [nt] tokens, its first earlier occurrence, the longest
    and the shortest n-gram that has one, and the outputs for a row, given which
    of them is taken.  The kernel takes another one than the golden of its tests
    for rows in the buffer; NgramTheorems says where they agree. *)

From S2P Require Import Prelude.

Module NgramSpec.

(** ** Occurrences *)

(** The [n] tokens from [a] and from [b] are the same. *)
Definition window_eq (tok : Z -> Z) (a b n : Z) : bool :=
  forallb (fun s => tok (a + s) =? tok (b + s)) (seqZ 0 n).

Definition occurs (tok : Z -> Z) (nt n pos : Z) : bool := window_eq tok pos (nt - n) n.

(** The first position before the end at which the last [n] tokens occur. *)
Definition occurrence (tok : Z -> Z) (nt n : Z) : option Z := List.find (occurs tok nt n) (seqZ 0 (nt - n)).

(** Lengths from [lo] to [hi] of n-grams of [nt] tokens. *)
Definition lengths (lo hi nt : Z) : list Z := seqZ lo (Z.min hi nt - lo + 1).

Definition longer (tok : Z -> Z) (nt : Z) (b : option (Z * Z)) (n : Z) : option (Z * Z) :=
  match occurrence tok nt n with Some p => Some (p, n) | None => b end.
Definition longest (lo hi : Z) (tok : Z -> Z) (nt : Z) : option (Z * Z) :=
  fold_left (longer tok nt) (lengths lo hi nt) None.

(** As [longest], but once a match is known a longer one is looked for at the
    first [w] positions only. *)
Definition near (w : Z) (tok : Z -> Z) (nt : Z) (b : option (Z * Z)) (n : Z) : option (Z * Z) :=
  let limit := match b with Some _ => Z.min w (nt - n) | None => nt - n end in
  match List.find (occurs tok nt n) (seqZ 0 limit) with Some p => Some (p, n) | None => b end.
Definition nearest (w lo hi : Z) (tok : Z -> Z) (nt : Z) : option (Z * Z) :=
  fold_left (near w tok nt) (lengths lo hi nt) None.

Definition shorter (tok : Z -> Z) (nt : Z) (b : option (Z * Z)) (n : Z) : option (Z * Z) :=
  match b with Some _ => b | None => (fun p => (p, n)) <$> occurrence tok nt n end.
Definition shortest (lo hi : Z) (tok : Z -> Z) (nt : Z) : option (Z * Z) :=
  fold_left (shorter tok nt) (lengths lo hi nt) None.

(** ** The outputs for a row *)

Record RowIn := mkRowIn {
  ri_tok : Z -> Z;
  ri_len : Z;
  ri_sampled : Z -> Z;
  ri_discard : Z
}.

Record RowOut := mkRowOut {
  ro_tok : Z -> Z;
  ro_next : Z;
  ro_draft : Z -> Z;
  ro_num : Z
}.

Section Row.
(** Row length, sampled tokens, vocabulary, shortest n-gram, draft length; and
    which match is taken. *)
Context (M N vocab min_n k : Z) (select : (Z -> Z) -> Z -> option (Z * Z)).

Definition is_valid (v : Z) : bool := negb (v =? -1) && (v <? vocab).
Definition cleaned (r : RowIn) (j : Z) : Z :=
  if (ri_discard r =? 0) && is_valid (ri_sampled r j) then ri_sampled r j else -1.
Definition all_valid (r : RowIn) : Z :=
  if ri_discard r =? 0 then Z.of_nat (count (fun j => is_valid (ri_sampled r j)) (seqZ 0 N)) else 0.

(** Tokens that are appended. *)
Definition accepted_count (r : RowIn) : Z := Z.min (all_valid r) (Z.max 0 (M - ri_len r)).

Definition extended (r : RowIn) (i : Z) : Z :=
  if (ri_len r <=? i) && (i <? ri_len r + accepted_count r) then cleaned r (i - ri_len r) else ri_tok r i.

Definition row_match (r : RowIn) : option (Z * Z) :=
  let nt := ri_len r + accepted_count r in
  if (0 <? accepted_count r) && (min_n <=? nt) then select (extended r) nt else None.

Definition draft (r : RowIn) (j : Z) : Z :=
  match row_match r with
  | Some (p, n) => if j <? ri_len r + accepted_count r - (p + n) then extended r (p + n + j) else -1
  | None => -1
  end.

(** Draft tokens before the first -1. *)
Definition prefix_count (f : Z -> Z) (n : Z) : Z := default n (List.find (fun j => f j =? -1) (seqZ 0 n)).

Definition row_out (r : RowIn) : RowOut :=
  mkRowOut (extended r)
    (if 0 <? accepted_count r then cleaned r (accepted_count r - 1)
     else ri_tok r (if 0 <? ri_len r then ri_len r - 1 else 0))
    (draft r) (prefix_count (draft r) k).
End Row.

(** ** Properties of the search *)

Lemma window_eq_spec tok a b n :
  window_eq tok a b n = true <-> forall s, 0 <= s < n -> tok (a + s) = tok (b + s).
Proof.
  unfold window_eq. rewrite forallb_forall. split.
  - intros H s Hs. apply Z.eqb_eq, H, list_elem_of_In, elem_of_seqZ. lia.
  - intros H s Hs%list_elem_of_In%elem_of_seqZ. apply Z.eqb_eq, H. lia.
Qed.

Lemma window_eq_ext tok tok' a b n :
  (forall s, 0 <= s < n -> tok (a + s) = tok' (a + s) /\ tok (b + s) = tok' (b + s)) ->
  window_eq tok a b n = window_eq tok' a b n.
Proof.
  intros H. apply eq_true_iff_eq. rewrite !window_eq_spec.
  split; intros E s Hs; destruct (H s Hs) as [H1 H2]; specialize (E s Hs); congruence.
Qed.

(** The first element of an interval that satisfies a test. *)
Lemma find_seqZ (f : Z -> bool) m n :
  match List.find f (seqZ m n) with
  | Some p => m <= p < m + n /\ f p = true /\ forall q, m <= q < p -> f q = false
  | None => forall q, m <= q < m + n -> f q = false
  end.
Proof.
  destruct (Z.le_gt_cases n 0); [rewrite seqZ_nil by lia; cbn; lia|].
  remember (Z.to_nat n) as k eqn:Ek. revert m n H Ek. induction k as [|k IH]; intros m n Hn Ek; [lia|].
  rewrite seqZ_cons by lia. cbn. destruct (f m) eqn:E; [repeat split; try lia; done|].
  destruct (Z.eq_dec n 1) as [->|].
  { cbn. intros q Hq. by replace q with m by lia. }
  specialize (IH (Z.succ m) (Z.pred n) ltac:(lia) ltac:(lia)).
  destruct (List.find f (seqZ (Z.succ m) (Z.pred n))) as [p|].
  - destruct IH as (H1 & H2 & H3). repeat split; try lia; [done|]. intros q Hq.
    destruct (Z.eq_dec q m) as [->|]; [done|]. apply H3. lia.
  - intros q Hq. destruct (Z.eq_dec q m) as [->|]; [done|]. apply IH. lia.
Qed.

Lemma find_ext (f g : Z -> bool) m n :
  (forall i, m <= i < m + n -> f i = g i) -> List.find f (seqZ m n) = List.find g (seqZ m n).
Proof.
  intros H. assert (Hl : forall x, x ∈ seqZ m n -> f x = g x) by (intros x Hx%elem_of_seqZ; by apply H).
  induction (seqZ m n) as [|x l IH]; [done|]. cbn. rewrite (Hl x) by left.
  destruct (g x); [done|]. apply IH. intros y Hy. apply Hl. by right.
Qed.

Lemma occurrence_ext tok tok' nt n :
  0 <= n -> (forall i, 0 <= i < nt -> tok i = tok' i) -> occurrence tok nt n = occurrence tok' nt n.
Proof.
  intros Hn H. apply find_ext. intros p Hp. apply window_eq_ext. intros s Hs. split; apply H; lia.
Qed.

Lemma fold_left_ext {A B} (f g : A -> B -> A) l a :
  (forall a x, x ∈ l -> f a x = g a x) -> fold_left f l a = fold_left g l a.
Proof.
  revert a. induction l as [|x l IH]; intros a H; [done|]. cbn. rewrite H by left.
  apply IH. intros a' y Hy. apply H. by right.
Qed.

Lemma longest_ext lo hi tok tok' nt :
  0 <= lo -> (forall i, 0 <= i < nt -> tok i = tok' i) -> longest lo hi tok nt = longest lo hi tok' nt.
Proof.
  intros Hlo H. apply fold_left_ext. intros a n Hn%elem_of_seqZ. unfold longer. by rewrite (occurrence_ext tok tok') by (done || lia).
Qed.

Lemma shortest_ext lo hi tok tok' nt :
  0 <= lo -> (forall i, 0 <= i < nt -> tok i = tok' i) -> shortest lo hi tok nt = shortest lo hi tok' nt.
Proof.
  intros Hlo H. apply fold_left_ext. intros a n Hn%elem_of_seqZ. unfold shorter. by rewrite (occurrence_ext tok tok') by (done || lia).
Qed.

(** A match of [longest] is an occurrence of a suffix, and no longer suffix
    occurs; without a match no suffix occurs. *)
Lemma longest_spec lo hi tok nt :
  match longest lo hi tok nt with
  | Some (p, n) => lo <= n <= Z.min hi nt /\ occurrence tok nt n = Some p /\
      forall n', n < n' <= Z.min hi nt -> occurrence tok nt n' = None
  | None => forall n, lo <= n <= Z.min hi nt -> occurrence tok nt n = None
  end.
Proof.
  unfold longest, lengths. set (m := Z.min hi nt).
  assert (H : forall k, 0 <= k -> match fold_left (longer tok nt) (seqZ lo k) None with
    | Some (p, n) => lo <= n < lo + k /\ occurrence tok nt n = Some p /\
        forall n', n < n' < lo + k -> occurrence tok nt n' = None
    | None => forall n, lo <= n < lo + k -> occurrence tok nt n = None end).
  { apply natlike_ind; [cbn [fold_left]; intros n Hn; lia|]. intros k Hk IH. unfold Z.succ. rewrite seqZ_snoc, fold_left_app by lia. cbn [fold_left].
    unfold longer at 1. destruct (occurrence tok nt (lo + k)) as [p|] eqn:E; [repeat split; try done; lia|].
    destruct (fold_left _ _ _) as [[p n]|].
    - destruct IH as (H1 & H2 & H3). repeat split; [lia|lia|done|]. intros n' Hn'.
      destruct (Z.eq_dec n' (lo + k)) as [->|]; [done|]. apply H3. lia.
    - intros n Hn. destruct (Z.eq_dec n (lo + k)) as [->|]; [done|]. apply IH. lia. }
  destruct (Z.le_gt_cases (m - lo + 1) 0); [rewrite seqZ_nil by lia; cbn; lia|].
  specialize (H (m - lo + 1) ltac:(lia)). destruct (fold_left _ _ _) as [[p n]|].
  - destruct H as (H1 & H2 & H3). repeat split; [lia|lia|done|]. intros n' Hn'. apply H3. lia.
  - intros n Hn. apply H. lia.
Qed.

(** The first element by its properties. *)
Lemma find_first (f : Z -> bool) m n p :
  m <= p < m + n -> f p = true -> (forall q, m <= q < p -> f q = false) -> List.find f (seqZ m n) = Some p.
Proof.
  intros Hp Ho Hf. pose proof (find_seqZ f m n) as H. destruct (List.find _ _) as [q|].
  - destruct H as (Hq & Hoq & Hfq). f_equal. destruct (Z.lt_total q p) as [|[|]]; [|done|].
    + rewrite Hf in Hoq by lia. done.
    + rewrite Hfq in Ho by lia. done.
  - rewrite H in Ho by lia. done.
Qed.

Lemma find_none (f : Z -> bool) m n : (forall q, m <= q < m + n -> f q = false) -> List.find f (seqZ m n) = None.
Proof.
  intros Hf. pose proof (find_seqZ f m n) as H. destruct (List.find _ _) as [q|]; [|done].
  destruct H as (Hq & Hoq & _). rewrite Hf in Hoq by lia. done.
Qed.

Lemma occurrence_first tok nt n p :
  0 <= p < nt - n -> occurs tok nt n p = true -> (forall q, 0 <= q < p -> occurs tok nt n q = false) ->
  occurrence tok nt n = Some p.
Proof. intros. by apply find_first. Qed.

Lemma occurrence_none tok nt n :
  (forall q, 0 <= q < nt - n -> occurs tok nt n q = false) -> occurrence tok nt n = None.
Proof. intros. by apply find_none. Qed.

Lemma shortest_spec lo hi tok nt :
  match shortest lo hi tok nt with
  | Some (p, n) => lo <= n <= Z.min hi nt /\ occurrence tok nt n = Some p /\
      forall n', lo <= n' < n -> occurrence tok nt n' = None
  | None => forall n, lo <= n <= Z.min hi nt -> occurrence tok nt n = None
  end.
Proof.
  unfold shortest, lengths. set (m := Z.min hi nt).
  assert (H : forall k, 0 <= k -> match fold_left (shorter tok nt) (seqZ lo k) None with
    | Some (p, n) => lo <= n < lo + k /\ occurrence tok nt n = Some p /\
        forall n', lo <= n' < n -> occurrence tok nt n' = None
    | None => forall n, lo <= n < lo + k -> occurrence tok nt n = None end).
  { apply natlike_ind; [rewrite seqZ_nil by lia; cbn [fold_left]; intros n Hn; lia|]. intros k Hk IH. unfold Z.succ. rewrite seqZ_snoc, fold_left_app by lia. cbn [fold_left].
    unfold shorter at 1. destruct (fold_left _ _ _) as [[p n]|]; [destruct IH as (H1 & H2 & H3); repeat split; done || lia|].
    destruct (occurrence tok nt (lo + k)) as [p|] eqn:E; cbn.
    - split; [lia|]. split; [done|]. intros n' Hn'. apply IH. lia.
    - intros n Hn. destruct (Z.eq_dec n (lo + k)) as [->|]; [done|]. apply IH. lia. }
  destruct (Z.le_gt_cases (m - lo + 1) 0); [rewrite seqZ_nil by lia; cbn [fold_left]; intros n Hn; lia|].
  specialize (H (m - lo + 1) ltac:(lia)). destruct (fold_left _ _ _) as [[p n]|].
  - destruct H as (H1 & H2 & H3). repeat split; [lia|lia|done|done].
  - intros n Hn. apply H. lia.
Qed.

Lemma shortest_some lo hi tok nt p n :
  lo <= n <= Z.min hi nt -> occurrence tok nt n = Some p ->
  (forall n', lo <= n' < n -> occurrence tok nt n' = None) -> shortest lo hi tok nt = Some (p, n).
Proof.
  intros Hn Ho Hf. pose proof (shortest_spec lo hi tok nt) as H. destruct (shortest lo hi tok nt) as [[q m]|].
  - destruct H as (Hm & Hom & Hfm). destruct (Z.lt_total m n) as [|[->|]]; [|congruence|].
    + rewrite Hf in Hom by lia. done.
    + rewrite Hfm in Ho by lia. done.
  - rewrite H in Ho by lia. done.
Qed.

Lemma shortest_none lo hi tok nt :
  (forall n, lo <= n <= Z.min hi nt -> occurrence tok nt n = None) -> shortest lo hi tok nt = None.
Proof.
  intros Hf. pose proof (shortest_spec lo hi tok nt) as H. destruct (shortest lo hi tok nt) as [[q m]|]; [|done].
  destruct H as (Hm & Hom & _). rewrite Hf in Hom by lia. done.
Qed.

(** A match lies in the sequence. *)
Lemma occurrence_in tok nt n p : 1 <= n -> occurrence tok nt n = Some p -> 0 <= p /\ 0 < n /\ p + n < nt.
Proof.
  intros Hn Ho. unfold occurrence in Ho. pose proof (find_seqZ (occurs tok nt n) 0 (nt - n)) as Hf.
  rewrite Ho in Hf. lia.
Qed.

Lemma longest_in_row lo hi tok nt p n :
  1 <= lo -> longest lo hi tok nt = Some (p, n) -> 0 <= p /\ 0 < n /\ p + n < nt.
Proof.
  intros Hlo E. pose proof (longest_spec lo hi tok nt) as Hs. rewrite E in Hs.
  destruct Hs as (Hn & Ho & _). apply (occurrence_in tok); [lia|done].
Qed.

Lemma shortest_in_row lo hi tok nt p n :
  1 <= lo -> shortest lo hi tok nt = Some (p, n) -> 0 <= p /\ 0 < n /\ p + n < nt.
Proof.
  intros Hlo E. pose proof (shortest_spec lo hi tok nt) as Hs. rewrite E in Hs.
  destruct Hs as (Hn & Ho & _). apply (occurrence_in tok); [lia|done].
Qed.
(** Within the first [w] positions [nearest] is [longest]. *)
Lemma nearest_longest w lo hi tok nt : 0 <= lo -> nt <= w -> nearest w lo hi tok nt = longest lo hi tok nt.
Proof.
  intros Hlo Hw. apply fold_left_ext. intros b n Hn%elem_of_seqZ. unfold near, longer, occurrence.
  destruct b; [|done]. by rewrite Z.min_r by lia.
Qed.

Lemma nearest_ext w lo hi tok tok' nt :
  0 <= lo -> (forall i, 0 <= i < nt -> tok i = tok' i) -> nearest w lo hi tok nt = nearest w lo hi tok' nt.
Proof.
  intros Hlo H. apply fold_left_ext. intros b n Hn%elem_of_seqZ. unfold near.
  rewrite (find_ext (occurs tok nt n) (occurs tok' nt n)); [done|].
  intros p Hp. apply window_eq_ext. intros s Hs. destruct b; split; apply H; lia.
Qed.

(** A property of all matches that a search finds holds of its result. *)
Lemma fold_left_match (f : option (Z * Z) -> Z -> option (Z * Z)) (P : Z * Z -> Prop) l :
  (forall b n x, n ∈ l -> (forall y, b = Some y -> P y) -> f b n = Some x -> P x) ->
  forall x, fold_left f l None = Some x -> P x.
Proof.
  intros Hf. assert (H : forall b, (forall y, b = Some y -> P y) -> forall x, fold_left f l b = Some x -> P x); [|by apply H].
  induction l as [|n l IH]; intros b Hb x E; [by apply Hb|]. cbn in E. revert E. apply IH.
  - intros b' n' y Hn'. apply Hf. by right.
  - intros y. apply Hf; [by left|done].
Qed.

Lemma nearest_in_row w lo hi tok nt p n :
  1 <= lo -> nearest w lo hi tok nt = Some (p, n) -> 0 <= p /\ 0 < n /\ p + n < nt.
Proof.
  intros Hlo. apply (fold_left_match _ (fun '(p, n) => 0 <= p /\ 0 < n /\ p + n < nt)).
  intros b m [q n'] Hm%elem_of_seqZ Hb. unfold near. pose proof (find_seqZ (occurs tok nt m) 0
    (match b with Some _ => Z.min w (nt - m) | None => nt - m end)) as Hf.
  destruct (List.find _ _) as [q'|]; [|by apply Hb]. intros [= <- <-]. destruct b; lia.
Qed.

(** A position found among the first ones is the first of all. *)
Lemma near_occurrence tok nt n l p :
  l <= nt - n -> List.find (occurs tok nt n) (seqZ 0 l) = Some p -> occurrence tok nt n = Some p.
Proof.
  intros Hl E. pose proof (find_seqZ (occurs tok nt n) 0 l) as Hf. rewrite E in Hf. destruct Hf as (H1 & H2 & H3).
  apply occurrence_first; [lia|done|]. intros q Hq. apply H3. lia.
Qed.

Lemma nearest_first w lo hi tok nt p n :
  nearest w lo hi tok nt = Some (p, n) -> lo <= n <= Z.min hi nt /\ occurrence tok nt n = Some p.
Proof.
  apply (fold_left_match _ (fun '(p, n) => lo <= n <= Z.min hi nt /\ occurrence tok nt n = Some p)).
  intros b m [q n'] Hm%elem_of_seqZ Hb. unfold near. destruct (List.find _ _) as [q'|] eqn:E; [|by apply Hb].
  intros [= <- <-]. split; [lia|]. eapply near_occurrence; [|exact E]. destruct b; lia.
Qed.

Lemma nearest_none w lo hi tok nt :
  nearest w lo hi tok nt = None -> forall n, lo <= n <= Z.min hi nt -> occurrence tok nt n = None.
Proof.
  unfold nearest, lengths. intros E n Hn. assert (Hin : n ∈ seqZ lo (Z.min hi nt - lo + 1)) by (apply elem_of_seqZ; lia).
  assert (Hsome : forall l x, fold_left (near w tok nt) l (Some x) <> None).
  { induction l as [|m l IH]; intros x; cbn; [done|]. unfold near at 2. destruct (List.find _ _); apply IH. }
  induction (seqZ lo _) as [|m l IH]; [by apply elem_of_nil in Hin|]. cbn [fold_left] in E. unfold near at 2 in E.
  fold (occurrence tok nt m) in E. destruct (occurrence tok nt m) eqn:Em; [by destruct (Hsome l (z, m))|].
  apply elem_of_cons in Hin as [->|Hin]; [done|by apply IH].
Qed.

(** A choice of a match that looks at the sequence only, takes the first place of
    a suffix, and takes one whenever there is one. *)
Class Selects (sel : Z -> Z -> (Z -> Z) -> Z -> option (Z * Z)) : Prop := {
  sel_ext lo hi tok tok' nt :
    0 <= lo -> (forall i, 0 <= i < nt -> tok i = tok' i) -> sel lo hi tok nt = sel lo hi tok' nt;
  sel_in lo hi tok nt p n : 1 <= lo -> sel lo hi tok nt = Some (p, n) -> 0 <= p /\ 0 < n /\ p + n < nt;
  sel_first lo hi tok nt p n : sel lo hi tok nt = Some (p, n) -> lo <= n <= Z.min hi nt /\ occurrence tok nt n = Some p;
  sel_none lo hi tok nt n : sel lo hi tok nt = None -> lo <= n <= Z.min hi nt -> occurrence tok nt n = None
}.

#[global] Instance longest_selects : Selects longest.
Proof.
  split; [exact longest_ext|exact longest_in_row|..]; intros lo hi tok nt; pose proof (longest_spec lo hi tok nt) as H.
  - intros p n E. rewrite E in H. split; apply H.
  - intros n E Hn. rewrite E in H. by apply H.
Qed.

#[global] Instance shortest_selects : Selects shortest.
Proof.
  split; [exact shortest_ext|exact shortest_in_row|..]; intros lo hi tok nt; pose proof (shortest_spec lo hi tok nt) as H.
  - intros p n E. rewrite E in H. split; apply H.
  - intros n E Hn. rewrite E in H. by apply H.
Qed.

#[global] Instance nearest_selects w : Selects (nearest w).
Proof. split; [exact (nearest_ext w)|exact (nearest_in_row w)|exact (nearest_first w)|intros; by eapply nearest_none]. Qed.

(** ** What a proposal promises *)

(** The last [n] of [nt] tokens are at [p] too, with a token behind them. *)
Definition suffix_at (seq : Z -> Z) (nt n p : Z) : Prop :=
  0 <= p /\ p + n < nt /\ forall s, 0 <= s < n -> seq (p + s) = seq (nt - n + s).

(** The [k] draft tokens are those behind the first earlier place of a suffix
    with [lo .. hi] tokens, such that no suffix of a better length has one;
    they are -1 past the end of the sequence, and when no suffix has one. *)
Definition proposes (seq : Z -> Z) (nt lo hi k : Z) (better : Z -> Z -> Prop) (draft : Z -> Z) : Prop :=
  (exists n p, lo <= n <= hi /\ suffix_at seq nt n p /\
     (forall q, q < p -> ~ suffix_at seq nt n q) /\
     (forall n' q, lo <= n' <= hi -> better n' n -> ~ suffix_at seq nt n' q) /\
     forall j, 0 <= j < k -> draft j = if j <? nt - (p + n) then seq (p + n + j) else -1) \/
  ((forall n p, lo <= n <= hi -> ~ suffix_at seq nt n p) /\ forall j, 0 <= j < k -> draft j = -1).

Lemma occurrence_suffix seq nt n :
  match occurrence seq nt n with
  | Some p => suffix_at seq nt n p /\ forall q, q < p -> ~ suffix_at seq nt n q
  | None => forall p, ~ suffix_at seq nt n p
  end.
Proof.
  unfold occurrence. pose proof (find_seqZ (occurs seq nt n) 0 (nt - n)) as H.
  assert (Hno : forall q, occurs seq nt n q = false -> ~ suffix_at seq nt n q).
  { intros q Hq (_ & _ & Hs). apply window_eq_spec in Hs. unfold occurs in Hq. congruence. }
  destruct (List.find _ _) as [p|].
  - destruct H as (Hp & Ho & Hf). split.
    + split; [lia|]. split; [lia|]. by apply window_eq_spec.
    + intros q Hq Hs. pose proof (proj1 Hs). exact (Hno q (Hf q ltac:(lia)) Hs).
  - intros p Hs. destruct (Hs) as (H1 & H2 & _). exact (Hno p (H p ltac:(lia)) Hs).
Qed.

Lemma no_suffix seq nt n p : occurrence seq nt n = None -> ~ suffix_at seq nt n p.
Proof. intros E. pose proof (occurrence_suffix seq nt n) as Ho. by rewrite E in Ho. Qed.

(** Every choice proposes what follows a suffix, when one occurs. *)
Lemma sel_proposes `{!Selects sel} seq nt lo hi k draft :
  (forall j, 0 <= j < k -> draft j = match sel lo hi seq nt with
     | Some (p, n) => if j <? nt - (p + n) then seq (p + n + j) else -1 | None => -1 end) ->
  proposes seq nt lo hi k (fun _ _ => False) draft.
Proof.
  intros Hd. destruct (sel lo hi seq nt) as [[p n]|] eqn:E.
  - apply sel_first in E as [Hn Ho]. pose proof (occurrence_suffix seq nt n) as Hs. rewrite Ho in Hs. destruct Hs as [Hs Hq].
    left. exists n, p. split_and!; try done; lia.
  - right. split; [|done]. intros n p Hn Hs. destruct (Hs) as (? & ? & _).
    apply (no_suffix seq nt n p); [eapply sel_none; [exact E|lia]|done].
Qed.

(** When no suffix longer than the shortest one asked for occurs, all choices are
    the same. *)
Lemma sel_shortest `{!Selects sel} lo hi seq nt :
  (forall n p, lo < n <= hi -> ~ suffix_at seq nt n p) -> sel lo hi seq nt = shortest lo hi seq nt.
Proof.
  intros Hno. destruct (sel lo hi seq nt) as [[p n]|] eqn:E; symmetry.
  - apply sel_first in E as [Hn Ho]. pose proof (occurrence_suffix seq nt n) as Hs. rewrite Ho in Hs. destruct Hs as [Hs _].
    assert (n = lo) as -> by (destruct (Z.eq_dec n lo); [done|]; destruct (Hno n p); [lia|done]).
    apply shortest_some; [lia|done|]. intros n' Hn'. lia.
  - apply shortest_none. intros n Hn. by eapply sel_none.
Qed.

Lemma longest_proposes seq nt lo hi k draft :
  (forall j, 0 <= j < k -> draft j = match longest lo hi seq nt with
     | Some (p, n) => if j <? nt - (p + n) then seq (p + n + j) else -1 | None => -1 end) ->
  proposes seq nt lo hi k (fun n' n => n < n') draft.
Proof.
  intros Hd. pose proof (longest_spec lo hi seq nt) as H.
  destruct (longest lo hi seq nt) as [[p n]|].
  - destruct H as (Hn & Ho & Hf). pose proof (occurrence_suffix seq nt n) as Hs. rewrite Ho in Hs.
    left. exists n, p. destruct Hs as [Hs Hq]. split_and!; try done; try lia.
    intros n' q Hn' Hb Hs'. destruct (Hs') as (? & ? & _). apply (no_suffix seq nt n' q); [apply Hf; lia|done].
  - right. split; [|done]. intros n p Hn Hs. destruct (Hs) as (? & ? & _). apply (no_suffix seq nt n p); [apply H; lia|done].
Qed.

Lemma shortest_proposes seq nt lo hi k draft :
  (forall j, 0 <= j < k -> draft j = match shortest lo hi seq nt with
     | Some (p, n) => if j <? nt - (p + n) then seq (p + n + j) else -1 | None => -1 end) ->
  proposes seq nt lo hi k (fun n' n => n' < n) draft.
Proof.
  intros Hd. pose proof (shortest_spec lo hi seq nt) as H.
  destruct (shortest lo hi seq nt) as [[p n]|].
  - destruct H as (Hn & Ho & Hf). pose proof (occurrence_suffix seq nt n) as Hs. rewrite Ho in Hs.
    left. exists n, p. destruct Hs as [Hs Hq]. split_and!; try done; try lia.
    intros n' q Hn' Hb. apply no_suffix, Hf. lia.
  - right. split; [|done]. intros n p Hn Hs. destruct (Hs) as (? & ? & _). apply (no_suffix seq nt n p); [apply H; lia|done].
Qed.
End NgramSpec.
