(* ===== verification/NgramGolden.v ===== *)
(** * The golden of the n-gram proposer

    golden_ngram_spec_decode of
    src/tests/e2e/nightly/single_node/ops/singlecard_ops/test_ngram_spec_decode.py,
    which the tests of the operator compare it with, for one row of the batch: the
    stages of the Python code on lists, and what it computes in terms of
    occurrences.  It takes the first length, from [min_n] upwards, for which the
    last tokens occur earlier. *)

From S2P Require Import Prelude NgramSpec.

Module NgramGolden.
Import NgramSpec.

(** A slice of a row, [row[a : a + n].tolist()]. *)
Definition slice (row : Z -> Z) (a n : Z) : list Z := row <$> seqZ a n.

(** [for ngram_len in lens]: left by [break] when the n-gram is too long or has
    been found. *)
Fixpoint golden_search (lens : list Z) (row : Z -> Z) (nt : Z) : option (Z * Z) :=
  match lens with
  | [] => None
  | ngram_len :: lens =>
      if ngram_len >? nt then None
      else
        let wc := nt - ngram_len in
        if wc <=? 0 then None
        else
          let suffix := slice row (nt - ngram_len) ngram_len in
          match List.find (fun pos => bool_decide (slice row pos ngram_len = suffix)) (seqZ 0 wc) with
          | Some pos => Some (pos, ngram_len)
          | None => golden_search lens row nt
          end
  end.

Section Row.
Context (M N vocab min_n max_n k : Z).

(** Stage 1: [sampled_token_ids] with -1 for what is not valid, and how many are. *)
Definition golden_sampled (r : RowIn) (j : Z) : Z :=
  if negb (ri_discard r =? 0) then -1
  else if negb (ri_sampled r j =? -1) && (ri_sampled r j <? vocab) then ri_sampled r j else -1.

Definition golden_valid_count (r : RowIn) : Z :=
  let valid_count := fold_left (fun n j =>
    if negb (ri_discard r =? 0) then n
    else if negb (ri_sampled r j =? -1) && (ri_sampled r j <? vocab) then n + 1 else n) (seqZ 0 N) 0 in
  let avail_space := if M - ri_len r <? 0 then 0 else M - ri_len r in
  if valid_count >? avail_space then avail_space else valid_count.

(** Stage 2: the row with the sampled tokens. *)
Definition golden_tokens (r : RowIn) (i : Z) : Z :=
  if (ri_len r <=? i) && (i <? ri_len r + golden_valid_count r) then golden_sampled r (i - ri_len r) else ri_tok r i.

(** Stage 3. *)
Definition golden_match (r : RowIn) : option (Z * Z) :=
  let nt := ri_len r + golden_valid_count r in
  if (golden_valid_count r >? 0) && (nt >=? min_n)
  then golden_search (seqZ min_n (max_n + 1 - min_n)) (golden_tokens r) nt else None.

(** Stage 4. *)
Definition golden_draft (r : RowIn) (j : Z) : Z :=
  match golden_match r with
  | Some (pos, ngram_len) =>
      let draft_start := pos + ngram_len in
      if j <? ri_len r + golden_valid_count r - draft_start then golden_tokens r (draft_start + j) else -1
  | None => -1
  end.

(** Drafts up to the first -1. *)
Fixpoint golden_count (f : Z -> Z) (js : list Z) : Z :=
  match js with
  | [] => 0
  | j :: js => if negb (f j =? -1) then 1 + golden_count f js else 0
  end.

Definition golden_row (r : RowIn) : RowOut :=
  mkRowOut (golden_tokens r)
    (if golden_valid_count r >? 0 then golden_sampled r (golden_valid_count r - 1) else ri_tok r (Z.max (ri_len r - 1) 0))
    (golden_draft r) (golden_count (golden_draft r) (seqZ 0 k)).

(** ** The golden in terms of occurrences *)

Lemma slice_eq row a b n : bool_decide (slice row a n = slice row b n) = window_eq row a b n.
Proof.
  apply eq_true_iff_eq. rewrite bool_decide_eq_true, window_eq_spec. unfold slice. split.
  - intros H s Hs. apply (f_equal (fun l => vat l s)) in H. unfold vat in H.
    rewrite !list_lookup_fmap, !lookup_seqZ_lt, Z2Nat.id in H by lia. done.
  - intros H. apply list_eq. intros i. rewrite !list_lookup_fmap. destruct (Z.lt_ge_cases (Z.of_nat i) n).
    + rewrite !lookup_seqZ_lt by lia. cbn. by rewrite H by lia.
    + by rewrite !lookup_seqZ_ge by lia.
Qed.

Lemma golden_search_shortest lo m row nt :
  1 <= lo -> golden_search (seqZ lo m) row nt = shortest lo (lo + m - 1) row nt.
Proof.
  intros Hlo. destruct (Z.le_gt_cases 0 m) as [Hm|Hm]; [|unfold shortest, lengths; rewrite !seqZ_nil by lia; done].
  revert lo Hlo. pattern m. apply natlike_ind; [|clear m Hm; intros m Hm IH|done]; intros lo Hlo.
  { unfold shortest, lengths. by rewrite !seqZ_nil by lia. }
  rewrite seqZ_cons by lia. rewrite Z.pred_succ. cbn [golden_search]. rewrite Z.gtb_ltb.
  destruct (Z.ltb_spec nt lo); [symmetry; apply shortest_none; intros n Hn; lia|].
  destruct (Z.leb_spec (nt - lo) 0).
  { symmetry. apply shortest_none. intros n Hn. apply occurrence_none. intros q Hq. lia. }
  rewrite (find_ext _ (occurs row nt lo)) by (intros; apply slice_eq). fold (occurrence row nt lo).
  destruct (occurrence row nt lo) as [p|] eqn:E.
  - symmetry. apply shortest_some; [lia|done|]. intros n' Hn'. lia.
  - change (Z.succ lo) with (lo + 1). rewrite IH by lia. pose proof (shortest_spec (lo + 1) (lo + 1 + m - 1) row nt) as HS.
    destruct (shortest (lo + 1) _ row nt) as [[p n]|]; symmetry.
    + destruct HS as (H1 & H2 & H3). apply shortest_some; [lia|done|].
      intros n' Hn'. destruct (Z.eq_dec n' lo) as [->|]; [done|]. apply H3. lia.
    + apply shortest_none. intros n Hn. destruct (Z.eq_dec n lo) as [->|]; [done|]. apply HS. lia.
Qed.

Lemma golden_sampled_cleaned r j : golden_sampled r j = cleaned vocab r j.
Proof.
  unfold golden_sampled, cleaned, is_valid. by destruct (ri_discard r =? 0).
Qed.

Lemma golden_valid_accepted r : golden_valid_count r = accepted_count M N vocab r.
Proof.
  unfold golden_valid_count, accepted_count, all_valid.
  assert (Hf : forall (l : list Z) a, fold_left (fun n j => if negb (ri_discard r =? 0) then n
      else if negb (ri_sampled r j =? -1) && (ri_sampled r j <? vocab) then n + 1 else n) l a =
    a + (if ri_discard r =? 0 then Z.of_nat (count (fun j => is_valid vocab (ri_sampled r j)) l) else 0)).
  { induction l as [|j l IH]; intros a; cbn [fold_left]; [destruct (_ =? 0); cbn; lia|]. rewrite IH.
    destruct (ri_discard r =? 0); cbn [negb]; [|done]. unfold is_valid. cbn [count filter length].
    destruct (_ && _) eqn:E; unfold count; cbn [List.filter]; rewrite ?E; cbn [length]; lia. }
  rewrite Hf, Z.add_0_l, Z.gtb_ltb. destruct (Z.ltb_spec (M - ri_len r) 0);
    match goal with |- (if ?a <? ?b then _ else _) = _ => destruct (Z.ltb_spec a b) end; lia.
Qed.

Lemma golden_tokens_extended r i : golden_tokens r i = extended M N vocab r i.
Proof. unfold golden_tokens, extended. by rewrite golden_valid_accepted, golden_sampled_cleaned. Qed.

Lemma golden_count_prefix f n : 0 <= n -> golden_count f (seqZ 0 n) = prefix_count f n.
Proof.
  intros Hn. unfold prefix_count. assert (H : forall m, 0 <= m -> forall a, golden_count f (seqZ a m) =
    default (a + m) (List.find (fun j => f j =? -1) (seqZ a m)) - a).
  { apply (natlike_ind (fun m => forall a, golden_count f (seqZ a m) = default (a + m) (List.find (fun j => f j =? -1) (seqZ a m)) - a)).
    - intros a. rewrite seqZ_nil by lia. cbn. lia.
    - intros m Hm IH a. rewrite seqZ_cons, Z.pred_succ by lia. cbn [golden_count List.find].
      destruct (f a =? -1); cbn [negb default from_option]; [unfold id; lia|]. rewrite IH.
      replace (Z.succ a + m) with (a + Z.succ m) by lia. lia. }
  rewrite H by done. rewrite Z.add_0_l. lia.
Qed.

Lemma golden_match_row r : 1 <= min_n -> golden_match r = row_match M N vocab min_n (shortest min_n max_n) r.
Proof.
  intros Hn. unfold golden_match, row_match. rewrite golden_valid_accepted, Z.gtb_ltb, Z.geb_leb, golden_search_shortest by done.
  replace (min_n + (max_n + 1 - min_n) - 1) with max_n by lia. destruct (_ && _); [|done].
  apply shortest_ext; [lia|]. intros i _. apply golden_tokens_extended.
Qed.

Lemma golden_draft_row r j : 1 <= min_n -> golden_draft r j = draft M N vocab min_n (shortest min_n max_n) r j.
Proof.
  intros Hn. unfold golden_draft, draft. rewrite golden_match_row by done. destruct (row_match _ _ _ _ _ r) as [[p n]|]; [|done].
  by rewrite golden_valid_accepted, golden_tokens_extended.
Qed.

(** The golden is the row whose match is the shortest one. *)
Lemma golden_row_out r :
  1 <= min_n -> 0 <= k ->
  let o := row_out M N vocab min_n k (shortest min_n max_n) r in
  (forall i, ro_tok (golden_row r) i = ro_tok o i) /\ ro_next (golden_row r) = ro_next o /\
  (forall j, ro_draft (golden_row r) j = ro_draft o j) /\ ro_num (golden_row r) = ro_num o.
Proof.
  intros Hn Hk. cbn [golden_row row_out ro_tok ro_next ro_draft ro_num]. split_and!.
  - intros i. apply golden_tokens_extended.
  - rewrite golden_valid_accepted, golden_sampled_cleaned, Z.gtb_ltb. destruct (0 <? _); [done|]. f_equal.
    destruct (Z.ltb_spec 0 (ri_len r)); lia.
  - intros j. by apply golden_draft_row.
  - rewrite golden_count_prefix by done. unfold prefix_count. f_equal. apply find_ext. intros j _. by rewrite golden_draft_row.
Qed.
End Row.
End NgramGolden.
