(* ===== verification/NgramProofs.v ===== *)
(** * The n-gram proposer meets its reference

    The loops of NgramKernel compute the functions of NgramSpec, row by row and
    block by block, without leaving a buffer. *)

From S2P Require Import Prelude Ascend Tensor NgramKernel NgramSpec.

Module NgramProofs.
Import Ngram NgramSpec.

(** ** Loops that look for something *)

(** A loop that stops at the first index with a property. *)
Lemma for_break_find {S} (f : Z -> bool) (g : Z -> S) body n lo s :
  (forall i, lo <= i < lo + Z.of_nat n -> body i s = Ok (if f i then (false, g i) else (true, s))) ->
  for_break n lo body s = Ok (match List.find f (seqZ lo (Z.of_nat n)) with Some i => g i | None => s end).
Proof.
  revert lo. induction n as [|n IH]; intros lo H; [done|].
  rewrite seqZ_cons by lia. cbn [for_break List.find]. rewrite H by lia. cbn [mbind res_bind].
  destruct (f lo); [done|]. replace (Z.pred (Z.of_nat (Datatypes.S n))) with (Z.of_nat n) by lia.
  apply IH. intros i Hi. apply H. lia.
Qed.

Lemma all_match_ok lo n same f :
  lo <= n -> (forall s, lo <= s < n -> same s = Ok (f s)) -> all_match lo n same = Ok (forallb f (seqZ lo (n - lo))).
Proof.
  intros Hn H. unfold all_match. remember (Z.to_nat (n - lo)) as m eqn:Em.
  replace (n - lo) with (Z.of_nat m) by lia. revert lo Hn H Em.
  induction m as [|m IH]; intros lo Hn H Em; [done|].
  rewrite seqZ_cons by lia. cbn [for_break forallb]. rewrite H by lia. cbn [mbind res_bind].
  destruct (f lo); [|done]. cbn [andb]. replace (Z.pred (Z.of_nat (S m))) with (Z.of_nat m) by lia.
  apply IH; try lia. intros s Hs. apply H. lia.
Qed.

Lemma scan_ok elements cand rest (f g : Z -> bool) off n b :
  0 <= elements ->
  (forall p, 0 <= p < elements -> cand p = Ok (f p)) -> (forall p, 0 <= p < elements -> rest p = Ok (g p)) ->
  scan elements cand rest off n b =
  Ok (match List.find (fun p => f p && g p) (seqZ 0 elements) with Some p => (off + p, n) | None => b end).
Proof.
  intros He Hf Hg. unfold scan. rewrite (for_break_find (fun p => f p && g p) (fun p => (off + p, n))).
  - by rewrite Z2Nat.id by lia.
  - intros p Hp. rewrite Hf by lia. cbn [mbind res_bind]. destruct (f p); [|done].
    rewrite Hg by lia. cbn. by destruct (g p).
Qed.

(** The tokens of a suffix: the first one and the others. *)
Lemma forallb_cons_seqZ (f : Z -> bool) n :
  0 < n -> forallb f (seqZ 0 n) = f 0 && forallb f (seqZ 1 (n - 1)).
Proof. intros Hn. rewrite seqZ_cons by lia. cbn. by replace (Z.pred n) with (n - 1) by lia. Qed.

Lemma forallb_seqZ_ext (f g : Z -> bool) m n :
  (forall i, m <= i < m + n -> f i = g i) -> forallb f (seqZ m n) = forallb g (seqZ m n).
Proof.
  intros H. apply eq_true_iff_eq. rewrite !forallb_forall.
  split; intros E x Hx; specialize (E x Hx); apply list_elem_of_In, elem_of_seqZ in Hx; [by rewrite <- H|by rewrite H].
Qed.

(** A match as the code has it. *)
Definition enc (b : option (Z * Z)) : Z * Z := default (-1, 0) b.

Section Row.
Context `{AscendC} (c : Conf).
Abbreviation M := (max_seq_len c).
Abbreviation N := (max_new_tokens c).
Abbreviation K := (k_val c).

(** ** Sampled tokens *)

Definition row_in (token : list Z) (trow len : Z) (sampled : list Z) (srow discard : Z) : RowIn :=
  mkRowIn (fun i => vat token (trow + i)) len (fun j => vat sampled (srow + j)) discard.

Lemma validate_returns discard base sampled tok len :
  let r := mkRowIn tok len (fun j => vat sampled (base + j)) discard in
  0 <= base -> 0 <= N -> base + N <= Z.of_nat (length sampled) -> base + N < 2 ^ 32 ->
  returns (validate c discard base sampled) (fun '(sampled', n) =>
    outside base (base + N) sampled sampled' /\
    (forall j, 0 <= j < N -> vat sampled' (base + j) = cleaned (vocab_size_val c) r j) /\
    n = all_valid N (vocab_size_val c) r).
Proof.
  intros r Hb Hn Hl Hw. unfold validate.
  set (val := fun j => is_valid (vocab_size_val c) (vat sampled (base + j))).
  eapply returns_mono; [apply (for_range_returns (fun i '(s, n) =>
    outside base (base + N) sampled s /\
    (forall j, 0 <= j < i -> vat s (base + j) = cleaned (vocab_size_val c) r j) /\
    (forall j, i <= j < N -> vat s (base + j) = vat sampled (base + j)) /\
    n = if discard =? 0 then Z.of_nat (count val (seqZ 0 i)) else 0)); [done| |]|].
  - split; [apply outside_refl|]. split; [lia|]. split; [done|]. by destruct (discard =? 0).
  - intros i [s n] Hi (Ho & Hc & Hr & ->). pose proof (proj1 Ho). rewrite u32_id by lia.
    rewrite vget_ok by lia. cbn [mbind res_bind]. rewrite Hr by lia.
    assert (Hset : forall n', cleaned (vocab_size_val c) r i = -1 ->
      n' = (if discard =? 0 then Z.of_nat (count val (seqZ 0 (i + 1))) else 0) ->
      returns (s' ← vset s (base + i) (-1); Ok (s', n')) (fun '(s, n) =>
        outside base (base + N) sampled s /\
        (forall j, 0 <= j < i + 1 -> vat s (base + j) = cleaned (vocab_size_val c) r j) /\
        (forall j, i + 1 <= j < N -> vat s (base + j) = vat sampled (base + j)) /\
        n = if discard =? 0 then Z.of_nat (count val (seqZ 0 (i + 1))) else 0)).
    { intros n' Hcl En. rewrite vset_ok by lia. cbn [mbind res_bind]. apply returns_ok. split.
      { eapply outside_trans; [exact Ho|]. apply outside_insert; lia. }
      split; [|split; [|done]].
      - intros j Hj. destruct (Z.eq_dec j i) as [->|]; [by rewrite vat_insert_eq by lia|].
        rewrite vat_insert_ne by lia. apply Hc. lia.
      - intros j Hj. rewrite vat_insert_ne by lia. apply Hr. lia. }
    rewrite seqZ_snoc, count_app in * by lia. rewrite Z.add_0_l in *.
    unfold cleaned, r, is_valid in *. cbn [ri_discard ri_sampled] in *.
    assert (Ec : count val [i] = if val i then 1%nat else 0%nat) by (unfold count; cbn; by destruct (val i)).
    rewrite Ec in *. unfold val, is_valid in *.
    destruct (discard =? 0) eqn:Ed; cbn [negb andb] in *; [|by apply Hset].
    destruct (negb (vat sampled (base + i) =? -1) && (vat sampled (base + i) <? vocab_size_val c)) eqn:Ev.
    + apply returns_ok. split; [done|]. split; [|split; [|lia]].
      * intros j Hj. destruct (Z.eq_dec j i) as [->|]; [|apply Hc; lia]. by rewrite Hr, Ev by lia.
      * intros j Hj. apply Hr. lia.
    + apply Hset; [done|lia].
  - intros [s n] (Ho & Hc & _ & ->). split; [done|]. split; [done|]. unfold all_valid, r. cbn. by destruct (discard =? 0).
Qed.

Lemma clip_count_ok len n r :
  ri_len r = len -> n = all_valid N (vocab_size_val c) r ->
  clip_count c len n = accepted_count M N (vocab_size_val c) r.
Proof.
  intros <- ->. unfold clip_count, accepted_count.
  destruct (Z.ltb_spec (M - ri_len r) 0); rewrite Z.gtb_ltb;
    match goal with |- context [?a <? ?b] => destruct (Z.ltb_spec a b) end; lia.
Qed.

Lemma accepted_range r :
  0 <= N -> 0 <= accepted_count M N (vocab_size_val c) r <= N /\
  (0 <= ri_len r <= M -> ri_len r + accepted_count M N (vocab_size_val c) r <= M).
Proof.
  intros Hn. assert (0 <= all_valid N (vocab_size_val c) r <= N).
  { unfold all_valid. destruct (ri_discard r =? 0); [|lia]. unfold count.
    pose proof (List.filter_length_le (fun j => is_valid (vocab_size_val c) (ri_sampled r j)) (seqZ 0 N)) as Hle.
    rewrite length_seqZ in Hle. lia. }
  unfold accepted_count. lia.
Qed.

(** ** Search *)

Abbreviation lo_n := (min_n_val c).
Abbreviation hi_n := (max_n_val c).

(** What a search has after the lengths below [n]. *)
Definition upto (f : option (Z * Z) -> Z -> option (Z * Z)) (n : Z) : option (Z * Z) :=
  fold_left f (seqZ lo_n (n - lo_n)) None.

Lemma upto_snoc f n : lo_n <= n -> upto f (n + 1) = f (upto f n) n.
Proof.
  intros Hn. unfold upto. replace (n + 1 - lo_n) with (n - lo_n + 1) by lia.
  rewrite seqZ_snoc, fold_left_app by lia. cbn [fold_left]. by replace (lo_n + (n - lo_n)) with n by lia.
Qed.

(** The loop over the lengths ends at [max_n], at the length of the sequence, or
    one before it. *)
Lemma upto_end f nt n :
  (forall b, f b nt = b) -> lo_n <= n -> n = Z.min hi_n nt + 1 \/ (n = nt /\ nt <= hi_n) ->
  upto f n = fold_left f (lengths lo_n hi_n nt) None.
Proof.
  intros Hf Hn [->|[-> Hh]]; unfold lengths.
  - unfold upto. f_equal. f_equal. lia.
  - replace (Z.min hi_n nt - lo_n + 1) with (nt + 1 - lo_n) by lia. fold (upto f (nt + 1)).
    by rewrite upto_snoc, Hf by done.
Qed.

Lemma upto_end_small f nt n :
  n <= lo_n -> Z.min hi_n nt < lo_n -> upto f n = fold_left f (lengths lo_n hi_n nt) None.
Proof. intros H1 H2. unfold upto, lengths. by rewrite !seqZ_nil by lia. Qed.

(** The whole sequence has no earlier occurrence. *)
Lemma longer_whole tok nt b : longer tok nt b nt = b.
Proof. unfold longer, occurrence. by rewrite (seqZ_nil 0 (nt - nt)) by lia. Qed.

Lemma near_whole w tok nt b : near w tok nt b nt = b.
Proof. unfold near. rewrite seqZ_nil; [done|]. destruct b; lia. Qed.

(** A step of the search: what the loop over the positions leaves. *)
Lemma enc_longer tok nt b n :
  enc (longer tok nt b n) = match List.find (occurs tok nt n) (seqZ 0 (nt - n)) with Some p => (p, n) | None => enc b end.
Proof. unfold longer, occurrence. by destruct (List.find _ _). Qed.

Lemma search_scalar_returns token row_base nt suffix :
  let tok i := vat token (row_base + i) in
  1 <= lo_n -> 0 <= row_base -> 0 <= nt -> row_base + nt <= Z.of_nat (length token) -> Z.of_nat (length token) < 2 ^ 32 ->
  hi_n <= Z.of_nat (length suffix) < 2 ^ 32 ->
  returns (search_scalar c token row_base nt suffix) (fun '(suffix', b) =>
    length suffix' = length suffix /\ b = enc (longest lo_n hi_n tok nt)).
Proof.
  intros tok Hlo Hr Hnt Hl Hw Hs. unfold search_scalar.
  apply (for_break_returns (fun n '(suffix', b) => lo_n <= n /\ (n = lo_n \/ n <= nt + 1) /\
    length suffix' = length suffix /\ b = enc (upto (longer tok nt) n))).
  - split; [lia|]. split; [by left|]. split; [done|]. unfold upto. by rewrite seqZ_nil by lia.
  - intros n [suffix' b] Hn (H1 & H2 & H3 & ->). destruct (Z.gtb_spec n nt).
    + apply returns_ok. split; [done|]. f_equal. destruct H2 as [->|H2]; [apply upto_end_small; lia|].
      apply upto_end; [apply longer_whole|lia|]. left. lia.
    + eapply returns_bind_mono.
      { apply (fill_returns 0 n (fun s => tok (nt - n + s))); [lia..|]. intros s l Hs' [Hl' _].
        rewrite !u32_id by lia. rewrite vget_ok by lia. cbn [mbind res_bind]. unfold tok. by do 2 f_equal; lia. }
      intros sfx [[Hsl _] Hsf]. rewrite (for_break_find (occurs tok nt n) (fun pos => (pos, n))).
      * cbn [mbind res_bind]. apply returns_ok. split; [lia|]. split; [right; lia|]. split; [congruence|].
        rewrite upto_snoc, enc_longer by lia. by replace (Z.of_nat (Z.to_nat (nt - n - 1 + 1))) with (nt - n) by lia.
      * intros pos Hp. rewrite (all_match_ok 0 n _ (fun s => tok (pos + s) =? tok (nt - n + s))); [|lia|].
        { rewrite Z.sub_0_r. cbn [mbind res_bind]. unfold occurs, window_eq. by destruct (forallb _ _). }
        intros s Hs'. rewrite !u32_id by lia. rewrite !vget_ok by lia. cbn [mbind res_bind].
        rewrite <- (Hsf s), Z.add_0_l by lia. unfold tok. by rewrite Z.add_assoc.
  - intros [suffix' b] (H1 & H2 & H3 & ->). split; [done|]. f_equal.
    destruct H2 as [E|H2].
    + destruct (Z.le_gt_cases lo_n (Z.min hi_n nt)); [|by rewrite E; apply upto_end_small; lia].
      exfalso. lia.
    + destruct (Z.le_gt_cases (hi_n - lo_n + 1) 0); [apply upto_end_small; lia|].
      apply upto_end; [apply longer_whole|lia|]. left. lia.
Qed.

Lemma land_bit b j : 0 <= j -> negb (Z.land b (Z.shiftl 1 j) =? 0) = Z.testbit b j.
Proof.
  intros Hj. rewrite Z.shiftl_1_l. destruct (Z.testbit b j) eqn:E.
  - apply negb_true_iff, Z.eqb_neq. intros E0. apply (f_equal (fun z => Z.testbit z j)) in E0.
    by rewrite Z.land_spec, E, Z.pow2_bits_true, Z.bits_0 in E0 by done.
  - apply negb_false_iff, Z.eqb_eq, Z.bits_inj'. intros i Hi. rewrite Z.land_spec, Z.bits_0.
    rewrite Z.pow2_bits_eqb by done. destruct (Z.eqb_spec j i) as [<-|]; [by rewrite E|apply andb_false_r].
Qed.

Lemma mask_bit_ok mask p :
  0 <= p -> p / 8 < Z.of_nat (length mask) -> mask_bit mask p = Ok (Z.testbit (vat mask (p / 8)) (p mod 8)).
Proof.
  intros Hp Hl. unfold mask_bit. rewrite Z.shiftr_div_pow2 by lia. change (2 ^ 3) with 8.
  rewrite vget_ok by (split; [apply Z.div_pos; lia|done]). cbn [mbind res_bind].
  change 7 with (Z.ones 3). rewrite Z.land_ones by lia. change (2 ^ 3) with 8.
  rewrite land_bit by (apply Z.mod_pos_bound; lia). done.
Qed.

(** The comparison of [count] tokens, and the candidates of its mask. *)
Lemma compare_returns `{!AscendCLaws} mask token off x n :
  0 <= off -> off + n <= Z.of_nat (length token) -> n / 8 <= Z.of_nat (length mask) -> n mod 64 = 0 ->
  returns (compare mask token off x n) (fun mask' => length mask' = length mask /\
    forall p, 0 <= p < n -> mask_bit mask' p = Ok (vat token (off + p) =? x)).
Proof.
  intros Ho Hl Hm Hn. unfold compare.
  rewrite (proj2 (Z.leb_le _ _) Ho), (proj2 (Z.leb_le _ _) Hl), (proj2 (Z.leb_le _ _) Hm). cbn [andb].
  apply returns_ok. split; [apply cmp_length|]. intros p Hp.
  rewrite mask_bit_ok; [|lia|rewrite cmp_length; ediv]. by rewrite cmp_bit.
Qed.

(** Positions from [off] that one comparison looks at, and the bits it needs. *)
Lemma piece_bounds nt n off :
  let msa := max_seq_len_align c in
  0 <= off < nt - n -> off mod 8192 = 0 -> 1 <= n -> nt <= msa -> msa mod 64 = 0 -> msa < 2 ^ 31 ->
  let e := if u32 (nt - n - off) >=? 8192 then 8192 else u32 (nt - n - off) in
  let ca := u32 (e + 63) / 64 * 64 in
  e = Z.min 8192 (nt - n - off) /\ e <= ca /\ off + ca <= msa /\ ca mod 64 = 0 /\ 0 < ca <= 8192.
Proof.
  intros msa Ho Hm Hn Hnt Ha Hw e ca.
  assert (Ee : e = Z.min 8192 (nt - n - off)).
  { unfold e. rewrite u32_id, Z.geb_leb by lia. destruct (Z.leb_spec 8192 (nt - n - off)); lia. }
  split; [done|]. unfold ca. rewrite u32_id by lia.
  assert (off mod 64 = 0) by ediv. ediv.
Qed.

(** A piece that starts at [off] with nothing found before. *)
Definition piece_state (tok : Z -> Z) (nt n L : Z) (b : option (Z * Z)) (off : Z) (st : list Z * (Z * Z)) : Prop :=
  0 <= off /\ off mod 8192 = 0 /\ (b <> None -> off = 0 \/ nt - n <= off) /\ Z.of_nat (length st.1) = L /\ st.2 = enc b /\
  forall q, 0 <= q < Z.min off (nt - n) -> occurs tok nt n q = false.

Lemma near_first w tok nt n b p :
  0 <= p < nt - n -> (b <> None -> p < w) -> occurs tok nt n p = true ->
  (forall q, 0 <= q < p -> occurs tok nt n q = false) -> near w tok nt b n = Some (p, n).
Proof.
  intros Hp Hb Ho Hf. unfold near. rewrite (find_first _ 0 _ p); [done| |done|done].
  destruct b; [specialize (Hb ltac:(done))|]; lia.
Qed.

Lemma near_none w tok nt n b :
  (forall q, 0 <= q < nt - n -> (b <> None -> q < w) -> occurs tok nt n q = false) -> near w tok nt b n = b.
Proof. intros Hf. unfold near. rewrite find_none; [done|]. intros q Hq. destruct b; apply Hf; [lia..| |]; done || lia. Qed.

(** The loop over the pieces of a row for one length. *)
Lemma pieces_search `{!AscendCLaws} token nt n mask b :
  let tok i := vat token i in
  let msa := max_seq_len_align c in
  1 <= n < nt -> nt <= msa -> msa mod 64 = 0 -> Z.of_nat (length token) = msa -> msa < 2 ^ 31 ->
  1024 <= Z.of_nat (length mask) -> (forall p m, b = Some (p, m) -> 0 <= p) ->
  returns (for_step 0 (nt - n) CMP_MAX (fun cmp_off '(mask, b) =>
      let remaining := u32 (nt - n - cmp_off) in
      let elements := if remaining >=? CMP_MAX then CMP_MAX else remaining in
      let count_aligned := u32 (elements + 63) / 64 * 64 in
      let buf_avail := u32 (max_seq_len_align c - cmp_off) in
      let count_aligned := if count_aligned >? buf_avail then buf_avail / 64 * 64 else count_aligned in
      let rest p := all_match 1 n (fun s =>
        sv ← vget token (u32 (nt - n + s)); tv ← vget token (u32 (cmp_off + p + s)); Ok (tv =? sv)) in
      if count_aligned =? 0 then
        b ← scan elements (fun p => t ← vget token (u32 (cmp_off + p)); Ok (t =? vat token (nt - n))) rest cmp_off n b;
        Ok (negb (b.1 >=? 0), (mask, b))
      else
        mask ← compare mask token cmp_off (vat token (nt - n)) count_aligned;
        b ← scan elements (mask_bit mask) rest cmp_off n b;
        Ok (negb (b.1 >=? 0), (mask, b))) (mask, enc b))
    (fun '(mask', b') => length mask' = length mask /\ b' = enc (near CMP_MAX tok nt b n)).
Proof.
  intros tok msa Hn Hnt Ha Hl Hw Hm Hb. change CMP_MAX with 8192.
  apply (for_step_returns (piece_state tok nt n (Z.of_nat (length mask)) b)); [lia| | |].
  - split; [lia|]. split; [done|]. split; [by left|]. split; [done|]. split; [done|lia].
  - intros off [mask1 b1] Hoff (Hz & Hmod & Hfirst & HL & Eb & Hnone). cbn [fst snd] in *. subst b1. cbv zeta.
    destruct (piece_bounds nt n off) as (Ee & E1 & E2 & E3 & E4); [lia|done|lia|done|done|done|].
    set (e := if _ >=? _ then _ else _) in *. set (ca := u32 (e + 63) / 64 * 64) in *.
    rewrite (u32_id (max_seq_len_align c - off)) by (fold msa; lia).
    rewrite (Z.gtb_ltb ca), (proj2 (Z.ltb_ge _ _)) by (fold msa; lia). rewrite (proj2 (Z.eqb_neq ca 0)) by lia.
    destruct (compare_returns mask1 token off (vat token (nt - n)) ca) as (mask2 & Em2 & L2 & B2);
      [lia|fold msa in E2; lia|ediv|done|].
    rewrite Em2. cbn [mbind res_bind].
    rewrite (scan_ok _ _ _ (fun p => tok (off + p) =? tok (nt - n))
               (fun p => forallb (fun s => tok (off + p + s) =? tok (nt - n + s)) (seqZ 1 (n - 1)))); [|lia| |].
    2:{ intros p Hp. by apply B2; lia. }
    2:{ intros p Hp. rewrite (all_match_ok 1 n _ (fun s => tok (off + p + s) =? tok (nt - n + s))); [done|lia|].
        intros s Hs. rewrite !u32_id by lia. rewrite !vget_ok by lia. done. }
    cbn [mbind res_bind]. apply returns_ok.
    rewrite (find_ext _ (fun p => occurs tok nt n (off + p)) 0 e).
    2:{ intros q Hq. unfold occurs, window_eq. rewrite (forallb_cons_seqZ _ n) by lia. by rewrite !Z.add_0_r. }
    pose proof (find_seqZ (fun p => occurs tok nt n (off + p)) 0 e) as Hf.
    destruct (List.find _ _) as [p|].
    + destruct Hf as (Hp & Ho & Hq). rewrite (near_first _ _ _ _ _ (off + p)); [|lia| |done|].
      * cbn [fst]. rewrite Z.geb_leb, (proj2 (Z.leb_le 0 (off + p))) by lia. split; [lia|done].
      * intros HbN. destruct (Hfirst HbN); lia.
      * intros q Hq'. destruct (Z.lt_ge_cases q off); [apply Hnone; lia|].
        specialize (Hq (q - off) ltac:(lia)). cbn in Hq. by rewrite Zplus_minus in Hq.
    + assert (Hno : forall q, 0 <= q < Z.min (off + 8192) (nt - n) -> occurs tok nt n q = false).
      { intros q Hq'. destruct (Z.lt_ge_cases q off); [apply Hnone; lia|].
        specialize (Hf (q - off) ltac:(lia)). cbn in Hf. by rewrite Zplus_minus in Hf. }
      destruct b as [[p m]|].
      * change ((enc (Some (p, m))).1) with p. rewrite Z.geb_leb, (proj2 (Z.leb_le 0 p)) by (by eapply Hb). cbn [negb].
        rewrite near_none; [split; [lia|done]|]. intros q Hq' Hq8. apply Hno.
        destruct (Hfirst ltac:(done)); [|lia]. specialize (Hq8 ltac:(done)). lia.
      * change (negb ((enc None).1 >=? 0)) with true. cbn iota. split; [lia|]. split; [rewrite <- (Z.mul_1_l 8192) at 1; by rewrite Z.mod_add by lia|].
        split; [done|]. split; [cbn; lia|]. split; done.
  - intros off [mask1 b1] _ Hge (_ & _ & Hfirst & HL & Eb & Hnone). cbn [fst snd] in *. split; [lia|].
    rewrite near_none; [done|]. intros q Hq _. apply Hnone. lia.
Qed.

(** The row is searched by the vector unit, when it is a multiple of 64. *)
Lemma search_vector_returns `{!AscendCLaws} token nt mask :
  let tok i := vat token i in
  let msa := max_seq_len_align c in
  1 <= lo_n -> 0 <= nt <= msa -> msa mod 64 = 0 -> Z.of_nat (length token) = msa -> msa < 2 ^ 31 ->
  1024 <= Z.of_nat (length mask) ->
  returns (search_vector c token nt mask) (fun '(mask', b) =>
    length mask' = length mask /\ b = enc (nearest CMP_MAX lo_n hi_n tok nt)).
Proof.
  intros tok msa Hlo Hnt Ha Hl Hw Hm. unfold search_vector. pose proof (near_whole CMP_MAX tok nt) as Hwh.
  apply (for_break_returns (fun n '(mask', b) => lo_n <= n /\ (n = lo_n \/ n <= nt + 1) /\
    length mask' = length mask /\ b = enc (upto (near CMP_MAX tok nt) n))).
  - split; [lia|]. split; [by left|]. split; [done|]. unfold upto. by rewrite seqZ_nil by lia.
  - intros n [mask' b] Hn (H1 & H2 & H3 & ->). destruct (Z.gtb_spec n nt).
    { apply returns_ok. split; [done|]. f_equal. destruct H2 as [->|H2]; [apply upto_end_small; lia|].
      apply upto_end; [done|lia|]. left. lia. }
    destruct (Z.leb_spec (nt - n) 0).
    { apply returns_ok. split; [done|]. f_equal. apply upto_end; [done|lia|]. right. lia. }
    rewrite u32_id, vget_ok by lia. cbn [mbind res_bind].
    eapply returns_bind_mono; [apply (pieces_search token nt n mask' (upto (near CMP_MAX tok nt) n)); done || lia || idtac|].
    + intros p m. apply (fold_left_match _ (fun '(p, _) => 0 <= p)). intros b' m' [q m2] _ Hb. unfold near.
      pose proof (find_seqZ (occurs tok nt m') 0 (match b' with Some _ => Z.min CMP_MAX (nt - m') | None => nt - m' end)) as Hf.
      destruct (List.find _ _); [|by apply Hb]. intros [= <- <-]. lia.
    + intros [mask2 b2] [L2 ->]. apply returns_ok. split; [lia|]. split; [right; lia|]. split; [congruence|].
      by rewrite upto_snoc by lia.
  - intros [mask' b] (H1 & H2 & H3 & ->). split; [done|]. f_equal.
    destruct (Z.le_gt_cases (hi_n - lo_n + 1) 0); [apply upto_end_small; lia|].
    destruct H2 as [E|H2]; [exfalso; lia|]. apply upto_end; [done|lia|]. left. lia.
Qed.

(** ** Draft tokens *)

Lemma write_draft_returns base token t available draft :
  0 <= base -> 0 <= K -> base + K <= Z.of_nat (length draft) < 2 ^ 32 ->
  (forall j, 0 <= j < K -> j < available -> token j = Ok (t j)) ->
  returns (write_draft c base token available draft) (fun draft' =>
    outside base (base + K) draft draft' /\
    forall j, 0 <= j < K -> vat draft' (base + j) = if j <? available then t j else -1).
Proof.
  intros Hb Hk Hl Ht. apply fill_returns; [lia..|]. intros j l Hj [Hl' _]. rewrite u32_id by lia.
  destruct (Z.ltb_spec j available); [|done]. by rewrite Ht by lia.
Qed.

Lemma count_draft_returns base draft f :
  0 <= base -> 0 <= K -> base + K <= Z.of_nat (length draft) < 2 ^ 32 ->
  (forall j, 0 <= j < K -> vat draft (base + j) = f j) ->
  returns (count_draft c base draft) (fun n => n = prefix_count f K).
Proof.
  intros Hb Hk Hl Hf. unfold count_draft, prefix_count. pose proof (find_seqZ (fun j => f j =? -1) 0 K) as Hfind.
  apply (for_break_returns (fun j n => n = j /\ forall q, 0 <= q < j -> f q <> -1)); [split; [done|lia]| |].
  - intros j n Hj [-> Hq]. rewrite u32_id, vget_ok, Hf by lia. cbn [mbind res_bind].
    destruct (Z.eqb_spec (f j) (-1)) as [E|E]; cbn [negb]; apply returns_ok.
    + destruct (List.find _ _) as [p|]; cbn.
      * destruct Hfind as (H1 & H2 & H3). destruct (Z.lt_total j p) as [|[|]]; [|done|].
        -- specialize (H3 j ltac:(lia)). lia.
        -- apply Z.eqb_eq in H2. exfalso. by apply (Hq p); [lia|].
      * specialize (Hfind j ltac:(lia)). lia.
    + split; [done|]. intros q Hq'. destruct (Z.eq_dec q j) as [->|]; [done|]. apply Hq. lia.
  - intros n [-> Hq]. rewrite Z2Nat.id in * by lia. rewrite Z.add_0_l in *.
    destruct (List.find _ _) as [p|]; cbn; [|done]. destruct Hfind as (H1 & H2 & _).
    apply Z.eqb_eq in H2. exfalso. by apply (Hq p); [lia|].
Qed.
End Row.

(** ** A row in the buffer *)

(** The sizes that Init derives: [c] has room for [block_rows] rows. *)
Record ConfOk (c : Conf) : Prop := {
  cf_rows : 0 < block_rows c < 2 ^ 31;
  cf_seq : 0 < max_seq_len c <= max_seq_len_align c;
  cf_new : 0 <= max_new_tokens c <= max_new_tokens_align c;
  cf_k : 0 <= k_val c <= k_align c;
  cf_n : 1 <= min_n_val c;
  cf_tok_ub : block_rows c * max_seq_len_align c < 2 ^ 31;
  cf_new_ub : block_rows c * max_new_tokens_align c < 2 ^ 31;
  cf_k_ub : block_rows c * k_align c < 2 ^ 31;
  cf_suffix : 0 <= max_n_val c < 2 ^ 31;
  cf_seq_align : max_seq_len_align c = align8 (max_seq_len c);
  cf_new_align : max_new_tokens_align c = align8 (max_new_tokens c)
}.

(** One row at a time is searched by the vector unit, in groups of 64 tokens. *)
Definition VectorOk (c : Conf) : Prop := block_rows c <= 1 -> max_seq_len_align c mod 64 = 0.

(** The match that is taken for a row in the buffer. *)
Definition buffered (c : Conf) : Z -> Z -> (Z -> Z) -> Z -> option (Z * Z) :=
  if block_rows c <=? 1 then nearest CMP_MAX else longest.

#[global] Instance buffered_selects c : Selects (buffered c).
Proof. unfold buffered. destruct (block_rows c <=? 1); apply _. Qed.

(** Sizes of the buffers of short rows. *)
Record UbOk (c : Conf) (u : Ub) : Prop := {
  ub_token : Z.of_nat (length (tokenLocal u)) = block_rows c * max_seq_len_align c;
  ub_sampled : Z.of_nat (length (sampledLocal u)) = block_rows c * max_new_tokens_align c;
  ub_nums : align8 (block_rows c) <= Z.of_nat (length (numTokensLocal u)) < 2 ^ 32;
  ub_discard : align8 (block_rows c) <= Z.of_nat (length (discardLocal u)) < 2 ^ 32;
  ub_next : align8 (block_rows c) <= Z.of_nat (length (nextLocal u)) < 2 ^ 32;
  ub_draft : Z.of_nat (length (draftLocal u)) = block_rows c * k_align c;
  ub_valid : align8 (block_rows c) <= Z.of_nat (length (numValidLocal u)) < 2 ^ 32;
  ub_suffix : max_n_val c <= Z.of_nat (length (suffixLocal u)) < 2 ^ 32;
  ub_mask : 1024 <= Z.of_nat (length (maskLocal u))
}.

(** The input of row [idx] of the buffer, and its outputs. *)
Definition ub_row (c : Conf) (u : Ub) (idx : Z) : RowIn :=
  row_in (tokenLocal u) (idx * max_seq_len_align c) (vat (numTokensLocal u) idx)
    (sampledLocal u) (idx * max_new_tokens_align c) (vat (discardLocal u) idx).

Definition reference (c : Conf) (select : Z -> Z -> (Z -> Z) -> Z -> option (Z * Z)) (r : RowIn) : RowOut :=
  row_out (max_seq_len c) (max_new_tokens c) (vocab_size_val c) (min_n_val c) (k_val c)
    (select (min_n_val c) (max_n_val c)) r.

Record ub_done (c : Conf) (u : Ub) (idx : Z) (o : RowOut) : Prop := {
  ud_tok : forall i, 0 <= i < max_seq_len c -> vat (tokenLocal u) (idx * max_seq_len_align c + i) = ro_tok o i;
  ud_next : vat (nextLocal u) idx = ro_next o;
  ud_draft : forall j, 0 <= j < k_val c -> vat (draftLocal u) (idx * k_align c + j) = ro_draft o j;
  ud_num : vat (numValidLocal u) idx = ro_num o
}.

(** Row [idx] is the only one that changed. *)
Record ub_frame (c : Conf) (u u' : Ub) (idx : Z) : Prop := {
  uf_tok : outside (idx * max_seq_len_align c) ((idx + 1) * max_seq_len_align c) (tokenLocal u) (tokenLocal u');
  uf_sampled : outside (idx * max_new_tokens_align c) ((idx + 1) * max_new_tokens_align c) (sampledLocal u) (sampledLocal u');
  uf_nums : numTokensLocal u' = numTokensLocal u;
  uf_discard : discardLocal u' = discardLocal u;
  uf_next : outside idx (idx + 1) (nextLocal u) (nextLocal u');
  uf_draft : outside (idx * k_align c) ((idx + 1) * k_align c) (draftLocal u) (draftLocal u');
  uf_valid : outside idx (idx + 1) (numValidLocal u) (numValidLocal u');
  uf_suffix : length (suffixLocal u') = length (suffixLocal u);
  uf_mask : length (maskLocal u') = length (maskLocal u)
}.

Lemma ub_frame_ok c u u' idx : UbOk c u -> ub_frame c u u' idx -> UbOk c u'.
Proof.
  intros [] [[T _] [S _] E1 E2 [N _] [D _] [V _] X Y]. split; rewrite ?T, ?S, ?E1, ?E2, ?N, ?D, ?V, ?X, ?Y; done.
Qed.

Lemma row_range idx rows width : 0 <= idx < rows -> 0 <= width -> 0 <= idx * width /\ idx * width + width <= rows * width.
Proof. nia. Qed.

Section OneRow.
Context `{HA : AscendC} `{HAL : !AscendCLaws} (c : Conf) (HC : ConfOk c) (HV : VectorOk c).
Abbreviation M := (max_seq_len c).
Abbreviation N := (max_new_tokens c).
Abbreviation K := (k_val c).

(** Both searches. *)
Lemma search_row_returns u idx nt :
  UbOk c u -> 0 <= idx < block_rows c -> 0 <= nt <= M ->
  let tok i := vat (tokenLocal u) (idx * max_seq_len_align c + i) in
  returns (search_row c idx nt u) (fun '(u', b) => b = enc (buffered c (min_n_val c) (max_n_val c) tok nt) /\
    exists sfx mask, length sfx = length (suffixLocal u) /\ length mask = length (maskLocal u) /\
      u' = u <| suffixLocal := sfx |> <| maskLocal := mask |>).
Proof.
  intros [] Hi Hnt tok. destruct HC. destruct (row_range idx (block_rows c) (max_seq_len_align c)); [lia..|].
  unfold search_row, buffered. destruct (Z.leb_spec (block_rows c) 1).
  - pose proof (HV ltac:(lia)) as V2. assert (idx = 0) by lia. assert (E1 : block_rows c = 1) by lia.
    rewrite E1, ?Z.mul_1_l in ub_token0, cf_tok_ub0.
    eapply returns_bind_mono; [apply search_vector_returns; done || lia|].
    intros [mask b] [Hm ->]. apply returns_ok. split.
    + f_equal. apply nearest_ext; [lia|]. intros i Hi'. unfold tok. f_equal. lia.
    + exists (suffixLocal u), mask. split; [done|]. split; [done|]. by destruct u.
  - rewrite u32_id by lia. eapply returns_bind_mono; [apply search_scalar_returns; lia|].
    intros [sfx b] [Hs ->]. apply returns_ok. split; [done|].
    exists sfx, (maskLocal u). split; [done|]. split; [done|]. by destruct u.
Qed.

(** The next token is the last appended one, or the last of the row. *)
Lemma next_returns sampled srow a nexts idx backup t :
  0 <= idx < Z.of_nat (length nexts) -> 0 <= srow -> 0 <= a -> srow + a <= Z.of_nat (length sampled) < 2 ^ 32 ->
  (if 0 <? a then vat sampled (srow + a - 1) else backup) = t ->
  returns (if a >? 0 then x ← vget sampled (u32 (srow + a - 1)); vset nexts idx x else vset nexts idx backup)
    (fun l => outside idx (idx + 1) nexts l /\ vat l idx = t).
Proof.
  intros Hi Hs Ha Hl <-. rewrite Z.gtb_ltb. destruct (Z.ltb_spec 0 a).
  - rewrite u32_id, vget_ok by lia. cbn [mbind res_bind]. rewrite vset_ok by lia. apply returns_ok.
    split; [apply outside_insert; lia|]. by rewrite vat_insert_eq by lia.
  - rewrite vset_ok by lia. apply returns_ok. split; [apply outside_insert; lia|]. by rewrite vat_insert_eq by lia.
Qed.

(** The row with the accepted tokens appended. *)
Lemma append_returns r sampled srow token trow :
  let len := ri_len r in
  let a := accepted_count M N (vocab_size_val c) r in
  ri_tok r = (fun i => vat token (trow + i)) ->
  0 <= len -> 0 <= a -> len + a <= M -> 0 <= trow -> trow + M <= Z.of_nat (length token) < 2 ^ 32 ->
  0 <= srow -> srow + a <= Z.of_nat (length sampled) < 2 ^ 32 ->
  (forall j, 0 <= j < a -> vat sampled (srow + j) = cleaned (vocab_size_val c) r j) ->
  returns (for_range a (fun j token => x ← vget sampled (u32 (srow + j)); vset token (u32 (trow + len + j)) x) token)
    (fun token' => outside trow (trow + M) token token' /\
       forall i, 0 <= i < M -> vat token' (trow + i) = extended M N (vocab_size_val c) r i).
Proof.
  intros len a Er H0 Ha Hle Ht Hl Hs Hsl Hc. eapply returns_mono.
  { apply (fill_returns (trow + len) a (cleaned (vocab_size_val c) r)); [lia..|]. intros j l Hj [Hl' _].
    rewrite !u32_id, vget_ok by lia. cbn [mbind res_bind]. by rewrite Hc. }
  intros token' [Ho Hv]. split; [eapply outside_weaken; [exact Ho|lia|lia]|]. intros i Hi. unfold extended. fold a len.
  destruct (Z.leb_spec len i), (Z.ltb_spec i (len + a)); cbn [andb].
  - rewrite <- Hv by lia. f_equal. lia.
  - rewrite (proj2 Ho) by lia. by rewrite Er.
  - rewrite (proj2 Ho) by lia. by rewrite Er.
  - rewrite (proj2 Ho) by lia. by rewrite Er.
Qed.

(** The search of a row that has the appended tokens. *)
Lemma match_returns u r idx :
  let a := accepted_count M N (vocab_size_val c) r in
  let nt := ri_len r + a in
  UbOk c u -> 0 <= idx < block_rows c -> 0 <= nt <= M ->
  (forall i, 0 <= i < M -> vat (tokenLocal u) (idx * max_seq_len_align c + i) = extended M N (vocab_size_val c) r i) ->
  returns (if (a >? 0) && (nt >=? min_n_val c) then search_row c idx nt u else Ok (u, (-1, 0)))
    (fun '(u', b) => b = enc (row_match M N (vocab_size_val c) (min_n_val c) (buffered c (min_n_val c) (max_n_val c)) r) /\
      exists sfx mask, length sfx = length (suffixLocal u) /\ length mask = length (maskLocal u) /\
        u' = u <| suffixLocal := sfx |> <| maskLocal := mask |>).
Proof.
  intros a nt HU Hi Hnt Ht. unfold row_match. fold a nt. rewrite Z.gtb_ltb, Z.geb_leb.
  destruct ((0 <? a) && (min_n_val c <=? nt)).
  - eapply returns_mono; [by apply search_row_returns|]. intros [u' b] [-> Hu]. split; [|done].
    f_equal. apply (sel_ext (sel := buffered c)); [pose proof (cf_n c HC); lia|]. intros i Hi'. apply Ht. lia.
  - apply returns_ok. split; [done|]. exists (suffixLocal u), (maskLocal u). split; [done|]. split; [done|]. by destruct u.
Qed.


(** Drafts and their number. *)
Lemma finish_returns r token trow drafts drow nums idx (f : list Z -> list Z -> Ub) :
  let a := accepted_count M N (vocab_size_val c) r in
  let nt := ri_len r + a in
  let m := row_match M N (vocab_size_val c) (min_n_val c) (buffered c (min_n_val c) (max_n_val c)) r in
  let dr := draft M N (vocab_size_val c) (min_n_val c) (buffered c (min_n_val c) (max_n_val c)) r in
  0 <= nt <= M -> 0 <= trow -> trow + M <= Z.of_nat (length token) < 2 ^ 32 ->
  0 <= drow -> drow + K <= Z.of_nat (length drafts) < 2 ^ 32 -> 0 <= idx < Z.of_nat (length nums) ->
  (forall i, 0 <= i < M -> vat token (trow + i) = extended M N (vocab_size_val c) r i) ->
  returns (let '(best_match_pos, best_ngram_len) := enc m in
           d ← write_draft c drow (fun j => vget token (u32 (trow + (best_match_pos + best_ngram_len) + j)))
                 (if best_match_pos >=? 0 then nt - (best_match_pos + best_ngram_len) else 0) drafts;
           n ← count_draft c drow d;
           nv ← vset nums idx n;
           Ok (f d nv))
    (fun u => exists d nv, u = f d nv /\ outside drow (drow + K) drafts d /\
       (forall j, 0 <= j < K -> vat d (drow + j) = dr j) /\
       outside idx (idx + 1) nums nv /\ vat nv idx = prefix_count dr K).
Proof.
  intros a nt m dr Hnt Htr Htl Hd Hdl Hi Htok. pose proof (cf_k c HC).
  assert (Hm : match m with Some (p, n) => 0 <= p /\ 0 < n /\ p + n < nt | None => True end).
  { unfold m, row_match. fold a nt. destruct (_ && _); [|done].
    destruct (buffered c _ _ _ _) as [[p n]|] eqn:E; [|done]. apply (sel_in _ _ _ _ _ _ (cf_n c HC) E). }
  set (t := fun j => extended M N (vocab_size_val c) r ((enc m).1 + (enc m).2 + j)).
  assert (Ed : forall j, dr j = (if j <? (if (enc m).1 >=? 0 then nt - ((enc m).1 + (enc m).2) else 0) then t j else -1) \/ j < 0).
  { intros j. unfold dr, draft. fold m a nt. unfold t. destruct m as [[p n]|]; cbn.
    - left. rewrite Z.geb_leb, (proj2 (Z.leb_le 0 p)) by lia. done.
    - destruct (Z.ltb_spec j 0); [by right|by left]. }
  destruct (enc m) as [p n] eqn:Em. cbn [fst snd] in *.
  eapply returns_bind_mono.
  { apply (write_draft_returns c _ _ t); [lia..|]. intros j Hj Hav.
    assert (Hp : 0 <= p /\ 0 < n /\ nt <= M /\ j < nt - (p + n)).
    { destruct m as [[p' n']|]; cbn in Em; injection Em as <- <-; [|cbn in Hav; lia].
      rewrite Z.geb_leb, (proj2 (Z.leb_le 0 p')) in Hav by lia. lia. }
    rewrite u32_id, vget_ok by lia. f_equal. rewrite <- Z.add_assoc. apply Htok. lia. }
  intros d [Hdo Hdv]. assert (Hdr : forall j, 0 <= j < K -> vat d (drow + j) = dr j).
  { intros j Hj. destruct (Ed j) as [->|]; [by apply Hdv|lia]. }
  eapply returns_bind_mono; [apply (count_draft_returns c _ _ dr); [lia|lia|rewrite (proj1 Hdo); lia|done]|].
  intros x ->. rewrite vset_ok by lia. apply returns_ok. exists d, (<[Z.to_nat idx := prefix_count dr K]> nums).
  split; [done|]. split; [done|]. split; [done|]. split; [apply outside_insert; lia|]. by rewrite vat_insert_eq by lia.
Qed.


Lemma ComputeOneRow_returns u idx :
  UbOk c u -> 0 <= idx < block_rows c -> 0 <= vat (numTokensLocal u) idx <= M ->
  returns (ComputeOneRow c idx u) (fun u' =>
    ub_done c u' idx (reference c (buffered c) (ub_row c u idx)) /\ ub_frame c u u' idx).
Proof.
  intros HU Hi Hlen. destruct (HU) as [U1 U2 U3 U4 U5 U6 U7 U8 U9]. destruct (HC) as [R S Nw Kk Nn T1 T2 T3 Sf _ _].
  pose proof (align8_ge (block_rows c)) as Hal.
  destruct (row_range idx (block_rows c) (max_seq_len_align c)) as [A1 A2]; [lia..|].
  destruct (row_range idx (block_rows c) (max_new_tokens_align c)) as [B1 B2]; [lia..|].
  destruct (row_range idx (block_rows c) (k_align c)) as [D1 D2]; [lia..|].
  unfold ComputeOneRow. rewrite (u32_id (max_seq_len_align c)), (u32_id (max_new_tokens_align c)), (u32_id (k_align c)) by nia.
  rewrite !(u32_id (idx * _)) by lia. rewrite !vget_ok by lia. cbn [mbind res_bind].
  set (len := vat (numTokensLocal u) idx) in *. set (r := ub_row c u idx).
  set (a := accepted_count M N (vocab_size_val c) r).
  destruct (accepted_range c r) as [Ha1 Ha2]; [lia|]. fold a in Ha1, Ha2. specialize (Ha2 Hlen). cbn [ri_len r ub_row row_in] in Ha2.
  fold len in Ha2.
  rewrite u32_id, vget_ok by (destruct (Z.gtb_spec len 0); lia). cbn [mbind res_bind].
  eapply (returns_bind_mono _ _ (fun '(sampled, n) =>
    outside (idx * max_new_tokens_align c) (idx * max_new_tokens_align c + N) (sampledLocal u) sampled /\
    (forall j, 0 <= j < N -> vat sampled (idx * max_new_tokens_align c + j) = cleaned (vocab_size_val c) r j) /\
    n = all_valid N (vocab_size_val c) r)).
  { apply (validate_returns c _ _ _ (ri_tok r) len); lia. }
  intros [sampled n] (Hso & Hsc & En). pose proof (proj1 Hso) as Hsl.
  rewrite (clip_count_ok c len n r) by done. fold a.
  eapply returns_bind_mono; [apply (next_returns _ _ _ _ _ _ (ro_next (reference c (buffered c) r)))|]; try lia.
  { cbn [reference row_out ro_next]. fold a. destruct (Z.ltb_spec 0 a); [rewrite <- Z.add_sub_assoc; apply Hsc; lia|].
    cbn [r ub_row row_in ri_tok ri_len]. fold len. rewrite Z.gtb_ltb. done. }
  intros nexts [Hno Hnv]. assert (Er : ri_len r = len) by done.
  eapply returns_bind_mono; [apply (append_returns r); fold len a; try done; try lia; intros; apply Hsc; lia|].
  intros token [Hto Htv].
  eapply returns_bind_mono; [apply (match_returns _ r); fold a; [|done|rewrite Er; lia|done]|].
  { split; cbn; rewrite ?Hsl, ?(proj1 Hno), ?(proj1 Hto); done. }
  intros [u1 b] [-> (sfx & mask & Hsfx & Hmask & ->)].
  eapply returns_mono; [apply (finish_returns r); cbn; rewrite ?(proj1 Hto); done || lia|].
  intros u' (d & nv & -> & Hdo & Hdv & Hvo & Hvv). split.
  - split; cbn; [exact Htv|exact Hnv|exact Hdv|exact Hvv].
  - split; cbn; try done; eapply outside_weaken; try eassumption; lia.
Qed.
End OneRow.
End NgramProofs.
