(* ===== verification/NgramRun.v ===== *)
(** * Blocks of rows, cores and the whole batch

    Transfers between global memory and the buffers, the blocks of rows of a
    core, and all cores of a call. *)

From S2P Require Import Prelude Ascend Tensor NgramKernel NgramSpec NgramProofs.

Module NgramRun.
Import Ngram NgramSpec NgramProofs.

(** ** The reference depends on the row only *)

Record row_eq (M N : Z) (r r' : RowIn) : Prop := {
  re_tok : forall i, 0 <= i < M -> ri_tok r i = ri_tok r' i;
  re_len : ri_len r = ri_len r';
  re_sampled : forall j, 0 <= j < N -> ri_sampled r j = ri_sampled r' j;
  re_discard : ri_discard r = ri_discard r'
}.

Record out_eq (M K : Z) (o o' : RowOut) : Prop := {
  oe_tok : forall i, 0 <= i < M -> ro_tok o i = ro_tok o' i;
  oe_next : ro_next o = ro_next o';
  oe_draft : forall j, 0 <= j < K -> ro_draft o j = ro_draft o' j;
  oe_num : ro_num o = ro_num o'
}.

Section Reference.
Context (c : Conf) (HC : ConfOk c) `{!Selects sel}.
Abbreviation M := (max_seq_len c).
Abbreviation N := (max_new_tokens c).
Abbreviation K := (k_val c).
Abbreviation V := (vocab_size_val c).

Lemma accepted_ext r r' : row_eq M N r r' -> accepted_count M N V r = accepted_count M N V r'.
Proof.
  intros [_ El Es Ed]. unfold accepted_count, all_valid. rewrite El, Ed. do 2 f_equal.
  destruct (ri_discard r' =? 0); [|done]. f_equal. apply count_ext. intros j Hj%elem_of_seqZ. by rewrite Es by lia.
Qed.

Lemma cleaned_ext r r' j : row_eq M N r r' -> 0 <= j < N -> cleaned V r j = cleaned V r' j.
Proof. intros [_ _ Es Ed] Hj. unfold cleaned. by rewrite Ed, Es. Qed.

Lemma extended_ext r r' i : row_eq M N r r' -> 0 <= i < M -> extended M N V r i = extended M N V r' i.
Proof.
  intros He Hi. pose proof (cf_new c HC). destruct (accepted_range c r') as [Ha _]; [lia|].
  unfold extended. rewrite (accepted_ext r r' He), (re_len _ _ _ _ He).
  destruct (Z.leb_spec (ri_len r') i), (Z.ltb_spec i (ri_len r' + accepted_count M N V r')); cbn [andb];
    try (by apply He). apply cleaned_ext; [done|]. lia.
Qed.

Lemma match_ext r r' :
  row_eq M N r r' -> 0 <= ri_len r' <= M ->
  row_match M N V (min_n_val c) (sel (min_n_val c) (max_n_val c)) r =
  row_match M N V (min_n_val c) (sel (min_n_val c) (max_n_val c)) r'.
Proof.
  intros He Hl. pose proof (cf_n c HC). pose proof (cf_new c HC). destruct (accepted_range c r') as [Ha Hm]; [lia|].
  unfold row_match. rewrite (accepted_ext r r' He), (re_len _ _ _ _ He).
  destruct (_ && _); [|done]. apply sel_ext; [lia|]. intros i Hi. apply extended_ext; [done|]. specialize (Hm Hl). lia.
Qed.

Lemma draft_ext r r' j :
  row_eq M N r r' -> 0 <= ri_len r' <= M -> 0 <= j ->
  draft M N V (min_n_val c) (sel (min_n_val c) (max_n_val c)) r j =
  draft M N V (min_n_val c) (sel (min_n_val c) (max_n_val c)) r' j.
Proof.
  intros He Hl Hj. pose proof (cf_n c HC) as Hn. pose proof (cf_new c HC).
  destruct (accepted_range c r') as [Ha Hm]; [lia|]. specialize (Hm Hl).
  unfold draft. rewrite (match_ext r r' He Hl), (accepted_ext r r' He), (re_len _ _ _ _ He).
  destruct (row_match _ _ _ _ _ r') as [[p n]|] eqn:E; [|done].
  destruct (Z.ltb_spec j (ri_len r' + accepted_count M N V r' - (p + n))); [|done].
  unfold row_match in E. destruct (_ && _); [|done]. apply (sel_in _ _ _ _ _ _ Hn) in E.
  apply extended_ext; [done|]. lia.
Qed.

Lemma reference_ext r r' :
  row_eq M N r r' -> 0 <= ri_len r' <= M -> out_eq M K (reference c sel r) (reference c sel r').
Proof.
  intros He Hl. pose proof (cf_seq c HC). pose proof (cf_new c HC). destruct (accepted_range c r') as [Ha _]; [lia|].
  split; cbn [reference row_out ro_tok ro_next ro_draft ro_num].
  - intros i Hi. by apply extended_ext.
  - rewrite (accepted_ext r r' He), (re_len _ _ _ _ He). destruct (Z.ltb_spec 0 (accepted_count M N V r')).
    + apply cleaned_ext; [done|lia].
    + apply He. destruct (Z.ltb_spec 0 (ri_len r')); lia.
  - intros j Hj. apply draft_ext; done || lia.
  - unfold prefix_count. f_equal. apply find_ext. intros j Hj. by rewrite (draft_ext r r') by (done || lia).
Qed.
End Reference.

(** ** Rows in global memory *)

Section Copies.
Context `{HA : AscendC} `{HAL : !AscendCLaws}.

Context (c : Conf) (HC : ConfOk c).
Abbreviation M := (max_seq_len c).
Abbreviation msa := (max_seq_len_align c).

Lemma copy_row_in_returns token gm ubRow gmRow :
  0 <= ubRow -> 0 <= gmRow -> ubRow + msa <= Z.of_nat (length token) -> gmRow + M <= Z.of_nat (length gm) ->
  returns (copy_row_in c token gm ubRow gmRow) (fun l => outside ubRow (ubRow + msa) token l /\
    forall i, 0 <= i < M -> vat l (ubRow + i) = vat gm (gmRow + i)).
Proof.
  intros H1 H2 H3 H4. pose proof (cf_seq c HC). pose proof (cf_seq_align c HC) as Ea.
  apply (pieces_returns 8192 M ubRow msa (fun i => vat gm (gmRow + i))); [lia..|].
  intros off l Hoff Hm [Hl _]. unfold MAX_CHUNK_ELEMS. rewrite chunk_size by lia.
  assert (Hal : off + align8 (Z.min M (off + 8192) - off) <= msa) by (rewrite Ea; unfold align8; ediv).
  eapply returns_bind_mono; [apply copy_in_returns; lia|]. intros l' [Ho Hv]. apply returns_ok. split; [done|].
  split; [eapply outside_weaken; [exact Ho|lia|lia]|]. intros i Hi.
  replace (ubRow + i) with (ubRow + off + (i - off)) by lia. rewrite Hv by lia. f_equal. lia.
Qed.

Lemma copy_row_out_returns gm token gmRow ubRow :
  0 <= ubRow -> 0 <= gmRow -> ubRow + M <= Z.of_nat (length token) -> gmRow + M <= Z.of_nat (length gm) ->
  returns (copy_row_out c gm token gmRow ubRow) (fun l => outside gmRow (gmRow + M) gm l /\
    forall i, 0 <= i < M -> vat l (gmRow + i) = vat token (ubRow + i)).
Proof.
  intros H1 H2 H3 H4. pose proof (cf_seq c HC).
  apply (pieces_returns 8192 M gmRow M (fun i => vat token (ubRow + i))); [lia..|].
  intros off l Hoff Hm [Hl _]. unfold MAX_CHUNK_ELEMS. rewrite chunk_size by lia.
  eapply returns_bind_mono; [apply copy_out_returns; lia|]. intros l' [Ho Hv]. apply returns_ok. split; [done|].
  split; [eapply outside_weaken; [exact Ho|lia|lia]|]. intros i Hi.
  replace (gmRow + i) with (gmRow + off + (i - off)) by lia. rewrite Hv by lia. f_equal. lia.
Qed.
End Copies.

(** ** Global memory *)

Record GmOk (c : Conf) (B : Z) (g : Gm) : Prop := {
  gm_batch : 0 <= B < 2 ^ 31;
  gm_token : Z.of_nat (length (tokenGm g)) = B * max_seq_len c;
  gm_nums : Z.of_nat (length (numTokensGm g)) = B;
  gm_sampled : Z.of_nat (length (sampledGm g)) = B * max_new_tokens c;
  gm_discard : Z.of_nat (length (discardGm g)) = B;
  gm_next : Z.of_nat (length (nextTokensGm g)) = B;
  gm_draft : Z.of_nat (length (draftTokensGm g)) = B * k_val c;
  gm_valid : Z.of_nat (length (numValidGm g)) = B
}.

(** The input of row [r] of the batch, and its outputs. *)
Definition gm_row (c : Conf) (g : Gm) (r : Z) : RowIn :=
  row_in (tokenGm g) (r * max_seq_len c) (vat (numTokensGm g) r)
    (sampledGm g) (r * max_new_tokens c) (vat (discardGm g) r).

Record gm_done (c : Conf) (g : Gm) (r : Z) (o : RowOut) : Prop := {
  gd_tok : forall i, 0 <= i < max_seq_len c -> vat (tokenGm g) (r * max_seq_len c + i) = ro_tok o i;
  gd_next : vat (nextTokensGm g) r = ro_next o;
  gd_draft : forall j, 0 <= j < k_val c -> vat (draftTokensGm g) (r * k_val c + j) = ro_draft o j;
  gd_num : vat (numValidGm g) r = ro_num o
}.

(** Rows [lo .. hi) of the outputs changed, the inputs are the same. *)
Record gm_frame (c : Conf) (g g' : Gm) (lo hi : Z) : Prop := {
  gf_tok : outside (lo * max_seq_len c) (hi * max_seq_len c) (tokenGm g) (tokenGm g');
  gf_nums : numTokensGm g' = numTokensGm g;
  gf_sampled : sampledGm g' = sampledGm g;
  gf_discard : discardGm g' = discardGm g;
  gf_next : outside lo hi (nextTokensGm g) (nextTokensGm g');
  gf_draft : outside (lo * k_val c) (hi * k_val c) (draftTokensGm g) (draftTokensGm g');
  gf_valid : outside lo hi (numValidGm g) (numValidGm g')
}.

Lemma gm_frame_ok c B g g' lo hi : GmOk c B g -> gm_frame c g g' lo hi -> GmOk c B g'.
Proof.
  intros [] [[T _] E1 E2 E3 [N _] [D _] [V _]]. split; rewrite ?T, ?E1, ?E2, ?E3, ?N, ?D, ?V; done.
Qed.

(** The rows outside the changed ones are as before. *)
Lemma gm_frame_row c g g' lo hi r :
  ConfOk c -> gm_frame c g g' lo hi -> 0 <= r -> r < lo \/ hi <= r ->
  row_eq (max_seq_len c) (max_new_tokens c) (gm_row c g' r) (gm_row c g r) /\
  forall o, gm_done c g r o -> gm_done c g' r o.
Proof.
  intros HC [T E1 E2 E3 N D V] Hr Ho. pose proof (cf_seq c HC). pose proof (cf_k c HC). split.
  - split; cbn; rewrite ?E1, ?E2, ?E3; try done. intros i Hi. apply T; nia.
  - intros o [O1 O2 O3 O4]. split.
    + intros i Hi. rewrite (proj2 T); [by apply O1|nia|nia].
    + rewrite (proj2 N); done.
    + intros j Hj. rewrite (proj2 D); [by apply O3|nia|nia].
    + rewrite (proj2 V); done.
Qed.

Lemma gm_frame_trans c g1 g2 g3 lo mid hi :
  ConfOk c -> lo <= mid <= hi -> gm_frame c g1 g2 lo mid -> gm_frame c g2 g3 mid hi -> gm_frame c g1 g3 lo hi.
Proof.
  intros HC Hm [T1 A1 B1 C1 N1 D1 V1] [T2 A2 B2 C2 N2 D2 V2]. pose proof (cf_seq c HC). pose proof (cf_k c HC).
  split; try congruence; eapply outside_trans; (eapply outside_weaken; [eassumption|nia|nia]).
Qed.

(** ** A block of rows *)

Section Block.
Context `{HA : AscendC} `{HAL : !AscendCLaws} (c : Conf) (HC : ConfOk c) (B : Z).
Abbreviation M := (max_seq_len c).
Abbreviation N := (max_new_tokens c).
Abbreviation K := (k_val c).
Abbreviation msa := (max_seq_len_align c).
Abbreviation mnta := (max_new_tokens_align c).
Abbreviation BR := (block_rows c).

(** The buffers of the sampled tokens, lengths and flags. *)
Record RowBufs (u : Ub) : Prop := {
  rb_sampled : Z.of_nat (length (sampledLocal u)) = BR * mnta;
  rb_nums : align8 BR <= Z.of_nat (length (numTokensLocal u));
  rb_discard : align8 BR <= Z.of_nat (length (discardLocal u))
}.

Record loaded_rows (g : Gm) (start rows : Z) (u u' : Ub) : Prop := {
  ld_sampled : forall r j, 0 <= r < rows -> 0 <= j < N ->
    vat (sampledLocal u') (r * mnta + j) = vat (sampledGm g) ((start + r) * N + j);
  ld_nums : forall r, 0 <= r < rows -> vat (numTokensLocal u') r = vat (numTokensGm g) (start + r);
  ld_discard : forall r, 0 <= r < rows -> vat (discardLocal u') r = vat (discardGm g) (start + r);
  ld_len : length (sampledLocal u') = length (sampledLocal u) /\
    length (numTokensLocal u') = length (numTokensLocal u) /\ length (discardLocal u') = length (discardLocal u);
  ld_rest : u' = u <| sampledLocal := sampledLocal u' |> <| numTokensLocal := numTokensLocal u' |>
                   <| discardLocal := discardLocal u' |>
}.

(** The other buffers are as before. *)
Lemma loaded_other g start rows u u' :
  loaded_rows g start rows u u' ->
  tokenLocal u' = tokenLocal u /\ nextLocal u' = nextLocal u /\ draftLocal u' = draftLocal u /\
  numValidLocal u' = numValidLocal u /\ suffixLocal u' = suffixLocal u /\ maskLocal u' = maskLocal u.
Proof. intros [_ _ _ _ E]. by rewrite E. Qed.

Lemma load_rows_returns g u start rows :
  GmOk c B g -> RowBufs u -> 0 <= start -> 0 <= rows <= BR -> start + rows <= B ->
  returns (load_rows c start rows g u) (loaded_rows g start rows u).
Proof.
  intros [] [S1 S2 S3] Hs Hr Hb. pose proof (cf_new c HC). pose proof (cf_new_align c HC) as Ea.
  pose proof (align8_mono rows BR ltac:(lia)).
  unfold load_rows. eapply returns_bind_mono.
  { apply (rows_returns 0 rows mnta N (fun r j => vat (sampledGm g) ((start + r) * N + j))); [lia..|].
    intros r l Hr' [Hl _]. rewrite u32_id, Z.add_0_l by lia. eapply returns_mono.
    { apply copy_in_returns; [nia|nia|rewrite <- Ea, Hl; nia|nia]. }
    rewrite <- Ea. intros l' [Ho Hv]. split; [|exact Hv]. eapply outside_weaken; [exact Ho|lia|lia]. }
  intros sampled [Hso Hsv]. rewrite Z.mul_0_l, Z.add_0_l in Hso.
  eapply returns_bind_mono; [apply copy_in_returns; lia|]. intros nums [Hno Hnv].
  eapply returns_bind_mono; [apply copy_in_returns; lia|]. intros discards [Hdo Hdv].
  apply returns_ok. split; cbn; try done.
  - split; [apply Hso|]. split; [apply Hno|apply Hdo].
Qed.

(** What store_rows writes. *)
Lemma store_rows_returns g u start rows (o : Z -> RowOut) :
  GmOk c B g -> 0 <= start -> 0 <= rows <= BR -> start + rows <= B ->
  BR <= Z.of_nat (length (nextLocal u)) -> BR <= Z.of_nat (length (numValidLocal u)) ->
  BR * k_align c <= Z.of_nat (length (draftLocal u)) ->
  (forall r, 0 <= r < rows -> vat (nextLocal u) r = ro_next (o r) /\ vat (numValidLocal u) r = ro_num (o r) /\
     forall j, 0 <= j < K -> vat (draftLocal u) (r * k_align c + j) = ro_draft (o r) j) ->
  returns (store_rows c start rows u g) (fun g' =>
    tokenGm g' = tokenGm g /\ gm_frame c g g' start (start + rows) /\
    forall r, 0 <= r < rows -> vat (nextTokensGm g') (start + r) = ro_next (o r) /\
      vat (numValidGm g') (start + r) = ro_num (o r) /\
      forall j, 0 <= j < K -> vat (draftTokensGm g') ((start + r) * K + j) = ro_draft (o r) j).
Proof.
  intros [] Hs Hr Hb L1 L2 L3 Hdone. pose proof (cf_k c HC). unfold store_rows.
  eapply returns_bind_mono; [apply copy_out_returns; lia|]. intros nexts [Hno Hnv].
  eapply returns_bind_mono.
  { apply (rows_returns start rows K K (fun r j => ro_draft (o r) j)); [lia..|].
    intros r l Hr' [Hl _]. rewrite u32_id by lia.
    eapply returns_mono; [apply copy_out_returns; nia|]. intros l' [Ho Hv].
    split; [eapply outside_weaken; [exact Ho|lia|lia]|]. intros j Hj. rewrite Hv by done.
    by apply Hdone. }
  intros drafts [Hdo Hdv]. eapply returns_bind_mono; [apply copy_out_returns; lia|]. intros nums [Huo Huv].
  apply returns_ok. split; [done|]. split; [split; cbn; try done; apply outside_refl|].
  intros r Hr'. destruct (Hdone r Hr') as (E1 & E2 & _). cbn. rewrite Hnv, Huv by lia. rewrite !Z.add_0_l.
  split; [done|]. split; [done|]. intros j Hj. by apply Hdv.
Qed.

(** *** Short rows *)

Lemma CopyIn_returns g u start rows :
  GmOk c B g -> UbOk c u -> 0 <= start -> 0 <= rows <= BR -> start + rows <= B ->
  returns (CopyIn c start rows g u) (fun u' => UbOk c u' /\
    forall r, 0 <= r < rows -> row_eq M N (ub_row c u' r) (gm_row c g (start + r))).
Proof.
  intros HG HU Hs Hr Hb. destruct (HG) as [G0 G1 _ _ _ _ _ _]. destruct (HU) as [U1 U2 U3 U4 U5 U6 U7 U8 U9].
  pose proof (cf_seq c HC). pose proof (cf_tok_ub c HC). unfold CopyIn. eapply returns_bind_mono.
  { apply (rows_returns 0 rows msa M (fun r i => vat (tokenGm g) ((start + r) * M + i))); [lia..|].
    intros r l Hr' [Hl _]. rewrite !u32_id by nia. rewrite Z.add_0_l.
    eapply returns_mono; [apply (copy_row_in_returns c HC); nia|]. intros l' [Ho Hv].
    split; [|done]. eapply outside_weaken; [exact Ho|lia|lia]. }
  intros token [Hto Htv]. rewrite Z.mul_0_l in Hto. eapply returns_mono.
  { apply (load_rows_returns g); try done. split; cbn; lia. }
  intros u' HL. pose proof (loaded_other _ _ _ _ _ HL) as Et. destruct HL as [Hsv Hnv Hdv (L1 & L2 & L3) _].
  cbn in L1, L2, L3, Et.
  destruct Et as (E1 & E2 & E3 & E4 & E5 & E6). split.
  - split; rewrite ?L1, ?L2, ?L3, ?E1, ?E2, ?E3, ?E4, ?E5, ?E6, ?(proj1 Hto); done.
  - intros r Hr'. split; cbn; [|by apply Hnv|intros j Hj; by apply Hsv|by apply Hdv].
    intros i Hi. rewrite E1. rewrite <- (Z.add_0_l r) at 1. by rewrite Htv.
Qed.

Context (HV : VectorOk c).

(** The rows of the buffer that are not yet computed are as they were loaded. *)
Record computed_rows (u0 u : Ub) (n : Z) : Prop := {
  cr_ok : UbOk c u;
  cr_tok : outside 0 (n * msa) (tokenLocal u0) (tokenLocal u);
  cr_sampled : outside 0 (n * mnta) (sampledLocal u0) (sampledLocal u);
  cr_nums : numTokensLocal u = numTokensLocal u0;
  cr_discard : discardLocal u = discardLocal u0;
  cr_done : forall r, 0 <= r < n -> exists o, ub_done c u r o /\ out_eq M K o (reference c (buffered c) (ub_row c u0 r))
}.

Lemma ub_frame_done u u' idx r o :
  ub_frame c u u' idx -> 0 <= r < idx -> ub_done c u r o -> ub_done c u' r o.
Proof.
  intros [T _ _ _ Nx D V _ _] Hr [O1 O2 O3 O4]. pose proof (cf_seq c HC). pose proof (cf_k c HC). split.
  - intros i Hi. rewrite (proj2 T); [by apply O1|nia|nia].
  - rewrite (proj2 Nx); [done|lia|lia].
  - intros j Hj. rewrite (proj2 D); [by apply O3|nia|nia].
  - rewrite (proj2 V); [done|lia|lia].
Qed.

Lemma Compute_returns u rows :
  UbOk c u -> 0 <= rows <= BR -> (forall r, 0 <= r < rows -> 0 <= vat (numTokensLocal u) r <= M) ->
  returns (Compute c rows u) (fun u' => computed_rows u u' rows).
Proof.
  intros HU Hr Hlen. pose proof (cf_seq c HC). pose proof (cf_new c HC).
  apply (for_range_returns (fun n u' => computed_rows u u' n)); [lia|split; try done; lia|].
  intros n u1 Hn [C1 C2 C3 C4 C5 C6]. eapply returns_mono.
  { apply (ComputeOneRow_returns c HC HV); [done|lia|]. rewrite C4. apply Hlen. lia. }
  intros u2 [Hd Hf]. split.
  - by eapply ub_frame_ok.
  - eapply outside_trans; [eapply outside_weaken; [exact C2|lia|nia]|].
    eapply outside_weaken; [apply (uf_tok _ _ _ _ Hf)|nia|nia].
  - eapply outside_trans; [eapply outside_weaken; [exact C3|lia|nia]|].
    eapply outside_weaken; [apply (uf_sampled _ _ _ _ Hf)|nia|nia].
  - by rewrite (uf_nums _ _ _ _ Hf).
  - by rewrite (uf_discard _ _ _ _ Hf).
  - intros r Hr'. destruct (Z.eq_dec r n) as [->|].
    + eexists. split; [exact Hd|]. apply (reference_ext c HC); [|cbn; apply Hlen; lia].
      split; cbn; rewrite ?C4, ?C5; try done.
      * intros i Hi. apply C2; nia.
      * intros j Hj. apply C3; nia.
    + destruct (C6 r) as (o & Ho & He); [lia|]. exists o. split; [|done]. eapply ub_frame_done; [exact Hf|lia|done].
Qed.

Lemma out_eq_trans o1 o2 o3 : out_eq M K o1 o2 -> out_eq M K o2 o3 -> out_eq M K o1 o3.
Proof.
  intros [A1 A2 A3 A4] [B1 B2 B3 B4]. split; [|congruence| |congruence]; intros i Hi.
  - by rewrite A1, B1.
  - by rewrite A3, B3.
Qed.

Lemma gm_done_eq g r o o' : gm_done c g r o -> out_eq M K o o' -> gm_done c g r o'.
Proof.
  intros [A1 A2 A3 A4] [E1 E2 E3 E4]. split.
  - intros i Hi. rewrite A1, E1 by done. done.
  - congruence.
  - intros j Hj. rewrite A3, E3 by done. done.
  - congruence.
Qed.

(** What a block of rows leaves. *)
Definition block_done (sel : Z -> Z -> (Z -> Z) -> Z -> option (Z * Z)) (g : Gm) (start rows : Z) (g' : Gm) : Prop :=
  gm_frame c g g' start (start + rows) /\
  forall r, start <= r < start + rows -> gm_done c g' r (reference c sel (gm_row c g r)).

Lemma CopyOut_returns g u start rows (o : Z -> RowOut) :
  GmOk c B g -> UbOk c u -> 0 <= start -> 0 <= rows <= BR -> start + rows <= B ->
  (forall r, 0 <= r < rows -> ub_done c u r (o r)) ->
  returns (CopyOut c start rows u g) (fun g' => gm_frame c g g' start (start + rows) /\
    forall r, 0 <= r < rows -> gm_done c g' (start + r) (o r)).
Proof.
  intros HG HU Hs Hr Hb Hd. destruct (HG) as [G0 G1 G2 G3 G4 G5 G6 G7]. destruct (HU) as [U1 U2 U3 U4 U5 U6 U7 U8 U9].
  pose proof (cf_seq c HC). pose proof (cf_tok_ub c HC). pose proof (align8_ge BR). unfold CopyOut.
  eapply returns_bind_mono.
  { apply (rows_returns start rows M M (fun r i => ro_tok (o r) i)); [lia..|].
    intros r l Hr' [Hl _]. rewrite !u32_id by nia.
    eapply returns_mono; [apply (copy_row_out_returns c HC); nia|]. intros l' [Ho Hv].
    split; [eapply outside_weaken; [exact Ho|lia|lia]|]. intros i Hi. rewrite Hv by done. by apply (ud_tok _ _ _ _ (Hd r Hr')). }
  intros token [Hto Htv]. eapply returns_mono.
  { apply (store_rows_returns _ _ _ _ o); try done; try lia.
    - split; cbn; try done. by rewrite (proj1 Hto).
    - intros r Hr'. destruct (Hd r Hr') as [_ D2 D3 D4]. done. }
  intros g' (Et & [F1 F2 F3 F4 F5 F6 F7] & Hrows). cbn in *. split.
  - split; try done. rewrite Et. done.
  - intros r Hr'. destruct (Hrows r Hr') as (E1 & E2 & E3). split; try done. intros i Hi. rewrite Et. by apply Htv.
Qed.

Lemma short_block_returns g u start rows :
  GmOk c B g -> UbOk c u -> 0 <= start -> 0 <= rows <= BR -> start + rows <= B ->
  (forall r, start <= r < start + rows -> 0 <= vat (numTokensGm g) r <= M) ->
  returns (u ← CopyIn c start rows g u; u ← Compute c rows u; g ← CopyOut c start rows u g; Ok (g, u))
    (fun '(g', u') => UbOk c u' /\ block_done (buffered c) g start rows g').
Proof.
  intros HG HU Hs Hr Hb Hlen. eapply returns_bind_mono; [by apply CopyIn_returns|]. intros u1 [HU1 Hrows].
  assert (Hl1 : forall r, 0 <= r < rows -> 0 <= vat (numTokensLocal u1) r <= M).
  { intros r Hr'. pose proof (re_len _ _ _ _ (Hrows r Hr')) as E. cbn in E. rewrite E. apply Hlen. lia. }
  eapply returns_bind_mono; [by apply Compute_returns|]. intros u2 [C1 _ _ _ _ C6].
  assert (Ho : forall r, 0 <= r < rows -> ub_done c u2 r (reference c (buffered c) (gm_row c g (start + r)))).
  { intros r Hr'. destruct (C6 r Hr') as (o & [D1 D2 D3 D4] & He).
    pose proof (reference_ext c HC (sel := buffered c) _ _ (Hrows r Hr') ltac:(cbn; apply Hlen; lia)) as He2.
    destruct (out_eq_trans _ _ _ He He2) as [E1 E2 E3 E4].
    split; intros; rewrite <- ?E1, <- ?E2, <- ?E3, <- ?E4 by done; auto. }
  eapply returns_bind_mono.
  { by apply (CopyOut_returns _ _ _ _ (fun r => reference c (buffered c) (gm_row c g (start + r)))). }
  intros g' [Hf Hd]. apply returns_ok.
  split; [done|]. split; [done|]. intros r Hr'. replace r with (start + (r - start)) by lia. apply Hd. lia.
Qed.
End Block.
End NgramRun.
