(* ===== verification/NgramChunk.v ===== *)
(** * Rows longer than the buffer

    The search that reads a long row in chunks finds the shortest n-gram that
    occurs earlier, at its first occurrence. *)

From S2P Require Import Prelude Ascend Tensor NgramKernel NgramSpec NgramProofs NgramRun.

Module NgramChunk.
Import Ngram NgramSpec NgramProofs NgramRun.

Section Search.
Context `{HA : AscendC} `{HAL : !AscendCLaws} (c : Conf).
Abbreviation lo_n := (min_n_val c).
Abbreviation hi_n := (max_n_val c).

Lemma LoadGmElements_returns gm off count token :
  0 <= off -> off + count <= Z.of_nat (length gm) -> align8 count <= Z.of_nat (length token) ->
  returns (LoadGmElements gm off count token) (fun l => length l = length token /\
    forall i, 0 <= i < count -> vat l i = vat gm (off + i)).
Proof.
  intros Ho Hg Ht. unfold LoadGmElements. destruct (Z.leb_spec count 0); [apply returns_ok; split; [done|lia]|].
  eapply returns_mono; [apply copy_in_returns; lia|]. intros l [[Hl _] Hv]. split; [done|].
  intros i Hi. rewrite <- (Z.add_0_l i) at 1. by apply Hv.
Qed.

Lemma StoreGmElements_returns token off count gm :
  0 <= off -> 0 <= count -> off + count <= Z.of_nat (length gm) -> count <= Z.of_nat (length token) ->
  returns (StoreGmElements token off count gm) (fun l => outside off (off + count) gm l /\
    forall i, 0 <= i < count -> vat l (off + i) = vat token i).
Proof.
  intros Ho Hc Hg Ht. unfold StoreGmElements. destruct (Z.leb_spec count 0).
  { apply returns_ok. split; [done|lia]. }
  apply (pieces_returns 16383 count off count (fun i => vat token i)); [lia..|].
  intros p l Hp _ [Hl _]. unfold STORE_MAX. rewrite chunk_size by lia.
  eapply returns_bind_mono; [apply copy_out_returns; lia|]. intros l' [Hlo Hv]. apply returns_ok. split; [done|].
  split; [eapply outside_weaken; [exact Hlo|lia|lia]|]. intros i Hi.
  replace (off + i) with (off + p + (i - p)) by lia. rewrite Hv by lia. f_equal. lia.
Qed.

(** The row in global memory, and the n-gram at its end in the suffix buffer. *)
Context (gm : list Z) (gmRow nt : Z) (suffix : list Z) (L : Z).
Abbreviation tok := (fun i => vat gm (gmRow + i)).
Context (Hrow : 0 <= gmRow) (Hnt : hi_n <= nt) (Hgm : gmRow + nt <= Z.of_nat (length gm)) (Hbig : nt < 2 ^ 31).
Context (Hlo : 1 <= lo_n) (Hsl : hi_n <= Z.of_nat (length suffix) < 2 ^ 32).
Context (Hsuffix : forall i, 0 <= i < hi_n -> vat suffix i = tok (nt - hi_n + i)).
Context (HL : align8 (SAFE_CHUNK + hi_n) <= L < 2 ^ 32).

(** The search goes on: nothing was found before position [q]; or it stops at
    the first occurrence. *)
Definition searching (n q : Z) (b : Z * Z) : Prop :=
  b = (-1, 0) /\ forall p, 0 <= p < q -> occurs tok nt n p = false.
Definition found (n : Z) (b : Z * Z) : Prop := exists p, b = (p, n) /\ occurrence tok nt n = Some p.

Definition bufs (s : Chunk) : Prop := Z.of_nat (length (ck_token s)) = L /\ 1024 <= Z.of_nat (length (ck_mask s)).

Lemma found_go n b : 1 <= n -> found n b -> negb (b.1 >=? 0) = false.
Proof.
  intros Hn (p & -> & Ho). apply (occurrence_in tok) in Ho; [|done]. cbn. rewrite Z.geb_leb.
  by rewrite (proj2 (Z.leb_le 0 p)) by lia.
Qed.

(** The part of a chunk that one comparison covers. *)
Lemma search_piece_returns n start count cmp_count off s :
  lo_n <= n <= hi_n -> 0 <= start -> 0 < count <= SAFE_CHUNK -> start + count <= nt - n ->
  0 < cmp_count <= 8192 -> cmp_count mod 64 = 0 -> 0 <= off < count -> off mod cmp_count = 0 ->
  bufs s -> (forall i, 0 <= i < count + (n - 1) -> vat (ck_token s) i = tok (start + i)) ->
  searching n (start + off) (ck_best s) ->
  returns (search_piece c suffix n start count (count + (n - 1)) cmp_count (tok (nt - n)) off s) (fun '(go, s') =>
    bufs s' /\ ck_token s' = ck_token s /\
    if go then searching n (start + Z.min count (off + cmp_count)) (ck_best s') else found n (ck_best s')).
Proof.
  intros Hn Hst Hc Hw Hcc H64 Ho Hm [Lt Lm] Htok [Eb Hnone]. unfold SAFE_CHUNK in *. unfold search_piece.
  pose proof (align8_ge (32768 + hi_n)).
  rewrite (u32_id (count - off)) by lia. rewrite Z.geb_leb.
  set (e := if cmp_count <=? count - off then cmp_count else count - off).
  assert (Ee : e = Z.min cmp_count (count - off)) by (unfold e; destruct (Z.leb_spec cmp_count (count - off)); lia).
  rewrite (u32_id (e + 63)) by lia. set (al := (e + 63) / 64 * 64).
  assert (Hoff : off mod 64 = 0).
  { apply Z.mod_divide; [lia|]. apply Z.mod_divide in Hm; [|lia]. apply Z.mod_divide in H64; [|lia].
    by apply (Z.divide_trans _ cmp_count). }
  assert (Hal : e <= al /\ al mod 64 = 0 /\ al / 8 <= 1024 /\ off + al <= 32768) by (unfold al; rewrite Ee; ediv).
  destruct (compare_returns (ck_mask s) (ck_token s) off (tok (nt - n)) al) as (mask & Em & Lm' & Bm); [lia..|].
  rewrite Em. cbn [mbind res_bind].
  rewrite (scan_ok _ _ _ (fun p => tok (start + off + p) =? tok (nt - n))
             (fun p => forallb (fun i => tok (start + off + p + i) =? tok (nt - n + i)) (seqZ 1 (n - 1)))); [|lia| |].
  - cbn [mbind res_bind]. apply returns_ok. split; [split; [done|cbn; lia]|]. split; [done|]. cbn [ck_best].
    assert (Ef : forall q, 0 <= q < 0 + e ->
      (tok (start + off + q) =? tok (nt - n)) && forallb (fun i => tok (start + off + q + i) =? tok (nt - n + i)) (seqZ 1 (n - 1))
      = occurs tok nt n (start + off + q)).
    { intros q Hq. unfold occurs, window_eq. rewrite (forallb_cons_seqZ _ n) by lia. by rewrite !Z.add_0_r. }
    rewrite (find_ext _ _ 0 e Ef). pose proof (find_seqZ (fun q => occurs tok nt n (start + off + q)) 0 e) as Hf.
    destruct (List.find _ _) as [q|].
    + destruct Hf as (Hq & Hoq & Hfq). assert (Hfound : found n (start + off + q, n)).
      { exists (start + off + q). split; [done|]. apply occurrence_first; [lia|done|]. intros p Hp.
        destruct (Z.lt_ge_cases p (start + off)); [apply Hnone; lia|].
        replace p with (start + off + (p - (start + off))) by lia. apply Hfq. lia. }
      by rewrite (found_go n _ ltac:(lia) Hfound).
    + rewrite Eb. cbn [fst]. split; [done|]. intros p Hp. destruct (Z.lt_ge_cases p (start + off)); [apply Hnone; lia|].
      replace p with (start + off + (p - (start + off))) by lia. apply Hf. lia.
  - intros p Hp. rewrite Bm by lia. rewrite Htok by lia. by replace (start + (off + p)) with (start + off + p) by lia.
  - intros p Hp. apply all_match_ok; [lia|]. intros i Hi. rewrite (u32_id (hi_n - n + i)), (u32_id (off + p + i)), (u32_id (count + _)) by lia.
    rewrite vget_ok by lia. cbn [mbind res_bind]. rewrite (proj2 (Z.ltb_lt _ _)) by lia.
    rewrite vget_ok by lia. cbn [mbind res_bind]. rewrite Htok, Hsuffix by lia.
    replace (start + (off + p + i)) with (start + off + p + i) by lia.
    by replace (nt - hi_n + (hi_n - n + i)) with (nt - n + i) by lia.
Qed.

(** One chunk of at most 32768 positions. *)
Lemma search_chunk_returns n start s :
  lo_n <= n <= hi_n -> 0 <= start < nt - n -> start mod SAFE_CHUNK = 0 -> bufs s -> searching n start (ck_best s) ->
  returns (search_chunk c gm gmRow nt suffix n (tok (nt - n)) start s) (fun '(go, s') => bufs s' /\
    if go then searching n (Z.min (nt - n) (start + SAFE_CHUNK)) (ck_best s') else found n (ck_best s')).
Proof.
  intros Hn Hst Hm Hb Hse. destruct (Hb) as [Lt Lm]. unfold SAFE_CHUNK in *. unfold search_chunk.
  unfold SAFE_CHUNK. rewrite chunk_size by lia.
  set (count := Z.min (nt - n) (start + 32768) - start). assert (Hc : 0 < count <= 32768 /\ start + count <= nt - n) by lia.
  rewrite (Z.gtb_ltb (start + _)), (proj2 (Z.ltb_ge nt (start + (count + (n - 1))))) by lia.
  pose proof (align8_mono (count + (n - 1)) (32768 + hi_n) ltac:(lia)).
  eapply returns_bind_mono; [apply LoadGmElements_returns; lia|]. intros token [Ltk Htk].
  rewrite (u32_id count), (u32_id (count + 63)), (u32_id (count + (n - 1))) by lia. rewrite !Z.gtb_ltb.
  set (cc := if 8192 <? (count + 63) / 64 * 64 then 8192 else (count + 63) / 64 * 64).
  set (cc2 := if count + (n - 1) <? cc then _ else cc).
  assert (Hcc : 0 < cc2 <= 8192 /\ cc2 mod 64 = 0).
  { unfold cc2, cc. rewrite u32_id by lia. destruct (Z.ltb_spec 8192 ((count + 63) / 64 * 64)).
    - destruct (Z.ltb_spec (count + (n - 1)) 8192); split; ediv || reflexivity.
    - destruct (Z.ltb_spec (count + (n - 1)) ((count + 63) / 64 * 64)); split; ediv. }
  destruct Hcc as [Hcc1 Hcc2]. clearbody cc2.
  eapply (returns_bind_mono _ _ (fun s => bufs s /\ (searching n (start + count) (ck_best s) \/ found n (ck_best s)))).
  - apply (for_step_returns (fun off s => 0 <= off /\ off mod cc2 = 0 /\ bufs s /\ ck_token s = token /\
      searching n (start + Z.min count off) (ck_best s))); [lia| | |].
    + split; [lia|]. split; [apply Z.mod_0_l; lia|]. split; [split; cbn; lia|]. split; [done|].
      cbn [ck_best]. destruct Hse as [E H']. split; [done|]. intros p Hp. apply H'. lia.
    + intros off s1 Hoff (H0 & H1 & Hb1 & E1 & Hs1). rewrite Z.min_r in Hs1 by lia.
      eapply returns_mono; [apply search_piece_returns; try done; try (unfold SAFE_CHUNK; lia)|].
      { intros i Hi. rewrite E1, Htk by lia. by rewrite Z.add_assoc. }
      intros [[] s2] (Hb2 & E2 & H2); [|split; [done|by right]].
      split; [lia|]. split; [rewrite <- (Z.mul_1_l cc2) at 1; by rewrite Z.mod_add by lia|]. split; [done|]. split; [congruence|done].
    + intros off s1 _ Hge (_ & _ & Hb1 & _ & Hs1). rewrite Z.min_l in Hs1 by lia. split; [done|by left].
  - intros s1 [Hb1 Hs1]. apply returns_ok. split; [done|]. destruct Hs1 as [[E Hs1]|Hf].
    + rewrite E. cbn [fst]. split; [done|]. intros p Hp. apply Hs1. lia.
    + by rewrite (found_go n _ ltac:(lia) Hf).
Qed.

(** All lengths: the first one that occurs ends the search. *)
Lemma search_chunked_returns s :
  bufs s -> ck_best s = (-1, 0) ->
  returns (search_chunked c gm gmRow nt suffix s) (fun s' => bufs s' /\
    ck_best s' = enc (shortest lo_n hi_n tok nt)).
Proof.
  intros Hb Eb. unfold search_chunked.
  apply (for_break_returns (fun n s => lo_n <= n /\ bufs s /\ ck_best s = (-1, 0) /\
    forall n', lo_n <= n' < n -> n' <= nt -> occurrence tok nt n' = None)).
  - split; [lia|]. split; [done|]. split; [done|lia].
  - intros n s1 Hn (H1 & Hb1 & E1 & Hnone). destruct (Z.gtb_spec n nt).
    { apply returns_ok. split; [done|]. rewrite E1, shortest_none; [done|]. intros n' Hn'. apply Hnone; lia. }
    destruct (Z.leb_spec (nt - n) 0).
    { apply returns_ok. split; [done|]. rewrite E1, shortest_none; [done|]. intros n' Hn'.
      destruct (Z.eq_dec n' n) as [->|]; [|apply Hnone; lia]. apply occurrence_none. lia. }
    rewrite u32_id, vget_ok, Hsuffix by lia. cbn [mbind res_bind].
    replace (nt - hi_n + (hi_n - n)) with (nt - n) by lia.
    eapply (returns_bind_mono _ _ (fun s => bufs s /\ (searching n (nt - n) (ck_best s) \/ found n (ck_best s)))).
    + apply (for_step_returns (fun st s => 0 <= st /\ st mod SAFE_CHUNK = 0 /\ bufs s /\
        searching n (Z.min (nt - n) st) (ck_best s))); [done| | |].
      * split; [lia|]. split; [done|]. split; [done|]. split; [done|lia].
      * intros st s2 Hst (H2 & H3 & Hb2 & Hs2). rewrite Z.min_r in Hs2 by lia.
        eapply returns_mono; [apply search_chunk_returns; done || lia|]. intros [[] s3] [Hb3 H4]; [|split; [done|by right]].
        unfold SAFE_CHUNK in *. split; [lia|]. split; [rewrite <- (Z.mul_1_l 32768) at 1; by rewrite Z.mod_add by lia|done].
      * intros st s2 _ Hge (_ & _ & Hb2 & Hs2). rewrite Z.min_l in Hs2 by lia. split; [done|by left].
    + intros s2 [Hb2 Hs2]. apply returns_ok. destruct Hs2 as [[E Hs2]|Hf].
      * rewrite E. cbn [fst]. cbn. split; [lia|]. split; [done|]. split; [done|]. intros n' Hn' Hle.
        destruct (Z.eq_dec n' n) as [->|]; [|apply Hnone; lia]. by apply occurrence_none.
      * rewrite (found_go n _ ltac:(lia) Hf). destruct Hf as (p & -> & Ho). split; [done|].
        rewrite (shortest_some _ _ _ _ p n); [done|lia|done|]. intros n' Hn'. apply Hnone; lia.
  - intros s1 (H1 & Hb1 & E1 & Hnone). split; [done|]. rewrite E1, shortest_none; [done|].
    intros n' Hn'. apply Hnone; lia.
Qed.
End Search.

(** ** A long row *)

Section Rows.
Context `{HA : AscendC} `{HAL : !AscendCLaws} (c : Conf) (HC : ConfOk c) (B : Z).
Abbreviation M := (max_seq_len c).
Abbreviation N := (max_new_tokens c).
Abbreviation K := (k_val c).
Abbreviation V := (vocab_size_val c).
Abbreviation mnta := (max_new_tokens_align c).
Abbreviation BR := (block_rows c).

(** The buffers of long rows: the tokens have room for a chunk, for the sampled
    tokens and for the draft. *)
Record ChunkBufs (u : Ub) : Prop := {
  cb_token : align8 (SAFE_CHUNK + max_n_val c) <= Z.of_nat (length (tokenLocal u)) < 2 ^ 32;
  cb_new : N <= Z.of_nat (length (tokenLocal u));
  cb_k : align8 K <= Z.of_nat (length (tokenLocal u));
  cb_rows : RowBufs c u;
  cb_next : BR <= Z.of_nat (length (nextLocal u));
  cb_valid : BR <= Z.of_nat (length (numValidLocal u));
  cb_draft : Z.of_nat (length (draftLocal u)) = BR * k_align c;
  cb_suffix : max_n_val c <= Z.of_nat (length (suffixLocal u)) < 2 ^ 32;
  cb_mask : 1024 <= Z.of_nat (length (maskLocal u))
}.

(** Row [i] of the buffers is the only one that changed. *)
Record row_frame (u u' : Ub) (i : Z) : Prop := {
  rf_bufs : ChunkBufs u';
  rf_sampled : outside (i * mnta) ((i + 1) * mnta) (sampledLocal u) (sampledLocal u');
  rf_nums : numTokensLocal u' = numTokensLocal u;
  rf_discard : discardLocal u' = discardLocal u;
  rf_next : outside i (i + 1) (nextLocal u) (nextLocal u');
  rf_draft : outside (i * k_align c) ((i + 1) * k_align c) (draftLocal u) (draftLocal u');
  rf_valid : outside i (i + 1) (numValidLocal u) (numValidLocal u')
}.

Record row_outputs (u : Ub) (i : Z) (o : RowOut) : Prop := {
  rp_next : vat (nextLocal u) i = ro_next o;
  rp_draft : forall j, 0 <= j < K -> vat (draftLocal u) (i * k_align c + j) = ro_draft o j;
  rp_num : vat (numValidLocal u) i = ro_num o
}.

(** Row [i] of the block, as the buffers and global memory have it. *)
Definition block_row (g : Gm) (u : Ub) (start i : Z) : RowIn :=
  row_in (tokenGm g) ((start + i) * M) (vat (numTokensLocal u) i) (sampledLocal u) (i * mnta) (vat (discardLocal u) i).

Abbreviation row_shortest := (row_match M N V (min_n_val c) (shortest (min_n_val c) (max_n_val c))).

(** Appended tokens go to the buffer and from there to the row. *)
Lemma append_chunk_returns r sampled srow token gm base :
  let len := ri_len r in
  let a := accepted_count M N V r in
  ri_tok r = (fun i => vat gm (base + i)) ->
  0 <= len -> 0 <= a -> len + a <= M -> 0 <= base -> base + M <= Z.of_nat (length gm) ->
  0 <= srow -> srow + a <= Z.of_nat (length sampled) < 2 ^ 32 -> a <= Z.of_nat (length token) ->
  (forall j, 0 <= j < a -> vat sampled (srow + j) = cleaned V r j) ->
  returns (if a >? 0 then
      token ← for_range a (fun j token => t ← vget sampled (u32 (srow + j)); vset token j t) token;
      gm ← StoreGmElements token (base + len) a gm;
      Ok (gm, token)
    else Ok (gm, token))
    (fun '(gm', token') => length token' = length token /\ outside base (base + M) gm gm' /\
      forall i, 0 <= i < M -> vat gm' (base + i) = extended M N V r i).
Proof.
  intros len a Er H0 Ha Hle Hb Hg Hs Hsl Hal Hc. rewrite Z.gtb_ltb. destruct (Z.ltb_spec 0 a).
  - eapply returns_bind_mono.
    { apply (fill_returns 0 a (cleaned V r)); [lia..|]. intros j l Hj [Hl _].
      rewrite u32_id, vget_ok, Hc by lia. done. }
    intros token' [[Hl _] Hv]. eapply returns_bind_mono; [apply StoreGmElements_returns; lia|].
    intros gm' [Ho Hgv]. apply returns_ok. split; [done|]. split; [eapply outside_weaken; [exact Ho|lia|lia]|].
    intros i Hi. unfold extended. fold a len. rewrite Er.
    destruct (Z.leb_spec len i), (Z.ltb_spec i (len + a)); cbn [andb]; try (rewrite (proj2 Ho) by lia; done).
    replace (base + i) with (base + len + (i - len)) by lia. rewrite Hgv by lia. rewrite <- (Z.add_0_l (i - len)) at 1. by apply Hv; lia.
  - apply returns_ok. split; [done|]. split; [done|]. intros i Hi. unfold extended. fold a len. rewrite Er.
    destruct (Z.leb_spec len i), (Z.ltb_spec i (len + a)); cbn [andb]; done || lia.
Qed.

(** The suffix is loaded and looked for. *)
Lemma match_chunk_returns r u gm token base :
  let a := accepted_count M N V r in
  let nt := ri_len r + a in
  ChunkBufs u -> length token = length (tokenLocal u) -> 0 <= base -> base + M <= Z.of_nat (length gm) ->
  max_n_val c <= nt <= M -> M < 2 ^ 31 -> 0 <= nt ->
  (forall i, 0 <= i < M -> vat gm (base + i) = extended M N V r i) ->
  returns (if (a >? 0) && (nt >=? min_n_val c) then
      let suffix_gm_start := nt - max_n_val c in
      let suffix_gm_start := if suffix_gm_start <? 0 then 0 else suffix_gm_start in
      token ← LoadGmElements gm (base + suffix_gm_start) (max_n_val c) token;
      suffix ← for_range (max_n_val c) (fun s suffix => t ← vget token (u32 s); vset suffix (u32 s) t) (suffixLocal u);
      s ← search_chunked c gm base nt suffix (mkChunk token (maskLocal u) (-1, 0));
      Ok (suffix, s)
    else Ok (suffixLocal u, mkChunk token (maskLocal u) (-1, 0)))
    (fun '(suffix, s) => ck_best s = enc (row_shortest r) /\ length suffix = length (suffixLocal u) /\
      length (ck_token s) = length (tokenLocal u) /\ 1024 <= Z.of_nat (length (ck_mask s))).
Proof.
  intros a nt [C1 C2 C3 C4 C5 C6 C7 C8 C9] Lt Hb Hg Hn HM H0 Hv. pose proof (cf_n c HC).
  unfold row_match. fold a nt. rewrite Z.gtb_ltb, Z.geb_leb.
  destruct ((0 <? a) && (min_n_val c <=? nt)); [|apply returns_ok; done].
  cbn zeta. rewrite (proj2 (Z.ltb_ge (nt - max_n_val c) 0)) by lia.
  destruct (Z.le_gt_cases (max_n_val c) 0) as [Hm|Hm].
  { unfold LoadGmElements. rewrite (proj2 (Z.leb_le _ _) Hm). cbn [mbind res_bind].
    unfold for_range. replace (Z.to_nat (max_n_val c)) with 0%nat by lia. cbn [for_loop mbind res_bind].
    unfold search_chunked. replace (Z.to_nat (max_n_val c - min_n_val c + 1)) with 0%nat by lia. cbn.
    apply returns_ok. rewrite shortest_none by (intros; lia). split; [done|]. split; [done|]. split; [done|exact C9]. }
  pose proof (align8_mono (max_n_val c) (SAFE_CHUNK + max_n_val c) ltac:(unfold SAFE_CHUNK; lia)).
  eapply returns_bind_mono; [apply LoadGmElements_returns; lia|]. intros tk [Ltk Htk].
  pose proof (align8_ge (max_n_val c)).
  eapply returns_bind_mono.
  { apply (fill_returns 0 (max_n_val c) (fun s => vat gm (base + (nt - max_n_val c) + s))); [lia..|].
    intros s l Hs [Hl _]. rewrite !u32_id, vget_ok, Htk by lia. done. }
  intros sfx [[Lsf _] Hsf]. eapply returns_bind_mono.
  { apply (search_chunked_returns c gm base nt sfx (Z.of_nat (length tk))); try done; try lia.
    intros i Hi. rewrite <- (Z.add_0_l i) at 1. rewrite Hsf by done. f_equal. lia. }
  intros s [[Lb Lm] Eb]. apply returns_ok. split; [|split; [done|split; [lia|done]]].
  rewrite Eb. f_equal. apply shortest_ext; [lia|]. intros i Hi. apply Hv. lia.
Qed.

(** The tokens behind the match. *)
Lemma draft_chunk_returns r gm base token drafts drow nums i (f : list Z -> list Z -> list Z -> Gm * Ub) :
  let nt := ri_len r + accepted_count M N V r in
  let dr := draft M N V (min_n_val c) (shortest (min_n_val c) (max_n_val c)) r in
  0 <= base -> base + M <= Z.of_nat (length gm) -> 0 <= nt <= M ->
  align8 K <= Z.of_nat (length token) < 2 ^ 32 ->
  0 <= drow -> drow + K <= Z.of_nat (length drafts) < 2 ^ 32 -> 0 <= i < Z.of_nat (length nums) ->
  (forall i, 0 <= i < M -> vat gm (base + i) = extended M N V r i) ->
  returns (let '(best_match_pos, best_ngram_len) := enc (row_shortest r) in
           let draft_start := best_match_pos + best_ngram_len in
           let tokens_available := if best_match_pos >=? 0 then nt - draft_start else 0 in
           let draft_load := if tokens_available <? K then tokens_available else K in
           token ← LoadGmElements gm (base + draft_start) draft_load token;
           d ← write_draft c drow (fun j => vget token (u32 j)) draft_load drafts;
           n ← count_draft c drow d;
           nv ← vset nums i n;
           Ok (f token d nv))
    (fun x => exists tk d nv, x = f tk d nv /\ length tk = length token /\ outside drow (drow + K) drafts d /\
       (forall j, 0 <= j < K -> vat d (drow + j) = dr j) /\
       outside i (i + 1) nums nv /\ vat nv i = prefix_count dr K).
Proof.
  intros nt dr Hb Hg Hnt Ht Hd Hdl Hi Hv. pose proof (cf_k c HC). pose proof (cf_n c HC) as Hn.
  assert (Hm : match row_shortest r with Some (p, n) => 0 <= p /\ 0 < n /\ p + n < nt | None => True end).
  { unfold row_match. destruct (_ && _); [|done].
    destruct (shortest _ _ _ _) as [[p n]|] eqn:E; [|done]. apply (shortest_in_row _ _ _ _ _ _ Hn E). }
  destruct (enc (row_shortest r)) as [p n] eqn:Em. cbn zeta.
  set (av := if p >=? 0 then nt - (p + n) else 0). set (load := if av <? K then av else K).
  assert (Hl : load = Z.min av K) by (unfold load; destruct (Z.ltb_spec av K); lia).
  assert (Hav : 0 <= av /\ (0 < av -> 0 <= p /\ 0 < n /\ av = nt - (p + n)) /\
    forall j, 0 <= j -> dr j = if j <? av then extended M N V r (p + n + j) else -1).
  { unfold av, dr, draft. destruct (row_shortest r) as [[p' n']|]; cbn in Em; injection Em as <- <-.
    - rewrite Z.geb_leb, (proj2 (Z.leb_le 0 p')) by lia. split; [lia|]. split; [lia|]. intros j Hj. by unfold nt.
    - cbn. split; [lia|]. split; [lia|]. intros j Hj. by rewrite (proj2 (Z.ltb_ge j 0)) by lia. }
  destruct Hav as (A0 & A1 & A2). pose proof (align8_mono load K ltac:(lia)). pose proof (align8_ge K).
  assert (Hload : returns (LoadGmElements gm (base + (p + n)) load token) (fun l => length l = length token /\
    forall i, 0 <= i < load -> vat l i = vat gm (base + (p + n) + i))).
  { destruct (Z.le_gt_cases load 0); [|apply LoadGmElements_returns; lia].
    unfold LoadGmElements. rewrite (proj2 (Z.leb_le load 0)) by lia. apply returns_ok. split; [done|lia]. }
  eapply returns_bind_mono; [exact Hload|]. intros tk [Ltk Htk].
  eapply returns_bind_mono.
  { apply (write_draft_returns c _ _ (fun j => extended M N V r (p + n + j))); [lia..|].
    intros j Hj Hjl. rewrite u32_id, vget_ok, Htk by lia. f_equal. rewrite <- Z.add_assoc. apply Hv. lia. }
  intros d [Hdo Hdv]. assert (Hdr : forall j, 0 <= j < K -> vat d (drow + j) = dr j).
  { intros j Hj. rewrite Hdv, A2 by lia. destruct (Z.ltb_spec j load), (Z.ltb_spec j av); done || lia. }
  eapply returns_bind_mono; [apply (count_draft_returns c _ _ dr); [lia|lia|rewrite (proj1 Hdo); lia|done]|].
  intros x ->. rewrite vset_ok by lia. apply returns_ok. exists tk, d, (<[Z.to_nat i := prefix_count dr K]> nums).
  split; [done|]. split; [done|]. split; [done|]. split; [done|].
  split; [apply outside_insert; lia|]. by rewrite vat_insert_eq by lia.
Qed.

Lemma ProcessChunkedRow_returns g u start i :
  GmOk c B g -> ChunkBufs u -> 0 <= start -> 0 <= i < BR -> start + i < B -> M < 2 ^ 31 ->
  let r := block_row g u start i in
  0 <= ri_len r <= M -> max_n_val c <= ri_len r ->
  returns (ProcessChunkedRow c start i (g, u)) (fun '(g', u') =>
    g' = g <| tokenGm := tokenGm g' |> /\
    outside ((start + i) * M) ((start + i + 1) * M) (tokenGm g) (tokenGm g') /\
    (forall j, 0 <= j < M -> vat (tokenGm g') ((start + i) * M + j) = ro_tok (reference c shortest r) j) /\
    row_outputs u' i (reference c shortest r) /\ row_frame u u' i).
Proof.
  intros [] HU Hs Hi Hb HM r Hlen Hmax. destruct (HU) as [C1 C2 C3 [R1 R2 R3] C5 C6 C7 C8 C9].
  pose proof (align8_ge BR). destruct (HC) as [R S Nw Kk Nn T1 T2 T3 Sf _ _].
  destruct (row_range i BR mnta) as [B1 B2]; [lia..|]. destruct (row_range i BR (k_align c)) as [D1 D2]; [lia..|].
  destruct (row_range (start + i) B M) as [M1 M2]; [lia..|].
  destruct (accepted_range c r) as [Ha1 Ha2]; [lia|]. specialize (Ha2 Hlen).
  unfold ProcessChunkedRow. rewrite (u32_id mnta), (u32_id (k_align c)), (u32_id (start + i)) by nia.
  rewrite (u32_id (i * mnta)), (u32_id (i * k_align c)) by lia. rewrite !vget_ok by lia. cbn [mbind res_bind].
  eapply (returns_bind_mono _ _ (fun '(sampled, n) =>
    outside (i * mnta) (i * mnta + N) (sampledLocal u) sampled /\
    (forall j, 0 <= j < N -> vat sampled (i * mnta + j) = cleaned V r j) /\ n = all_valid N V r)).
  { apply (validate_returns c _ _ _ (ri_tok r) (ri_len r)); lia. }
  intros [sampled n] (Hso & Hsc & En). pose proof (proj1 Hso) as Hsl. rewrite (clip_count_ok c _ n r) by done.
  set (a := accepted_count M N V r) in *. set (len := vat (numTokensLocal u) i). change (ri_len r) with len in *.
  pose proof (align8_mono 1 (SAFE_CHUNK + max_n_val c) ltac:(unfold SAFE_CHUNK; lia)).
  set (bp := if len >? 0 then len - 1 else 0). assert (Hbp : 0 <= bp < M) by (unfold bp; destruct (Z.gtb_spec len 0); lia).
  eapply returns_bind_mono; [apply LoadGmElements_returns; lia|]. intros tk0 [L0 Htk0].
  pose proof (align8_ge 1). rewrite (vget_ok tk0), Htk0 by lia. cbn [mbind res_bind].
  eapply returns_bind_mono; [apply (next_returns _ _ _ _ _ _ (ro_next (reference c shortest r)))|]; try lia.
  { cbn [reference row_out ro_next]. fold a. destruct (Z.ltb_spec 0 a); [rewrite <- Z.add_sub_assoc; apply Hsc; lia|].
    rewrite Z.add_0_r. unfold bp. by rewrite Z.gtb_ltb. }
  intros nexts [Hno Hnv].
  assert (Er : ri_len r = len) by done.
  eapply returns_bind_mono; [apply (append_chunk_returns r); fold a; try done; try lia; intros; apply Hsc; lia|].
  intros [gm tk1] (L1 & Hgo & Hgv). pose proof (proj1 Hgo) as Lg.
  eapply returns_bind_mono; [apply (match_chunk_returns r u gm tk1); fold a; done || lia|].
  intros [sfx s] (Eb & Lsf & Ltk & Lm). rewrite Eb.
  eapply returns_mono; [apply (draft_chunk_returns r gm); fold a; done || lia|].
  intros [g' u'] (tk & d & nv & [= -> ->] & Ltk2 & Hdo & Hdv & Hvo & Hvv). cbn [tokenGm].
  split; [done|]. split; [eapply outside_weaken; [exact Hgo|lia|lia]|]. split; [exact Hgv|].
  split; [split; cbn; [exact Hnv|exact Hdv|exact Hvv]|].
  split; cbn; try done; try (eapply outside_weaken; [eassumption|lia|lia]).
  split; cbn; rewrite ?Ltk2, ?Ltk, ?Lsf, ?(proj1 Hno), ?(proj1 Hdo), ?(proj1 Hvo); try done.
  split; cbn; by rewrite ?Hsl.
Qed.
End Rows.
End NgramChunk.
