(* ===== verification/NgramBatch.v ===== *)
(** * The n-gram proposer on a block, a core and the whole batch

    Long rows in blocks, the loop over the blocks of a core, and all cores of a
    call, in any order. *)

From S2P Require Import Prelude Ascend Tensor NgramKernel NgramSpec NgramProofs NgramRun NgramChunk.

Module NgramBatch.
Import Ngram NgramSpec NgramProofs NgramRun NgramChunk.

(** ** Long rows *)

Section Long.
Context `{HA : AscendC} `{HAL : !AscendCLaws} (c : Conf) (HC : ConfOk c) (B : Z).
Abbreviation M := (max_seq_len c).
Abbreviation N := (max_new_tokens c).
Abbreviation K := (k_val c).
Abbreviation mnta := (max_new_tokens_align c).
Abbreviation BR := (block_rows c).
Abbreviation ref g r := (reference c shortest (gm_row c g r)).

(** The first [n] rows of the block are done, the others as they were loaded. *)
Record chunked_rows (g : Gm) (u0 : Ub) (start n : Z) (st : Gm * Ub) : Prop := {
  kr_gm : st.1 = g <| tokenGm := tokenGm st.1 |>;
  kr_tok : outside (start * M) ((start + n) * M) (tokenGm g) (tokenGm st.1);
  kr_bufs : ChunkBufs c st.2;
  kr_sampled : outside 0 (n * mnta) (sampledLocal u0) (sampledLocal st.2);
  kr_nums : numTokensLocal st.2 = numTokensLocal u0;
  kr_discard : discardLocal st.2 = discardLocal u0;
  kr_done : forall r, 0 <= r < n -> row_outputs c st.2 r (ref g (start + r)) /\
    forall i, 0 <= i < M -> vat (tokenGm st.1) ((start + r) * M + i) = ro_tok (ref g (start + r)) i
}.

Lemma row_frame_outputs u u' i r o :
  row_frame c u u' i -> 0 <= r < i -> row_outputs c u r o -> row_outputs c u' r o.
Proof.
  intros [_ _ _ _ Nx D V] Hr [O1 O2 O3]. pose proof (cf_k c HC). split.
  - rewrite (proj2 Nx); [done|lia|lia].
  - intros j Hj. rewrite (proj2 D); [by apply O2|nia|nia].
  - rewrite (proj2 V); [done|lia|lia].
Qed.

Lemma row_outputs_eq u r o o' : row_outputs c u r o -> out_eq M K o o' -> row_outputs c u r o'.
Proof.
  intros [O1 O2 O3] [_ E2 E3 E4]. split; [congruence| |congruence]. intros j Hj. by rewrite O2, E3.
Qed.

(** A row of the block is the row of the batch. *)
Lemma block_row_eq g u0 u1 start rows n st :
  loaded_rows c g start rows u0 u1 -> chunked_rows g u1 start n st -> 0 <= start -> 0 <= n < rows ->
  row_eq M N (block_row c st.1 st.2 start n) (gm_row c g (start + n)).
Proof.
  intros [L1 L2 L3 _ _] [_ KT _ KS KN KD _] Hs Hn. pose proof (cf_seq c HC). pose proof (cf_new c HC).
  split; cbn; rewrite ?KN, ?KD.
  - intros i Hi. apply KT; nia.
  - apply L2. lia.
  - intros j Hj. rewrite (proj2 KS) by nia. apply L1; lia.
  - apply L3. lia.
Qed.

Lemma chunked_step g u0 u1 start rows n st :
  GmOk c B g -> loaded_rows c g start rows u0 u1 -> 0 <= start -> 0 <= rows <= BR -> start + rows <= B -> M < 2 ^ 31 ->
  (forall r, start <= r < start + rows -> max_n_val c <= vat (numTokensGm g) r <= M) ->
  0 <= n < rows -> chunked_rows g u1 start n st ->
  returns (ProcessChunkedRow c start n st) (chunked_rows g u1 start (n + 1)).
Proof.
  intros HG HL Hs Hr Hb HM Hlen Hn HK. pose proof (block_row_eq _ _ _ _ _ _ _ HL HK Hs Hn) as He.
  destruct st as [g1 u2]. cbn [fst snd] in *. destruct HK as [KG KT KB KS KN KD Kd]. cbn [fst snd] in *.
  specialize (Hlen (start + n) ltac:(lia)) as Hl. pose proof (re_len _ _ _ _ He) as El. cbn [gm_row ri_len row_in] in El.
  pose proof (cf_suffix c HC). pose proof (cf_seq c HC). pose proof (cf_new c HC).
  pose proof (reference_ext c HC (sel := shortest) _ _ He ltac:(cbn; lia)) as Hx.
  assert (HG1 : GmOk c B g1) by (rewrite KG; destruct HG; split; cbn; try done; by rewrite (proj1 KT)).
  eapply returns_mono; [apply (ProcessChunkedRow_returns c HC B g1 u2 start n); try done; try lia|].
  intros [g2 u3] (EG & Ho & Hv & Hp & Hf). split; cbn [fst snd].
  - rewrite EG, KG. done.
  - eapply outside_trans; [eapply outside_weaken; [exact KT|nia|nia]|]. eapply outside_weaken; [exact Ho|nia|nia].
  - apply (rf_bufs _ _ _ _ Hf).
  - eapply outside_trans; [eapply outside_weaken; [exact KS|nia|nia]|].
    eapply outside_weaken; [apply (rf_sampled _ _ _ _ Hf)|nia|nia].
  - by rewrite (rf_nums _ _ _ _ Hf).
  - by rewrite (rf_discard _ _ _ _ Hf).
  - intros r Hr'. destruct (Z.eq_dec r n) as [->|].
    + split; [by eapply row_outputs_eq|]. intros i Hi. rewrite Hv by done. by apply Hx.
    + destruct (Kd r) as [Kd1 Kd2]; [lia|]. split; [eapply row_frame_outputs; [exact Hf|lia|done]|].
      intros i Hi. rewrite (proj2 Ho); [by apply Kd2|nia|nia].
Qed.

Lemma loaded_bufs g start rows u u' : loaded_rows c g start rows u u' -> ChunkBufs c u -> ChunkBufs c u'.
Proof.
  intros HL [C1 C2 C3 [R1 R2 R3] C5 C6 C7 C8 C9].
  destruct (ld_len _ _ _ _ _ _ HL) as (L1 & L2 & L3), (loaded_other _ _ _ _ _ _ HL) as (E1 & E2 & E3 & E4 & E5 & E6).
  split; try split; rewrite ?L1, ?L2, ?L3, ?E1, ?E2, ?E3, ?E4, ?E5, ?E6; done || lia.
Qed.

Lemma ProcessChunkedRows_returns g u start rows :
  GmOk c B g -> ChunkBufs c u -> 0 <= start -> 0 <= rows <= BR -> start + rows <= B -> M < 2 ^ 31 ->
  (forall r, start <= r < start + rows -> max_n_val c <= vat (numTokensGm g) r <= M) ->
  returns (ProcessChunkedRows c start rows (g, u))
    (fun '(g', u') => ChunkBufs c u' /\ block_done c shortest g start rows g').
Proof.
  intros HG HU Hs Hr Hb HM Hlen. pose proof (cf_suffix c HC). unfold ProcessChunkedRows.
  eapply returns_bind_mono; [apply (load_rows_returns c HC B g); try done; apply HU|]. intros u1 HL.
  eapply returns_bind_mono.
  { apply (for_range_returns (fun n st => chunked_rows g u1 start n st)); [lia| |].
    - split; cbn [fst snd]; try done; [by destruct g|by eapply loaded_bufs|lia].
    - intros n st Hn HK. by eapply chunked_step. }
  intros [g1 u2] [KG KT KB KS KN KD Kd]. cbn [fst snd] in *. pose proof (align8_ge BR).
  destruct (KB) as [_ _ _ _ C5 C6 C7 _ _].
  assert (HG1 : GmOk c B g1) by (rewrite KG; destruct HG; split; cbn; try done; by rewrite (proj1 KT)).
  eapply returns_bind_mono.
  { apply (store_rows_returns c HC B g1 u2 start rows (fun r => ref g (start + r))); try done; try lia.
    intros r Hr'. destruct (Kd r Hr') as [[P1 P2 P3] _]. done. }
  intros g2 (Et & [F1 F2 F3 F4 F5 F6 F7] & Hrows). apply returns_ok. split; [done|]. split.
  - assert (Eg : numTokensGm g1 = numTokensGm g /\ sampledGm g1 = sampledGm g /\ discardGm g1 = discardGm g /\
      nextTokensGm g1 = nextTokensGm g /\ draftTokensGm g1 = draftTokensGm g /\ numValidGm g1 = numValidGm g)
      by (by rewrite KG).
    destruct Eg as (E1 & E2 & E3 & E4 & E5 & E6). rewrite E4 in F5. rewrite E5 in F6. rewrite E6 in F7.
    split; rewrite ?Et; done || congruence.
  - intros r Hr'. destruct (Hrows (r - start)) as (E1 & E2 & E3); [lia|].
    destruct (Kd (r - start)) as [_ Kt]; [lia|]. rewrite Zplus_minus in *.
    split; try done. intros i Hi. rewrite Et. by apply Kt.
Qed.
End Long.

(** ** A core *)

Section Core.
Context `{HA : AscendC} `{HAL : !AscendCLaws} (c : Conf) (HC : ConfOk c) (B : Z).
Abbreviation M := (max_seq_len c).
Abbreviation BR := (block_rows c).

(** Long rows take the first length that occurs, the others as the buffer has
    them. *)
Definition selected : Z -> Z -> (Z -> Z) -> Z -> option (Z * Z) := if is_large_row c then shortest else buffered c.

#[global] Instance selected_selects : Selects selected.
Proof. unfold selected. destruct (is_large_row c); apply _. Qed.

(** Buffers and lengths of rows that the two paths work with. *)
Definition CoreOk (u : Ub) : Prop := if is_large_row c then ChunkBufs c u else UbOk c u.
Definition len_ok (l : Z) : Prop := 0 <= l <= M /\ (is_large_row c = true -> max_n_val c <= l).

Context (HV : is_large_row c = false -> VectorOk c).

Lemma block_returns g u start rows :
  GmOk c B g -> CoreOk u -> 0 <= start -> 0 <= rows <= BR -> start + rows <= B ->
  (forall r, start <= r < start + rows -> len_ok (vat (numTokensGm g) r)) ->
  returns (if is_large_row c then ProcessChunkedRows c start rows (g, u)
           else u ← CopyIn c start rows g u; u ← Compute c rows u; g ← CopyOut c start rows u g; Ok (g, u))
    (fun '(g', u') => CoreOk u' /\ block_done c selected g start rows g').
Proof.
  unfold CoreOk, selected, len_ok. intros HG HU Hs Hr Hb Hlen. pose proof (cf_seq c HC). pose proof (cf_tok_ub c HC).
  pose proof (cf_rows c HC).
  destruct (is_large_row c).
  - apply (ProcessChunkedRows_returns c HC B); try done; [nia|]. intros r Hr'. destruct (Hlen r Hr') as [[_ ?] Hm]. auto.
  - apply (short_block_returns c HC B); try done; [by apply HV|]. intros r Hr'. by apply Hlen.
Qed.

Lemma block_done_trans g1 g2 g3 start n m :
  0 <= start -> 0 <= n -> 0 <= m ->
  (forall r, start + n <= r < start + n + m -> len_ok (vat (numTokensGm g1) r)) ->
  block_done c selected g1 start n g2 -> block_done c selected g2 (start + n) m g3 ->
  block_done c selected g1 start (n + m) g3.
Proof.
  intros Hs Hn Hm Hlen [F1 D1] [F2 D2]. split.
  { rewrite Z.add_assoc. eapply gm_frame_trans; [done| |exact F1|exact F2]. lia. }
  intros r Hr. destruct (Z.lt_ge_cases r (start + n)).
  - destruct (gm_frame_row c g2 g3 _ _ r HC F2) as [_ Hd]; [lia|lia|]. apply Hd, D1. lia.
  - destruct (gm_frame_row c g1 g2 _ _ r HC F1) as [He _]; [lia|lia|].
    eapply gm_done_eq; [apply D2; lia|]. apply (reference_ext c HC); [done|]. cbn. apply Hlen. lia.
Qed.

(** The loop over the blocks of a core: it ends, and every row of the core is
    done. *)
Lemma core_returns g u :
  GmOk c B g -> CoreOk u -> 0 <= row_offset c -> 0 <= my_rows c -> row_offset c + my_rows c <= B ->
  (forall r, row_offset c <= r < row_offset c + my_rows c -> len_ok (vat (numTokensGm g) r)) ->
  returns (Process c (g, u)) (fun '(g', u') => CoreOk u' /\ block_done c selected g (row_offset c) (my_rows c) g').
Proof.
  intros HG HU Ho Hm Hb Hlen. pose proof (cf_rows c HC). pose proof (gm_batch _ _ _ HG).
  set (Q := fun p => remaining p = 0 /\ cur_offset p = my_rows c /\ CoreOk (pr_state p).2 /\
    block_done c selected g (row_offset c) (my_rows c) (pr_state p).1).
  unfold Process. eapply (returns_bind_mono _ _ Q); [|intros [rm off [g' u']] (_ & _ & ? & ?); by apply returns_ok].
  apply (while_loop_returns (fun p => 0 <= remaining p <= my_rows c /\ cur_offset p = my_rows c - remaining p /\
    CoreOk (pr_state p).2 /\ block_done c selected g (row_offset c) (cur_offset p) (pr_state p).1)
    Q (fun p => Z.to_nat (remaining p))).
  2:{ cbn. split; [lia|]. split; [lia|]. split; [done|]. split; [|lia]. rewrite Z.add_0_r. split; done. }
  2:{ cbn. lia. }
  intros [rm off [g1 u1]] (Hrm & Eoff & HU1 & Hd). unfold Process_step.
  cbn [remaining cur_offset pr_state fst snd] in *. subst off.
  rewrite Z.gtb_ltb. destruct (Z.ltb_spec 0 rm).
  2:{ apply returns_ok. unfold Q. cbn. replace rm with 0 in * by lia. rewrite Z.sub_0_r in *. split_and!; done || apply Hd. }
  rewrite (u32_id BR) by lia. rewrite (u32_id (row_offset c + (my_rows c - rm))) by lia.
  set (cur := if rm >? BR then BR else rm).
  assert (Hcur : 0 < cur <= rm /\ cur <= BR) by (unfold cur; destruct (Z.gtb_spec rm BR); lia).
  eapply returns_bind_mono.
  { apply block_returns; [by eapply gm_frame_ok, Hd|exact HU1|lia..|].
    intros r Hr. rewrite (gf_nums _ _ _ _ _ (proj1 Hd)). apply Hlen. lia. }
  intros [g2 u2] [HU2 Hd2]. apply returns_ok. cbn [remaining cur_offset pr_state fst snd].
  rewrite !u32_id by lia. split; [|lia]. split; [lia|]. split; [lia|]. split; [done|].
  eapply block_done_trans; [lia|lia|lia| |exact Hd|exact Hd2]. intros r Hr. apply Hlen. lia.
Qed.
End Core.
End NgramBatch.
