(* ===== verification/NgramCall.v ===== *)
(** * The n-gram proposer: tiling and a whole call

    What the tiling function hands to a block, and all blocks of a call run in
    any order. *)

From S2P Require Import Prelude Ascend Tensor NgramKernel NgramSpec NgramProofs NgramRun NgramChunk NgramBatch.

Module NgramCall.
Import Ngram NgramSpec NgramProofs NgramRun NgramChunk NgramBatch.

(** ** Sizes of a block *)

(** A call whose sizes fit into 32 bits. *)
Record CallOk (t : TilingContext) : Prop := {
  ca_batch : 1 <= tc_batch_size t < 2 ^ 31;
  ca_cores : 1 <= tc_aivNum t < 2 ^ 32;
  ca_ub : 0 <= tc_ubSize t < 2 ^ 31;
  ca_seq : 1 <= tc_max_seq_len t <= 2 ^ 31 - 8;
  ca_new : 0 <= tc_max_new_tokens t <= 2 ^ 31 - 8;
  ca_k : 0 <= tc_k t <= 2 ^ 31 - 8;
  ca_vocab : 0 <= tc_vocab_size t < 2 ^ 31;
  ca_n : 1 <= tc_min_n t < 2 ^ 31;
  ca_maxn : 0 <= tc_max_n t < 2 ^ 31 - 2 ^ 16
}.

Definition dim (t : TilingContext) : Z := Z.min (tc_batch_size t) (tc_aivNum t).
Definition share (t : TilingContext) : Z := tc_batch_size t / dim t.
Definition row_bytes (t : TilingContext) : Z :=
  (align8 (tc_max_seq_len t) + align8 (tc_max_new_tokens t) + align8 (tc_k t)) * 4.
Definition spare (t : TilingContext) : Z :=
  tc_ubSize t - (4 * 32 + tc_max_n t * 4 + (align8 (tc_max_seq_len t) + 7) / 8).
Definition fitting (t : TilingContext) : Z := Z.max (if 0 <? spare t then spare t / row_bytes t else 1) 1.

(** Rows of the batch: all blocks have [share] rows, the last one the rest too. *)
Definition conf (t : TilingContext) (b : Z) : Conf :=
  mkConf (tc_batch_size t) (tc_max_seq_len t) (align8 (tc_max_seq_len t)) (tc_max_new_tokens t)
    (align8 (tc_max_new_tokens t)) (tc_k t) (align8 (tc_k t)) (tc_vocab_size t) (tc_min_n t) (tc_max_n t)
    (Z.min (share t) (fitting t))
    (if b <? dim t - 1 then share t else tc_batch_size t - (dim t - 1) * share t)
    (share t * b) (align8 (tc_max_seq_len t) >? SAFE_CHUNK).

Section Tiling.
Context (t : TilingContext) (HT : CallOk t).

Lemma dim_range : 1 <= dim t <= tc_batch_size t.
Proof. destruct HT. unfold dim. lia. Qed.

Lemma share_bounds : 1 <= share t <= tc_batch_size t /\ dim t * share t <= tc_batch_size t.
Proof.
  pose proof dim_range. unfold share. pose proof (Z.mul_div_le (tc_batch_size t) (dim t) ltac:(lia)).
  pose proof (Z.div_str_pos (tc_batch_size t) (dim t) ltac:(lia)). nia.
Qed.

Lemma align_elems_align8 n : 0 <= n -> align_elems n = align8 n.
Proof. intros H. unfold align_elems, align8. rewrite quot_nonneg_div by lia. do 2 f_equal. lia. Qed.

Lemma align8_range n : 0 <= n <= 2 ^ 31 - 8 -> n <= align8 n < 2 ^ 31.
Proof. intros H. split; [apply align8_ge|]. unfold align8. ediv. Qed.

Lemma row_bytes_pos : 0 < row_bytes t.
Proof.
  destruct HT. unfold row_bytes. pose proof (align8_ge (tc_max_seq_len t)).
  pose proof (align8_ge (tc_max_new_tokens t)). pose proof (align8_ge (tc_k t)). lia.
Qed.

Lemma NgramSpecDecodeTilingFunc_returns :
  returns (NgramSpecDecodeTilingFunc t) (fun '(i, n) => n = dim t /\ forall b, 0 <= b < dim t -> Init i b = conf t b).
Proof.
  pose proof dim_range as Hd. pose proof share_bounds as Hs. pose proof row_bytes_pos as Hb. destruct HT.
  unfold NgramSpecDecodeTilingFunc. rewrite !align_elems_align8 by lia.
  change ELEM_SIZE with 4. fold (dim t) (row_bytes t). rewrite !Z.gtb_ltb.
  pose proof (align8_range (tc_max_seq_len t) ltac:(lia)). rewrite (quot_nonneg_div (_ + 7)) by lia. fold (spare t).
  eapply (returns_bind_mono _ _ (fun m => m = if 0 <? spare t then spare t / row_bytes t else 1)).
  { destruct (Z.ltb_spec 0 (spare t)); [|by apply returns_ok].
    rewrite sdiv_ok, quot_nonneg_div by lia. by apply returns_ok. }
  intros m ->. fold (fitting t). assert (1 <= fitting t) by (unfold fitting; lia).
  rewrite (proj2 (Z.ltb_lt 0 (dim t))), quot_nonneg_div by lia. fold (share t). apply returns_ok.
  assert (0 <= tc_batch_size t - (dim t - 1) * share t <= tc_batch_size t) by nia.
  split; [rewrite u32_id; lia|]. intros b Hb'. unfold Init, conf.
  cbn [batchSize maxSeqLen maxNewTokens vocabSize minN maxN k formerNum rowsPerCore tailRows blockRows].
  rewrite (u32_id (tc_batch_size t)), (u32_id (tc_max_seq_len t)), (u32_id (tc_max_new_tokens t)), (u32_id (tc_vocab_size t)),
    (u32_id (tc_min_n t)), (u32_id (tc_max_n t)), (u32_id (tc_k t)), (u32_id (dim t - 1)), (u32_id (share t)),
    (u32_id (tc_batch_size t - _)), (u32_id (Z.min _ _)) by lia.
  rewrite !i32_id, !align_elems_align8 by lia. rewrite (u32_id (dim t - 1)), (u32_id (share t)), (u32_id (tc_batch_size t - _)) by lia.
  f_equal. destruct (Z.ltb_spec b (dim t - 1)).
  - rewrite u32_id by nia. done.
  - rewrite u32_id by nia. f_equal. lia.
Qed.

Lemma fitting_bytes : fitting t = 1 \/ fitting t * row_bytes t < 2 ^ 31.
Proof.
  pose proof row_bytes_pos. unfold fitting. destruct (Z.ltb_spec 0 (spare t)); [|by left].
  destruct (Z.le_gt_cases (spare t / row_bytes t) 1); [left; lia|right]. rewrite Z.max_l by lia.
  pose proof (Z.mul_div_le (spare t) (row_bytes t) ltac:(lia)). assert (spare t < 2 ^ 31); [|lia].
  destruct HT. pose proof (align8_ge (tc_max_seq_len t)). unfold spare. ediv.
Qed.

Lemma conf_ok b : ConfOk (conf t b).
Proof.
  pose proof share_bounds as Hs. pose proof row_bytes_pos. pose proof fitting_bytes as Hf. destruct HT.
  pose proof (align8_range (tc_max_seq_len t) ltac:(lia)). pose proof (align8_range (tc_max_new_tokens t) ltac:(lia)).
  pose proof (align8_range (tc_k t) ltac:(lia)). assert (1 <= fitting t) by (unfold fitting; lia).
  unfold row_bytes in *. split; cbn; try done; try lia; (destruct Hf as [->|Hf]; [rewrite Z.min_r by lia; lia|]);
    nia.
Qed.
End Tiling.

(** ** Buffers *)

(** The buffers of a core have the sizes that Init asks for. *)
Definition allocated (c : Conf) (u : Ub) : Prop :=
  map (fun l => Z.of_nat (length l))
    [tokenLocal u; sampledLocal u; numTokensLocal u; discardLocal u; nextLocal u; draftLocal u; numValidLocal u;
     suffixLocal u; maskLocal u] = buffer_sizes c.

(** A chunk has room for the sampled and the proposed tokens of a long row. *)
Definition ChunkOk (c : Conf) : Prop :=
  is_large_row c = true -> max_new_tokens c <= SAFE_CHUNK /\ k_val c <= SAFE_CHUNK.

Lemma br_align_ok br : 0 <= br < 2 ^ 28 -> u32 (u32 (br * ELEM_SIZE + 31) / 32 * 32) / ELEM_SIZE = align8 br.
Proof.
  intros H. unfold ELEM_SIZE, align8. rewrite (u32_id (br * 4 + 31)) by lia. rewrite u32_id by ediv.
  Z.to_euclidean_division_equations. lia.
Qed.

Lemma allocated_ok c u :
  ConfOk c -> max_n_val c < 2 ^ 31 - 2 ^ 16 -> ChunkOk c -> allocated c u -> CoreOk c u.
Proof.
  intros [R S Nw Kk Nn T1 T2 T3 Sf Ea _] Hmn HK Hu.
  assert (8 <= max_seq_len_align c) by (rewrite Ea; unfold align8; ediv).
  assert (Hbr : block_rows c < 2 ^ 28) by nia.
  unfold allocated, buffer_sizes in Hu. rewrite (u32_id (block_rows c)) in Hu by lia.
  rewrite br_align_ok in Hu by lia. cbn [map] in Hu. injection Hu as U1 U2 U3 U4 U5 U6 U7 U8 U9.
  change ((SAFE_CHUNK + 7) / 8) with 4096 in U9.
  rewrite (u32_id (max_new_tokens_align c)) in U2 by nia. rewrite (u32_id (k_align c)) in U6 by nia.
  rewrite u32_id in U2, U6, U8 by nia.
  assert (align8 (block_rows c) < 2 ^ 31 /\ block_rows c <= align8 (block_rows c)) by (split; [unfold align8; ediv|apply align8_ge]).
  unfold CoreOk. destruct (is_large_row c) eqn:El.
  - destruct (HK El) as [HN HKv]. unfold SAFE_CHUNK in *.
    rewrite (u32_id (max_n_val c)), (u32_id (32768 + max_n_val c)), (u32_id (_ + 7)) in U1 by lia. fold (align8 (32768 + max_n_val c)) in U1.
    pose proof (align8_ge (32768 + max_n_val c)). pose proof (align8_mono (k_val c) (32768 + max_n_val c) ltac:(lia)).
    assert (align8 (32768 + max_n_val c) < 2 ^ 32) by (unfold align8; ediv).
    split; try split; unfold SAFE_CHUNK; lia.
  - rewrite (u32_id (max_seq_len_align c)), u32_id in U1 by nia. split; lia.
Qed.

(** ** All blocks *)

(** The blocks of a call, one after the other in the order [bs]; every core has
    buffers of its own. *)
Fixpoint run_blocks `{AscendC} (i : NgramSpecDecodeInfo) (ub : Z -> Ub) (bs : list Z) (g : Gm) : res Gm :=
  match bs with
  | [] => Ok g
  | b :: bs => g ← ngram_spec_decode i b g (ub b); run_blocks i ub bs g
  end.

(** The call: tiling, then the blocks. *)
Definition call `{AscendC} (t : TilingContext) (ub : Z -> Ub) (order : Z -> list Z) (g : Gm) : res Gm :=
  '(i, block_dim) ← NgramSpecDecodeTilingFunc t; run_blocks i ub (order block_dim) g.

Section Batch.
Context `{HA : AscendC} `{HAL : !AscendCLaws} (t : TilingContext) (HT : CallOk t).
Abbreviation c0 := (conf t 0).
Abbreviation batch := (tc_batch_size t).
Context (HV : is_large_row c0 = false -> VectorOk c0) (HK : ChunkOk c0).

(** The block that has row [r]. *)
Definition owner (r : Z) : Z := Z.min (r / share t) (dim t - 1).

Lemma owner_block r : 0 <= r < batch -> 0 <= owner r < dim t.
Proof.
  intros Hr. pose proof (dim_range t HT). destruct (share_bounds t HT). unfold owner.
  pose proof (Z.div_pos r (share t) ltac:(lia) ltac:(lia)). lia.
Qed.

Lemma owner_rows b r :
  0 <= b < dim t -> 0 <= r < batch ->
  row_offset (conf t b) <= r < row_offset (conf t b) + my_rows (conf t b) <-> owner r = b.
Proof.
  intros Hb Hr. pose proof (dim_range t HT). destruct (share_bounds t HT) as [Hs Hd]. cbn [conf row_offset my_rows].
  pose proof (Z.div_mod r (share t) ltac:(lia)). pose proof (Z.mod_pos_bound r (share t) ltac:(lia)).
  set (q := r / share t) in *. unfold owner. fold q. destruct (Z.ltb_spec b (dim t - 1)).
  - rewrite Z.min_comm. split; [|intros E; nia]. intros. assert (q = b) by nia. lia.
  - replace b with (dim t - 1) by lia. split; [|intros E; nia]. intros. assert (dim t - 1 <= q) by nia. lia.
Qed.

Lemma block_rows_range b :
  0 <= b < dim t -> 0 <= row_offset (conf t b) /\ 0 <= my_rows (conf t b) /\
  row_offset (conf t b) + my_rows (conf t b) <= batch.
Proof.
  intros Hb. destruct (share_bounds t HT) as [Hs Hd]. cbn [conf row_offset my_rows].
  destruct (Z.ltb_spec b (dim t - 1)); nia.
Qed.

(** The sizes do not depend on the block. *)
Lemma conf_block_done b g start n g' :
  block_done (conf t b) (selected (conf t b)) g start n g' -> block_done c0 (selected c0) g start n g'.
Proof.
  intros [[F1 F2 F3 F4 F5 F6 F7] Hd]. split; [by split|].
  intros r Hr. destruct (Hd r Hr) as [D1 D2 D3 D4]. by split.
Qed.

Lemma conf_gm_ok b g : GmOk c0 batch g -> GmOk (conf t b) batch g.
Proof. intros []. by split. Qed.

Lemma block_run i b g u :
  (forall b, 0 <= b < dim t -> Init i b = conf t b) -> 0 <= b < dim t ->
  GmOk c0 batch g -> allocated (conf t b) u ->
  (forall r, 0 <= r < batch -> len_ok c0 (vat (numTokensGm g) r)) ->
  returns (ngram_spec_decode i b g u) (fun g' =>
    block_done c0 (selected c0) g (row_offset (conf t b)) (my_rows (conf t b)) g').
Proof.
  intros Hi Hb HG Hu Hlen. unfold ngram_spec_decode. rewrite Hi by done.
  destruct (block_rows_range b Hb) as (R1 & R2 & R3). eapply returns_bind_mono.
  { apply (core_returns (conf t b) (conf_ok t HT b) batch); try done.
    - by apply conf_gm_ok.
    - apply allocated_ok; try done; [by apply conf_ok|apply (ca_maxn _ HT)].
    - intros r Hr. apply Hlen. lia. }
  intros [g' u'] [_ Hd]. apply returns_ok. by eapply conf_block_done.
Qed.

(** Between two blocks: the rows of the blocks in [ds] are done, the others are
    as at the start. *)
Record batch_state (g : Gm) (ds : list Z) (g' : Gm) : Prop := {
  bs_ok : GmOk c0 batch g';
  bs_nums : numTokensGm g' = numTokensGm g;
  bs_sampled : sampledGm g' = sampledGm g;
  bs_discard : discardGm g' = discardGm g;
  bs_done : forall r, 0 <= r < batch -> owner r ∈ ds -> gm_done c0 g' r (reference c0 (selected c0) (gm_row c0 g r));
  bs_rest : forall r, 0 <= r < batch -> owner r ∉ ds ->
    row_eq (max_seq_len c0) (max_new_tokens c0) (gm_row c0 g' r) (gm_row c0 g r)
}.

Lemma row_eq_trans M N r1 r2 r3 : row_eq M N r1 r2 -> row_eq M N r2 r3 -> row_eq M N r1 r3.
Proof.
  intros [A1 A2 A3 A4] [B1 B2 B3 B4]. split; [|congruence| |congruence]; intros i Hi.
  - by rewrite A1, B1.
  - by rewrite A3, B3.
Qed.

Lemma batch_step g ds g1 b g2 :
  (forall r, 0 <= r < batch -> len_ok c0 (vat (numTokensGm g) r)) -> 0 <= b < dim t -> b ∉ ds ->
  batch_state g ds g1 ->
  block_done c0 (selected c0) g1 (row_offset (conf t b)) (my_rows (conf t b)) g2 ->
  batch_state g (b :: ds) g2.
Proof.
  intros Hlen Hb Hnew [S1 S2 S3 S4 Sd Sr] [Hf Hd]. pose proof (conf_ok t HT 0) as HC.
  assert (Hout : forall r, 0 <= r < batch -> owner r <> b ->
    r < row_offset (conf t b) \/ row_offset (conf t b) + my_rows (conf t b) <= r).
  { intros r Hr Hn. rewrite <- (owner_rows b r Hb Hr) in Hn. lia. }
  destruct (Hf) as [_ F2 F3 F4 _ _ _]. split; [by eapply gm_frame_ok|congruence..| |].
  - intros r Hr Hin. destruct (Z.eq_dec (owner r) b) as [E|Hn].
    + eapply gm_done_eq; [apply Hd; by apply owner_rows|]. apply (reference_ext c0 HC).
      * apply Sr; [done|]. by rewrite E.
      * cbn. by apply Hlen.
    + apply elem_of_cons in Hin as [|Hin]; [done|].
      destruct (gm_frame_row c0 g1 g2 _ _ r HC Hf) as [_ Hk]; [lia|by apply Hout|]. apply Hk. by apply Sd.
  - intros r Hr [Hn Hin]%not_elem_of_cons.
    destruct (gm_frame_row c0 g1 g2 _ _ r HC Hf) as [He _]; [lia|by apply Hout|].
    eapply row_eq_trans; [exact He|by apply Sr].
Qed.

Lemma run_blocks_returns i ub g bs :
  (forall b, 0 <= b < dim t -> Init i b = conf t b) ->
  (forall b, 0 <= b < dim t -> allocated (conf t b) (ub b)) ->
  (forall r, 0 <= r < batch -> len_ok c0 (vat (numTokensGm g) r)) ->
  forall ds g1, NoDup (bs ++ ds) -> (forall b, b ∈ bs -> 0 <= b < dim t) -> batch_state g ds g1 ->
  returns (run_blocks i ub bs g1) (batch_state g (rev bs ++ ds)).
Proof.
  intros Hi Hu Hlen. induction bs as [|b bs IH]; intros ds g1 Hnd Hbs HS; [by apply returns_ok|].
  apply list.NoDup_cons in Hnd as [[Hb1 Hb2]%not_elem_of_app Hnd]. cbn [run_blocks rev]. rewrite <- app_assoc.
  assert (Hb : 0 <= b < dim t) by (apply Hbs, elem_of_cons; by left).
  eapply returns_bind_mono.
  { apply block_run; [done|done|by apply HS|by apply Hu|]. rewrite (bs_nums _ _ _ HS). done. }
  intros g2 Hd. apply IH.
  - cbn [app]. rewrite <- Permutation_middle. apply list.NoDup_cons. split; [|done]. by apply not_elem_of_app.
  - intros b' Hb'. apply Hbs, elem_of_cons. by right.
  - by eapply batch_step.
Qed.

End Batch.

(** ** A call *)

(** What a call needs: tensors and buffers of the right sizes, lengths of rows
    within the rows, every block once. *)
Record CallReady (t : TilingContext) (ub : Z -> Ub) (order : Z -> list Z) (g : Gm) : Prop := {
  cl_sizes : CallOk t;
  cl_gm : GmOk (conf t 0) (tc_batch_size t) g;
  cl_ub : forall b, 0 <= b < dim t -> allocated (conf t b) (ub b);
  cl_order : order (dim t) ≡ₚ seqZ 0 (dim t);
  cl_len : forall r, 0 <= r < tc_batch_size t -> len_ok (conf t 0) (vat (numTokensGm g) r);
  cl_vector : is_large_row (conf t 0) = false -> VectorOk (conf t 0);
  cl_chunk : ChunkOk (conf t 0)
}.

(** Every row of the batch is done, whatever the order of the blocks. *)
Lemma call_returns `{HA : AscendC} `{HAL : !AscendCLaws} t ub order g :
  CallReady t ub order g ->
  returns (call t ub order g) (fun g' =>
    numTokensGm g' = numTokensGm g /\ sampledGm g' = sampledGm g /\ discardGm g' = discardGm g /\
    forall r, 0 <= r < tc_batch_size t ->
      gm_done (conf t 0) g' r (reference (conf t 0) (selected (conf t 0)) (gm_row (conf t 0) g r))).
Proof.
  intros [HT HG Hu Hp Hlen HV HK]. unfold call. eapply returns_bind_mono; [by apply NgramSpecDecodeTilingFunc_returns|].
  intros [i n] [-> Hi].
  eapply returns_mono; [apply (run_blocks_returns t HT HV HK i ub g (order (dim t)) Hi Hu Hlen [] g)|].
  - rewrite app_nil_r, Hp. apply NoDup_seqZ.
  - intros b Hb. rewrite Hp in Hb. apply elem_of_seqZ in Hb. lia.
  - split; try done. intros r _ Hr. by apply elem_of_nil in Hr.
  - intros g' [_ S2 S3 S4 Sd _]. split_and!; try done. intros r Hr. apply Sd; [done|].
    rewrite app_nil_r. rewrite <- Permutation_rev, Hp. apply elem_of_seqZ. pose proof (owner_block t HT r Hr). lia.
Qed.
(** ** Draft tokens of a row *)

(** The draft tokens of row [r] after the call, in terms of the sequence the call
    leaves; [better] compares lengths of suffixes. *)
Definition row_proposes (t : TilingContext) (g g' : Gm) (r : Z) (better : Z -> Z -> Prop) : Prop :=
  let c := conf t 0 in
  let a := accepted_count (max_seq_len c) (max_new_tokens c) (vocab_size_val c) (gm_row c g r) in
  let nt := vat (numTokensGm g) r + a in
  let seq i := vat (tokenGm g') (r * max_seq_len c + i) in
  let drafted j := vat (draftTokensGm g') (r * k_val c + j) in
  if (0 <? a) && (min_n_val c <=? nt) then proposes seq nt (min_n_val c) (max_n_val c) (k_val c) better drafted
  else forall j, 0 <= j < k_val c -> drafted j = -1.

Lemma done_proposes t (HT : CallOk t) `{!Selects sel} g g' r better :
  len_ok (conf t 0) (vat (numTokensGm g) r) ->
  (forall seq nt lo hi k draft, 1 <= lo -> nt <= max_seq_len (conf t 0) ->
    (forall j, 0 <= j < k -> draft j = match sel lo hi seq nt with
       | Some (p, n) => if j <? nt - (p + n) then seq (p + n + j) else -1 | None => -1 end) ->
    proposes seq nt lo hi k better draft) ->
  gm_done (conf t 0) g' r (reference (conf t 0) sel (gm_row (conf t 0) g r)) ->
  row_proposes t g g' r better.
Proof.
  intros [Hl _] Hp [D1 _ D3 _]. pose proof (conf_ok t HT 0) as HC. unfold row_proposes. cbv zeta. set (c := conf t 0) in *.
  set (row := gm_row c g r) in *. destruct (accepted_range c row) as [Ha Hm]; [pose proof (cf_new c HC); lia|].
  specialize (Hm Hl). change (vat (numTokensGm g) r) with (ri_len row) in *.
  cbn [reference row_out ro_tok ro_draft] in D1, D3. unfold draft, row_match in D3. fold c row in D3.
  destruct (_ && _) in D3 |- *; [|done]. pose proof (cf_n c HC) as Hn.
  apply Hp; [done|fold c; lia|]. intros j Hj. rewrite D3 by done.
  rewrite (sel_ext _ _ _ (fun i => vat (tokenGm g') (r * max_seq_len c + i))).
  - match goal with |- match ?s with _ => _ end = match ?s' with _ => _ end =>
      change s' with s; destruct s as [[p n]|] eqn:E end; [|done].
    apply (sel_in _ _ _ _ _ _ Hn) in E.
    destruct (Z.ltb_spec j (ri_len row + accepted_count (max_seq_len c) (max_new_tokens c) (vocab_size_val c) row - (p + n))); [|done].
    symmetry. apply D1. lia.
  - lia.
  - intros i Hi. symmetry. apply D1. lia.
Qed.
End NgramCall.
