(* ===== verification/NgramTheorems.v ===== *)
(** * Theorems about the n-gram proposer

    Where a call of the operator computes the golden of its tests; what the draft
    tokens are for short and for long rows; how the rows are shared out; and
    inputs on which the operator does not find what the golden finds. *)

From S2P Require Import Prelude Ascend Tensor NgramKernel NgramSpec NgramGolden NgramProofs NgramRun NgramChunk NgramBatch NgramCall.

Module NgramTheorems.
Import Ngram NgramSpec NgramGolden NgramProofs NgramRun NgramChunk NgramBatch NgramCall.

(** ** Concrete calls *)

(** Five rows of eight tokens on two cores: blocks of two rows, three for the
    second core. *)
Definition demo_tiling : TilingContext := mkTilingContext 5 8 2 100 1 3 2 2 4096.

Definition zero_ub (c : Conf) : Ub :=
  match (fun n => replicate (Z.to_nat n) 0) <$> buffer_sizes c with
  | [a; b; d; e; f; g; h; i; j] => mkUb a b d e f g h i j
  | _ => mkUb [] [] [] [] [] [] [] [] []
  end.

Definition demo_gm : Gm :=
  mkGm [1; 2; 3; 1; 2; 0; 0; 0;  5; 5; 5; 0; 0; 0; 0; 0;  4; 6; 4; 6; 9; 9; 9; 0;  1; 2; 3; 4; 5; 6; 7; 8;  9; 8; 9; 0; 0; 0; 0; 0]
    [5; 3; 7; 8; 3] [3; -1;  5; 5;  4; 6;  1; 2;  100; 8] [0; 0; 0; 0; 1]
    [0; 0; 0; 0; 0] [0; 0; 0; 0; 0; 0; 0; 0; 0; 0] [0; 0; 0; 0; 0].

Definition demo_order (n : Z) : list Z := rev (seqZ 0 n).

(** The rows of a list of lengths. *)
Definition lens_ok (c : Conf) (l : list Z) : bool :=
  forallb (fun n => (0 <=? n) && (n <=? max_seq_len c) && (negb (is_large_row c) || (max_n_val c <=? n))) l.

Lemma lens_ok_row c g B r :
  Z.of_nat (length (numTokensGm g)) = B -> lens_ok c (numTokensGm g) = true -> 0 <= r < B ->
  len_ok c (vat (numTokensGm g) r).
Proof.
  unfold lens_ok. intros <- Hl Hr. rewrite forallb_forall in Hl.
  destruct (lookup_lt_is_Some_2 (numTokensGm g) (Z.to_nat r)) as [x Hx]; [lia|].
  unfold vat. rewrite Hx. cbn [default from_option id].
  specialize (Hl x (proj1 (list_elem_of_In _ _) (list_elem_of_lookup_2 _ _ _ Hx))).
  apply andb_true_iff in Hl as [[H1%Z.leb_le H2%Z.leb_le]%andb_true_iff H3]. split; [lia|]. intros E. rewrite E in H3.
  by apply Z.leb_le in H3.
Qed.

Lemma demo_ready : CallReady demo_tiling (fun b => zero_ub (conf demo_tiling b)) demo_order demo_gm.
Proof.
  split.
  - split; vm_compute; split; congruence.
  - split; vm_compute; done.
  - intros b Hb. assert (b = 0 \/ b = 1) as [-> | ->] by (revert Hb; unfold dim; cbn; lia); vm_compute; reflexivity.
  - unfold demo_order. by rewrite <- Permutation_rev.
  - intros r. apply lens_ok_row; vm_compute; reflexivity.
  - intros _. unfold VectorOk. vm_compute. congruence.
  - unfold ChunkOk. vm_compute. congruence.
Qed.

(** A row of 32776 tokens is long. *)
Definition long_tiling : TilingContext := mkTilingContext 1 32776 2 100 1 3 2 2 196608.

Definition long_gm : Gm :=
  mkGm (replicate (Z.to_nat 32776) 7) [20] [7; 8] [0] [0] [0; 0] [0].

Lemma long_ready : CallReady long_tiling (fun b => zero_ub (conf long_tiling b)) (seqZ 0) long_gm.
Proof.
  split.
  - split; vm_compute; split; congruence.
  - split; vm_compute; done.
  - intros b Hb. assert (b = 0) as -> by (revert Hb; unfold dim; cbn; lia). vm_compute. reflexivity.
  - done.
  - intros r. apply lens_ok_row; vm_compute; reflexivity.
  - vm_compute. congruence.
  - intros _. vm_compute. split; congruence.
Qed.

(** ** The call *)

(** The golden for a row of a call. *)
Definition golden (c : Conf) (r : RowIn) : RowOut :=
  golden_row (max_seq_len c) (max_new_tokens c) (vocab_size_val c) (min_n_val c) (max_n_val c) (k_val c) r.
Definition golden_length (c : Conf) (r : RowIn) : Z :=
  ri_len r + golden_valid_count (max_seq_len c) (max_new_tokens c) (vocab_size_val c) r.

Lemma gm_done_golden c g r row :
  ConfOk c -> gm_done c g r (reference c shortest row) -> gm_done c g r (golden c row).
Proof.
  intros HC [D1 D2 D3 D4]. destruct (golden_row_out (max_seq_len c) (max_new_tokens c) (vocab_size_val c) (min_n_val c) (max_n_val c)
    (k_val c) row (cf_n c HC) (proj1 (cf_k c HC))) as (G1 & G2 & G3 & G4). split; unfold golden.
  - intros i Hi. by rewrite G1, D1.
  - by rewrite G2, D2.
  - intros j Hj. by rewrite G3, D3.
  - by rewrite G4, D4.
Qed.

(** Where no suffix longer than [min_n] occurs, every choice is the golden's. *)
Lemma gm_done_select `{!Selects sel} c g r row :
  ConfOk c ->
  (forall n p, min_n_val c < n <= max_n_val c -> ~ suffix_at (ro_tok (golden c row)) (golden_length c row) n p) ->
  gm_done c g r (reference c sel row) -> gm_done c g r (reference c shortest row).
Proof.
  intros HC Hno [D1 D2 D3 D4].
  assert (Hm : row_match (max_seq_len c) (max_new_tokens c) (vocab_size_val c) (min_n_val c) (sel (min_n_val c) (max_n_val c)) row =
    row_match (max_seq_len c) (max_new_tokens c) (vocab_size_val c) (min_n_val c) (shortest (min_n_val c) (max_n_val c)) row).
  { unfold row_match. destruct (_ && _); [|done]. apply sel_shortest. intros n p Hn (H1 & H2 & H3). apply (Hno n p Hn).
    unfold golden_length. rewrite golden_valid_accepted. split; [done|]. split; [done|]. intros s Hs. unfold golden. cbn [golden_row ro_tok].
    rewrite !golden_tokens_extended. by apply H3. }
  assert (Hd : forall j, ro_draft (reference c sel row) j = ro_draft (reference c shortest row) j).
  { intros j. cbn [reference row_out ro_draft]. unfold draft. by rewrite Hm. }
  split; [done|done| |].
  - intros j Hj. by rewrite <- Hd, D3.
  - rewrite D4. cbn [reference row_out ro_num]. unfold prefix_count. f_equal. apply find_ext. intros j _. by apply (f_equal (fun x => x =? -1)), Hd.
Qed.

(** C2: A call of ngram_spec_decode returns, whatever the order in which its
    blocks run, and does not change its other inputs.  For every row it leaves
    the sequence with the accepted sampled tokens appended and the next token of
    the golden of the tests; draft tokens and their number are the golden's for
    rows beyond the row buffer (more than 32768 tokens), and for all rows in
    which no suffix longer than [min_n] occurs earlier (always, when [min_n] is
    [max_n]).  [CallReady] asks for sizes that fit into 32 bits, lengths within
    the rows and, beyond the buffer, of at least [max_n]; for a row length that is
    a multiple of 64 when rows are searched one at a time; and for at most 32768
    sampled and draft tokens beyond the buffer. *)
Theorem ngram_call_golden `{HA : AscendC} `{HAL : !AscendCLaws} t ub order g (HR : CallReady t ub order g) :
  let c := conf t 0 in
  returns (call t ub order g) (fun g' =>
    numTokensGm g' = numTokensGm g /\ sampledGm g' = sampledGm g /\ discardGm g' = discardGm g /\
    forall r, 0 <= r < tc_batch_size t ->
      let row := gm_row c g r in
      (forall i, 0 <= i < tc_max_seq_len t -> vat (tokenGm g') (r * tc_max_seq_len t + i) = ro_tok (golden c row) i) /\
      vat (nextTokensGm g') r = ro_next (golden c row) /\
      (is_large_row c = true \/
       (forall n p, tc_min_n t < n <= tc_max_n t -> ~ suffix_at (ro_tok (golden c row)) (golden_length c row) n p) ->
       gm_done c g' r (golden c row))).
Proof.
  intros c. eapply returns_mono; [by apply call_returns|]. intros g' (H1 & H2 & H3 & Hd). split_and!; try done.
  intros r Hr row. specialize (Hd r Hr). fold c row in Hd. pose proof (conf_ok t (cl_sizes _ _ _ _ HR) 0) as HC. fold c in HC.
  destruct (golden_row_out (max_seq_len c) (max_new_tokens c) (vocab_size_val c) (min_n_val c) (max_n_val c)
    (k_val c) row (cf_n c HC) (proj1 (cf_k c HC))) as (G1 & G2 & _). split; [|split].
  - intros i Hi. unfold golden. rewrite G1. by apply (gd_tok _ _ _ _ Hd).
  - unfold golden. rewrite G2. by apply (gd_next _ _ _ _ Hd).
  - intros Hs. apply gm_done_golden; [done|]. destruct Hs as [Hl|Hno].
    + unfold selected in Hd. by rewrite Hl in Hd.
    + by apply (gm_done_select (sel := selected c)).
Qed.

Lemma ngram_call_golden_witness :
  returns (@call SoftAscendC demo_tiling (fun b => zero_ub (conf demo_tiling b)) demo_order demo_gm) (fun g' =>
    numTokensGm g' = numTokensGm demo_gm /\ sampledGm g' = sampledGm demo_gm /\ discardGm g' = discardGm demo_gm /\
    forall r, 0 <= r < 5 ->
      let c := conf demo_tiling 0 in
      let row := gm_row c demo_gm r in
      (forall i, 0 <= i < 8 -> vat (tokenGm g') (r * 8 + i) = ro_tok (golden c row) i) /\
      vat (nextTokensGm g') r = ro_next (golden c row) /\
      (is_large_row c = true \/ (forall n p, 1 < n <= 3 -> ~ suffix_at (ro_tok (golden c row)) (golden_length c row) n p) ->
       gm_done c g' r (golden c row))).
Proof. exact (@ngram_call_golden SoftAscendC SoftAscendC_laws _ _ _ _ demo_ready). Defined.

(** The demo call, computed. *)
Lemma demo_call_result :
  @call SoftAscendC demo_tiling (fun b => zero_ub (conf demo_tiling b)) demo_order demo_gm =
  Ok (mkGm [1; 2; 3; 1; 2; 3; 0; 0;  5; 5; 5; 5; 5; 0; 0; 0;  4; 6; 4; 6; 9; 9; 9; 4;  1; 2; 3; 4; 5; 6; 7; 8;  9; 8; 9; 0; 0; 0; 0; 0]
    [5; 3; 7; 8; 3] [3; -1;  5; 5;  4; 6;  1; 2;  100; 8] [0; 0; 0; 0; 1]
    [3; 5; 4; 8; 9] [1; 2; 5; 5; 6; 4; -1; -1; -1; -1] [2; 2; 2; 0; 0]).
Proof. vm_compute. reflexivity. Qed.

(** C16: The draft tokens of every row, short or long, are those behind the first
    earlier place of a suffix (of [min_n .. max_n] tokens) of the extended
    sequence; a row has none exactly when no such suffix occurs earlier, when no
    sampled token was accepted, or when the sequence is shorter than [min_n].
    [CallReady] is as for [ngram_call_golden]. *)
Theorem ngram_drafts_continue `{HA : AscendC} `{HAL : !AscendCLaws} t ub order g (HR : CallReady t ub order g) :
  returns (call t ub order g) (fun g' => forall r, 0 <= r < tc_batch_size t ->
    row_proposes t g g' r (fun _ _ => False)).
Proof.
  eapply returns_mono; [by apply call_returns|]. intros g' (_ & _ & _ & Hd) r Hr.
  pose proof (cl_sizes _ _ _ _ HR) as HT. specialize (Hd r Hr).
  eapply (done_proposes t HT (sel := selected (conf t 0))); [apply (cl_len _ _ _ _ HR); done| |exact Hd].
  intros seq nt lo hi k draft _ _. apply sel_proposes.
Qed.

Lemma ngram_drafts_continue_witness :
  returns (@call SoftAscendC demo_tiling (fun b => zero_ub (conf demo_tiling b)) demo_order demo_gm) (fun g' =>
    forall r, 0 <= r < 5 -> row_proposes demo_tiling demo_gm g' r (fun _ _ => False)).
Proof. exact (@ngram_drafts_continue SoftAscendC SoftAscendC_laws _ _ _ _ demo_ready). Defined.

(** For rows that fit into the buffer, of at most 8192 tokens or at least two
    rows at a time, the draft tokens of every row are those behind the first earlier place of the longest suffix (of [min_n .. max_n]
    tokens) of the extended sequence that occurs earlier; the row has no draft
    tokens when no suffix does, when no sampled token was accepted, or when the
    sequence is shorter than [min_n]. *)
Theorem ngram_short_rows_longest `{HA : AscendC} `{HAL : !AscendCLaws} t ub order g
    (HR : CallReady t ub order g) (Hs : is_large_row (conf t 0) = false)
    (Hw : 1 < block_rows (conf t 0) \/ tc_max_seq_len t <= 8192) :
  returns (call t ub order g) (fun g' => forall r, 0 <= r < tc_batch_size t ->
    row_proposes t g g' r (fun n' n => n < n')).
Proof.
  eapply returns_mono; [by apply call_returns|]. intros g' (_ & _ & _ & Hd) r Hr.
  pose proof (cl_sizes _ _ _ _ HR) as HT. specialize (Hd r Hr). unfold selected in Hd. rewrite Hs in Hd.
  eapply (done_proposes t HT (sel := buffered (conf t 0))); [apply (cl_len _ _ _ _ HR); done| |exact Hd].
  intros seq nt lo hi k draft Hlo Hnt H. apply longest_proposes. intros j Hj. rewrite H by done.
  unfold buffered. destruct (Z.leb_spec (block_rows (conf t 0)) 1); [|done].
  cbn in Hnt. by rewrite nearest_longest by (unfold CMP_MAX; lia).
Qed.

Lemma ngram_short_rows_longest_witness :
  returns (@call SoftAscendC demo_tiling (fun b => zero_ub (conf demo_tiling b)) demo_order demo_gm) (fun g' =>
    forall r, 0 <= r < 5 -> row_proposes demo_tiling demo_gm g' r (fun n' n => n < n')).
Proof. refine (@ngram_short_rows_longest SoftAscendC SoftAscendC_laws _ _ _ _ demo_ready eq_refl (or_intror _)). cbn. lia. Defined.

(** C17: For rows longer than the buffer, which are searched in chunks of global
    memory, the draft tokens are those behind the first earlier place of the
    shortest suffix that occurs earlier. *)
Theorem ngram_long_rows_shortest `{HA : AscendC} `{HAL : !AscendCLaws} t ub order g
    (HR : CallReady t ub order g) (Hl : is_large_row (conf t 0) = true) :
  returns (call t ub order g) (fun g' => forall r, 0 <= r < tc_batch_size t ->
    row_proposes t g g' r (fun n' n => n' < n)).
Proof.
  eapply returns_mono; [by apply call_returns|]. intros g' (_ & _ & _ & Hd) r Hr.
  pose proof (cl_sizes _ _ _ _ HR) as HT. specialize (Hd r Hr). unfold selected in Hd. rewrite Hl in Hd.
  eapply (done_proposes t HT (sel := shortest)); [apply (cl_len _ _ _ _ HR); done| |exact Hd]. intros. by apply shortest_proposes.
Qed.

Lemma ngram_long_rows_shortest_witness :
  returns (@call SoftAscendC long_tiling (fun b => zero_ub (conf long_tiling b)) (seqZ 0) long_gm) (fun g' =>
    forall r, 0 <= r < 1 -> row_proposes long_tiling long_gm g' r (fun n' n => n' < n)).
Proof. exact (@ngram_long_rows_shortest SoftAscendC SoftAscendC_laws _ _ _ _ long_ready eq_refl). Defined.

(** C30: The tiling function starts at most one block per vector core and per row,
    and every row of the batch belongs to exactly one block. *)
Theorem ngram_rows_partition t (HT : CallOk t) :
  returns (NgramSpecDecodeTilingFunc t) (fun '(i, n) => 1 <= n <= tc_aivNum t /\ n <= tc_batch_size t /\
    forall r, 0 <= r < tc_batch_size t -> exists b, 0 <= b < n /\
      forall b', 0 <= b' < n -> row_offset (Init i b') <= r < row_offset (Init i b') + my_rows (Init i b') <-> b' = b).
Proof.
  eapply returns_mono; [by apply NgramSpecDecodeTilingFunc_returns|]. intros [i n] [-> Hi].
  pose proof (dim_range t HT). split; [unfold dim in *; lia|]. split; [lia|]. intros r Hr.
  exists (owner t r). split; [by apply owner_block|]. intros b' Hb'. rewrite Hi by done. rewrite owner_rows by done.
  split; congruence.
Qed.

Lemma ngram_rows_partition_witness :
  returns (NgramSpecDecodeTilingFunc demo_tiling) (fun '(i, n) => 1 <= n <= 2 /\ n <= 5 /\
    forall r, 0 <= r < 5 -> exists b, 0 <= b < n /\
      forall b', 0 <= b' < n -> row_offset (Init i b') <= r < row_offset (Init i b') + my_rows (Init i b') <-> b' = b).
Proof. exact (ngram_rows_partition demo_tiling (cl_sizes _ _ _ _ demo_ready)). Defined.

(** A transfer into the rows of a batch, extended to 32 bytes, ends in the storage. *)
Lemma burst_in_storage batch width off count :
  0 <= width -> 0 <= off -> 0 <= count -> off + count <= batch * width -> off + align8 count <= storage_elems batch width.
Proof.
  intros Hw Ho Hc He. unfold storage_elems, OVER_WRITE_MARGIN, align8. destruct (Z.eq_dec width 0) as [->|].
  - assert (count = 0 /\ off = 0) as [-> ->] by lia. rewrite Z.mul_0_r. done.
  - pose proof (Z.mul_div_le (count + 7) 8 ltac:(lia)). lia.
Qed.

(** C23: Init and Process on a block return, and every transfer they ask for lies
    inside its buffer and its tensor.  With transfers that write what they are
    asked to ([AscendCLaws]) the tensors keep their shapes, the buffers theirs, the
    inputs of the operator are not written, and of the sequences and outputs only
    those of the block's own rows.  A write of an output that the hardware extends
    to 32 bytes, as the comment of the adapter says, still ends inside the storage
    that the adapter allocates for the output.  [CallReady] is as for
    [ngram_call_golden]. *)
Theorem ngram_block_frame `{HA : AscendC} `{HAL : !AscendCLaws} t ub order g b i n
    (HR : CallReady t ub order g) (HI : NgramSpecDecodeTilingFunc t = Ok (i, n)) (Hb : 0 <= b < n) :
  let c := Init i b in
  returns (Process c (g, ub b)) (fun '(g', u') =>
    GmOk c (tc_batch_size t) g' /\ CoreOk c u' /\ gm_frame c g g' (row_offset c) (row_offset c + my_rows c)) /\
  forall width off count, width = 1 \/ width = tc_k t -> 0 <= off -> 0 <= count -> off + count <= tc_batch_size t * width ->
    off + align8 count <= storage_elems (tc_batch_size t) width.
Proof.
  intros c. split; [|intros w off m Hw; pose proof (ca_k t (cl_sizes _ _ _ _ HR)); apply burst_in_storage; lia]. subst c. destruct HR as [HT HG Hu Ho Hl HV HK]. destruct (NgramSpecDecodeTilingFunc_returns t HT) as ([i' n'] & E & Hn & Hi).
  rewrite HI in E. injection E as <- <-. subst n. rewrite (Hi b Hb). cbn zeta.
  destruct (block_rows_range t HT b Hb) as (R1 & R2 & R3).
  eapply returns_mono; [apply (core_returns (conf t b) (conf_ok t HT b) (tc_batch_size t)); try done|].
  - by apply conf_gm_ok.
  - apply allocated_ok; [by apply conf_ok|apply (ca_maxn _ HT)|exact HK|by apply Hu].
  - intros r Hr. apply Hl. lia.
  - intros [g' u'] [HU [Hf _]]. split; [|done]. eapply gm_frame_ok; [by apply conf_gm_ok|done].
Qed.

Lemma ngram_block_frame_witness :
  exists i, NgramSpecDecodeTilingFunc demo_tiling = Ok (i, 2) /\
  returns (@Process SoftAscendC (Init i 1) (demo_gm, zero_ub (conf demo_tiling 1))) (fun '(g', u') =>
    GmOk (Init i 1) 5 g' /\ CoreOk (Init i 1) u' /\ gm_frame (Init i 1) demo_gm g' 2 5) /\
  forall width off count, width = 1 \/ width = 2 -> 0 <= off -> 0 <= count -> off + count <= 5 * width ->
    off + align8 count <= storage_elems 5 width.
Proof.
  eexists. split; [vm_compute; reflexivity|].
  refine (@ngram_block_frame SoftAscendC SoftAscendC_laws _ _ _ _ 1 _ 2 demo_ready _ _); [vm_compute; reflexivity|lia].
Defined.

(** ** Differences to the golden *)

(** Two rows of eight tokens, 1 9 2 1 8 2 with 1 sampled: the last token occurs at
    position 0, with 9 behind it, the last two at position 2, with 8 behind them. *)
Definition short_tiling : TilingContext := mkTilingContext 2 8 1 100 1 2 1 1 4096.
Definition short_gm : Gm :=
  mkGm [1; 9; 2; 1; 8; 2; 0; 0;  1; 9; 2; 1; 8; 2; 0; 0] [6; 6] [1; 1] [0; 0] [0; 0] [0; 0] [0; 0].

(** For rows in the buffer the operator takes the longest n-gram, the golden the
    shortest. *)
Theorem ngram_short_rows_diverge :
  returns (@call SoftAscendC short_tiling (fun b => zero_ub (conf short_tiling b)) (seqZ 0) short_gm) (fun g' =>
    vat (draftTokensGm g') 0 = 8) /\
  ro_draft (golden (conf short_tiling 0) (gm_row (conf short_tiling 0) short_gm 0)) 0 = 9.
Proof. split; [eexists; split; [vm_compute; reflexivity|reflexivity]|vm_compute; reflexivity]. Qed.

(** ** Inputs outside the preconditions *)

(** One row of 72 tokens (8 mod 64): tokens 0, 1, 2, ... with 90 at position 66,
    and 90 sampled behind the 69 tokens; the mask buffer holds [m] everywhere. *)
Definition stale_tiling : TilingContext := mkTilingContext 1 72 1 100 1 1 2 40 196608.
Definition stale_gm : Gm :=
  mkGm ((fun i => if i =? 66 then 90 else i) <$> seqZ 0 72) [69] [90] [0] [0] [0; 0] [0].
Definition stale_ub (m : Z) : Ub := (zero_ub (conf stale_tiling 0)) <| maskLocal := replicate (Z.to_nat 4096) m |>.

(** When the row length is not a multiple of 64, the comparison covers the rest
    of the row only up to a multiple of 64, and the bits behind it are those the
    mask buffer had before: the last token occurs at position 66, but the draft
    is empty or taken from behind position 64, depending on the old mask. *)
Theorem ngram_stale_mask :
  CallOk stale_tiling /\ GmOk (conf stale_tiling 0) 1 stale_gm /\ allocated (conf stale_tiling 0) (stale_ub 0) /\
  allocated (conf stale_tiling 0) (stale_ub 255) /\
  returns (@call SoftAscendC stale_tiling (fun _ => stale_ub 0) (seqZ 0) stale_gm) (fun g' =>
    suffix_at (vat (tokenGm g')) 70 1 66 /\ draftTokensGm g' = [-1; -1]) /\
  returns (@call SoftAscendC stale_tiling (fun _ => stale_ub 255) (seqZ 0) stale_gm) (fun g' =>
    ~ suffix_at (vat (tokenGm g')) 70 1 64 /\ draftTokensGm g' = [65; 90]).
Proof.
  split; [split; vm_compute; split; congruence|]. split; [split; vm_compute; done|].
  split; [vm_compute; reflexivity|]. split; [vm_compute; reflexivity|]. split.
  - eexists. split; [vm_compute; reflexivity|]. split; [|reflexivity].
    split; [lia|]. split; [lia|]. intros s Hs. by replace s with 0 by lia.
  - eexists. split; [vm_compute; reflexivity|]. split; [|reflexivity].
    intros (_ & _ & Hs). specialize (Hs 0 ltac:(lia)). vm_compute in Hs. discriminate.
Qed.

(** One row of 8320 tokens: 0 except for 7 at 0, (5, 7, 9) at 8200 and 5 at 8298. *)
Definition far_tiling : TilingContext := mkTilingContext 1 8320 1 100 1 2 1 40 196608.
Definition far_gm : Gm :=
  mkGm ([7] ++ replicate (Z.to_nat 8199) 0 ++ [5; 7; 9] ++ replicate (Z.to_nat 95) 0 ++ [5] ++ replicate (Z.to_nat 21) 0)
    [8299] [7] [0] [0] [0] [0].

Lemma far_ready : CallReady far_tiling (fun b => zero_ub (conf far_tiling b)) (seqZ 0) far_gm.
Proof.
  split.
  - split; vm_compute; split; congruence.
  - split; vm_compute; done.
  - intros b Hb. assert (b = 0) as -> by (revert Hb; unfold dim; cbn; lia). vm_compute. reflexivity.
  - done.
  - intros r. apply lens_ok_row; vm_compute; reflexivity.
  - intros _ _. vm_compute. reflexivity.
  - unfold ChunkOk. vm_compute. congruence.
Qed.

Abbreviation far_c := (conf far_tiling 0).
Abbreviation far_row := (gm_row far_c far_gm 0).
Abbreviation far_seq := (extended (max_seq_len far_c) (max_new_tokens far_c) (vocab_size_val far_c) far_row).

Lemma far_accepted : accepted_count (max_seq_len far_c) (max_new_tokens far_c) (vocab_size_val far_c) far_row = 1.
Proof. vm_compute. reflexivity. Qed.

(** The row with the sampled token. *)
Lemma far_seq_row i : far_seq i = if i =? 8299 then 7 else vat (tokenGm far_gm) i.
Proof.
  unfold extended. rewrite far_accepted. cbn [gm_row row_in ri_len ri_tok]. rewrite Z.add_0_l.
  replace (vat (numTokensGm far_gm) 0) with 8299 by reflexivity.
  destruct (Z.eqb_spec i 8299) as [->|]; [vm_compute; reflexivity|].
  destruct (Z.leb_spec 8299 i), (Z.ltb_spec i (8299 + 1)); cbn [andb]; done || lia.
Qed.

Lemma far_seq_zero i : 1 <= i < 8200 -> far_seq i = 0.
Proof.
  intros Hi. rewrite far_seq_row. rewrite (proj2 (Z.eqb_neq i 8299)) by lia. unfold vat, far_gm. cbn [tokenGm].
  rewrite lookup_app_r by (cbn [length]; lia). rewrite lookup_app_l by (rewrite length_replicate; cbn [length]; lia).
  rewrite lookup_replicate_2; [done|]. cbn [length]. lia.
Qed.

Lemma far_match (seq : Z -> Z) :
  seq 0 = 7 -> seq 8299 = 7 -> seq 8298 = 5 -> (forall i, 1 <= i < 8200 -> seq i = 0) ->
  nearest CMP_MAX 1 2 seq 8300 = Some (0, 1).
Proof.
  intros E0 E1 E2 Hz. unfold nearest. assert (lengths 1 2 8300 = [1; 2]) as -> by reflexivity. cbn [fold_left].
  rewrite (near_first _ _ _ 1 None 0).
  - apply near_none. intros q Hq Hw. specialize (Hw ltac:(done)). unfold CMP_MAX in Hw.
    unfold occurs, window_eq. rewrite (forallb_cons_seqZ _ 2) by lia. apply andb_false_iff. left.
    rewrite !Z.add_0_r. change (8300 - 2) with 8298. rewrite E2. destruct (Z.eq_dec q 0) as [->|]; [by rewrite E0|].
    by rewrite Hz by lia.
  - lia.
  - done.
  - apply window_eq_spec. intros s Hs. replace s with 0 by lia. change (8300 - 1 + 0) with 8299. by rewrite E1.
  - intros q Hq. lia.
Qed.

Lemma far_draft : ro_draft (reference far_c (selected far_c) far_row) 0 = 0.
Proof.
  cbn [reference row_out ro_draft]. unfold draft, row_match. rewrite far_accepted.
  replace (ri_len far_row) with 8299 by reflexivity. replace (selected far_c) with (nearest CMP_MAX) by reflexivity.
  replace (min_n_val far_c) with 1 by reflexivity. replace (max_n_val far_c) with 2 by reflexivity.
  replace (8299 + 1) with 8300 by reflexivity. replace ((0 <? 1) && (1 <=? 8300)) with true by reflexivity.
  rewrite far_match; [apply far_seq_zero; lia|rewrite far_seq_row; vm_compute; reflexivity..|exact far_seq_zero].
Qed.

(** After a match of a shorter n-gram, only the first 8192 positions are searched
    for a longer one: the last two tokens (5, 7) occur at position 8200 with 9
    behind them, but the draft is the token behind the single 7 at position 0. *)
Theorem ngram_far_match_missed `{HA : AscendC} `{HAL : !AscendCLaws} :
  returns (call far_tiling (fun b => zero_ub (conf far_tiling b)) (seqZ 0) far_gm) (fun g' =>
    suffix_at (vat (tokenGm g')) 8300 2 8200 /\ vat (tokenGm g') 8202 = 9 /\ vat (draftTokensGm g') 0 = 0).
Proof.
  eapply returns_mono; [apply (call_returns _ _ _ _ far_ready)|]. intros g' (_ & _ & _ & Hd).
  assert (Hr : 0 <= 0 < tc_batch_size far_tiling) by done. destruct (Hd 0 Hr) as [D1 _ D3 _].
  assert (Ht : forall i, 0 <= i < 8320 -> vat (tokenGm g') i = if i =? 8299 then 7 else vat (tokenGm far_gm) i).
  { intros i Hi. rewrite <- far_seq_row. specialize (D1 i Hi). rewrite Z.mul_0_l, Z.add_0_l in D1. exact D1. }
  split; [|split].
  - split; [lia|]. split; [lia|]. intros s Hs. rewrite !Ht by lia.
    assert (s = 0 \/ s = 1) as [-> | ->] by lia; vm_compute; reflexivity.
  - rewrite Ht by lia. vm_compute. reflexivity.
  - assert (Hk : 0 <= 0 < k_val far_c) by done. specialize (D3 0 Hk). rewrite Z.add_0_r, Z.mul_0_l in D3. rewrite D3. exact far_draft.
Qed.
End NgramTheorems.
