(* ===== verification/GatherKernel.v ===== *)
(** * Gathering of KV-cache pages: kv_cache_block_gather

    The tiling function of
    src/csrc/attention/kv_cache_block_gather/op_host/kv_cache_block_gather_tiling.cpp
    and the kernel class of op_kernel/kv_cache_block_gather.h.  Pages of a cache
    (flat blocks of elements) are copied to pages of another one; two arrays of
    page numbers say which goes where.  The pairs are dealt to the vector cores. *)

From S2P Require Import Prelude Ascend.

Module Gather.

(** ** Tiling *)

(** Element types of [ge::DataType] that the code names. *)
Inductive DataType := DT_FLOAT | DT_FLOAT16 | DT_BF16 | DT_INT8 | DT_INT32 | DT_OTHER.
#[global] Instance DataType_eq_dec : EqDecision DataType.
Proof. solve_decision. Defined.

Record KvCacheBlockGatherTilingData := mkTiling {
  selectedBlocks : Z;
  elemsPerBlock : Z;
  tileElems : Z
}.

Definition WS_SYS_SIZE : Z := 16 * 1024 * 1024.
Definition DEFAULT_TILE_ELEMS : Z := 1024.
Definition DATA_COPY_BLOCK_BYTES : Z := 32.

Definition KV_CACHE_BLOCK_GATHER_FLOAT_MODE : Z := 1.
Definition KV_CACHE_BLOCK_GATHER_FLOAT16_MODE : Z := 2.
Definition KV_CACHE_BLOCK_GATHER_BF16_MODE : Z := 3.
Definition KV_CACHE_BLOCK_GATHER_INT8_MODE : Z := 4.

(** What the context of a call answers; [None] is a null pointer (for the tiling
    data also one that memset_s refuses to clear). *)
Record TilingContext := mkContext {
  tc_coreNumAiv : option Z;
  tc_srcBlockIdsDesc : option DataType;
  tc_srcPagesDesc : option DataType;
  tc_dstBlockIdsDesc : option DataType;
  tc_outDesc : option DataType;
  tc_srcBlockIdsShape : option (list Z);
  tc_srcPagesShape : option (list Z);
  tc_dstBlockIdsShape : option (list Z);
  tc_outShape : option (list Z);
  tc_workspaces : option unit;
  tc_tilingData : option unit
}.

(** [OP_CHECK_IF(cond, log, return GRAPH_FAILED)]. *)
Definition OP_CHECK_IF (cond : bool) : option unit := if cond then None else Some tt.

Definition GetPlatformInfo (c : TilingContext) : option Z :=
  coreNum ← tc_coreNumAiv c;
  _ ← OP_CHECK_IF (coreNum =? 0);
  Some coreNum.

Definition GetWorkspaceSize (c : TilingContext) : option Z := _ ← tc_workspaces c; Some WS_SYS_SIZE.

Definition GetDim (shape : list Z) (i : Z) : Z := vat shape i.
Definition GetDimNum (shape : list Z) : Z := Z.of_nat (length shape).

(** [elems *= shape.GetDim(i)] over all dimensions. *)
Definition element_count (shape : list Z) : Z := fold_left (fun e d => i64 (e * d)) shape 1.

Definition GetShapeInfo (c : TilingContext) : option (Z * Z) :=
  srcBlockIds ← tc_srcBlockIdsShape c;
  srcPages ← tc_srcPagesShape c;
  dstBlockIds ← tc_dstBlockIdsShape c;
  out ← tc_outShape c;
  _ ← OP_CHECK_IF (negb (GetDimNum srcBlockIds =? 1));
  _ ← OP_CHECK_IF (negb (GetDimNum dstBlockIds =? 1));
  _ ← OP_CHECK_IF (GetDimNum out <? 1);
  let selected := GetDim srcBlockIds 0 in
  _ ← OP_CHECK_IF (selected <=? 0);
  _ ← OP_CHECK_IF (negb (GetDim dstBlockIds 0 =? selected));
  let outElems := element_count out in
  let dstBlocks := GetDim out 0 in
  _ ← OP_CHECK_IF (dstBlocks <=? 0);
  _ ← OP_CHECK_IF (negb (Z.rem outElems dstBlocks =? 0));
  let elems := Z.quot outElems dstBlocks in
  _ ← OP_CHECK_IF (elems <=? 0);
  _ ← OP_CHECK_IF (negb (Z.rem elems 8 =? 0));
  let srcElems := element_count srcPages in
  _ ← OP_CHECK_IF (srcElems <? elems);
  _ ← OP_CHECK_IF (negb (Z.rem srcElems elems =? 0));
  Some (selected, elems).

Definition IsSupportedPayloadDtype (d : DataType) : bool :=
  match d with DT_FLOAT | DT_FLOAT16 | DT_BF16 | DT_INT8 => true | _ => false end.

Definition GetDataCopyAlignmentElems (d : DataType) : Z :=
  match d with
  | DT_FLOAT => DATA_COPY_BLOCK_BYTES / 4
  | DT_FLOAT16 | DT_BF16 => DATA_COPY_BLOCK_BYTES / 2
  | _ => DATA_COPY_BLOCK_BYTES / 1
  end.

Definition CheckDtypes (c : TilingContext) : option DataType :=
  srcBlockIds ← tc_srcBlockIdsDesc c;
  srcPages ← tc_srcPagesDesc c;
  dstBlockIds ← tc_dstBlockIdsDesc c;
  out ← tc_outDesc c;
  _ ← OP_CHECK_IF (negb (bool_decide (srcBlockIds = DT_INT32)));
  _ ← OP_CHECK_IF (negb (bool_decide (dstBlockIds = DT_INT32)));
  _ ← OP_CHECK_IF (negb (IsSupportedPayloadDtype srcPages));
  _ ← OP_CHECK_IF (negb (bool_decide (out = srcPages)));
  Some srcPages.

(** The template specialisation that is launched. *)
Definition GetTilingKeyByDtype (d : DataType) : Z :=
  match d with
  | DT_FLOAT16 => KV_CACHE_BLOCK_GATHER_FLOAT16_MODE
  | DT_BF16 => KV_CACHE_BLOCK_GATHER_BF16_MODE
  | DT_INT8 => KV_CACHE_BLOCK_GATHER_INT8_MODE
  | _ => KV_CACHE_BLOCK_GATHER_FLOAT_MODE
  end.

(** What an accepted call is launched with. *)
Record Launch := mkLaunch {
  la_tiling : KvCacheBlockGatherTilingData;
  la_blockDim : Z;
  la_tilingKey : Z;
  la_workspace : Z
}.

Definition KvCacheBlockGatherTilingFunc (c : TilingContext) : option Launch :=
  coreNum ← GetPlatformInfo c;
  payloadDtype ← CheckDtypes c;
  '(selected, elems) ← GetShapeInfo c;
  let alignmentElems := GetDataCopyAlignmentElems payloadDtype in
  _ ← OP_CHECK_IF (negb (Z.rem elems alignmentElems =? 0));
  workspace ← GetWorkspaceSize c;
  _ ← tc_tilingData c;
  let blockDim := Z.min coreNum selected in
  Some (mkLaunch (mkTiling selected elems (Z.min DEFAULT_TILE_ELEMS elems)) (u32 blockDim)
          (GetTilingKeyByDtype payloadDtype) workspace).

(** ** Kernel *)

Section Kernel.
Context `{AscendCopy}.
(** Members: the tiling data and the tensors that are only read. *)
Context (t : KvCacheBlockGatherTilingData) (srcBlockIds dstBlockIds srcPages : list Z).
(** The input and output tensors that the queues hand out for the tile at an
    offset of a pair. *)
Context (AllocTensor : Z -> Z -> list Z * list Z).

(** A round of [while (copied < elemsPerBlock_)]. *)
Definition CopyBlock_step (pairIdx srcBase dstBase : Z) (st : Z * list Z) : res (bool * (Z * list Z)) :=
  let '(copied, out) := st in
  if copied <? elemsPerBlock t then
    let remain := elemsPerBlock t - copied in
    let copyElems := if remain <? tileElems t then remain else tileElems t in
    let '(inLocal, outLocal) := AllocTensor pairIdx copied in
    inLocal ← data_copy_in inLocal srcPages (srcBase + copied) copyElems;
    outLocal ← data_copy_local outLocal inLocal copyElems;
    out ← data_copy_out out (dstBase + copied) outLocal copyElems;
    Ok (true, (copied + copyElems, out))
  else Ok (false, st).

Definition CopyBlock (pairIdx : Z) (out : list Z) : res (list Z) :=
  srcPageIdx ← vget srcBlockIds pairIdx;
  dstPageIdx ← vget dstBlockIds pairIdx;
  let srcBase := i64 (srcPageIdx * elemsPerBlock t) in
  let dstBase := i64 (dstPageIdx * elemsPerBlock t) in
  '(_, out) ← while_loop (S (Z.to_nat (elemsPerBlock t))) (CopyBlock_step pairIdx srcBase dstBase) (0, out);
  Ok out.

(** The pairs of a core: its index, then in steps of the number of cores. *)
Definition Process (blockIdx blockNum : Z) (out : list Z) : res (list Z) :=
  for_step blockIdx (selectedBlocks t) blockNum (fun pair out => out ← CopyBlock pair out; Ok (true, out)) out.
End Kernel.

(** The entry point: one of four specialisations, which differ in the size of an
    element only. *)
Definition kv_cache_block_gather `{AscendCopy} (schMode : Z) (t : KvCacheBlockGatherTilingData)
    (srcBlockIds dstBlockIds srcPages : list Z) (AllocTensor : Z -> Z -> list Z * list Z)
    (blockIdx blockNum : Z) (out : list Z) : res (list Z) :=
  if (1 <=? schMode) && (schMode <=? 4)
  then Process t srcBlockIds dstBlockIds srcPages AllocTensor blockIdx blockNum out
  else Ok out.
End Gather.
