(* ===== verification/GatherTheorems.v ===== *)
(** * Theorems about kv_cache_block_gather

    An accepted call copies the named pages, whatever the order of the cores; what
    the tiling function accepts; pages that are moved out and back are
    unchanged. *)

From S2P Require Import Prelude Ascend Tensor GatherKernel.

Module GatherTheorems.
Import Gather.

(** ** The kernel *)

(** Tiling data as the host computes them. *)
Record TilingOk (block : Z) (t : KvCacheBlockGatherTilingData) : Prop := {
  tk_block : 0 < block;
  tk_elems : 0 < elemsPerBlock t < 2 ^ 31;
  tk_tile : 0 < tileElems t;
  tk_elems_block : elemsPerBlock t mod block = 0;
  tk_tile_block : tileElems t mod block = 0
}.

(** Page numbers inside their caches, no page written twice. *)
Record PagesOk (t : KvCacheBlockGatherTilingData) (srcIds dstIds src out : list Z) : Prop := {
  pg_src_len : Z.of_nat (length srcIds) = selectedBlocks t;
  pg_dst_len : Z.of_nat (length dstIds) = selectedBlocks t;
  pg_src : forall i, 0 <= i < selectedBlocks t ->
    0 <= vat srcIds i < 2 ^ 31 /\ (vat srcIds i + 1) * elemsPerBlock t <= Z.of_nat (length src);
  pg_dst : forall i, 0 <= i < selectedBlocks t ->
    0 <= vat dstIds i < 2 ^ 31 /\ (vat dstIds i + 1) * elemsPerBlock t <= Z.of_nat (length out);
  pg_once : forall i j, 0 <= i < selectedBlocks t -> 0 <= j < selectedBlocks t -> i <> j -> vat dstIds i <> vat dstIds j
}.

Section Kernel.
Context `{HA : AscendCopy} (block : Z) `{HAL : !AscendCopyLaws block}.
Context (t : KvCacheBlockGatherTilingData) (srcIds dstIds src : list Z) (alloc : Z -> Z -> list Z * list Z).
Context (HT : TilingOk block t).
(** The queues hand out tensors of a tile. *)
Context (Halloc : forall p c, Z.of_nat (length (alloc p c).1) = tileElems t /\ Z.of_nat (length (alloc p c).2) = tileElems t).
Abbreviation E := (elemsPerBlock t).

(** The size of the tile at [copied]: a multiple of the block. *)
Lemma tile_size copied :
  0 <= copied < E -> copied mod block = 0 ->
  let n := if E - copied <? tileElems t then E - copied else tileElems t in
  0 < n <= tileElems t /\ copied + n <= E /\ n mod block = 0 /\ (copied + n) mod block = 0.
Proof.
  intros Hc Hm n. destruct HT as [B1 B2 B3 B4 B5].
  assert (Hn : n mod block = 0).
  { unfold n. destruct (_ <? _); [|done]. by rewrite Zminus_mod, B4, Hm, Z.mod_0_l by lia. }
  assert (0 < n <= tileElems t /\ copied + n <= E) by (unfold n; destruct (Z.ltb_spec (E - copied) (tileElems t)); lia).
  split; [lia|]. split; [lia|]. split; [done|]. by rewrite Z.add_mod, Hm, Hn, Z.mod_0_l by lia.
Qed.

(** A tile goes through both local tensors to its place. *)
Lemma tile_returns p copied s d n out :
  0 <= n <= tileElems t -> n mod block = 0 -> 0 <= s -> s + n <= Z.of_nat (length src) ->
  0 <= d -> d + n <= Z.of_nat (length out) ->
  returns (let '(inLocal, outLocal) := alloc p copied in
           inLocal ← data_copy_in inLocal src s n;
           outLocal ← data_copy_local outLocal inLocal n;
           data_copy_out out d outLocal n)
    (fun out' => outside d (d + n) out out' /\ forall i, 0 <= i < n -> vat out' (d + i) = vat src (s + i)).
Proof.
  intros Hn Hm Hs Hsl Hd Hdl. destruct (Halloc p copied) as [A1 A2]. destruct (alloc p copied) as [a b]. cbn [fst snd] in *.
  unfold data_copy_in, data_copy_local, data_copy_out. rewrite !in_tensor_ok by lia. cbn [andb mbind res_bind].
  rewrite !in_tensor_ok by (rewrite ?dci_length; lia). cbn [andb mbind res_bind].
  rewrite !in_tensor_ok by (rewrite ?dcl_length; lia). apply returns_ok. split; [split; [apply dco_length|]|].
  - intros i Hi Ho. by apply dco_other.
  - intros i Hi. rewrite dco_data, dcl_data, dci_data by (rewrite ?dci_length, ?dcl_length; lia || done). done.
Qed.

Lemma CopyBlock_returns pair out :
  PagesOk t srcIds dstIds src out -> 0 <= pair < selectedBlocks t ->
  returns (CopyBlock t srcIds dstIds src alloc pair out) (fun out' =>
    outside (vat dstIds pair * E) (vat dstIds pair * E + E) out out' /\
    page_eq E out' (vat dstIds pair) src (vat srcIds pair)).
Proof.
  intros [L1 L2 PS PD _] Hp. destruct (PS pair Hp) as [S1 S2], (PD pair Hp) as [D1 D2]. pose proof (tk_elems _ _ HT).
  unfold CopyBlock. rewrite !vget_ok by lia. cbn [mbind res_bind]. rewrite !i64_id by nia.
  set (s := vat srcIds pair) in *. set (d := vat dstIds pair) in *.
  set (I := fun '(copied, out') => 0 <= copied <= E /\ copied mod block = 0 /\ outside (d * E) (d * E + E) out out' /\
    forall i, 0 <= i < copied -> vat out' (d * E + i) = vat src (s * E + i)).
  eapply (returns_bind_mono _ _ (fun '(_, out') => outside (d * E) (d * E + E) out out' /\ page_eq E out' d src s));
    [|intros [c o] [Ho Hv]; by apply returns_ok].
  apply (while_loop_returns I _ (fun '(copied, _) => Z.to_nat (E - copied))); [|split_and!; done || lia|lia].
  intros [copied o] (Hc & Hm & Ho & Hv). unfold CopyBlock_step.
  destruct (Z.ltb_spec copied E) as [Hlt|]; [|apply returns_ok; split; [done|]; intros i Hi; apply Hv; lia].
  destruct (tile_size copied ltac:(lia) Hm) as (N1 & N2 & N3 & N4). cbv zeta.
  set (n := if E - copied <? tileElems t then E - copied else tileElems t) in *.
  destruct (tile_returns pair copied (s * E + copied) (d * E + copied) n o) as (o' & Eo & Ho' & Hv');
    [lia|done|nia|nia|nia|rewrite (proj1 Ho); nia|].
  destruct (alloc pair copied) as [a b]. cbn [mbind res_bind] in *.
  destruct (data_copy_in a src _ n); cbn [mbind res_bind] in *; [|done].
  destruct (data_copy_local b _ n); cbn [mbind res_bind] in *; [|done]. rewrite Eo. cbn [mbind res_bind].
  apply returns_ok. split; [|lia]. split_and!; try lia; try done.
  - eapply outside_trans; [exact Ho|]. eapply outside_weaken; [exact Ho'|lia|lia].
  - intros i Hi. destruct (Z.lt_ge_cases i copied).
    + rewrite (proj2 Ho'); [apply Hv; lia|nia|lia].
    + replace (d * E + i) with (d * E + copied + (i - copied)) by lia. rewrite Hv' by lia. f_equal. lia.
Qed.

(** All pairs in any order. *)
Lemma pairs_returns pairs out :
  PagesOk t srcIds dstIds src out -> pairs ≡ₚ seqZ 0 (selectedBlocks t) ->
  returns (run_list (CopyBlock t srcIds dstIds src alloc) pairs out) (fun out' =>
    length out' = length out /\
    (forall i, 0 <= i < selectedBlocks t -> page_eq E out' (vat dstIds i) src (vat srcIds i)) /\
    forall p, 0 <= p -> (forall i, 0 <= i < selectedBlocks t -> vat dstIds i <> p) -> page_eq E out' p out p).
Proof.
  intros HP Hp. destruct (HP) as [L1 L2 PS PD P1]. pose proof (tk_elems _ _ HT).
  assert (Hin : forall x, x ∈ pairs <-> 0 <= x < selectedBlocks t) by (intros x; rewrite Hp, elem_of_seqZ; lia).
  eapply returns_mono; [apply (run_list_wrote (fun i => vat dstIds i * E) (fun i => vat dstIds i * E + E)
    (fun i j => vat src (vat srcIds i * E + (j - vat dstIds i * E))))|].
  - split; [rewrite Hp; apply NoDup_seqZ|intros x Hx%Hin; destruct (PD x Hx); nia|].
    intros x y i Hx%Hin Hy%Hin Hn Hi. specialize (P1 x y Hx Hy Hn). nia.
  - intros x out' Hx%Hin Hl. eapply returns_mono; [apply CopyBlock_returns; [|done]|].
    { split; try done. intros i Hi. rewrite Hl. by apply PD. }
    intros o [Ho Hv]. apply wrote_one; [done|]. intros i Hi.
    replace i with (vat dstIds x * E + (i - vat dstIds x * E)) at 1 by lia. apply Hv. lia.
  - intros out' (Hl & Hv & Ho). split; [done|]. split.
    + intros i Hi e He. rewrite (Hv i) by (apply Hin in Hi || lia; done || lia). f_equal. lia.
    + intros p Hp0 Hn i Hi. apply Ho; [nia|]. intros x Hx%Hin. specialize (Hn x Hx). nia.
Qed.
End Kernel.

(** ** Tiling *)

(** What the tiling function documents: int32 page numbers in two vectors of the
    same positive length, a supported payload type on both sides, pages of [e]
    elements that are whole 32-byte blocks, and source and destination that
    consist of whole pages. *)
Record Accepts (c : TilingContext) (cores : Z) (d : DataType) (n e : Z) (ss os : list Z) (la : Launch) : Prop := {
  ac_cores : tc_coreNumAiv c = Some cores /\ cores <> 0;
  ac_ids : tc_srcBlockIdsDesc c = Some DT_INT32 /\ tc_dstBlockIdsDesc c = Some DT_INT32;
  ac_payload : tc_srcPagesDesc c = Some d /\ tc_outDesc c = Some d /\ IsSupportedPayloadDtype d = true;
  ac_pairs : tc_srcBlockIdsShape c = Some [n] /\ tc_dstBlockIdsShape c = Some [n] /\ 0 < n;
  ac_pages : tc_srcPagesShape c = Some ss /\ tc_outShape c = Some os;
  ac_out : 0 < GetDim os 0 /\ element_count os = e * GetDim os 0;
  ac_elems : 0 < e /\ e mod GetDataCopyAlignmentElems d = 0;
  ac_src : e <= element_count ss /\ element_count ss mod e = 0;
  ac_runtime : tc_workspaces c = Some tt /\ tc_tilingData c = Some tt;
  ac_launch : la = mkLaunch (mkTiling n e (Z.min DEFAULT_TILE_ELEMS e)) (u32 (Z.min cores n)) (GetTilingKeyByDtype d) WS_SYS_SIZE
}.

Lemma one_dim (l : list Z) n : GetDimNum l = 1 -> GetDim l 0 = n -> l = [n].
Proof. unfold GetDimNum, GetDim. destruct l as [|x [|]]; cbn; intros; try lia. by subst. Qed.

Lemma block_of_8 d e : IsSupportedPayloadDtype d = true -> e mod GetDataCopyAlignmentElems d = 0 -> e mod 8 = 0.
Proof.
  intros _ H. apply Z.mod_divide in H as [q ->]; [|by destruct d].
  assert (exists k, GetDataCopyAlignmentElems d = k * 8) as [k ->] by (destruct d; [exists 1|exists 2|exists 2|exists 4..]; done).
  rewrite Z.mul_assoc. by apply Z.mod_mul.
Qed.

Lemma align_pos d : 0 < GetDataCopyAlignmentElems d.
Proof. by destruct d. Qed.

Lemma quot_of_multiple a b : 0 < b -> Z.rem a b = 0 -> a = Z.quot a b * b.
Proof. intros Hb Hr. pose proof (Z.quot_rem a b ltac:(lia)). lia. Qed.

Lemma rem_mod_0 a b : 0 < b -> Z.rem a b = 0 <-> a mod b = 0.
Proof. intros Hb. rewrite Z.rem_divide, Z.mod_divide by lia. done. Qed.

Lemma tiling_accepted c la :
  KvCacheBlockGatherTilingFunc c = Some la -> exists cores d n e ss os, Accepts c cores d n e ss os la.
Proof.
  unfold KvCacheBlockGatherTilingFunc, GetPlatformInfo, CheckDtypes, GetShapeInfo, GetWorkspaceSize, OP_CHECK_IF.
  intros H. destruct (tc_coreNumAiv c) as [cores|] eqn:E1; cbn in H; cbn in H; [|done]. destruct (Z.eqb_spec cores 0); cbn in H; [done|].
  destruct (tc_srcBlockIdsDesc c) as [d1|] eqn:E2; cbn in H; cbn in H; [|done]. destruct (tc_srcPagesDesc c) as [d|] eqn:E3; cbn in H; [|done].
  destruct (tc_dstBlockIdsDesc c) as [d2|] eqn:E4; cbn in H; cbn in H; [|done]. destruct (tc_outDesc c) as [d3|] eqn:E5; cbn in H; [|done].
  destruct (bool_decide (d1 = DT_INT32)) eqn:B1; cbn in H; [|done]. destruct (bool_decide (d2 = DT_INT32)) eqn:B2; cbn in H; [|done].
  destruct (IsSupportedPayloadDtype d) eqn:E6; cbn in H; cbn in H; [|done]. destruct (bool_decide (d3 = d)) eqn:B3; cbn in H; [|done].
  apply bool_decide_eq_true in B1, B2, B3. subst d1 d2 d3.
  destruct (tc_srcBlockIdsShape c) as [s1|] eqn:E7; cbn in H; cbn in H; [|done]. destruct (tc_srcPagesShape c) as [ss|] eqn:E8; cbn in H; [|done].
  destruct (tc_dstBlockIdsShape c) as [s2|] eqn:E9; cbn in H; cbn in H; [|done]. destruct (tc_outShape c) as [os|] eqn:E10; cbn in H; [|done].
  destruct (Z.eqb_spec (GetDimNum s1) 1) as [N1|]; cbn in H; [|done]. destruct (Z.eqb_spec (GetDimNum s2) 1) as [N2|]; cbn in H; [|done].
  destruct (Z.ltb_spec (GetDimNum os) 1); cbn in H; [done|]. destruct (Z.leb_spec (GetDim s1 0) 0); cbn in H; [done|].
  destruct (Z.eqb_spec (GetDim s2 0) (GetDim s1 0)) as [N3|]; cbn in H; [|done].
  destruct (Z.leb_spec (GetDim os 0) 0); cbn in H; [done|].
  destruct (Z.eqb_spec (Z.rem (element_count os) (GetDim os 0)) 0) as [R1|]; cbn in H; [|done].
  set (e := Z.quot (element_count os) (GetDim os 0)) in *. destruct (Z.leb_spec e 0); cbn in H; [done|].
  destruct (Z.eqb_spec (Z.rem e 8) 0); cbn in H; cbn in H; [|done]. destruct (Z.ltb_spec (element_count ss) e); cbn in H; [done|].
  destruct (Z.eqb_spec (Z.rem (element_count ss) e) 0) as [R2|]; cbn in H; [|done].
  destruct (Z.eqb_spec (Z.rem e (GetDataCopyAlignmentElems d)) 0) as [R3|]; cbn in H; [|done].
  destruct (tc_workspaces c) as [[]|] eqn:E11; cbn in H; [|done]. destruct (tc_tilingData c) as [[]|] eqn:E12; cbn in H; [|done].
  injection H as <-. exists cores, d, (GetDim s1 0), e, ss, os. split; try done.
  - rewrite E7, E9. split; [f_equal; by apply one_dim|]. split; [f_equal; by apply one_dim|done].
  - split; [done|]. by apply quot_of_multiple.
  - split; [done|]. apply rem_mod_0; [apply align_pos|done].
  - split; [done|]. apply rem_mod_0; [lia|done].
Qed.

Lemma tiling_accepts c cores d n e ss os la :
  Accepts c cores d n e ss os la -> KvCacheBlockGatherTilingFunc c = Some la.
Proof.
  intros [[C1 C2] [I1 I2] (P1 & P2 & P3) (S1 & S2 & S3) [G1 G2] [O1 O2] [M1 M2] [R1 R2] [W1 W2] ->].
  unfold KvCacheBlockGatherTilingFunc, GetPlatformInfo, CheckDtypes, GetShapeInfo, GetWorkspaceSize, OP_CHECK_IF.
  rewrite C1, I1, I2, P1, P2, S1, S2, G1, G2, W1, W2. cbn [mbind option_bind].
  rewrite (proj2 (Z.eqb_neq cores 0) C2), P3, !bool_decide_true by done. cbn [negb mbind option_bind].
  assert (L : (GetDimNum os <? 1) = false)
    by (apply Z.ltb_ge; destruct os; [by vm_compute in O1|unfold GetDimNum; cbn [length]; lia]).
  change (GetDimNum [n]) with 1. change (GetDim [n] 0) with n. cbn [negb Z.eqb Pos.eqb mbind option_bind].
  rewrite L, (proj2 (Z.leb_gt n 0)), Z.eqb_refl, (proj2 (Z.leb_gt (GetDim os 0) 0)) by lia. cbn [negb mbind option_bind].
  rewrite O2, Z.rem_mul, Z.quot_mul by lia. cbn [negb Z.eqb mbind option_bind].
  rewrite (proj2 (Z.leb_gt e 0)) by lia. cbn [mbind option_bind].
  rewrite (proj2 (rem_mod_0 e 8 ltac:(lia)) (block_of_8 d e P3 M2)). cbn [negb Z.eqb mbind option_bind].
  rewrite (proj2 (Z.ltb_ge _ _) R1), (proj2 (rem_mod_0 _ e M1) R2). cbn [negb Z.eqb mbind option_bind].
  by rewrite (proj2 (rem_mod_0 e _ (align_pos d)) M2).
Qed.

(** ** A call *)

(** The blocks of a launch, in the order that [order] gives. *)
Definition launch `{AscendCopy} (la : Launch) (srcIds dstIds src : list Z) (alloc : Z -> Z -> list Z * list Z)
    (order : Z -> list Z) (out : list Z) : res (list Z) :=
  run_list (fun b => kv_cache_block_gather (la_tilingKey la) (la_tiling la) srcIds dstIds src alloc b (la_blockDim la))
    (order (la_blockDim la)) out.

(** Platform, queues and order of a launch. *)
Record LaunchOk (c : TilingContext) (la : Launch) (alloc : Z -> Z -> list Z * list Z) (order : Z -> list Z) : Prop := {
  lo_accepted : KvCacheBlockGatherTilingFunc c = Some la;
  lo_cores : forall n, tc_coreNumAiv c = Some n -> 0 <= n < 2 ^ 32;
  lo_elems : elemsPerBlock (la_tiling la) < 2 ^ 31;
  lo_alloc : forall p k, Z.of_nat (length (alloc p k).1) = tileElems (la_tiling la) /\
    Z.of_nat (length (alloc p k).2) = tileElems (la_tiling la);
  lo_order : forall n, order n ≡ₚ seqZ 0 n
}.

Lemma launch_pairs `{AscendCopy} la srcIds dstIds src alloc order out :
  1 <= la_tilingKey la <= 4 ->
  launch la srcIds dstIds src alloc order out =
  run_list (CopyBlock (la_tiling la) srcIds dstIds src alloc)
    (order (la_blockDim la) ≫= fun b => strided b (selectedBlocks (la_tiling la)) (la_blockDim la)) out.
Proof.
  intros Hk. unfold launch.
  assert (Hb : forall b o, kv_cache_block_gather (la_tilingKey la) (la_tiling la) srcIds dstIds src alloc b (la_blockDim la) o =
    run_list (CopyBlock (la_tiling la) srcIds dstIds src alloc) (strided b (selectedBlocks (la_tiling la)) (la_blockDim la)) o).
  { intros b o. unfold kv_cache_block_gather. rewrite (proj2 (Z.leb_le 1 _)), (proj2 (Z.leb_le _ 4)) by lia. cbn [andb].
    apply (for_step_run_list (CopyBlock (la_tiling la) srcIds dstIds src alloc)). }
  generalize (order (la_blockDim la)) as bs. intros bs. revert out.
  induction bs as [|b bs IH]; intros out; [done|]. cbn [run_list]. rewrite bind_cons, run_list_app, Hb.
  destruct (run_list _ _ out); [apply IH|done].
Qed.

Lemma launch_tiling c la alloc order d :
  LaunchOk c la alloc order -> tc_srcPagesDesc c = Some d ->
  TilingOk (GetDataCopyAlignmentElems d) (la_tiling la) /\ 1 <= la_tilingKey la <= 4 /\ 0 < la_blockDim la.
Proof.
  intros [HA HC He _ _] Ed. apply tiling_accepted in HA as (cores & d' & n & e & ss & os & [C I P S G O M R W ->]).
  destruct P as (P1 & _ & _). rewrite Ed in P1. injection P1 as <-. destruct C as [C1 C2]. specialize (HC _ C1).
  cbn [la_tiling la_tilingKey la_blockDim elemsPerBlock] in *. split; [|split].
  - destruct M as [M1 M2]. split; cbn [elemsPerBlock tileElems]; unfold DEFAULT_TILE_ELEMS; [apply align_pos|lia|lia|done|].
    destruct (Z.min_spec 1024 e) as [[_ ->]|[_ ->]]; [by destruct d|done].
  - destruct d; cbn; unfold KV_CACHE_BLOCK_GATHER_FLOAT_MODE, KV_CACHE_BLOCK_GATHER_FLOAT16_MODE,
      KV_CACHE_BLOCK_GATHER_BF16_MODE, KV_CACHE_BLOCK_GATHER_INT8_MODE; lia.
  - destruct S as (_ & _ & S3). rewrite u32_id by lia. lia.
Qed.

Lemma launch_returns `{HA : AscendCopy} d `{HAL : !AscendCopyLaws (GetDataCopyAlignmentElems d)} c la alloc order srcIds dstIds src out :
  LaunchOk c la alloc order -> tc_srcPagesDesc c = Some d -> PagesOk (la_tiling la) srcIds dstIds src out ->
  let E := elemsPerBlock (la_tiling la) in
  let n := selectedBlocks (la_tiling la) in
  returns (launch la srcIds dstIds src alloc order out) (fun out' =>
    length out' = length out /\
    (forall i, 0 <= i < n -> page_eq E out' (vat dstIds i) src (vat srcIds i)) /\
    forall p, 0 <= p -> (forall i, 0 <= i < n -> vat dstIds i <> p) -> page_eq E out' p out p).
Proof.
  intros HL Hd HP E n. destruct (launch_tiling _ _ _ _ _ HL Hd) as (HT & Hk & Hb). rewrite launch_pairs by done.
  apply (pairs_returns (GetDataCopyAlignmentElems d)); [done|apply HL|done|].
  apply strided_partition; [done|apply HL].
Qed.

(** ** Concrete calls *)

(** Pages 2 and 0 of a cache of three pages go to pages 1 and 3 of one of four. *)
Definition demo_context : TilingContext :=
  mkContext (Some 40) (Some DT_INT32) (Some DT_FLOAT) (Some DT_INT32) (Some DT_FLOAT)
    (Some [2]) (Some [3; 8]) (Some [2]) (Some [4; 2; 4]) (Some tt) (Some tt).
Definition demo_launch : Launch := mkLaunch (mkTiling 2 8 8) 2 1 WS_SYS_SIZE.
Definition demo_tensors (_ _ : Z) : list Z * list Z := (replicate 8 0, replicate 8 0).

Lemma demo_LaunchOk : LaunchOk demo_context demo_launch demo_tensors (fun n => rev (seqZ 0 n)).
Proof.
  split; [vm_compute; reflexivity|intros n [= <-]; lia|vm_compute; reflexivity|done|].
  intros n. by rewrite <- Permutation_rev.
Qed.

Lemma two_cases i : 0 <= i < 2 -> i = 0 \/ i = 1.
Proof. lia. Qed.

Ltac by_two_pages :=
  split; try reflexivity; cbn [demo_launch la_tiling selectedBlocks elemsPerBlock];
    [intros i Hi; destruct (two_cases i Hi) as [-> | ->]; vm_compute; intuition congruence..|
     intros i j Hi Hj Hn; destruct (two_cases i Hi) as [-> | ->], (two_cases j Hj) as [-> | ->]; vm_compute; congruence].

Lemma demo_PagesOk : PagesOk (la_tiling demo_launch) [2; 0] [1; 3] (seqZ 100 24) (replicate 32 0).
Proof.
  by_two_pages.
Qed.

(** ** Theorems *)

(** C12: An accepted call of kv_cache_block_gather returns, in whatever order its
    blocks run: every named source page is in the page of the output that it is
    paired with, and the other pages of the output are unchanged. *)
Theorem gather_pages `{HA : AscendCopy} d `{HAL : !AscendCopyLaws (GetDataCopyAlignmentElems d)}
    c la alloc order srcIds dstIds src out
    (HL : LaunchOk c la alloc order) (Hd : tc_srcPagesDesc c = Some d) (HP : PagesOk (la_tiling la) srcIds dstIds src out) :
  let E := elemsPerBlock (la_tiling la) in
  let n := selectedBlocks (la_tiling la) in
  returns (launch la srcIds dstIds src alloc order out) (fun out' =>
    length out' = length out /\
    (forall i, 0 <= i < n -> page_eq E out' (vat dstIds i) src (vat srcIds i)) /\
    forall p, 0 <= p -> (forall i, 0 <= i < n -> vat dstIds i <> p) -> page_eq E out' p out p).
Proof. by apply (launch_returns d c). Qed.

Lemma gather_pages_witness :
  returns (@launch SoftCopy demo_launch [2; 0] [1; 3] (seqZ 100 24) demo_tensors (fun n => rev (seqZ 0 n)) (replicate 32 0))
    (fun out' => length out' = 32%nat /\ (forall i, 0 <= i < 2 -> page_eq 8 out' (vat [1; 3] i) (seqZ 100 24) (vat [2; 0] i)) /\
      forall p, 0 <= p -> (forall i, 0 <= i < 2 -> vat [1; 3] i <> p) -> page_eq 8 out' p (replicate 32 0) p).
Proof.
  exact (@gather_pages SoftCopy DT_FLOAT (SoftCopy_laws _) demo_context demo_launch _ _ _ _ _ _ demo_LaunchOk eq_refl demo_PagesOk).
Defined.

(** C14: Pages that one call moves to another cache and a second call moves back
    are as they were: the second call restores every page, and changes no other
    page of the cache it writes to. *)
Theorem gather_roundtrip `{HA : AscendCopy} d `{HAL : !AscendCopyLaws (GetDataCopyAlignmentElems d)}
    c1 la1 alloc1 order1 c2 la2 alloc2 order2 ids slots src mid back
    (H1 : LaunchOk c1 la1 alloc1 order1) (D1 : tc_srcPagesDesc c1 = Some d) (P1 : PagesOk (la_tiling la1) ids slots src mid)
    (H2 : LaunchOk c2 la2 alloc2 order2) (D2 : tc_srcPagesDesc c2 = Some d) (P2 : PagesOk (la_tiling la2) slots ids mid back)
    (HE : elemsPerBlock (la_tiling la2) = elemsPerBlock (la_tiling la1)) :
  let E := elemsPerBlock (la_tiling la1) in
  let n := selectedBlocks (la_tiling la1) in
  returns (mid' ← launch la1 ids slots src alloc1 order1 mid; launch la2 slots ids mid' alloc2 order2 back) (fun back' =>
    (forall i, 0 <= i < n -> page_eq E back' (vat ids i) src (vat ids i)) /\
    forall p, 0 <= p -> (forall i, 0 <= i < n -> vat ids i <> p) -> page_eq E back' p back p).
Proof.
  intros E n. assert (Hn : selectedBlocks (la_tiling la2) = n) by (unfold n; rewrite <- (pg_src_len _ _ _ _ _ P1); symmetry; apply P2).
  eapply returns_bind_mono; [by apply (launch_returns d c1)|]. intros mid' (Lm & Hm & _).
  eapply returns_mono; [apply (launch_returns d c2); [done|done|]|].
  - destruct P2 as [Q1 Q2 Q3 Q4 Q5]. split; try done. by rewrite Lm.
  - rewrite HE, Hn. intros back' (_ & Hb & Ho). split; [|done].
    intros i Hi e He. etransitivity; [by apply Hb|by apply Hm].
Qed.

Definition back_context : TilingContext :=
  mkContext (Some 40) (Some DT_INT32) (Some DT_FLOAT) (Some DT_INT32) (Some DT_FLOAT)
    (Some [2]) (Some [4; 8]) (Some [2]) (Some [3; 8]) (Some tt) (Some tt).

Lemma back_LaunchOk : LaunchOk back_context demo_launch demo_tensors (seqZ 0).
Proof. split; [vm_compute; reflexivity|intros n [= <-]; lia|vm_compute; reflexivity|done|done]. Qed.

Lemma back_PagesOk : PagesOk (la_tiling demo_launch) [1; 3] [2; 0] (replicate 32 0) (replicate 24 7).
Proof.
  by_two_pages.
Qed.

Lemma gather_roundtrip_witness :
  returns (mid' ← @launch SoftCopy demo_launch [2; 0] [1; 3] (seqZ 100 24) demo_tensors (fun n => rev (seqZ 0 n)) (replicate 32 0);
           @launch SoftCopy demo_launch [1; 3] [2; 0] mid' demo_tensors (seqZ 0) (replicate 24 7)) (fun back' =>
    (forall i, 0 <= i < 2 -> page_eq 8 back' (vat [2; 0] i) (seqZ 100 24) (vat [2; 0] i)) /\
    forall p, 0 <= p -> (forall i, 0 <= i < 2 -> vat [2; 0] i <> p) -> page_eq 8 back' p (replicate 24 7) p).
Proof.
  exact (@gather_roundtrip SoftCopy DT_FLOAT (SoftCopy_laws _) demo_context demo_launch _ _ back_context demo_launch _ _ _ _ _ _ _
    demo_LaunchOk eq_refl demo_PagesOk back_LaunchOk eq_refl back_PagesOk eq_refl).
Defined.
End GatherTheorems.
