(* ===== verification/StoreKernel.v ===== *)
(** * Storing of token groups in the KV cache: store_kv_block

    The tiling function of
    src/csrc/attention/store_kv_block/op_host/store_kv_block_tiling.cpp and the
    kernel class of op_kernel/store_kv_block.h.  A group is a run of tokens of
    the key tensor that goes to a run of slots of the cache; the groups are dealt
    to the vector cores. *)

From S2P Require Import Prelude Ascend.

Module Store.

(** ** Tiling *)

Inductive DataType := DT_INT8 | DT_FLOAT16 | DT_BF16 | DT_INT32 | DT_UINT32 | DT_OTHER.

Record StoreKVBlockTilingData := mkTiling {
  blockTableSize : Z;
  typeByte : Z;
  tokenSize : Z;
  corePerNum : Z;
  coreTail : Z;
  numTokens : Z;
  numCache : Z;
  groupInfoLen : Z
}.
#[global] Instance Tiling_eta : Eta StoreKVBlockTilingData := fun t =>
  mkTiling (blockTableSize t) (typeByte t) (tokenSize t) (corePerNum t) (coreTail t) (numTokens t) (numCache t) (groupInfoLen t).

Definition MAX_UB_USE_SIZE : Z := 180 * 1024.

Record StoreKVBlockParams := mkParams {
  p_numTokens : Z;
  p_numCache : Z;
  p_numHeads : Z;
  p_headSize : list Z;
  p_blockTableSize : Z;
  p_typeByte : Z;
  p_tokenSize : Z;
  p_tilingKey : Z;
  p_workspaceSize : Z;
  p_groupInfoLen : Z;
  p_corepernum : Z;
  p_coretail : Z;
  p_sysWorkspaceSize : Z;
  p_coreNum : Z
}.
#[global] Instance Params_eta : Eta StoreKVBlockParams := fun p =>
  mkParams (p_numTokens p) (p_numCache p) (p_numHeads p) (p_headSize p) (p_blockTableSize p) (p_typeByte p) (p_tokenSize p)
    (p_tilingKey p) (p_workspaceSize p) (p_groupInfoLen p) (p_corepernum p) (p_coretail p) (p_sysWorkspaceSize p) (p_coreNum p).
Definition new_StoreKVBlockParams : StoreKVBlockParams := mkParams 0 0 1 [1; 1; 1; 1; 1] 0 0 1 0 0 0 0 0 0 0.

(** Shapes of the inputs, the attribute and the platform. *)
Record TilingContext := mkContext {
  sc_kShape : list Z;
  sc_kCacheShape : list Z;
  sc_groupInfoShape : list Z;
  sc_dataType : DataType;
  sc_blockSize : Z;
  sc_coreNum : option Z;
  sc_libApiWorkSpaceSize : Z
}.

(** One dimension of the key tensor. *)
Definition read_dim (shape : list Z) (i : Z) (p : StoreKVBlockParams) : res StoreKVBlockParams :=
  let d := u32 (vat shape i) in
  if i =? 0 then Ok (p <| p_numTokens := d |>)
  else if i =? 1 then Ok (p <| p_numHeads := d |>)
  else if negb (d =? 0) then h ← vset (p_headSize p) (i - 2) d; Ok (p <| p_headSize := h |>)
  else Ok p.

(** [None]: GRAPH_FAILED. *)
Definition DoCommonTiling (c : TilingContext) (p : StoreKVBlockParams) : res (option StoreKVBlockParams) :=
  let kDimNum := Z.of_nat (length (sc_kShape c)) in
  if (kDimNum <? 2) || (kDimNum >? 7) then Ok None
  else
    p ← for_range kDimNum (read_dim (sc_kShape c)) p;
    let kCacheDimNum := Z.of_nat (length (sc_kCacheShape c)) in
    if (kCacheDimNum <? 2) || (kCacheDimNum >? 7) then Ok None
    else
      let p := p <| p_numCache := u32 (vat (sc_kCacheShape c) 0 * vat (sc_kCacheShape c) 1) |> in
      let blockSize := u32 (sc_blockSize c) in
      let h := p_headSize p in
      let p := p <| p_tokenSize := u32 (u32 (u32 (u32 (u32 (p_numHeads p * vat h 0) * vat h 1) * vat h 2) * vat h 3) * vat h 4) |>
                 <| p_blockTableSize := blockSize |> in
      match (match sc_dataType c with
             | DT_INT8 => Some (1, 1)
             | DT_FLOAT16 | DT_BF16 => Some (2, 2)
             | DT_INT32 | DT_UINT32 => Some (4, 4)
             | DT_OTHER => None
             end) with
      | None => Ok None
      | Some (bytes, key) =>
          let p := p <| p_tilingKey := key |> <| p_typeByte := bytes |> in
          let len := u32 (vat (sc_groupInfoShape c) 0) in
          corepernum ← udiv len (p_coreNum p);
          coretail ← umod len (p_coreNum p);
          let p := p <| p_groupInfoLen := len |> <| p_corepernum := u32 corepernum |> <| p_coretail := u32 coretail |> in
          let pageBlockEleSize := u32 (p_blockTableSize p * p_tokenSize p) in
          if pageBlockEleSize >? MAX_UB_USE_SIZE then Ok None else Ok (Some p)
      end.

(** The setters of the tiling data.  [blank] is what the tiling data hold before. *)
Definition set_tilingData (blank : StoreKVBlockTilingData) (p : StoreKVBlockParams) : StoreKVBlockTilingData :=
  let t := blank in
  let t := if p_blockTableSize p >? 0 then t <| blockTableSize := p_blockTableSize p |> else t in
  let t := if p_typeByte p >? 0 then t <| typeByte := p_typeByte p |> else t in
  let t := if p_tokenSize p >? 0 then t <| tokenSize := p_tokenSize p |> else t in
  let t := if (p_corepernum p >? 0) || negb (p_coretail p =? 0) then t <| corePerNum := p_corepernum p |> else t in
  let t := if p_coretail p <? 48 then t <| coreTail := p_coretail p |> else t in
  let t := if p_numTokens p >? 0 then t <| numTokens := p_numTokens p |> else t in
  let t := if p_numCache p >? 0 then t <| numCache := p_numCache p |> else t in
  let t := if p_groupInfoLen p >? 0 then t <| groupInfoLen := u32 (p_groupInfoLen p) |> else t in
  t.

(** Tiling data, key, blocks and workspace of an accepted call. *)
Definition StoreKVBlockTilingFunc (blank : StoreKVBlockTilingData) (c : TilingContext)
    : res (option (StoreKVBlockTilingData * Z * Z * Z)) :=
  match sc_coreNum c with
  | None => Ok None
  | Some coreNum =>
      if u32 coreNum =? 0 then Ok None
      else
        let p := new_StoreKVBlockParams <| p_coreNum := u32 coreNum |> <| p_sysWorkspaceSize := sc_libApiWorkSpaceSize c |> in
        r ← DoCommonTiling c p;
        match r with
        | None => Ok None
        | Some p =>
            Ok (Some (set_tilingData blank p, p_tilingKey p, p_coreNum p, p_workspaceSize p + p_sysWorkspaceSize p))
        end
  end.

(** ** Kernel *)

(** Members that Init sets. *)
Record StoreKVBlockBase := mkBase {
  b_tokenSize : Z;
  b_tokenByteSize : Z;
  b_blockTableSize : Z;
  b_typeByte : Z;
  b_coreId : Z;
  b_corePerNum : Z;
  b_blockNum : Z
}.

Definition Init (t : StoreKVBlockTilingData) (blockIdx blockNum : Z) : StoreKVBlockBase :=
  mkBase (tokenSize t) (u32 (tokenSize t * typeByte t)) (blockTableSize t) (typeByte t) blockIdx
    (if blockIdx <? coreTail t then u32 (corePerNum t + 1) else corePerNum t) blockNum.

(** Elements of the token buffer. *)
Definition buffer_elems (b : StoreKVBlockBase) : Z := u32 (b_blockTableSize b * b_tokenByteSize b) / b_typeByte b.

Section Kernel.
Context `{AscendCopy} (b : StoreKVBlockBase) (key groupLen groupKeyIdx groupKeyCacheIdx : list Z).

(** One group: key tensor, buffer, cache. *)
Definition store_group (idx : Z) (st : list Z * list Z) : res (list Z * list Z) :=
  let '(tokenLocal, cache) := st in
  len ← vget groupLen idx;
  let blockLen := u32 (len * b_tokenByteSize b) in
  keyIdx ← vget groupKeyIdx idx;
  tokenLocal ← copy_pad_in tokenLocal key (u32 (keyIdx * b_tokenSize b)) (blockLen / b_typeByte b);
  cacheIdx ← vget groupKeyCacheIdx idx;
  cache ← copy_pad_out cache (u32 (cacheIdx * b_tokenSize b)) tokenLocal (blockLen / b_typeByte b);
  Ok (tokenLocal, cache).

Definition Process (st : list Z * list Z) : res (list Z * list Z) :=
  for_range (b_corePerNum b) (fun i st => store_group (u32 (b_coreId b + u32 (i * b_blockNum b))) st) st.
End Kernel.

(** The entry point: one of three element types. *)
Definition store_kv_block `{AscendCopy} (tilingKey : Z) (t : StoreKVBlockTilingData) (blockIdx blockNum : Z)
    (key groupLen groupKeyIdx groupKeyCacheIdx tokenLocal cache : list Z) : res (list Z) :=
  if (tilingKey =? 1) || (tilingKey =? 2) || (tilingKey =? 4) then
    '(_, cache) ← Process (Init t blockIdx blockNum) key groupLen groupKeyIdx groupKeyCacheIdx (tokenLocal, cache);
    Ok cache
  else Ok cache.
End Store.
