(* ===== verification/StoreTheorems.v ===== *)
(** * Theorems about store_kv_block

    An accepted call stores every token of every group in its slot, whatever the
    order of the cores; what the tiling function leaves out; the size of the
    token buffer. *)

From S2P Require Import Prelude Ascend Tensor StoreKernel.

Module StoreTheorems.
Import Store.

(** ** The kernel *)

(** [handled] groups are dealt to [nb] cores. *)
Record TilingOk (nb handled : Z) (t : StoreKVBlockTilingData) : Prop := {
  sk_type : typeByte t = 1 \/ typeByte t = 2 \/ typeByte t = 4;
  sk_token : 0 < tokenSize t;
  sk_block : 0 < blockTableSize t;
  sk_page : blockTableSize t * tokenSize t < 2 ^ 30;
  sk_per : 0 <= corePerNum t;
  sk_tail : 0 <= coreTail t < nb;
  sk_handled : handled = corePerNum t * nb + coreTail t;
  sk_width : handled < 2 ^ 32
}.

(** Groups inside their tensors, of at most a page of tokens, no slot named
    twice. *)
Record GroupsOk (page T n : Z) (key groupLen groupKeyIdx groupKeyCacheIdx cache : list Z) : Prop := {
  gr_lens : n <= Z.of_nat (length groupLen) /\ n <= Z.of_nat (length groupKeyIdx) /\ n <= Z.of_nat (length groupKeyCacheIdx);
  gr_len : forall i, 0 <= i < n -> 0 <= vat groupLen i <= page;
  gr_key : forall i, 0 <= i < n -> 0 <= vat groupKeyIdx i /\ (vat groupKeyIdx i + vat groupLen i) * T <= Z.of_nat (length key);
  gr_slot : forall i, 0 <= i < n ->
    0 <= vat groupKeyCacheIdx i /\ (vat groupKeyCacheIdx i + vat groupLen i) * T <= Z.of_nat (length cache);
  gr_width : Z.of_nat (length key) < 2 ^ 32 /\ Z.of_nat (length cache) < 2 ^ 32;
  gr_once : forall i j s, 0 <= i < n -> 0 <= j < n -> i <> j ->
    vat groupKeyCacheIdx i <= s < vat groupKeyCacheIdx i + vat groupLen i ->
    s < vat groupKeyCacheIdx j \/ vat groupKeyCacheIdx j + vat groupLen j <= s
}.

Lemma GroupsOk_le page T n m key gl gk gc cache :
  m <= n -> GroupsOk page T n key gl gk gc cache -> GroupsOk page T m key gl gk gc cache.
Proof.
  intros Hm [G1 G2 G3 G4 G5 G6]. split; [lia|intros i Hi; (apply G2 || apply G3 || apply G4); lia..|done|].
  intros i j s Hi Hj. apply G6; lia.
Qed.

Lemma GroupsOk_length page T n key gl gk gc cache cache' :
  length cache' = length cache -> GroupsOk page T n key gl gk gc cache -> GroupsOk page T n key gl gk gc cache'.
Proof. intros Hl [G1 G2 G3 G4 G5 G6]. split; rewrite ?Hl; done. Qed.

(** The places of a group are in the slots of the group. *)
Lemma slot_of T a n x : 0 < T -> a * T <= x < (a + n) * T -> a <= x / T < a + n.
Proof. intros HT [H1 H2]. split; [apply Z.div_le_lower_bound|apply Z.div_lt_upper_bound]; lia. Qed.

Section Kernel.
Context `{HA : AscendCopy} (block : Z) `{HAL : !AscendCopyLaws block}.
Context (nb handled : Z) (t : StoreKVBlockTilingData) (HT : TilingOk nb handled t).
Context (key groupLen groupKeyIdx groupKeyCacheIdx : list Z).
Abbreviation T := (tokenSize t).
Abbreviation groups cache := (GroupsOk (blockTableSize t) T handled key groupLen groupKeyIdx groupKeyCacheIdx cache).

Definition place (i : Z) : Z := vat groupKeyCacheIdx i * T.
Definition place_end (i : Z) : Z := (vat groupKeyCacheIdx i + vat groupLen i) * T.
Definition token_at (i x : Z) : Z := vat key (vat groupKeyIdx i * T + (x - place i)).

Lemma groups_apart cache : groups cache -> apart place place_end (seqZ 0 handled).
Proof.
  intros [G1 G2 G3 G4 G5 G6]. pose proof (sk_token _ _ _ HT) as H0.
  split; [apply NoDup_seqZ|intros i Hi%elem_of_seqZ; destruct (G4 i ltac:(lia)); unfold place; nia|].
  intros i j x Hi%elem_of_seqZ Hj%elem_of_seqZ Hn Hx. unfold place, place_end in *.
  apply (slot_of T) in Hx; [|done]. pose proof (Z.mul_div_le x T H0). pose proof (Z.mul_succ_div_gt x T H0).
  destruct (G6 i j (x / T) ltac:(lia) ltac:(lia) Hn Hx); [left|right]; nia.
Qed.

Lemma buffer_size b : buffer_elems (Init t b nb) = blockTableSize t * T.
Proof.
  destruct HT as [H1 H2 H3 H4 _ _ _ _]. unfold buffer_elems, Init. cbn [b_blockTableSize b_tokenByteSize b_typeByte].
  rewrite (u32_id (T * typeByte t)), u32_id by nia.
  rewrite Z.mul_assoc. apply Z.div_mul. lia.
Qed.

(** One group goes through the buffer to its slots. *)
Lemma group_returns b idx ub cache :
  groups cache -> 0 <= idx < handled -> Z.of_nat (length ub) = blockTableSize t * T ->
  returns (store_group (Init t b nb) key groupLen groupKeyIdx groupKeyCacheIdx idx (ub, cache)) (fun '(ub', cache') =>
    length ub' = length ub /\ wrote place place_end token_at [idx] cache cache').
Proof.
  intros [G1 G2 G3 G4 G5 G6] Hi Hu. specialize (G2 idx Hi). specialize (G3 idx Hi). specialize (G4 idx Hi).
  destruct HT as [H1 H2 H3 H4 _ _ _ _]. unfold store_group. rewrite !vget_ok by lia. cbn [mbind res_bind].
  unfold Init. cbn [b_tokenSize b_tokenByteSize b_typeByte].
  set (n := vat groupLen idx) in *. set (k := vat groupKeyIdx idx) in *. set (c := vat groupKeyCacheIdx idx) in *.
  assert (E : u32 (n * u32 (T * typeByte t)) / typeByte t = n * T).
  { rewrite (u32_id (T * typeByte t)), u32_id by nia. rewrite Z.mul_assoc. apply Z.div_mul. lia. }
  rewrite E, !u32_id by nia. unfold copy_pad_in, copy_pad_out. rewrite !in_tensor_ok by nia. cbn [andb mbind res_bind].
  rewrite !in_tensor_ok by (rewrite ?cpi_length; nia). cbn [andb mbind res_bind]. apply returns_ok.
  split; [apply cpi_length|]. replace (place_end idx) with (c * T + n * T) in * by (unfold place_end; lia).
  apply wrote_one.
  - unfold place, place_end. fold c n. split; [apply cpo_length|]. intros i Hi0 Ho. apply cpo_other; nia.
  - unfold place, place_end, token_at, place. fold c n k. intros i Hx.
    replace i with (c * T + (i - c * T)) at 1 by lia.
    rewrite cpo_data, cpi_data by nia. done.
Qed.

(** One core: its share of the groups. *)
Lemma core_stores b ub cache :
  groups cache -> 0 <= b < nb -> Z.of_nat (length ub) = blockTableSize t * T -> apart place place_end (strided b handled nb) ->
  returns (Process (Init t b nb) key groupLen groupKeyIdx groupKeyCacheIdx (ub, cache)) (fun '(_, cache') =>
    wrote place place_end token_at (strided b handled nb) cache cache').
Proof.
  intros HG Hb Hu Hap. destruct (HT) as [_ _ _ _ H5 H6 H7 H8].
  assert (Hin : forall i, i ∈ strided b handled nb -> 0 <= i < handled).
  { intros i Hi. apply elem_of_strided in Hi as [Hi _]; lia. }
  assert (Hper : b_corePerNum (Init t b nb) = if b <? coreTail t then corePerNum t + 1 else corePerNum t).
  { cbn [Init b_corePerNum]. destruct (Z.ltb_spec b (coreTail t)); [rewrite u32_id by nia|]; done. }
  unfold Process. rewrite for_range_run_list, Hper.
  rewrite (run_list_ext _ (fun q => store_group (Init t b nb) key groupLen groupKeyIdx groupKeyCacheIdx (b + q * nb))).
  2: { intros q s Hq. cbn [Init b_coreId b_blockNum]. f_equal.
       assert (Hs : b + q * nb ∈ strided b handled nb).
       { rewrite H7, strided_share by lia. apply list_elem_of_fmap. by exists q. }
       apply Hin in Hs. apply elem_of_seqZ in Hq. by rewrite (u32_id (q * nb)), u32_id by nia. }
  rewrite <- (run_list_fmap (fun q => b + q * nb)), <- strided_share, <- H7 by lia.
  eapply returns_mono; [apply (run_list_wrote_inv place place_end token_at snd (fun s => length s.1 = length ub)); [done|done|]|].
  - intros i [u c] Hi Hu' Hc. cbn [fst snd] in *. eapply returns_mono.
    + apply group_returns; [by apply (GroupsOk_length _ _ _ _ _ _ _ cache)|by apply Hin|lia].
    + intros [u' c'] [L W]. split; [cbn; lia|done].
  - intros [u c] [_ W]. exact W.
Qed.
End Kernel.

(** ** A call *)

(** The cores of a call, in the order that [order] gives; [ub b] is what the
    buffer of core [b] holds at the start. *)
Definition launch `{AscendCopy} (tilingKey : Z) (t : StoreKVBlockTilingData) (nb : Z)
    (key groupLen groupKeyIdx groupKeyCacheIdx : list Z) (ub : Z -> list Z) (order cache : list Z) : res (list Z) :=
  run_list (fun b => store_kv_block tilingKey t b nb key groupLen groupKeyIdx groupKeyCacheIdx (ub b)) order cache.

Record LaunchOk (t : StoreKVBlockTilingData) (nb : Z) (ub : Z -> list Z) (order : list Z) : Prop := {
  la_buffers : forall b, 0 <= b < nb -> Z.of_nat (length (ub b)) = buffer_elems (Init t b nb);
  la_order : order ≡ₚ seqZ 0 nb
}.

(** The tokens of the first [m] groups are in their slots, the other slots are as
    before. *)
Definition stored (T m : Z) (key groupLen groupKeyIdx groupKeyCacheIdx cache cache' : list Z) : Prop :=
  length cache' = length cache /\
  (forall i j, 0 <= i < m -> 0 <= j < vat groupLen i -> page_eq T cache' (vat groupKeyCacheIdx i + j) key (vat groupKeyIdx i + j)) /\
  forall p, 0 <= p ->
    (forall i, 0 <= i < m -> p < vat groupKeyCacheIdx i \/ vat groupKeyCacheIdx i + vat groupLen i <= p) -> page_eq T cache' p cache p.

Lemma wrote_stored t m key groupLen groupKeyIdx groupKeyCacheIdx cache cache' :
  0 < tokenSize t -> (forall i, 0 <= i < m -> 0 <= vat groupLen i /\ 0 <= vat groupKeyCacheIdx i) ->
  wrote (place t groupKeyCacheIdx) (place_end t groupLen groupKeyCacheIdx) (token_at t key groupKeyIdx groupKeyCacheIdx) (seqZ 0 m) cache cache' ->
  stored (tokenSize t) m key groupLen groupKeyIdx groupKeyCacheIdx cache cache'.
Proof.
  intros HT Hp (Hl & Hv & Ho). split; [done|]. unfold place, place_end, token_at, place in *. split.
  - intros i j Hi Hj e He. rewrite (Hv i) by (rewrite ?elem_of_seqZ; nia). f_equal. lia.
  - intros p Hp0 Hn e He. apply Ho; [nia|]. intros i Hi%elem_of_seqZ. specialize (Hn i ltac:(lia)). specialize (Hp i ltac:(lia)). nia.
Qed.

Lemma store_launch_returns `{HA : AscendCopy} block `{HAL : !AscendCopyLaws block} k t nb m ub order
    key groupLen groupKeyIdx groupKeyCacheIdx cache :
  k = 1 \/ k = 2 \/ k = 4 -> TilingOk nb m t -> LaunchOk t nb ub order ->
  GroupsOk (blockTableSize t) (tokenSize t) m key groupLen groupKeyIdx groupKeyCacheIdx cache ->
  returns (launch k t nb key groupLen groupKeyIdx groupKeyCacheIdx ub order cache)
    (stored (tokenSize t) m key groupLen groupKeyIdx groupKeyCacheIdx cache).
Proof.
  intros Hk HT [Hu Ho] HG. pose proof (sk_tail _ _ _ HT). assert (Hnb : 0 < nb) by lia.
  assert (Hin : forall b, b ∈ order -> 0 <= b < nb) by (intros b Hb; rewrite Ho in Hb; apply elem_of_seqZ in Hb; lia).
  pose proof (strided_partition order nb m Hnb Ho) as Hp.
  eapply returns_mono; [apply (run_list_wrote_bind (place t groupKeyCacheIdx) (place_end t groupLen groupKeyCacheIdx)
    (token_at t key groupKeyIdx groupKeyCacheIdx) (fun b => strided b m nb))|].
  - eapply apart_perm; [symmetry; exact Hp|]. by eapply groups_apart.
  - intros b c Hb%Hin Hap Hc. unfold store_kv_block.
    replace ((k =? 1) || (k =? 2) || (k =? 4)) with true by (destruct Hk as [-> | [-> | ->]]; done).
    eapply returns_bind_mono; [eapply (core_stores block nb m t HT _ _ _ _ b (ub b) c)|].
    + by apply (GroupsOk_length _ _ _ _ _ _ _ cache).
    + done.
    + rewrite Hu by done. by eapply buffer_size.
    + done.
    + intros [u c'] W. by apply returns_ok.
  - intros c W. apply wrote_stored; [apply HT| |by eapply wrote_perm].
    intros i Hi. destruct HG as [_ G2 _ G4 _ _]. specialize (G2 i Hi). specialize (G4 i Hi). lia.
Qed.

(** ** Tiling *)

(** The bytes of an element, for the types that the operator accepts. *)
Definition type_bytes (d : DataType) : option Z :=
  match d with
  | DT_INT8 => Some 1
  | DT_FLOAT16 | DT_BF16 => Some 2
  | DT_INT32 | DT_UINT32 => Some 4
  | DT_OTHER => None
  end.

(** A dimension behind the second counts as 1 if it is 0 or missing. *)
Definition extent (shape : list Z) (i : Z) : Z :=
  let d := u32 (vat shape i) in if (i >=? 2) && (d =? 0) then 1 else d.

(** Elements of a token. *)
Definition token_elems (shape : list Z) : Z := foldr (fun i n => extent shape i * n) 1 (seqZ 1 6).

Definition dims_ok (shape : list Z) : bool := (2 <=? Z.of_nat (length shape)) && (Z.of_nat (length shape) <=? 7).

Definition positive_or (x d : Z) : Z := if x >? 0 then x else d.

(** The tiling of a call, without the loops and the intermediate parameters. *)
Definition reference_tiling (blank : StoreKVBlockTilingData) (c : TilingContext) : option (StoreKVBlockTilingData * Z * Z * Z) :=
  match sc_coreNum c, type_bytes (sc_dataType c) with
  | Some cores, Some bytes =>
      let nb := u32 cores in
      let n := u32 (vat (sc_groupInfoShape c) 0) in
      let blk := u32 (sc_blockSize c) in
      let T := u32 (token_elems (sc_kShape c)) in
      if negb (nb =? 0) && dims_ok (sc_kShape c) && dims_ok (sc_kCacheShape c) && (u32 (blk * T) <=? MAX_UB_USE_SIZE)
      then Some (mkTiling (positive_or blk (blockTableSize blank)) bytes (positive_or T (tokenSize blank))
                   (if n =? 0 then corePerNum blank else n / nb)
                   (if n mod nb <? 48 then n mod nb else coreTail blank)
                   (positive_or (u32 (vat (sc_kShape c) 0)) (numTokens blank))
                   (positive_or (u32 (vat (sc_kCacheShape c) 0 * vat (sc_kCacheShape c) 1)) (numCache blank))
                   (positive_or n (groupInfoLen blank)), bytes, nb, sc_libApiWorkSpaceSize c)
      else None
  | _, _ => None
  end.

(** The loop over the dimensions: after [i] rounds the first [i] are read. *)
Definition dims_upto (shape : list Z) (p : StoreKVBlockParams) (i : Z) : StoreKVBlockParams :=
  p <| p_numTokens := if 0 <? i then u32 (vat shape 0) else p_numTokens p |>
    <| p_numHeads := if 1 <? i then u32 (vat shape 1) else p_numHeads p |>
    <| p_headSize := (fun j => if j <? i then extent shape j else 1) <$> seqZ 2 5 |>.

Lemma read_dim_upto shape p i :
  0 <= i < 7 -> read_dim shape i (dims_upto shape p i) = Ok (dims_upto shape p (i + 1)).
Proof.
  intros Hi. unfold read_dim, dims_upto. assert (E : seqZ 2 5 = [2; 3; 4; 5; 6]) by reflexivity. rewrite E. clear E.
  assert (Hc : i = 0 \/ i = 1 \/ 2 <= i) by lia. destruct Hc as [-> | [-> | H2]]; [done|done|].
  rewrite (proj2 (Z.eqb_neq i 0)), (proj2 (Z.eqb_neq i 1)) by lia.
  assert (Hx : extent shape i = if u32 (vat shape i) =? 0 then 1 else u32 (vat shape i)).
  { unfold extent. rewrite Z.geb_leb, (proj2 (Z.leb_le 2 i)) by lia. done. }
  assert (Hc : i = 2 \/ i = 3 \/ i = 4 \/ i = 5 \/ i = 6) by lia.
  destruct (u32 (vat shape i) =? 0); repeat destruct Hc as [-> | Hc]; try subst i; cbn; rewrite Hx; done.
Qed.

Lemma dims_read shape p :
  2 <= Z.of_nat (length shape) <= 7 -> p_headSize p = [1; 1; 1; 1; 1] ->
  for_range (Z.of_nat (length shape)) (read_dim shape) p =
  Ok (p <| p_numTokens := u32 (vat shape 0) |> <| p_numHeads := u32 (vat shape 1) |>
        <| p_headSize := extent shape <$> seqZ 2 5 |>).
Proof.
  intros Hl Hp. set (q := _ <| p_headSize := _ |>).
  assert (Hr : returns (for_range (Z.of_nat (length shape)) (read_dim shape) p)
    (fun r => r = dims_upto shape p (Z.of_nat (length shape)))).
  { apply (for_range_returns (fun i r => r = dims_upto shape p i)); [lia| |].
    - unfold dims_upto. assert (E : seqZ 2 5 = [2; 3; 4; 5; 6]) by reflexivity. rewrite E. cbn. rewrite <- Hp. by destruct p.
    - intros i r Hi ->. rewrite read_dim_upto by lia. by apply returns_ok. }
  destruct Hr as (r & -> & ->). f_equal. unfold dims_upto, q.
  rewrite (proj2 (Z.ltb_lt 0 _)), (proj2 (Z.ltb_lt 1 _)) by lia.
  replace ((fun j => if j <? Z.of_nat (length shape) then extent shape j else 1) <$> seqZ 2 5) with (extent shape <$> seqZ 2 5); [done|].
  apply list_fmap_ext. intros k j Hj%list_elem_of_lookup_2%elem_of_seqZ.
  destruct (Z.ltb_spec j (Z.of_nat (length shape))); [done|]. unfold extent.
  rewrite vat_beyond, Z.geb_leb, (proj2 (Z.leb_le 2 j)) by lia. done.
Qed.

Lemma u32_mul_l a b : u32 (u32 a * b) = u32 (a * b).
Proof. unfold u32. by rewrite Z.mul_mod_idemp_l. Qed.

Lemma token_product shape h :
  h = extent shape <$> seqZ 2 5 ->
  u32 (u32 (u32 (u32 (u32 (u32 (vat shape 1) * vat h 0) * vat h 1) * vat h 2) * vat h 3) * vat h 4) = u32 (token_elems shape).
Proof.
  intros ->. unfold token_elems. assert (E : seqZ 2 5 = [2; 3; 4; 5; 6]) by reflexivity. rewrite E.
  assert (E' : seqZ 1 6 = [1; 2; 3; 4; 5; 6]) by reflexivity. rewrite E'. cbn [fmap list_fmap foldr].
  assert (E1 : extent shape 1 = u32 (vat shape 1)) by reflexivity. rewrite <- E1. clear E E' E1.
  generalize (extent shape 1) (extent shape 2) (extent shape 3) (extent shape 4) (extent shape 5) (extent shape 6).
  intros a b c d e f. change (u32 (u32 (u32 (u32 (u32 (a * b) * c) * d) * e) * f) = u32 (a * (b * (c * (d * (e * (f * 1))))))).
  rewrite (u32_mul_l (a * b)), (u32_mul_l (a * b * c)), (u32_mul_l (a * b * c * d)), (u32_mul_l (a * b * c * d * e)). f_equal. lia.
Qed.

Lemma set_tilingData_eq blank p :
  0 < p_typeByte p -> 0 <= p_corepernum p -> 0 <= p_groupInfoLen p < 2 ^ 32 ->
  set_tilingData blank p = mkTiling (positive_or (p_blockTableSize p) (blockTableSize blank)) (p_typeByte p)
    (positive_or (p_tokenSize p) (tokenSize blank))
    (if (p_corepernum p =? 0) && (p_coretail p =? 0) then corePerNum blank else p_corepernum p)
    (if p_coretail p <? 48 then p_coretail p else coreTail blank)
    (positive_or (p_numTokens p) (numTokens blank)) (positive_or (p_numCache p) (numCache blank))
    (positive_or (p_groupInfoLen p) (groupInfoLen blank)).
Proof.
  intros Ht Hp Hn. unfold set_tilingData, positive_or. rewrite !Z.gtb_ltb, (proj2 (Z.ltb_lt 0 (p_typeByte p))), u32_id by lia.
  replace ((0 <? p_corepernum p) || negb (p_coretail p =? 0)) with (negb ((p_corepernum p =? 0) && (p_coretail p =? 0)))
    by (destruct (Z.eqb_spec (p_corepernum p) 0) as [-> | ]; [done|by rewrite (proj2 (Z.ltb_lt 0 (p_corepernum p))) by lia]).
  destruct blank.
  destruct (0 <? p_blockTableSize p), (0 <? p_tokenSize p), ((p_corepernum p =? 0) && (p_coretail p =? 0)), (p_coretail p <? 48),
    (0 <? p_numTokens p), (0 <? p_numCache p), (0 <? p_groupInfoLen p); reflexivity.
Qed.

Lemma StoreKVBlockTilingFunc_eq blank c : StoreKVBlockTilingFunc blank c = Ok (reference_tiling blank c).
Proof.
  unfold StoreKVBlockTilingFunc, reference_tiling. destruct (sc_coreNum c) as [cores|]; [|done].
  destruct (Z.eqb_spec (u32 cores) 0) as [E0|E0]; cbn [negb andb]; [by destruct (type_bytes _)|].
  unfold DoCommonTiling, dims_ok. rewrite !Z.gtb_ltb.
  destruct (Z.ltb_spec (Z.of_nat (length (sc_kShape c))) 2) as [K1|K1]; cbn [orb].
  { rewrite (proj2 (Z.leb_gt 2 _)) by lia. by destruct (type_bytes _). }
  destruct (Z.ltb_spec 7 (Z.of_nat (length (sc_kShape c)))) as [K2|K2]; cbn [orb].
  { rewrite (proj2 (Z.leb_gt _ 7)), andb_false_r by lia. by destruct (type_bytes _). }
  rewrite dims_read by (lia || done).
  rewrite (proj2 (Z.leb_le 2 (Z.of_nat (length (sc_kShape c))))), (proj2 (Z.leb_le (Z.of_nat (length (sc_kShape c))) 7)) by lia.
  cbn [mbind res_bind andb].
  destruct (Z.ltb_spec (Z.of_nat (length (sc_kCacheShape c))) 2) as [C1|C1]; cbn [orb].
  { rewrite (proj2 (Z.leb_gt 2 _)) by lia. by destruct (type_bytes _). }
  destruct (Z.ltb_spec 7 (Z.of_nat (length (sc_kCacheShape c)))) as [C2|C2]; cbn [orb].
  { rewrite (proj2 (Z.leb_gt _ 7)), andb_false_r by lia. by destruct (type_bytes _). }
  rewrite (proj2 (Z.leb_le 2 (Z.of_nat (length (sc_kCacheShape c))))), (proj2 (Z.leb_le (Z.of_nat (length (sc_kCacheShape c))) 7)) by lia.
  pose proof (token_product (sc_kShape c) _ eq_refl) as HT. set (h := extent (sc_kShape c) <$> seqZ 2 5) in *. clearbody h.
  set (n := u32 (vat (sc_groupInfoShape c) 0)). assert (Hn : 0 <= n < 2 ^ 32) by apply u32_range. clearbody n.
  assert (Hc : 0 < u32 cores) by (pose proof (u32_range cores); lia). set (nb := u32 cores) in *. clearbody nb.
  set (nc := u32 (vat (sc_kCacheShape c) 0 * vat (sc_kCacheShape c) 1)). clearbody nc.
  unfold new_StoreKVBlockParams.
  assert (Hd : 0 <= n / nb < 2 ^ 32 /\ 0 <= n mod nb < 2 ^ 32) 
    by (pose proof (Z.div_pos n nb ltac:(lia) Hc); pose proof (Z.mod_pos_bound n nb Hc); pose proof (Z.mul_div_le n nb Hc);
        pose proof (Z.mod_le n nb ltac:(lia) Hc); nia).
  assert (Hz : (n / nb =? 0) && (n mod nb =? 0) = (n =? 0)).
  { destruct (Z.eqb_spec n 0) as [-> |]; [by rewrite Z.div_0_l, Z.mod_0_l by lia|].
    destruct (Z.eqb_spec (n / nb) 0), (Z.eqb_spec (n mod nb) 0); try done. ediv. }
  destruct (sc_dataType c); cbn -[u32 vat Z.div Z.modulo Z.mul MAX_UB_USE_SIZE set_tilingData]; try done;
    rewrite udiv_ok, umod_ok by done; cbn -[u32 vat Z.div Z.modulo Z.mul MAX_UB_USE_SIZE set_tilingData];
    rewrite HT, Z.gtb_ltb; (destruct (Z.ltb_spec MAX_UB_USE_SIZE (u32 (u32 (sc_blockSize c) * u32 (token_elems (sc_kShape c)))));
      [by rewrite (proj2 (Z.leb_gt _ _)) by lia|rewrite (proj2 (Z.leb_le _ _)) by lia]);
    cbn [mbind res_bind]; rewrite set_tilingData_eq by (cbn -[u32 Z.div]; rewrite ?u32_id; lia);
    cbn -[u32 vat Z.div Z.modulo Z.mul]; rewrite (u32_id (n / nb)), (u32_id (n mod nb)), Hz by lia; done.
Qed.

(** Accepted, at least one group, pages of at least one element and of a size
    that does not wrap. *)
Record CallOk (blank : StoreKVBlockTilingData) (c : TilingContext) (n : Z) (t : StoreKVBlockTilingData) (k nb ws : Z) : Prop := {
  cl_accepted : StoreKVBlockTilingFunc blank c = Ok (Some (t, k, nb, ws));
  cl_groups : n = vat (sc_groupInfoShape c) 0 /\ 0 < n < 2 ^ 32;
  cl_page : 0 < u32 (sc_blockSize c);
  cl_token : 0 < token_elems (sc_kShape c);
  cl_fits : u32 (sc_blockSize c) * token_elems (sc_kShape c) < 2 ^ 32
}.

Lemma call_facts blank c n t k nb ws :
  CallOk blank c n t k nb ws ->
  0 < nb < 2 ^ 32 /\ sc_coreNum c <> None /\ type_bytes (sc_dataType c) = Some k /\ typeByte t = k /\
  tokenSize t = token_elems (sc_kShape c) /\ blockTableSize t = u32 (sc_blockSize c) /\
  blockTableSize t * tokenSize t <= MAX_UB_USE_SIZE /\ corePerNum t = n / nb /\
  coreTail t = (if n mod nb <? 48 then n mod nb else coreTail blank) /\ ws = sc_libApiWorkSpaceSize c.
Proof.
  intros [HA [Hn Hn'] Hp Ht Hf]. rewrite StoreKVBlockTilingFunc_eq in HA. unfold reference_tiling in HA.
  destruct (sc_coreNum c) as [cores|]; [|done]. destruct (type_bytes (sc_dataType c)) as [bytes|]; [|done].
  assert (Ht' : token_elems (sc_kShape c) < 2 ^ 32) by nia. rewrite !(u32_id (token_elems (sc_kShape c))), <- Hn, (u32_id n) in HA by lia.
  rewrite (u32_id (u32 _ * _)) in HA by nia.
  destruct (Z.eqb_spec (u32 cores) 0); [done|]. destruct (dims_ok (sc_kShape c)), (dims_ok (sc_kCacheShape c)); try done.
  destruct (Z.leb_spec (u32 (sc_blockSize c) * token_elems (sc_kShape c)) MAX_UB_USE_SIZE); [|done].
  rewrite (proj2 (Z.eqb_neq n 0)) in HA by lia. unfold positive_or in HA. rewrite !Z.gtb_ltb in HA.
  rewrite (proj2 (Z.ltb_lt 0 (u32 (sc_blockSize c))) Hp), (proj2 (Z.ltb_lt 0 (token_elems _)) Ht) in HA.
  cbn [negb andb] in HA. injection HA as <- <- <- <-. pose proof (u32_range cores). repeat split; try done; cbn; lia.
Qed.

(** The groups that the cores get. *)
Definition dealt (n nb : Z) : Z := if n mod nb <? 48 then n else n / nb * nb.

Lemma dealt_all n nb : 0 < nb <= 48 -> dealt n nb = n.
Proof. intros H. pose proof (Z.mod_pos_bound n nb ltac:(lia)). unfold dealt. by rewrite (proj2 (Z.ltb_lt _ _)) by lia. Qed.

Lemma call_tiling blank c n t k nb ws :
  CallOk blank c n t k nb ws -> n mod nb < 48 \/ coreTail blank = 0 -> TilingOk nb (dealt n nb) t /\ (k = 1 \/ k = 2 \/ k = 4).
Proof.
  intros HC Hb. destruct (call_facts _ _ _ _ _ _ _ HC) as (F1 & _ & F3 & F4 & F5 & F6 & F7 & F8 & F9 & _).
  destruct HC as [_ [_ Hn] Hp Ht _]. pose proof (Z.mod_pos_bound n nb ltac:(lia)). pose proof (Z.div_mod n nb ltac:(lia)).
  pose proof (Z.div_pos n nb ltac:(lia) ltac:(lia)). unfold dealt.
  assert (Hk : k = 1 \/ k = 2 \/ k = 4) by (destruct (sc_dataType c); cbn in F3; injection F3 as <- || done; lia).
  split; [|done]. unfold MAX_UB_USE_SIZE in F7.
  split; rewrite ?F4, ?F5, ?F6, ?F8, ?F9; try lia; destruct (Z.ltb_spec (n mod nb) 48); lia.
Qed.

Lemma store_call_returns `{HA : AscendCopy} block `{HAL : !AscendCopyLaws block} blank c n t k nb ws ub order
    key groupLen groupKeyIdx groupKeyCacheIdx cache :
  CallOk blank c n t k nb ws -> n mod nb < 48 \/ coreTail blank = 0 -> LaunchOk t nb ub order ->
  GroupsOk (blockTableSize t) (tokenSize t) n key groupLen groupKeyIdx groupKeyCacheIdx cache ->
  returns (launch k t nb key groupLen groupKeyIdx groupKeyCacheIdx ub order cache)
    (stored (tokenSize t) (dealt n nb) key groupLen groupKeyIdx groupKeyCacheIdx cache).
Proof.
  intros HC Hb HL HG. destruct (call_tiling _ _ _ _ _ _ _ HC Hb) as [HT Hk].
  apply (store_launch_returns block); [done|done|done|]. eapply GroupsOk_le; [|done].
  destruct (call_facts _ _ _ _ _ _ _ HC) as (F1 & _). unfold dealt. destruct (_ <? _); [done|].
  pose proof (Z.mul_div_le n nb ltac:(lia)). lia.
Qed.

(** ** Concrete calls *)

(** Three groups of tokens of eight elements, on two cores: the tokens 0 and 1 go
    to the slots 4 and 5, token 2 goes to slot 1, the second group is empty. *)
Definition zero_tiling : StoreKVBlockTilingData := mkTiling 0 0 0 0 0 0 0 0.
Definition demo_context : TilingContext := mkContext [3; 2; 4] [2; 4; 2; 4] [3] DT_BF16 4 (Some 2) 16.
Definition demo_tiling : StoreKVBlockTilingData := mkTiling 4 2 8 1 1 3 8 3.
Definition demo_lens : list Z := [2; 0; 1].
Definition demo_keys : list Z := [0; 1; 2].
Definition demo_slots : list Z := [4; 5; 1].

Lemma store_demo_CallOk : CallOk zero_tiling demo_context 3 demo_tiling 2 2 16.
Proof. split; vm_compute; intuition congruence. Qed.

Lemma store_demo_LaunchOk : LaunchOk demo_tiling 2 (fun _ => replicate 32 0) [1; 0].
Proof. split; [done|]. apply Permutation_swap. Qed.

Lemma three_cases i : 0 <= i < 3 -> i = 0 \/ i = 1 \/ i = 2.
Proof. lia. Qed.

Lemma demo_GroupsOk : GroupsOk 4 8 3 (seqZ 100 24) demo_lens demo_keys demo_slots (replicate 64 0).
Proof.
  split.
  - vm_compute. intuition congruence.
  - intros i Hi. destruct (three_cases i Hi) as [-> | [-> | ->]]; vm_compute; intuition congruence.
  - intros i Hi. destruct (three_cases i Hi) as [-> | [-> | ->]]; vm_compute; intuition congruence.
  - intros i Hi. destruct (three_cases i Hi) as [-> | [-> | ->]]; vm_compute; intuition congruence.
  - vm_compute. intuition congruence.
  - assert (D : vat demo_slots 0 = 4 /\ vat demo_slots 1 = 5 /\ vat demo_slots 2 = 1 /\
      vat demo_lens 0 = 2 /\ vat demo_lens 1 = 0 /\ vat demo_lens 2 = 1) by done.
    intros i j s Hi Hj Hn. destruct (three_cases i Hi) as [-> | [-> | ->]], (three_cases j Hj) as [-> | [-> | ->]]; done || lia.
Qed.

(** ** Theorems *)

(** C11: An accepted call of store_kv_block on at most 48 cores returns, in
    whatever order the cores run: every token of every group of the key tensor is
    in its slot of the cache, and the other slots of the cache are unchanged. *)
Theorem store_groups `{HA : AscendCopy} block `{HAL : !AscendCopyLaws block} blank c n t k nb ws ub order
    key groupLen groupKeyIdx groupKeyCacheIdx cache
    (HC : CallOk blank c n t k nb ws) (Hnb : nb <= 48) (HL : LaunchOk t nb ub order)
    (HG : GroupsOk (blockTableSize t) (tokenSize t) n key groupLen groupKeyIdx groupKeyCacheIdx cache) :
  returns (launch k t nb key groupLen groupKeyIdx groupKeyCacheIdx ub order cache)
    (stored (tokenSize t) n key groupLen groupKeyIdx groupKeyCacheIdx cache).
Proof.
  destruct (call_facts _ _ _ _ _ _ _ HC) as (F1 & _). pose proof (Z.mod_pos_bound n nb ltac:(lia)).
  eapply returns_mono; [apply (store_call_returns block blank c n t k nb ws); [done|left; lia|done|done]|].
  by rewrite dealt_all by lia.
Qed.

Lemma store_groups_witness :
  returns (@launch SoftCopy 2 demo_tiling 2 (seqZ 100 24) demo_lens demo_keys demo_slots (fun _ => replicate 32 0) [1; 0] (replicate 64 0))
    (stored 8 3 (seqZ 100 24) demo_lens demo_keys demo_slots (replicate 64 0)).
Proof.
  exact (@store_groups SoftCopy 1 (SoftCopy_laws _) _ _ _ _ _ _ _ _ _ _ _ _ _ _ store_demo_CallOk ltac:(lia) store_demo_LaunchOk demo_GroupsOk).
Defined.

(** C40: With more than 48 cores the tiling function does not store a rest of 48
    groups or more: the call returns, but only the groups of the full rounds are
    in their slots, and the slots of the rest are as before. *)
Theorem store_tail_lost `{HA : AscendCopy} block `{HAL : !AscendCopyLaws block} blank c n t k nb ws ub order
    key groupLen groupKeyIdx groupKeyCacheIdx cache
    (HC : CallOk blank c n t k nb ws) (Hrest : 48 <= n mod nb) (Hblank : coreTail blank = 0) (HL : LaunchOk t nb ub order)
    (HG : GroupsOk (blockTableSize t) (tokenSize t) n key groupLen groupKeyIdx groupKeyCacheIdx cache) :
  returns (launch k t nb key groupLen groupKeyIdx groupKeyCacheIdx ub order cache) (fun cache' =>
    stored (tokenSize t) (n / nb * nb) key groupLen groupKeyIdx groupKeyCacheIdx cache cache' /\
    forall i j, n / nb * nb <= i < n -> 0 <= j < vat groupLen i ->
      page_eq (tokenSize t) cache' (vat groupKeyCacheIdx i + j) cache (vat groupKeyCacheIdx i + j)).
Proof.
  destruct (call_facts _ _ _ _ _ _ _ HC) as (F1 & _). destruct (cl_groups _ _ _ _ _ _ _ HC) as [_ Hn].
  assert (E : dealt n nb = n / nb * nb) by (unfold dealt; by rewrite (proj2 (Z.ltb_ge _ _)) by lia).
  eapply returns_mono; [apply (store_call_returns block blank c n t k nb ws); [done|by right|done|done]|].
  rewrite E. intros cache' HS. split; [done|]. destruct HS as (_ & _ & Ho). intros i j Hi Hj.
  pose proof (Z.div_pos n nb ltac:(lia) ltac:(lia)). destruct HG as [_ G2 _ G4 _ G6].
  destruct (G4 i ltac:(nia)) as [G4' _]. apply Ho; [lia|]. intros i' Hi'.
  apply (G6 i i' (vat groupKeyCacheIdx i + j)); nia.
Qed.

(** Fifty groups of one token of one element on 64 cores: nothing is stored. *)
Definition wide_context : TilingContext := mkContext [50; 1] [50; 1] [50] DT_INT8 1 (Some 64) 0.
Definition wide_tiling : StoreKVBlockTilingData := mkTiling 1 1 1 0 0 50 50 50.

Lemma wide_CallOk : CallOk zero_tiling wide_context 50 wide_tiling 1 64 0.
Proof. split; vm_compute; intuition congruence. Qed.

Lemma vat_seqZ m n i : 0 <= i < n -> vat (seqZ m n) i = m + i.
Proof. intros Hi. unfold vat. rewrite lookup_seqZ_lt by lia. cbn. lia. Qed.

Lemma wide_GroupsOk : GroupsOk 1 1 50 (seqZ 100 50) (replicate 50 1) (seqZ 0 50) (seqZ 0 50) (replicate 50 7).
Proof.
  assert (L : forall i, 0 <= i < 50 -> vat (replicate 50 1) i = 1).
  { intros i Hi. unfold vat. rewrite lookup_replicate_2 by lia. done. }
  split; rewrite ?length_seqZ, ?length_replicate; try (vm_compute; intuition congruence).
  - intros i Hi. rewrite L by done. lia.
  - intros i Hi. rewrite L, vat_seqZ by done. lia.
  - intros i Hi. rewrite L, vat_seqZ by done. lia.
  - intros i j s Hi Hj Hn. rewrite !L, !vat_seqZ by done. lia.
Qed.

Lemma store_tail_lost_witness :
  returns (@launch SoftCopy 1 wide_tiling 64 (seqZ 100 50) (replicate 50 1) (seqZ 0 50) (seqZ 0 50) (fun _ => [0]) (seqZ 0 64) (replicate 50 7))
    (fun cache' => stored 1 0 (seqZ 100 50) (replicate 50 1) (seqZ 0 50) (seqZ 0 50) (replicate 50 7) cache' /\
      forall i j, 0 <= i < 50 -> 0 <= j < vat (replicate 50 1) i ->
        page_eq 1 cache' (vat (seqZ 0 50) i + j) (replicate 50 7) (vat (seqZ 0 50) i + j)).
Proof.
  refine (@store_tail_lost SoftCopy 1 (SoftCopy_laws _) zero_tiling wide_context 50 wide_tiling 1 64 0 _ _ _ _ _ _ _
    wide_CallOk _ eq_refl _ wide_GroupsOk); [vm_compute; congruence|]. split; [done|done].
Defined.

(** The tiling function never faults: it accepts exactly the calls with 2 to 7
    dimensions on both sides, a supported type and a page of at most
    MAX_UB_USE_SIZE elements, and computes the token size as the product of the
    dimensions, the groups per core and the rest; what it does not set stays. *)
Theorem store_tiling_exact blank c : StoreKVBlockTilingFunc blank c = Ok (reference_tiling blank c).
Proof. apply StoreKVBlockTilingFunc_eq. Qed.

(** The token buffer of an accepted call holds a page of tokens, so that every
    group fits; in bytes it is up to the element size times MAX_UB_USE_SIZE, and
    for calls of 4-byte elements that bound is reached. *)
Theorem store_buffer_bytes :
  (forall blank c n t k nb ws b, CallOk blank c n t k nb ws ->
     let bytes := u32 (b_blockTableSize (Init t b nb) * b_tokenByteSize (Init t b nb)) in
     bytes = blockTableSize t * tokenSize t * k /\ bytes <= k * MAX_UB_USE_SIZE) /\
  exists c n t nb ws, CallOk zero_tiling c n t 4 nb ws /\
    u32 (b_blockTableSize (Init t 0 nb) * b_tokenByteSize (Init t 0 nb)) = 4 * MAX_UB_USE_SIZE.
Proof.
  split.
  - intros blank c n t k nb ws b HC bytes.
    destruct (call_facts _ _ _ _ _ _ _ HC) as (_ & _ & F3 & F4 & F5 & F6 & F7 & _). destruct HC as [_ _ Hp Ht _].
    assert (Hk : k = 1 \/ k = 2 \/ k = 4) by (destruct (sc_dataType c); cbn in F3; injection F3 as <- || done; lia).
    unfold MAX_UB_USE_SIZE in *. unfold bytes, Init. cbn [b_blockTableSize b_tokenByteSize]. rewrite F4, <- F5, <- F6 in *.
    rewrite (u32_id (tokenSize t * k)), u32_id by nia. nia.
  - exists (mkContext [1; 1; 1440] [1; 128; 1440] [1] DT_INT32 128 (Some 40) 0), 1, (mkTiling 128 4 1440 0 1 1 128 1), 40, 0.
    split; [|reflexivity]. split; vm_compute; intuition congruence.
Qed.
End StoreTheorems.
