(* ===== verification/CacheTheorems.v ===== *)
(** * Storing tokens and moving pages

    store_kv_block writes a cache by slots, kv_cache_block_gather reads it by
    pages: slot [s] of a cache with [P] tokens per page is row [s mod P] of page
    [s / P]. *)

From S2P Require Import Prelude Ascend Tensor GatherKernel GatherTheorems StoreKernel StoreTheorems.

Module CacheTheorems.
Import GatherTheorems.

(** A row of a page. *)
Lemma page_row T P l p l' p' r :
  0 < T -> 0 <= r < P -> page_eq (P * T) l p l' p' -> page_eq T l (p * P + r) l' (p' * P + r).
Proof.
  intros HT Hr H e He.
  replace ((p * P + r) * T + e) with (p * (P * T) + (r * T + e)) by lia.
  replace ((p' * P + r) * T + e) with (p' * (P * T) + (r * T + e)) by lia. apply H. nia.
Qed.

Lemma page_eq_trans T l1 p1 l2 p2 l3 p3 : page_eq T l1 p1 l2 p2 -> page_eq T l2 p2 l3 p3 -> page_eq T l1 p1 l3 p3.
Proof. intros H1 H2 e He. by rewrite H1, H2. Qed.

(** C13: Tokens that one call stores in the slots of a cache are, after a second
    call has moved the pages of the cache, in the same rows of the pages that
    the second call wrote: the two operators agree on the layout of a page. *)
Theorem store_then_gather `{HA : AscendCopy} d `{HAL : !AscendCopyLaws (Gather.GetDataCopyAlignmentElems d)}
    blank sc n st k nb ws ub sorder key groupLen groupKeyIdx groupKeyCacheIdx cache
    (HC : StoreTheorems.CallOk blank sc n st k nb ws) (Hnb : nb <= 48) (HS : StoreTheorems.LaunchOk st nb ub sorder)
    (HG : StoreTheorems.GroupsOk (Store.blockTableSize st) (Store.tokenSize st) n key groupLen groupKeyIdx groupKeyCacheIdx cache)
    gc la alloc gorder srcIds dstIds out P
    (HL : LaunchOk gc la alloc gorder) (Hd : Gather.tc_srcPagesDesc gc = Some d)
    (HP : PagesOk (Gather.la_tiling la) srcIds dstIds cache out)
    (HE : Gather.elemsPerBlock (Gather.la_tiling la) = P * Store.tokenSize st) :
  returns (cache' ← StoreTheorems.launch k st nb key groupLen groupKeyIdx groupKeyCacheIdx ub sorder cache;
           launch la srcIds dstIds cache' alloc gorder out) (fun out' =>
    forall i j m r, 0 <= i < n -> 0 <= j < vat groupLen i -> 0 <= m < Gather.selectedBlocks (Gather.la_tiling la) -> 0 <= r < P ->
      vat groupKeyCacheIdx i + j = vat srcIds m * P + r ->
      page_eq (Store.tokenSize st) out' (vat dstIds m * P + r) key (vat groupKeyIdx i + j)).
Proof.
  destruct (StoreTheorems.call_facts _ _ _ _ _ _ _ HC) as (F1 & _). pose proof (Z.mod_pos_bound n nb ltac:(lia)).
  destruct (StoreTheorems.call_tiling _ _ _ _ _ _ _ HC ltac:(left; lia)) as [[_ HT _ _ _ _ _ _] _].
  eapply returns_bind_mono.
  { apply (StoreTheorems.store_call_returns (Gather.GetDataCopyAlignmentElems d) blank sc n st k nb ws); [done|left; lia|done|done]. }
  rewrite StoreTheorems.dealt_all by lia. intros cache' (Lc & Hs & _). eapply returns_mono; [apply (launch_returns d gc); [done|done|]|].
  - destruct HP as [Q1 Q2 Q3 Q4 Q5]. split; try done. by rewrite Lc.
  - rewrite HE. intros out' (_ & Ho & _) i j m r Hi Hj Hm Hr Es.
    eapply page_eq_trans; [apply page_row; [done|done|by apply Ho]|]. rewrite <- Es. by apply Hs.
Qed.

(** The demonstration cache has pages of four slots; both pages move. *)
Definition move_context : Gather.TilingContext :=
  Gather.mkContext (Some 40) (Some Gather.DT_INT32) (Some Gather.DT_BF16) (Some Gather.DT_INT32) (Some Gather.DT_BF16)
    (Some [2]) (Some [2; 32]) (Some [2]) (Some [2; 32]) (Some tt) (Some tt).
Definition move_launch : Gather.Launch :=
  Gather.mkLaunch (Gather.mkTiling 2 32 32) 2 Gather.KV_CACHE_BLOCK_GATHER_BF16_MODE Gather.WS_SYS_SIZE.
Definition move_tensors (_ _ : Z) : list Z * list Z := (replicate 32 0, replicate 32 0).

Lemma move_LaunchOk : LaunchOk move_context move_launch move_tensors (seqZ 0).
Proof. split; [vm_compute; reflexivity|intros n [= <-]; lia|vm_compute; reflexivity|done|done]. Qed.

Lemma move_PagesOk : PagesOk (Gather.la_tiling move_launch) [0; 1] [1; 0] (replicate 64 0) (replicate 64 5).
Proof.
  split; try reflexivity; cbn [move_launch Gather.la_tiling Gather.selectedBlocks Gather.elemsPerBlock].
  - intros i Hi. destruct (two_cases i Hi) as [-> | ->]; vm_compute; intuition congruence.
  - intros i Hi. destruct (two_cases i Hi) as [-> | ->]; vm_compute; intuition congruence.
  - intros i j Hi Hj Hn. destruct (two_cases i Hi) as [-> | ->], (two_cases j Hj) as [-> | ->]; vm_compute; congruence.
Qed.

Lemma store_then_gather_witness :
  returns (cache' ← @StoreTheorems.launch SoftCopy 2 StoreTheorems.demo_tiling 2 (seqZ 100 24) StoreTheorems.demo_lens
             StoreTheorems.demo_keys StoreTheorems.demo_slots (fun _ => replicate 32 0) [1; 0] (replicate 64 0);
           @launch SoftCopy move_launch [0; 1] [1; 0] cache' move_tensors (seqZ 0) (replicate 64 5)) (fun out' =>
    forall i j m r, 0 <= i < 3 -> 0 <= j < vat StoreTheorems.demo_lens i -> 0 <= m < 2 -> 0 <= r < 4 ->
      vat StoreTheorems.demo_slots i + j = vat [0; 1] m * 4 + r ->
      page_eq 8 out' (vat [1; 0] m * 4 + r) (seqZ 100 24) (vat StoreTheorems.demo_keys i + j)).
Proof.
  exact (@store_then_gather SoftCopy Gather.DT_BF16 (SoftCopy_laws _) _ _ _ _ _ _ _ _ _ _ _ _ _ _
    StoreTheorems.store_demo_CallOk ltac:(lia) StoreTheorems.store_demo_LaunchOk StoreTheorems.demo_GroupsOk
    _ _ _ _ _ _ _ 4 move_LaunchOk eq_refl move_PagesOk eq_refl).
Defined.
End CacheTheorems.
