(* ===== verification/EagleKernel.v ===== *)
(** * Draft inputs of the EAGLE proposer: copy_and_expand_eagle_inputs

    Shape inference, tiling and the kernel class of
    src/csrc/moe/copy_and_expand_eagle_inputs, and the binding of the operator in
    src/csrc/torch_binding.cpp.  Every request of a batch gets its accepted
    tokens, the token that the target model has sampled, the slots of the tokens
    to be drafted in parallel and the slots of its rejected tokens. *)

From S2P Require Import Prelude Ascend.

Module Eagle.

(** ** Tiling *)

Record TilingData := mkTiling {
  usedCoreNum : Z;
  numReqs : Z;
  reqsPerCore : Z;
  remainderReqs : Z;
  paddingTokenId : Z;
  parallelDraftingTokenId : Z;
  numPaddingSlotsPerReq : Z;
  totalInputTokens : Z;
  shiftInputIds : Z;
  totalDraftTokens : Z
}.

(** Shapes and attributes of a call. *)
Record TilingContext := mkContext {
  ec_queryStartLocShape : option (list Z);
  ec_paddingTokenId : Z;
  ec_parallelDraftingTokenId : Z;
  ec_numPaddingSlotsPerReq : Z;
  ec_shiftInputIds : bool;
  ec_totalInputTokens : Z;
  ec_outShape : option (list Z)
}.

(** Tiling data, tiling key and number of blocks. *)
Definition TilingFunc (c : TilingContext) : res (TilingData * Z * Z) :=
  let numReqs :=
    match ec_queryStartLocShape c with
    | Some (dim0 :: _) => if dim0 >? 1 then u32 (dim0 - 1) else 0
    | _ => 0
    end in
  let usedCoreNum := 1 in
  reqsPerCore ← udiv numReqs usedCoreNum;
  remainderReqs ← umod numReqs usedCoreNum;
  let totalDraftTokens := match ec_outShape c with Some (dim0 :: _) => u32 dim0 | _ => 0 end in
  Ok (mkTiling usedCoreNum numReqs reqsPerCore remainderReqs (i32 (ec_paddingTokenId c)) (i32 (ec_parallelDraftingTokenId c))
        (u32 (i32 (ec_numPaddingSlotsPerReq c))) (u32 (i32 (ec_totalInputTokens c))) (if ec_shiftInputIds c then 1 else 0)
        totalDraftTokens, 1, usedCoreNum).

(** The lengths of the six outputs. *)
Definition InferShape (targetTokenIdsShape queryStartLocShape : option (list Z)) (numPaddingSlotsPerReq : Z) (shiftInputIds : bool)
    : option (list Z) :=
  match targetTokenIdsShape, queryStartLocShape with
  | Some tshape, Some qshape =>
      let totalInputTokens := vat tshape 0 in
      let numReqs := i64 (vat qshape 0 - 1) in
      let totalDraftTokens :=
        i64 (totalInputTokens + i64 (i64 (numPaddingSlotsPerReq - (if shiftInputIds then 1 else 0)) * numReqs)) in
      Some [totalDraftTokens; totalDraftTokens; totalDraftTokens; totalDraftTokens;
            i64 (numReqs * numPaddingSlotsPerReq); totalInputTokens]
  | _, _ => None
  end.

(** ** State of the kernel *)

(** Token, position and the two masks of the slots: in the buffers of a core and
    in global memory. *)
Record Rows := mkRows { InputIds : list Z; Positions : list Z; IsRejected : list Z; IsMasked : list Z }.
#[global] Instance Rows_eta : Eta Rows := fun r => mkRows (InputIds r) (Positions r) (IsRejected r) (IsMasked r).

Record State := mkState {
  qsBuf : list Z;
  qeBuf : list Z;
  ntBuf : list Z;
  inputBuf : list Z;
  rowBufs : Rows;
  ntiBuf : list Z;
  hsmBuf : list Z;
  gmRows : Rows;
  gmOutNewTokenIndices : list Z;
  gmOutHiddenStateMapping : list Z
}.
#[global] Instance State_eta : Eta State := fun s =>
  mkState (qsBuf s) (qeBuf s) (ntBuf s) (inputBuf s) (rowBufs s) (ntiBuf s) (hsmBuf s) (gmRows s) (gmOutNewTokenIndices s)
    (gmOutHiddenStateMapping s).

Definition ONE_BLK_SIZE : Z := 32.
Definition MAX_PER_REQ : Z := 4096.
Definition AlignUp (x a : Z) : Z := u32 (u32 (x + a - 1) / a * a).

(** Elements of the buffers of a core with [n] requests. *)
Definition InitBuffers (n : Z) (s : State) : Prop :=
  let words bytes := AlignUp bytes ONE_BLK_SIZE / 4 in
  let per_req := words (MAX_PER_REQ * 4) in
  let flags := AlignUp MAX_PER_REQ ONE_BLK_SIZE in
  Z.of_nat (length (qsBuf s)) = words (u32 ((n + 1) * 4)) /\
  Z.of_nat (length (qeBuf s)) = words (u32 (n * 4)) /\
  Z.of_nat (length (ntBuf s)) = words (u32 (n * 4)) /\
  Z.of_nat (length (inputBuf s)) = per_req /\
  Z.of_nat (length (InputIds (rowBufs s))) = per_req /\
  Z.of_nat (length (Positions (rowBufs s))) = per_req /\
  Z.of_nat (length (IsRejected (rowBufs s))) = flags /\
  Z.of_nat (length (IsMasked (rowBufs s))) = flags /\
  Z.of_nat (length (ntiBuf s)) = words (64 * 4) /\
  Z.of_nat (length (hsmBuf s)) = per_req.

(** First request and number of requests of a core. *)
Definition my_requests (t : TilingData) (coreId : Z) : Z * Z :=
  if coreId <? remainderReqs t then (u32 (coreId * u32 (reqsPerCore t + 1)), u32 (reqsPerCore t + 1))
  else (u32 (u32 (remainderReqs t * u32 (reqsPerCore t + 1)) + u32 (u32 (coreId - remainderReqs t) * reqsPerCore t)), reqsPerCore t).

Section Kernel.
Context `{AscendCopy}.

(** ** Transfers *)

Definition DataCopyIn (dst src : list Z) (gmOffset count : Z) : res (list Z) :=
  if count <=? 0 then Ok dst
  else data_copy_in dst src gmOffset (i32 (Z.quot (i32 (i32 (count + 8) - 1)) 8 * 8)).

Definition DataCopyOut_int32 (dst src : list Z) (gmOffset count : Z) : res (list Z) :=
  if count <=? 0 then Ok dst else copy_pad_out dst gmOffset src (u32 (u32 count * 4) / 4).

Definition DataCopyOut_int8 (dst src : list Z) (gmOffset count : Z) : res (list Z) :=
  if count <=? 0 then Ok dst else copy_pad_out dst gmOffset src (u32 count).

(** The four tensors of the slots. *)
Definition copy_rows_out (dst src : Rows) (gmOffset count : Z) : res Rows :=
  ids ← DataCopyOut_int32 (InputIds dst) (InputIds src) gmOffset count;
  pos ← DataCopyOut_int32 (Positions dst) (Positions src) gmOffset count;
  rej ← DataCopyOut_int8 (IsRejected dst) (IsRejected src) gmOffset count;
  msk ← DataCopyOut_int8 (IsMasked dst) (IsMasked src) gmOffset count;
  Ok (mkRows ids pos rej msk).

Context (t : TilingData) (gmTargetTokenIds gmTargetPositions gmNextTokenIds gmQueryStartLoc gmQueryEndLoc : list Z).

(** The copies of Init. *)
Definition Init (coreId : Z) (s : State) : res State :=
  let '(myStartReq, myNumReqs) := my_requests t coreId in
  if myNumReqs >? 0 then
    lqs ← DataCopyIn (qsBuf s) gmQueryStartLoc (i32 myStartReq) (i32 (u32 (myNumReqs + 1)));
    lqe ← DataCopyIn (qeBuf s) gmQueryEndLoc (i32 myStartReq) (i32 myNumReqs);
    lnt ← DataCopyIn (ntBuf s) gmNextTokenIds (i32 myStartReq) (i32 myNumReqs);
    Ok (s <| qsBuf := lqs |> <| qeBuf := lqe |> <| ntBuf := lnt |>)
  else Ok s.

(** ** One request *)

(** [SetValue] on the four buffers of the slots. *)
Definition set_row (j id pos rej msk : Z) (l : Rows) : res Rows :=
  ids ← vset (InputIds l) j id;
  poss ← vset (Positions l) j pos;
  rejs ← vset (IsRejected l) j rej;
  msks ← vset (IsMasked l) j msk;
  Ok (mkRows ids poss rejs msks).

(** The slots of a request: accepted tokens, sampled token, tokens to draft,
    rejected tokens. *)
Definition fill_rows (numValid numRejected startPos nextTokenId : Z) (token : Z -> res Z) (l : Rows) : res Rows :=
  let slots := i32 (numPaddingSlotsPerReq t) in
  l ← for_range numValid (fun j l => id ← token j; set_row j id (i32 (startPos + j)) 0 0 l) l;
  l ← set_row numValid nextTokenId (i32 (startPos + numValid)) 0 0 l;
  l ← for_range (slots - 1) (fun k0 l =>
        let j := i32 (numValid + (1 + k0)) in
        set_row j (parallelDraftingTokenId t) (i32 (startPos + j)) 0 1 l) l;
  for_range numRejected (fun k l =>
    let j := i32 (i32 (numValid + slots) + k) in
    set_row j (paddingTokenId t) 0 1 0 l) l.

(** The indices of the sampled token and of the tokens to draft. *)
Definition fill_nti (outputStart numValid : Z) (nti : list Z) : res (list Z) :=
  nti ← vset nti 0 (i32 (outputStart + numValid));
  for_range (i32 (numPaddingSlotsPerReq t) - 1) (fun k0 nti =>
    vset nti (1 + k0) (i32 (i32 (outputStart + numValid) + (1 + k0)))) nti.

Definition ProcessOneRequestShiftFalse (r rLocal : Z) (s : State) : res State :=
  let slots := i32 (numPaddingSlotsPerReq t) in
  queryStart ← vget (qsBuf s) rLocal;
  nextQueryStart ← vget (qsBuf s) (u32 (rLocal + 1));
  queryEnd ← vget (qeBuf s) rLocal;
  let numRejected := i32 (i32 (nextQueryStart - queryEnd) - 1) in
  let numRejected := if numRejected <? 0 then 0 else numRejected in
  let numValid := i32 (i32 (queryEnd - queryStart) + 1) in
  let numValid := if numValid <? 0 then 0 else numValid in
  let outputStart := i32 (queryStart + i32 (i32 r * slots)) in
  let outputLen := i32 (i32 (numValid + slots) + numRejected) in
  let numInputTokensForReq := i32 (nextQueryStart - queryStart) in
  localInput ← (if numInputTokensForReq >? 0 then DataCopyIn (inputBuf s) gmTargetTokenIds queryStart numInputTokensForReq
                else Ok (inputBuf s));
  localTmpPos ← DataCopyIn (hsmBuf s) gmTargetPositions queryStart 1;
  startPos ← vget localTmpPos 0;
  nextTokenId ← vget (ntBuf s) rLocal;
  rows ← fill_rows numValid numRejected startPos nextTokenId
           (fun j => vget localInput (if j >=? numInputTokensForReq then i32 (numInputTokensForReq - 1) else j)) (rowBufs s);
  gm ← copy_rows_out (gmRows s) rows outputStart outputLen;
  lNti ← fill_nti outputStart numValid (ntiBuf s);
  gmNti ← DataCopyOut_int32 (gmOutNewTokenIndices s) lNti (i32 (i32 r * slots)) slots;
  Ok (s <| inputBuf := localInput |> <| hsmBuf := localTmpPos |> <| rowBufs := rows |> <| gmRows := gm |>
        <| ntiBuf := lNti |> <| gmOutNewTokenIndices := gmNti |>).

Definition ProcessOneRequestShiftTrue (r rLocal : Z) (s : State) : res State :=
  let slots := i32 (numPaddingSlotsPerReq t) in
  queryStart ← vget (qsBuf s) rLocal;
  nextQueryStart ← vget (qsBuf s) (u32 (rLocal + 1));
  queryEnd ← vget (qeBuf s) rLocal;
  let numRejected := i32 (i32 (nextQueryStart - queryEnd) - 1) in
  let numRejected := if numRejected <? 0 then 0 else numRejected in
  let numValid := i32 (queryEnd - queryStart) in
  let numValid := if numValid <? 0 then 0 else numValid in
  let outputStart := i32 (queryStart + i32 (i32 r * i32 (slots - 1))) in
  let outputLen := i32 (i32 (numValid + slots) + numRejected) in
  let numInputTokensForReq := i32 (nextQueryStart - queryStart) in
  let readStart := i32 (queryStart + 1) in
  let readCount := numValid in
  let readCount :=
    if i32 (readStart + readCount) >? i32 (totalInputTokens t)
    then let readCount := i32 (i32 (totalInputTokens t) - readStart) in if readCount <? 0 then 0 else readCount
    else readCount in
  localInput ← (if readCount >? 0 then DataCopyIn (inputBuf s) gmTargetTokenIds readStart readCount else Ok (inputBuf s));
  localTmpPos ← DataCopyIn (hsmBuf s) gmTargetPositions queryStart 1;
  startPos ← vget localTmpPos 0;
  nextTokenId ← vget (ntBuf s) rLocal;
  rows ← fill_rows numValid numRejected startPos nextTokenId
           (fun j => if readCount >? 0
                     then vget localInput (if (j >=? readCount) && (readCount >? 0) then i32 (readCount - 1) else j)
                     else Ok 0) (rowBufs s);
  let outputLenToWrite :=
    if (nextQueryStart =? queryEnd) && (u32 (r + 1) <? numReqs t) then i32 (outputLen - 1) else outputLen in
  gm ← copy_rows_out (gmRows s) rows outputStart outputLenToWrite;
  lNti ← fill_nti outputStart numValid (ntiBuf s);
  gmNti ← DataCopyOut_int32 (gmOutNewTokenIndices s) lNti (i32 (i32 r * slots)) slots;
  lHsm ← for_range numInputTokensForReq (fun j l => vset l j (i32 (outputStart + j))) localTmpPos;
  gmHsm ← DataCopyOut_int32 (gmOutHiddenStateMapping s) lHsm queryStart numInputTokensForReq;
  Ok (s <| inputBuf := localInput |> <| hsmBuf := lHsm |> <| rowBufs := rows |> <| gmRows := gm |>
        <| ntiBuf := lNti |> <| gmOutNewTokenIndices := gmNti |> <| gmOutHiddenStateMapping := gmHsm |>).

(** ** A core *)

Definition ProcessShiftFalse (coreId : Z) (s : State) : res State :=
  let '(myStartReq, myNumReqs) := my_requests t coreId in
  for_range myNumReqs (fun rLocal s => ProcessOneRequestShiftFalse (u32 (myStartReq + rLocal)) rLocal s) s.

(** Zeros behind the slots of the last request. *)
Definition zero_tail (writtenEnd tailCount : Z) (s : State) : res State :=
  let l := rowBufs s in
  '(lZero32, lZero8) ← for_range tailCount (fun j '(lZero32, lZero8) =>
     lZero32 ← vset lZero32 j 0; lZero8 ← vset lZero8 j 0; Ok (lZero32, lZero8)) (InputIds l, IsRejected l);
  let g := gmRows s in
  ids ← DataCopyOut_int32 (InputIds g) lZero32 writtenEnd tailCount;
  pos ← DataCopyOut_int32 (Positions g) lZero32 writtenEnd tailCount;
  rej ← DataCopyOut_int8 (IsRejected g) lZero8 writtenEnd tailCount;
  msk ← DataCopyOut_int8 (IsMasked g) lZero8 writtenEnd tailCount;
  Ok (s <| rowBufs := mkRows lZero32 (Positions l) lZero8 (IsMasked l) |> <| gmRows := mkRows ids pos rej msk |>).

Definition ProcessShiftTrue (coreId : Z) (s : State) : res State :=
  let slots := i32 (numPaddingSlotsPerReq t) in
  let '(myStartReq, myNumReqs) := my_requests t coreId in
  s ← for_range myNumReqs (fun rLocal s => ProcessOneRequestShiftTrue (u32 (myStartReq + rLocal)) rLocal s) s;
  if (u32 (myStartReq + myNumReqs) =? numReqs t) && (totalDraftTokens t >? 0) then
    let lastLocal := u32 (myNumReqs - 1) in
    lastQs ← vget (qsBuf s) lastLocal;
    lastNqs ← vget (qsBuf s) (u32 (lastLocal + 1));
    lastQe ← vget (qeBuf s) lastLocal;
    let lastNumValid := i32 (lastQe - lastQs) in
    let lastNumValid := if lastNumValid <? 0 then 0 else lastNumValid in
    let lastNumRejected := i32 (i32 (lastNqs - lastQe) - 1) in
    let lastNumRejected := if lastNumRejected <? 0 then 0 else lastNumRejected in
    let lastOutputLen := i32 (i32 (lastNumValid + slots) + lastNumRejected) in
    let lastOutputStart := i32 (lastQs + i32 (i32 (u32 (myStartReq + lastLocal)) * i32 (slots - 1))) in
    let writtenEnd := i32 (lastOutputStart + lastOutputLen) in
    let tailCount := i32 (i32 (totalDraftTokens t) - writtenEnd) in
    if tailCount >? 0 then zero_tail writtenEnd tailCount s else Ok s
  else Ok s.

(** The entry point. *)
Definition copy_and_expand_eagle_inputs (tilingKey coreId : Z) (s : State) : res State :=
  if coreId >=? usedCoreNum t then Ok s
  else if tilingKey =? 1 then
    s ← Init coreId s;
    if shiftInputIds t =? 0 then ProcessShiftFalse coreId s else ProcessShiftTrue coreId s
  else Ok s.
End Kernel.

(** ** The binding *)

Definition zeros (n : Z) : list Z := replicate (Z.to_nat n) 0.

(** [behind i] is the memory behind input [i], [fresh] what the buffers of the
    core hold before the call. *)
Definition npu_copy_and_expand_eagle_inputs `{AscendCopy} (behind : Z -> list Z) (fresh : State)
    (target_token_ids target_positions next_token_ids query_start_loc query_end_loc : list Z)
    (padding_token_id parallel_drafting_token_id num_padding_slots_per_request : Z) (shift_input_ids : bool) (total_draft_tokens : Z)
    : res (Rows * list Z * list Z) :=
  let total_input_tokens := Z.of_nat (length target_token_ids) in
  let num_reqs := Z.of_nat (length query_start_loc) - 1 in
  let out := zeros total_draft_tokens in
  let s := fresh <| gmRows := mkRows out out out out |>
                 <| gmOutNewTokenIndices := zeros (num_reqs * num_padding_slots_per_request) |>
                 <| gmOutHiddenStateMapping := zeros total_input_tokens |> in
  '(t, tilingKey, blockDim) ← TilingFunc (mkContext (Some [Z.of_nat (length query_start_loc)]) padding_token_id
     parallel_drafting_token_id num_padding_slots_per_request shift_input_ids total_input_tokens (Some [total_draft_tokens]));
  s ← for_range blockDim (fun core s => copy_and_expand_eagle_inputs t (target_token_ids ++ behind 0) (target_positions ++ behind 1)
        (next_token_ids ++ behind 2) (query_start_loc ++ behind 3) (query_end_loc ++ behind 4) tilingKey core s) s;
  Ok (gmRows s, gmOutNewTokenIndices s, gmOutHiddenStateMapping s).
End Eagle.
