(* ===== verification/EagleProofs.v ===== *)
(** * What copy_and_expand_eagle_inputs does to one request

    The reference for the slots of a request, and that the two request functions
    of the kernel compute it. *)

From S2P Require Import Prelude Ascend Tensor EagleKernel.

Module EagleProofs.
Import Eagle.

(** ** Slots *)

Definition rows_at (l : Rows) (j : Z) : Z * Z * Z * Z :=
  (vat (InputIds l) j, vat (Positions l) j, vat (IsRejected l) j, vat (IsMasked l) j).

Definition rows_len (l : Rows) (n : Z) : Prop :=
  Z.of_nat (length (InputIds l)) = n /\ Z.of_nat (length (Positions l)) = n /\
  Z.of_nat (length (IsRejected l)) = n /\ Z.of_nat (length (IsMasked l)) = n.

(** Entries [lo] to [hi] of the four tensors become [f], the rest stays. *)
Definition rows_put (lo hi : Z) (f : Z -> Z * Z * Z * Z) (l l' : Rows) : Prop :=
  (forall n, rows_len l n -> rows_len l' n) /\
  (forall j, lo <= j < hi -> rows_at l' j = f j) /\
  forall j, 0 <= j -> j < lo \/ hi <= j -> rows_at l' j = rows_at l j.

Lemma rows_put_nil lo hi f l : hi <= lo -> rows_put lo hi f l l.
Proof. intros H. split; [done|]. split; [lia|done]. Qed.

Lemma rows_put_app lo mid hi f l1 l2 l3 :
  0 <= lo <= mid -> mid <= hi -> rows_put lo mid f l1 l2 -> rows_put mid hi f l2 l3 -> rows_put lo hi f l1 l3.
Proof.
  intros H1 H2 (L1 & V1 & O1) (L2 & V2 & O2). split; [auto|]. split.
  - intros j Hj. destruct (Z.lt_ge_cases j mid); [rewrite O2 by lia; apply V1; lia|apply V2; lia].
  - intros j Hj Ho. rewrite O2, O1 by lia. done.
Qed.

Lemma rows_put_ext lo hi f g l l' : (forall j, lo <= j < hi -> f j = g j) -> rows_put lo hi f l l' -> rows_put lo hi g l l'.
Proof. intros E (L & V & O). split; [done|]. split; [|done]. intros j Hj. by rewrite <- E, V. Qed.

Lemma set_row_returns j id pos rej msk l n f :
  rows_len l n -> 0 <= j < n -> f j = (id, pos, rej, msk) -> returns (set_row j id pos rej msk l) (rows_put j (j + 1) f l).
Proof.
  intros (L1 & L2 & L3 & L4) Hj Ef. unfold set_row. rewrite !vset_ok by lia. cbn [mbind res_bind]. apply returns_ok.
  split; [|split].
  - intros m. unfold rows_len. cbn. by rewrite !length_insert.
  - intros i Hi. assert (i = j) as -> by lia. unfold rows_at. cbn. by rewrite !vat_insert_eq by lia.
  - intros i Hi Ho. unfold rows_at. cbn. by rewrite !vat_insert_ne by lia.
Qed.

(** A loop that sets one entry after the other. *)
Lemma rows_fill base n m f body l :
  rows_len l m -> 0 <= base -> 0 <= n ->
  (forall k l', 0 <= k < n -> rows_len l' m -> returns (body k l') (rows_put (base + k) (base + k + 1) f l')) ->
  returns (for_range n body l) (rows_put base (base + n) f l).
Proof.
  intros Hl Hb Hn Hbody. apply (for_range_returns (fun k => rows_put base (base + k) f l)); [done|apply rows_put_nil; lia|].
  intros k l' Hk HP. eapply returns_mono; [apply Hbody; [done|by apply HP]|]. intros l'' HP'.
  replace (base + (k + 1)) with (base + k + 1) by lia. eapply rows_put_app; [| |exact HP|exact HP']; lia.
Qed.

(** ** The reference *)

Section Reference.
Context (shift : bool) (ids positions next qs qe : list Z) (pad draft P : Z).

(** The first token of a request is left out if the input is shifted. *)
Definition dropped : Z := if shift then 1 else 0.
Abbreviation s := dropped.

Lemma dropped_range : 0 <= dropped <= 1.
Proof. unfold dropped. destruct shift; lia. Qed.

Definition valid (r : Z) : Z := vat qe r - vat qs r + 1 - s.
Definition rejected (r : Z) : Z := vat qs (r + 1) - vat qe r - 1.
Definition inputs (r : Z) : Z := vat qs (r + 1) - vat qs r.
Definition len (r : Z) : Z := valid r + P + rejected r.
Definition start (r : Z) : Z := vat qs r + r * (P - s).

(** Token, position, rejected, masked of slot [j] of request [r]. *)
Definition slot (r j : Z) : Z * Z * Z * Z :=
  let pos := i32 (vat positions (vat qs r) + j) in
  if j <? valid r then (vat ids (vat qs r + s + j), pos, 0, 0)
  else if j =? valid r then (vat next r, pos, 0, 0)
  else if j <? valid r + P then (draft, pos, 0, 1)
  else (pad, 0, 1, 0).

(** A batch of non-empty requests whose last accepted token is one of theirs. *)
Record BatchOk (n T : Z) : Prop := {
  bo_reqs : 0 < n;
  bo_ids : Z.of_nat (length ids) = T;
  bo_positions : Z.of_nat (length positions) = T;
  bo_next : Z.of_nat (length next) = n;
  bo_qs : Z.of_nat (length qs) = n + 1;
  bo_qe : Z.of_nat (length qe) = n;
  bo_first : vat qs 0 = 0;
  bo_last : vat qs n = T;
  bo_req : forall r, 0 <= r < n -> vat qs r < vat qs (r + 1) /\ vat qs r + s - 1 <= vat qe r < vat qs (r + 1);
  bo_len : forall r, 0 <= r < n -> len r <= MAX_PER_REQ;
  bo_slots : 1 <= P <= 64;
  bo_width : T + n * P < 2 ^ 29
}.

Lemma len_start r : len r = start (r + 1) - start r.
Proof. unfold len, start, valid, rejected. destruct shift; lia. Qed.

Lemma qs_mono n T r r' : BatchOk n T -> 0 <= r <= r' -> r' <= n -> vat qs r <= vat qs r'.
Proof.
  intros HB Hr Hn. assert (H : forall k : nat, r + Z.of_nat k <= n -> vat qs r <= vat qs (r + Z.of_nat k)).
  { induction k as [|k IH]; intros Hk; [by rewrite Z.add_0_r|].
    destruct (bo_req _ _ HB (r + Z.of_nat k)) as [H _]; [lia|]. specialize (IH ltac:(lia)).
    replace (r + Z.of_nat (S k)) with (r + Z.of_nat k + 1) by lia. lia. }
  specialize (H (Z.to_nat (r' - r))). by replace (r + Z.of_nat (Z.to_nat (r' - r))) with r' in H by lia; apply H.
Qed.

Lemma start_mono n T r r' : BatchOk n T -> 0 <= r <= r' -> r' <= n -> start r <= start r'.
Proof.
  intros HB Hr Hn. pose proof (qs_mono _ _ _ _ HB Hr Hn). pose proof (bo_slots _ _ HB). pose proof dropped_range. unfold start. nia.
Qed.

(** The numbers of a request. *)
Lemma req_bounds n T r :
  BatchOk n T -> 0 <= r < n ->
  0 <= vat qs r /\ vat qs (r + 1) <= T /\ 0 <= valid r /\ 0 <= rejected r /\ 1 <= inputs r <= MAX_PER_REQ /\
  valid r + s <= inputs r /\ 0 <= start r /\ start r + len r <= start n /\ start n = T + n * (P - s) /\ 0 < len r.
Proof.
  intros HB Hr. pose proof (bo_req _ _ HB r Hr). pose proof (bo_len _ _ HB r Hr) as HL. pose proof (bo_slots _ _ HB).
  pose proof (qs_mono n T 0 r HB ltac:(lia) ltac:(lia)). pose proof (qs_mono n T (r + 1) n HB ltac:(lia) ltac:(lia)).
  rewrite (bo_first _ _ HB) in *. rewrite (bo_last _ _ HB) in *.
  pose proof (start_mono n T (r + 1) n HB ltac:(lia) ltac:(lia)). pose proof (len_start r).
  assert (start n = T + n * (P - s)) by (unfold start; by rewrite (bo_last _ _ HB)).
  unfold len, valid, rejected, inputs in *. unfold start at 1. pose proof dropped_range. repeat split; try lia; nia.
Qed.
End Reference.

(** ** Transfers *)

Lemma copy_size count : 0 < count < 2 ^ 30 -> i32 (Z.quot (i32 (i32 (count + 8) - 1)) 8 * 8) = align8 count.
Proof.
  intros Hc. rewrite (i32_id (count + 8)), (i32_id (count + 8 - 1)), Z.quot_div_nonneg by lia.
  replace (count + 8 - 1) with (count + 7) by lia. apply i32_id. unfold align8. ediv.
Qed.

Section Transfers.
Context `{HA : AscendCopy} `{HAL : !AscendCopyLaws 8}.

Lemma DataCopyIn_returns dst src off count :
  0 <= off -> 0 < count < 2 ^ 30 -> align8 count <= Z.of_nat (length dst) -> off + align8 count <= Z.of_nat (length src) ->
  returns (DataCopyIn dst src off count) (fun l => length l = length dst /\
    forall i, 0 <= i < count -> vat l i = vat src (off + i)).
Proof.
  intros Ho Hc Hd Hs. unfold DataCopyIn. rewrite (proj2 (Z.leb_gt count 0)) by lia.
  pose proof (align8_ge count). rewrite copy_size by done. unfold data_copy_in. rewrite !in_tensor_ok by lia. cbn [andb]. apply returns_ok.
  split; [apply dci_length|]. intros i Hi. apply dci_data; [apply Z.mod_mul; lia|lia|lia].
Qed.

Lemma copy_out32_returns dst src off count :
  0 <= off -> 0 < count < 2 ^ 30 -> off + count <= Z.of_nat (length dst) -> count <= Z.of_nat (length src) ->
  returns (DataCopyOut_int32 dst src off count) (fun l => outside off (off + count) dst l /\
    forall i, 0 <= i < count -> vat l (off + i) = vat src i).
Proof.
  intros Ho Hc Hd Hs. unfold DataCopyOut_int32. rewrite (proj2 (Z.leb_gt count 0)), (u32_id count), u32_id, Z.div_mul by lia.
  unfold copy_pad_out. rewrite !in_tensor_ok by lia. cbn [andb]. apply returns_ok. split; [split; [apply cpo_length|]|].
  - intros i Hi Hx. by apply cpo_other.
  - intros i Hi. apply cpo_data; lia.
Qed.

Lemma copy_out8_returns dst src off count :
  0 <= off -> 0 < count < 2 ^ 30 -> off + count <= Z.of_nat (length dst) -> count <= Z.of_nat (length src) ->
  returns (DataCopyOut_int8 dst src off count) (fun l => outside off (off + count) dst l /\
    forall i, 0 <= i < count -> vat l (off + i) = vat src i).
Proof.
  intros Ho Hc Hd Hs. unfold DataCopyOut_int8. rewrite (proj2 (Z.leb_gt count 0)), u32_id by lia.
  unfold copy_pad_out. rewrite !in_tensor_ok by lia. cbn [andb]. apply returns_ok. split; [split; [apply cpo_length|]|].
  - intros i Hi Hx. by apply cpo_other.
  - intros i Hi. apply cpo_data; lia.
Qed.

Lemma copy_rows_out_returns dst src off count m d :
  rows_len src m -> rows_len dst d -> 0 <= off -> 0 < count < 2 ^ 30 -> count <= m -> off + count <= d ->
  returns (copy_rows_out dst src off count) (rows_put off (off + count) (fun j => rows_at src (j - off)) dst).
Proof.
  intros (S1 & S2 & S3 & S4) (D1 & D2 & D3 & D4) Ho Hc Hm Hd. unfold copy_rows_out.
  eapply returns_bind_mono; [apply copy_out32_returns; lia|]. intros l1 [O1 V1].
  eapply returns_bind_mono; [apply copy_out32_returns; lia|]. intros l2 [O2 V2].
  eapply returns_bind_mono; [apply copy_out8_returns; lia|]. intros l3 [O3 V3].
  eapply returns_bind_mono; [apply copy_out8_returns; lia|]. intros l4 [O4 V4]. apply returns_ok. split; [|split].
  - intros n. unfold rows_len. cbn. by rewrite (proj1 O1), (proj1 O2), (proj1 O3), (proj1 O4).
  - intros j Hj. unfold rows_at. cbn. replace j with (off + (j - off)) at 1 2 3 4 by lia. by rewrite V1, V2, V3, V4 by lia.
  - intros j Hj Hx. unfold rows_at. cbn. by rewrite (proj2 O1), (proj2 O2), (proj2 O3), (proj2 O4).
Qed.
End Transfers.

(** ** One request *)

Lemma vat_app_l (l l' : list Z) i : 0 <= i < Z.of_nat (length l) -> vat (l ++ l') i = vat l i.
Proof. intros Hi. unfold vat. by rewrite lookup_app_l by lia. Qed.

Section Request.
Context `{HA : AscendCopy} `{HAL : !AscendCopyLaws 8}.
Context (shift : bool) (ids positions next qs qe : list Z) (pad draft P n T : Z) (b0 b1 : list Z).
Context (HB : BatchOk shift ids positions next qs qe P n T).
Context (Hb0 : 7 <= Z.of_nat (length b0)) (Hb1 : 7 <= Z.of_nat (length b1)).
Context (D : Z) (HD : T + n * (P - dropped shift) <= D < 2 ^ 29).

(** The tiling data that the kernel reads. *)
Record TilingOk (t : TilingData) : Prop := {
  et_reqs : numReqs t = n;
  et_pad : paddingTokenId t = pad;
  et_draft : parallelDraftingTokenId t = draft;
  et_slots : numPaddingSlotsPerReq t = P;
  et_inputs : totalInputTokens t = T;
  et_total : totalDraftTokens t = D
}.
Context (t : TilingData) (HT : TilingOk t).

Abbreviation valid := (valid shift qs qe).
Abbreviation rejected := (rejected qs qe).
Abbreviation inputs := (inputs qs).
Abbreviation len := (len shift qs qe P).
Abbreviation start := (start shift qs P).
Abbreviation slot := (slot shift ids positions next qs qe pad draft P).
Abbreviation req_facts := (req_bounds shift ids positions next qs qe P n T).

Lemma slots_i32 : i32 (numPaddingSlotsPerReq t) = P.
Proof. rewrite (et_slots _ HT). pose proof (bo_slots _ _ _ _ _ _ _ _ _ HB). apply i32_id. lia. Qed.

(** The four loops fill the slots of the request. *)
Lemma fill_rows_returns r token l :
  0 <= r < n -> rows_len l MAX_PER_REQ ->
  (forall j, 0 <= j < valid r -> token j = Ok (vat ids (vat qs r + dropped shift + j))) ->
  returns (fill_rows t (valid r) (rejected r) (vat positions (vat qs r)) (vat next r) token l)
    (rows_put 0 (len r) (slot r) l).
Proof.
  intros Hr Hl Htok. destruct (req_facts r HB Hr) as (_ & _ & V0 & R0 & _ & _ & _ & _ & _ & _).
  pose proof (bo_len _ _ _ _ _ _ _ _ _ HB r Hr) as HL. pose proof (bo_slots _ _ _ _ _ _ _ _ _ HB) as HP.
  assert (El : len r = valid r + P + rejected r) by done.
  unfold fill_rows. rewrite slots_i32. change (MAX_PER_REQ) with 4096 in *.
  eapply returns_bind_mono; [apply (rows_fill 0 (valid r) 4096 (slot r)); [done|lia|lia|]|].
  { intros j l' Hj Hl'. rewrite Htok by done. cbn [mbind res_bind]. apply (set_row_returns _ _ _ _ _ _ 4096); [done|lia|].
    unfold EagleProofs.slot. cbv zeta. by rewrite (proj2 (Z.ltb_lt j (valid r))) by lia. }
  intros l1 H1. pose proof (proj1 H1 _ Hl) as Hl1.
  eapply returns_bind_mono; [apply (set_row_returns _ _ _ _ _ _ 4096 (slot r)); [done|lia|]|].
  { unfold EagleProofs.slot. cbv zeta. by rewrite Z.ltb_irrefl, Z.eqb_refl. }
  intros l2 H2. pose proof (proj1 H2 _ Hl1) as Hl2.
  eapply returns_bind_mono; [apply (rows_fill (valid r + 1) (P - 1) 4096 (slot r)); [done|lia|lia|]|].
  { intros k l' Hk Hl'. rewrite (i32_id (valid r + (1 + k))) by lia. replace (valid r + (1 + k)) with (valid r + 1 + k) by lia.
    apply (set_row_returns _ _ _ _ _ _ 4096); [done|lia|]. unfold EagleProofs.slot. cbv zeta. rewrite (et_draft _ HT).
    by rewrite (proj2 (Z.ltb_ge _ (valid r))), (proj2 (Z.eqb_neq _ (valid r))), (proj2 (Z.ltb_lt _ (valid r + P))) by lia. }
  intros l3 H3. pose proof (proj1 H3 _ Hl2) as Hl3.
  eapply returns_mono; [apply (rows_fill (valid r + P) (rejected r) 4096 (slot r)); [done|lia|lia|]|].
  { intros k l' Hk Hl'. rewrite (i32_id (valid r + P)), i32_id by lia.
    apply (set_row_returns _ _ _ _ _ _ 4096); [done|lia|]. unfold EagleProofs.slot. cbv zeta. rewrite (et_pad _ HT).
    by rewrite (proj2 (Z.ltb_ge _ (valid r))), (proj2 (Z.eqb_neq _ (valid r))), (proj2 (Z.ltb_ge _ (valid r + P))) by lia. }
  intros l4 H4. rewrite El.
  apply (rows_put_app 0 (valid r + P) _ _ l l3); [lia|lia| |done]. replace (valid r + P) with (valid r + 1 + (P - 1)) by lia.
  apply (rows_put_app 0 (valid r + 1) _ _ l l2); [lia|lia| |done].
  by apply (rows_put_app 0 (valid r) _ _ l l1); [lia|lia| |].
Qed.

Lemma fill_nti_returns r nti :
  0 <= r < n -> Z.of_nat (length nti) = 64 ->
  returns (fill_nti t (start r) (valid r) nti) (fun l => length l = length nti /\
    forall k, 0 <= k < P -> vat l k = start r + valid r + k).
Proof.
  intros Hr Hl. destruct (req_facts r HB Hr) as (_ & _ & V0 & R0 & _ & _ & S0 & S1 & S2 & _).
  pose proof (bo_slots _ _ _ _ _ _ _ _ _ HB) as HP. pose proof (bo_width _ _ _ _ _ _ _ _ _ HB) as HW.
  pose proof (dropped_range shift). assert (len r = valid r + P + rejected r) by done. assert (start r + len r < 2 ^ 30) by nia.
  unfold fill_nti. rewrite slots_i32, (i32_id (start r + valid r)), vset_ok by lia. cbn [mbind res_bind].
  eapply returns_mono; [apply (fill_returns 1 (P - 1) (fun k => start r + valid r + (1 + k))); [lia|lia|rewrite length_insert; lia|]|].
  - intros k l' Hk Ho. f_equal. apply i32_id. lia.
  - intros l' [Ho Hv]. split; [rewrite (proj1 Ho); apply length_insert|]. intros k Hk.
    destruct (Z.eq_dec k 0) as [-> |].
    + rewrite (proj2 Ho), vat_insert_eq by lia. lia.
    + replace k with (1 + (k - 1)) at 1 by lia. rewrite Hv by lia. lia.
Qed.

(** The buffers between the requests. *)
Record Ready (s : State) : Prop := {
  rd_qs : n < Z.of_nat (length (qsBuf s)) /\ forall r, 0 <= r <= n -> vat (qsBuf s) r = vat qs r;
  rd_qe : n <= Z.of_nat (length (qeBuf s)) /\ forall r, 0 <= r < n -> vat (qeBuf s) r = vat qe r;
  rd_nt : n <= Z.of_nat (length (ntBuf s)) /\ forall r, 0 <= r < n -> vat (ntBuf s) r = vat next r;
  rd_input : Z.of_nat (length (inputBuf s)) = MAX_PER_REQ;
  rd_rows : rows_len (rowBufs s) MAX_PER_REQ;
  rd_nti : Z.of_nat (length (ntiBuf s)) = 64;
  rd_hsm : Z.of_nat (length (hsmBuf s)) = MAX_PER_REQ
}.

(** What a request changes in global memory. *)
Record Expanded (r : Z) (s s' : State) : Prop := {
  ex_ready : Ready s';
  ex_rows : rows_put (start r) (start r + len r) (fun j => slot r (j - start r)) (gmRows s) (gmRows s');
  ex_nti : outside (r * P) (r * P + P) (gmOutNewTokenIndices s) (gmOutNewTokenIndices s') /\
    forall k, 0 <= k < P -> vat (gmOutNewTokenIndices s') (r * P + k) = start r + valid r + k;
  ex_hsm : if shift
    then outside (vat qs r) (vat qs r + inputs r) (gmOutHiddenStateMapping s) (gmOutHiddenStateMapping s') /\
         forall j, 0 <= j < inputs r -> vat (gmOutHiddenStateMapping s') (vat qs r + j) = start r + j
    else gmOutHiddenStateMapping s' = gmOutHiddenStateMapping s
}.

(** Outputs with room for the slots of every request. *)
Record OutOk (s : State) : Prop := {
  oo_rows : rows_len (gmRows s) D;
  oo_nti : Z.of_nat (length (gmOutNewTokenIndices s)) = n * P;
  oo_hsm : Z.of_nat (length (gmOutHiddenStateMapping s)) = T
}.

Lemma align8_input r off count :
  0 <= r < n -> 0 < count <= MAX_PER_REQ -> 0 <= off -> off + count <= T ->
  align8 count <= MAX_PER_REQ /\ off + align8 count <= T + 7.
Proof. intros Hr Hc Ho HT'. unfold align8, MAX_PER_REQ in *. ediv. Qed.

(** The first position of the request. *)
Lemma start_pos_returns r hsm :
  0 <= r < n -> Z.of_nat (length hsm) = MAX_PER_REQ ->
  returns (DataCopyIn hsm (positions ++ b1) (vat qs r) 1) (fun l => length l = length hsm /\ vget l 0 = Ok (vat positions (vat qs r))).
Proof.
  intros Hr Hl. destruct (req_facts r HB Hr) as (Q0 & Q1 & _ & _ & I1 & _). pose proof (bo_positions _ _ _ _ _ _ _ _ _ HB).
  unfold EagleProofs.inputs in I1. destruct (align8_input r (vat qs r) 1 Hr) as [A1 A2]; [unfold MAX_PER_REQ; lia|lia|lia|].
  eapply returns_mono; [apply DataCopyIn_returns; [lia|lia|lia|rewrite length_app; lia]|]. intros l [L V]. split; [done|].
  rewrite vget_ok, V, Z.add_0_r, vat_app_l by (unfold MAX_PER_REQ in *; lia). done.
Qed.

(** The tokens of the request from the [off]th. *)
Lemma tokens_returns r input off count :
  0 <= r < n -> Z.of_nat (length input) = MAX_PER_REQ -> 0 <= off -> 0 < count -> off + count <= inputs r ->
  returns (DataCopyIn input (ids ++ b0) (vat qs r + off) count) (fun l => length l = length input /\
    forall j, 0 <= j < count -> vget l j = Ok (vat ids (vat qs r + off + j))).
Proof.
  intros Hr Hl Ho Hc Hi. destruct (req_facts r HB Hr) as (Q0 & Q1 & _ & _ & I1 & _). pose proof (bo_ids _ _ _ _ _ _ _ _ _ HB).
  unfold EagleProofs.inputs in *. destruct (align8_input r (vat qs r + off) count Hr) as [A1 A2]; [lia|lia|lia|].
  eapply returns_mono; [apply DataCopyIn_returns; [lia|unfold MAX_PER_REQ in *; lia|lia|rewrite length_app; lia]|]. intros l [L V].
  split; [done|]. intros j Hj. rewrite vget_ok, V, vat_app_l by (unfold MAX_PER_REQ in *; lia). done.
Qed.

(** The slots of the request in global memory. *)
Lemma rows_out_returns r s rows l0 :
  0 <= r < n -> OutOk s -> rows_len l0 MAX_PER_REQ -> rows_put 0 (len r) (slot r) l0 rows ->
  returns (copy_rows_out (gmRows s) rows (start r) (len r))
    (rows_put (start r) (start r + len r) (fun j => slot r (j - start r)) (gmRows s)).
Proof.
  intros Hr [O1 _ _] Hl (L & V & _). destruct (req_facts r HB Hr) as (_ & _ & _ & _ & _ & _ & S0 & S1 & S2 & L0).
  pose proof (bo_len _ _ _ _ _ _ _ _ _ HB r Hr) as HL.
  eapply returns_mono; [apply (copy_rows_out_returns _ _ _ _ MAX_PER_REQ D); auto|].
  - unfold MAX_PER_REQ in *. lia.
  - lia.
  - intros g. apply rows_put_ext. intros j Hj. apply V. lia.
Qed.

Lemma nti_out_returns r s nti :
  0 <= r < n -> OutOk s -> Z.of_nat (length nti) = 64 -> (forall k, 0 <= k < P -> vat nti k = start r + valid r + k) ->
  returns (DataCopyOut_int32 (gmOutNewTokenIndices s) nti (r * P) P) (fun l =>
    outside (r * P) (r * P + P) (gmOutNewTokenIndices s) l /\ forall k, 0 <= k < P -> vat l (r * P + k) = start r + valid r + k).
Proof.
  intros Hr [_ O2 _] Hl Hv. pose proof (bo_slots _ _ _ _ _ _ _ _ _ HB).
  eapply returns_mono; [apply copy_out32_returns; [nia|lia|nia|lia]|]. intros l [O V]. split; [done|].
  intros k Hk. by rewrite V, Hv.
Qed.

(** The arithmetic of the kernel does not wrap. *)
Lemma req_arith r :
  0 <= r < n ->
  u32 (r + 1) = r + 1 /\ i32 r = r /\ i32 (r * P) = r * P /\ i32 (vat qs (r + 1) - vat qs r) = inputs r /\
  i32 (i32 (vat qs (r + 1) - vat qe r) - 1) = rejected r /\ (rejected r <? 0) = false /\ (valid r <? 0) = false /\
  i32 (i32 (valid r + P) + rejected r) = len r /\ 0 <= r * P < 2 ^ 29 /\ 0 <= vat qs r /\ vat qs (r + 1) < 2 ^ 29.
Proof.
  intros Hr. destruct (req_facts r HB Hr) as (Q0 & Q1 & V0 & R0 & I1 & I2 & S0 & S1 & S2 & L0).
  pose proof (bo_slots _ _ _ _ _ _ _ _ _ HB). pose proof (bo_width _ _ _ _ _ _ _ _ _ HB). pose proof (dropped_range shift).
  pose proof (bo_req _ _ _ _ _ _ _ _ _ HB r Hr). pose proof (bo_len _ _ _ _ _ _ _ _ _ HB r Hr).
  assert (0 <= r * P < 2 ^ 29) by nia. assert (n < 2 ^ 29 /\ T < 2 ^ 29) by nia. assert (El : len r = valid r + P + rejected r) by done.
  assert (Er : i32 (i32 (vat qs (r + 1) - vat qe r) - 1) = rejected r)
    by (rewrite (i32_id (vat qs (r + 1) - vat qe r)), i32_id by lia; done).
  assert (Ei : i32 (vat qs (r + 1) - vat qs r) = inputs r) by (rewrite i32_id by lia; done).
  unfold MAX_PER_REQ in *. rewrite u32_id, (i32_id r), (i32_id (r * P)), Er, Ei by lia.
  rewrite (i32_id (valid r + P)), i32_id, (proj2 (Z.ltb_ge (valid r) 0)), (proj2 (Z.ltb_ge (rejected r) 0)) by lia.
  repeat split; try lia; done.
Qed.

Lemma Ready_step s input hsm rows nti g gn gh :
  Ready s -> Z.of_nat (length input) = MAX_PER_REQ -> rows_len rows MAX_PER_REQ -> Z.of_nat (length nti) = 64 ->
  Z.of_nat (length hsm) = MAX_PER_REQ ->
  Ready (mkState (qsBuf s) (qeBuf s) (ntBuf s) input rows nti hsm g gn gh).
Proof. intros [] ? ? ? ?. split; done. Qed.

Lemma request_false r s :
  shift = false -> 0 <= r < n -> Ready s -> OutOk s ->
  returns (ProcessOneRequestShiftFalse t (ids ++ b0) (positions ++ b1) r r s) (Expanded r s).
Proof.
  intros Hs Hr HR HO. destruct (req_arith r Hr) as (A1 & A2 & A3 & A4 & A5 & A6 & A7 & A8 & A9 & A10 & A11).
  destruct (req_facts r HB Hr) as (Q0 & Q1 & V0 & R0 & I1 & I2 & S0 & S1 & S2 & L0).
  destruct (HR) as [[B1 C1] [B2 C2] [B3 C3] B4 B5 B6 B7].
  assert (Hd : dropped shift = 0) by (by rewrite Hs). rewrite Hd in I2, S2.
  pose proof (bo_req _ _ _ _ _ _ _ _ _ HB r Hr) as Hq. rewrite Hd in Hq.
  unfold ProcessOneRequestShiftFalse. rewrite slots_i32, !vget_ok by lia. cbn [mbind res_bind].
  rewrite A1, !C1, C2, C3, A2, A3, A4, A5, A6 by lia.
  assert (Ev : i32 (i32 (vat qe r - vat qs r) + 1) = valid r).
  { rewrite (i32_id (vat qe r - vat qs r)), i32_id by lia. unfold EagleProofs.valid. lia. }
  assert (Es : i32 (vat qs r + r * P) = start r).
  { rewrite i32_id by lia. unfold EagleProofs.start. rewrite Hd. lia. }
  rewrite Ev, A7, A8, Es, (proj2 (Z.gtb_lt (inputs r) 0)) by lia.
  eapply returns_bind_mono.
  { pose proof (tokens_returns r (inputBuf s) 0 (inputs r)) as HX. rewrite Z.add_0_r in HX. apply HX; [done|done|lia|lia|lia]. }
  intros input [Li Vi]. eapply returns_bind_mono; [by apply start_pos_returns|]. intros hsm [Lh Vh].
  rewrite Vh. cbn [mbind res_bind]. eapply returns_bind_mono; [apply fill_rows_returns; [done|done|]|].
  { intros j Hj. rewrite Z.geb_leb, (proj2 (Z.leb_gt (inputs r) j)), Vi, Hd, Z.add_0_r by lia. done. }
  intros rows HRows. eapply returns_bind_mono; [by eapply rows_out_returns|]. intros g Hg.
  eapply returns_bind_mono; [by apply fill_nti_returns|]. intros nti [Ln Vn].
  eapply returns_bind_mono; [apply (nti_out_returns r); [done|done|lia|done]|]. intros gn Hgn. apply returns_ok.
  split; [|done|done|by rewrite Hs].
  apply (Ready_step s input hsm rows nti g gn (gmOutHiddenStateMapping s)); [done|lia|by apply HRows|lia|lia].
Qed.

Lemma hsm_returns r s hsm :
  0 <= r < n -> OutOk s -> Z.of_nat (length hsm) = MAX_PER_REQ ->
  returns (lHsm ← for_range (inputs r) (fun j l => vset l j (i32 (start r + j))) hsm;
           gm ← DataCopyOut_int32 (gmOutHiddenStateMapping s) lHsm (vat qs r) (inputs r); Ok (lHsm, gm))
    (fun '(lHsm, gm) => length lHsm = length hsm /\
       outside (vat qs r) (vat qs r + inputs r) (gmOutHiddenStateMapping s) gm /\
       forall j, 0 <= j < inputs r -> vat gm (vat qs r + j) = start r + j).
Proof.
  intros Hr [_ _ O3] Hl. destruct (req_facts r HB Hr) as (Q0 & Q1 & _ & _ & I1 & _ & S0 & S1 & S2 & L0).
  pose proof (bo_width _ _ _ _ _ _ _ _ _ HB). pose proof (bo_slots _ _ _ _ _ _ _ _ _ HB). pose proof (dropped_range shift).
  assert (start n < 2 ^ 29) by nia. assert (vat qs r + inputs r <= T) by (unfold EagleProofs.inputs; lia). unfold MAX_PER_REQ in *.
  eapply returns_bind_mono; [apply (fill_returns 0 (inputs r) (fun j => start r + j)); [lia|lia|lia|]|].
  - intros j l' Hj Ho. rewrite i32_id by lia. done.
  - intros l [Ho Hv]. pose proof (proj1 Ho). eapply returns_bind_mono; [apply copy_out32_returns; lia|].
    intros g [Hg1 Hg2]. apply returns_ok. split; [done|]. split; [done|]. intros j Hj. rewrite Hg2 by done. by apply Hv.
Qed.

Lemma if_true (b : bool) (A B : Prop) : b = true -> A -> if b then A else B.
Proof. by intros ->. Qed.

Lemma request_true r s :
  shift = true -> 0 <= r < n -> Ready s -> OutOk s ->
  returns (ProcessOneRequestShiftTrue t (ids ++ b0) (positions ++ b1) r r s) (Expanded r s).
Proof.
  intros Hs Hr HR HO. destruct (req_arith r Hr) as (A1 & A2 & A3 & A4 & A5 & A6 & A7 & A8 & A9 & A10 & A11).
  destruct (req_facts r HB Hr) as (Q0 & Q1 & V0 & R0 & I1 & I2 & S0 & S1 & S2 & L0).
  destruct (HR) as [[B1 C1] [B2 C2] [B3 C3] B4 B5 B6 B7].
  assert (Hd : dropped shift = 1) by (by rewrite Hs). rewrite Hd in I2, S2.
  pose proof (bo_req _ _ _ _ _ _ _ _ _ HB r Hr) as Hq. rewrite Hd in Hq. pose proof (bo_slots _ _ _ _ _ _ _ _ _ HB) as HP.
  unfold ProcessOneRequestShiftTrue. rewrite slots_i32, !vget_ok by lia. cbn [mbind res_bind].
  rewrite A1, !C1, C2, C3, A2, A3, A4, A5, A6 by lia.
  assert (Ev : i32 (vat qe r - vat qs r) = valid r).
  { rewrite i32_id by lia. unfold EagleProofs.valid. lia. }
  assert (Es : i32 (vat qs r + i32 (r * i32 (P - 1))) = start r).
  { rewrite (i32_id (P - 1)), (i32_id (r * (P - 1))), i32_id by nia. unfold EagleProofs.start. by rewrite Hd. }
  assert (Et : (i32 (i32 (vat qs r + 1) + valid r) >? i32 (totalInputTokens t)) = false).
  { pose proof (bo_width _ _ _ _ _ _ _ _ _ HB). rewrite (et_inputs _ HT). unfold EagleProofs.valid, MAX_PER_REQ in *.
    assert (0 <= T < 2 ^ 29) by nia. rewrite (i32_id (vat qs r + 1)), !i32_id by lia. rewrite Z.gtb_ltb. apply Z.ltb_ge. lia. }
  rewrite Ev, A7, A8, Es, Et, (i32_id (vat qs r + 1)) by lia.
  set (copy := if valid r >? 0 then _ else _).
  assert (Hcopy : returns copy (fun l => length l = length (inputBuf s) /\
    forall j, 0 <= j < valid r -> vget l j = Ok (vat ids (vat qs r + 1 + j)))).
  { unfold copy. destruct (Z.gtb_spec (valid r) 0); [apply tokens_returns; [done|done|lia|lia|lia]|apply returns_ok; split; [done|lia]]. }
  clearbody copy. eapply returns_bind_mono; [exact Hcopy|]. intros input [Li Vi].
  eapply returns_bind_mono; [by apply start_pos_returns|]. intros hsm [Lh Vh].
  rewrite Vh. cbn [mbind res_bind]. eapply returns_bind_mono; [apply fill_rows_returns; [done|done|]|].
  { intros j Hj. rewrite (proj2 (Z.gtb_lt (valid r) 0)), Z.geb_leb, (proj2 (Z.leb_gt (valid r) j)) by lia. cbn [andb].
    rewrite Vi, Hd by lia. done. }
  intros rows HRows. rewrite (proj2 (Z.eqb_neq (vat qs (r + 1)) (vat qe r))) by lia. cbn [andb].
  eapply returns_bind_mono; [by eapply rows_out_returns|]. intros g Hg.
  eapply returns_bind_mono; [by apply fill_nti_returns|]. intros nti [Ln Vn].
  eapply returns_bind_mono; [apply (nti_out_returns r); [done|done|lia|done]|]. intros gn Hgn.
  destruct (hsm_returns r s hsm Hr HO) as ([lHsm gm] & Eh & H1 & H2 & H3); [lia|].
  destruct (for_range (inputs r) _ hsm) as [lh|]; cbn [mbind res_bind] in *; [|done].
  destruct (DataCopyOut_int32 _ lh _ _) as [gh|]; cbn [mbind res_bind] in *; [|done]. injection Eh as -> ->. apply returns_ok.
  split; [|done|done|apply if_true; [done|]; done].
  apply (Ready_step s input lHsm rows nti g gn gm); [done|lia|by apply HRows|lia|lia].
Qed.
End Request.
End EagleProofs.
