(* ===== verification/EagleTheorems.v ===== *)
(** * Theorems about copy_and_expand_eagle_inputs

    A call expands a batch as the reference says, and what follows from it for
    the indices that the proposer uses afterwards. *)

From S2P Require Import Prelude Ascend Tensor EagleKernel EagleProofs.

Module EagleTheorems.
Import Eagle EagleProofs.

(** ** A core *)

Section Core.
Context `{HA : AscendCopy} `{HAL : !AscendCopyLaws 8}.
Context (shift : bool) (ids positions next qs qe : list Z) (pad draft P n T D : Z) (behind : Z -> list Z).
Context (HB : BatchOk shift ids positions next qs qe P n T).
Context (Hbehind : forall i, 0 <= i < 5 -> 7 <= Z.of_nat (length (behind i))).
Context (HD : T + n * (P - dropped shift) <= D < 2 ^ 29).
Context (HDtail : D - (T + n * (P - dropped shift)) <= MAX_PER_REQ).

Abbreviation valid := (valid shift qs qe).
Abbreviation inputs := (inputs qs).
Abbreviation len := (len shift qs qe P).
Abbreviation start := (start shift qs P).
Abbreviation slot := (slot shift ids positions next qs qe pad draft P).
Abbreviation Ready := (Ready next qs qe n).
Abbreviation OutOk := (OutOk P n T D).
Abbreviation req_facts := (req_bounds shift ids positions next qs qe P n T).

(** The first [m] requests are expanded, nothing is written behind them. *)
Record Upto (m : Z) (s : State) : Prop := {
  up_ready : Ready s;
  up_out : OutOk s;
  up_rows : forall r j, 0 <= r < m -> 0 <= j < len r -> rows_at (gmRows s) (start r + j) = slot r j;
  up_rest : forall j, start m <= j < D -> rows_at (gmRows s) j = (0, 0, 0, 0);
  up_nti : forall r k, 0 <= r < m -> 0 <= k < P -> vat (gmOutNewTokenIndices s) (r * P + k) = start r + valid r + k;
  up_hsm : forall r j, 0 <= r < m -> 0 <= j < inputs r ->
    vat (gmOutHiddenStateMapping s) (vat qs r + j) = if shift then start r + j else 0;
  up_hsm_rest : forall j, vat qs m <= j < T -> vat (gmOutHiddenStateMapping s) j = 0
}.

Lemma Upto_step m s s' :
  0 <= m < n -> Upto m s -> Expanded shift ids positions next qs qe pad draft P n m s s' -> Upto (m + 1) s'.
Proof.
  intros Hm [U1 [O1 O2 O3] U3 U4 U5 U6 U7] [E1 (EL & EV & EO) [[N1 N2] N3] EH].
  destruct (req_facts m HB Hm) as (Q0 & Q1 & V0 & R0 & I1 & I2 & S0 & S1 & S2 & L0).
  pose proof (len_start shift qs qe P m) as Els. destruct (bo_req _ _ _ _ _ _ _ _ _ HB m Hm) as [Hq _].
  assert (Hord : forall r, 0 <= r < m -> start r + len r <= start m /\ vat qs r + inputs r <= vat qs m /\ 0 <= start r /\ 0 <= vat qs r).
  { intros r Hr. destruct (req_facts r HB ltac:(lia)) as (? & _ & _ & _ & _ & _ & ? & _). rewrite (len_start shift qs qe P r).
    pose proof (start_mono _ _ _ _ _ _ _ _ _ (r + 1) m HB ltac:(lia) ltac:(lia)).
    pose proof (qs_mono _ _ _ _ _ _ _ _ _ (r + 1) m HB ltac:(lia) ltac:(lia)). unfold EagleProofs.inputs. lia. }
  pose proof (bo_slots _ _ _ _ _ _ _ _ _ HB) as HP.
  assert (Hh : length (gmOutHiddenStateMapping s') = length (gmOutHiddenStateMapping s) /\
    (forall j, 0 <= j < inputs m -> vat (gmOutHiddenStateMapping s') (vat qs m + j) = if shift then start m + j else 0) /\
    forall j, 0 <= j < T -> j < vat qs m \/ vat qs m + inputs m <= j -> vat (gmOutHiddenStateMapping s') j = vat (gmOutHiddenStateMapping s) j).
  { destruct shift; [destruct EH as [[H1 H2] H3]; split; [done|]; split; [done|intros; apply H2; lia]|rewrite EH].
    split; [done|]. split; [|done]. intros j Hj. apply U7. unfold EagleProofs.inputs in Hj. lia. }
  destruct Hh as (HhL & HhV & HhO). split.
  - done.
  - split; [by apply EL|by rewrite N1|by rewrite HhL].
  - intros r j Hr Hj. destruct (Z.eq_dec r m) as [-> |].
    + rewrite EV by lia. f_equal. lia.
    + destruct (Hord r ltac:(lia)). rewrite EO by lia. apply U3; lia.
  - intros j Hj. rewrite EO by lia. apply U4. lia.
  - intros r k Hr Hk. destruct (Z.eq_dec r m) as [-> |]; [by apply N3|]. rewrite N2 by nia. apply U5; lia.
  - intros r j Hr Hj. destruct (Z.eq_dec r m) as [-> |]; [by apply HhV|]. destruct (Hord r ltac:(lia)) as (_ & ? & _ & ?).
    rewrite HhO by lia. apply U6; lia.
  - intros j Hj. unfold EagleProofs.inputs in HhO. rewrite HhO by lia. apply U7. lia.
Qed.

Context (t : TilingData) (HT : TilingOk pad draft P n T D t).
Context (Hcore : usedCoreNum t = 1 /\ reqsPerCore t = n /\ remainderReqs t = 0).
Abbreviation tok := (ids ++ behind 0).
Abbreviation posm := (positions ++ behind 1).

Lemma n_range : 0 < n < 2 ^ 29.
Proof. pose proof (bo_reqs _ _ _ _ _ _ _ _ _ HB). pose proof (bo_width _ _ _ _ _ _ _ _ _ HB).
  pose proof (bo_slots _ _ _ _ _ _ _ _ _ HB). pose proof (bo_ids _ _ _ _ _ _ _ _ _ HB). nia. Qed.

Lemma my_requests_all : my_requests t 0 = (0, n).
Proof.
  pose proof n_range. destruct Hcore as (_ & C1 & C2). unfold my_requests. rewrite C1, C2. cbn [Z.ltb Z.compare].
  by rewrite !Z.mul_0_l.
Qed.

(** The loops over the requests. *)
Lemma requests_false s :
  shift = false -> Upto 0 s -> returns (ProcessShiftFalse t tok posm 0 s) (Upto n).
Proof.
  intros Hs HU. pose proof n_range. unfold ProcessShiftFalse. rewrite my_requests_all.
  apply (for_range_returns Upto); [lia|done|]. intros r s' Hr HU'. rewrite Z.add_0_l, u32_id by lia.
  eapply returns_mono; [eapply (request_false shift); try done; [apply Hbehind; lia|apply Hbehind; lia|apply HU'|apply HU']|].
  intros s'' HE. by eapply Upto_step.
Qed.

Lemma requests_true s :
  shift = true -> Upto 0 s ->
  returns (for_range n (fun r s => ProcessOneRequestShiftTrue t tok posm (u32 (0 + r)) r s) s) (Upto n).
Proof.
  intros Hs HU. pose proof n_range.
  apply (for_range_returns Upto); [lia|done|]. intros r s' Hr HU'. rewrite Z.add_0_l, u32_id by lia.
  eapply returns_mono; [eapply (request_true shift); try done; [apply Hbehind; lia|apply Hbehind; lia|apply HU'|apply HU']|].
  intros s'' HE. by eapply Upto_step.
Qed.

(** Zeros behind the slots. *)
Lemma zero_fill m a b :
  0 <= m -> m <= Z.of_nat (length a) -> m <= Z.of_nat (length b) ->
  returns (for_range m (fun j '(x, y) => x ← vset x j 0; y ← vset y j 0; Ok (x, y)) (a, b)) (fun '(x, y) =>
    length x = length a /\ length y = length b /\ forall j, 0 <= j < m -> vat x j = 0 /\ vat y j = 0).
Proof.
  intros H0 Ha Hb. apply (for_range_returns (fun i '(x, y) => length x = length a /\ length y = length b /\
    forall j, 0 <= j < i -> vat x j = 0 /\ vat y j = 0)); [done|split_and!; done || lia|].
  intros i [x y] Hi (L1 & L2 & V). rewrite !vset_ok by lia. cbn [mbind res_bind]. apply returns_ok.
  split; [by rewrite length_insert|]. split; [by rewrite length_insert|]. intros j Hj.
  destruct (Z.eq_dec j i) as [-> |]; [by rewrite !vat_insert_eq by lia|]. rewrite !vat_insert_ne by lia. apply V. lia.
Qed.

Lemma start_end : start n = T + n * (P - dropped shift).
Proof. unfold EagleProofs.start. by rewrite (bo_last _ _ _ _ _ _ _ _ _ HB). Qed.

Lemma zero_tail_returns s :
  Upto n s -> start n < D -> returns (zero_tail (start n) (D - start n) s) (Upto n).
Proof.
  intros [U1 [(D1 & D2 & D3 & D4) O2 O3] U3 U4 U5 U6 U7] Hlt. pose proof start_end as Es.
  destruct (U1) as [B1 B2 B3 B4 (L1 & L2 & L3 & L4) B6 B7]. unfold MAX_PER_REQ in *.
  assert (0 <= start n).
  { pose proof n_range. destruct (req_facts (n - 1) HB ltac:(lia)) as (_ & _ & _ & _ & _ & _ & ? & ? & _ & ?). lia. }
  unfold zero_tail. eapply returns_bind_mono; [apply zero_fill; lia|]. intros [x y] (X1 & X2 & V). cbv zeta.
  eapply returns_bind_mono; [apply copy_out32_returns; lia|]. intros g1 [G1 W1].
  eapply returns_bind_mono; [apply copy_out32_returns; lia|]. intros g2 [G2 W2].
  eapply returns_bind_mono; [apply copy_out8_returns; lia|]. intros g3 [G3 W3].
  eapply returns_bind_mono; [apply copy_out8_returns; lia|]. intros g4 [G4 W4]. apply returns_ok.
  replace (start n + (D - start n)) with D in * by lia.
  assert (Hrow : forall j, 0 <= j < start n -> rows_at (mkRows g1 g2 g3 g4) j = rows_at (gmRows s) j).
  { intros j Hj. unfold rows_at. cbn. by rewrite (proj2 G1), (proj2 G2), (proj2 G3), (proj2 G4) by lia. }
  split; try done.
  - split; try done. unfold rows_len, MAX_PER_REQ. cbn. lia.
  - split; try done. unfold rows_len. cbn. rewrite (proj1 G1), (proj1 G2), (proj1 G3), (proj1 G4). done.
  - intros r j Hr Hj. destruct (req_facts r HB Hr) as (_ & _ & _ & _ & _ & _ & ? & ? & _). cbn.
    rewrite Hrow by lia. by apply U3.
  - intros j Hj. unfold rows_at. cbn. replace j with (start n + (j - start n)) by lia.
    rewrite W1, W2, W3, W4 by lia. destruct (V (j - start n)) as [-> ->]; [lia|done].
Qed.

Lemma core_true s :
  shift = true -> Upto 0 s -> returns (ProcessShiftTrue t tok posm 0 s) (Upto n).
Proof.
  intros Hs HU. pose proof n_range as Hn. unfold ProcessShiftTrue. rewrite my_requests_all.
  assert (Hsl : i32 (numPaddingSlotsPerReq t) = P) by (by eapply slots_i32). rewrite Hsl.
  eapply returns_bind_mono; [by apply requests_true|]. intros s' HU'. rewrite !Z.add_0_l.
  destruct ((u32 n =? numReqs t) && (totalDraftTokens t >? 0)); [|by apply returns_ok].
  destruct (up_ready _ _ HU') as [[B1 C1] [B2 C2] _ _ _ _ _].
  destruct (req_arith _ _ _ _ _ _ _ _ _ [] [] HB (n - 1) ltac:(lia)) as (A1 & A2 & A3 & A4 & A5 & A6 & A7 & A8 & A9 & A10 & A11).
  destruct (req_facts (n - 1) HB ltac:(lia)) as (Q0 & Q1 & V0 & R0 & I1 & I2 & S0 & S1 & S2 & L0).
  pose proof (len_start shift qs qe P (n - 1)) as El. pose proof (bo_req _ _ _ _ _ _ _ _ _ HB (n - 1) ltac:(lia)) as Hq.
  pose proof (bo_slots _ _ _ _ _ _ _ _ _ HB). pose proof (bo_width _ _ _ _ _ _ _ _ _ HB) as HW.
  assert (Hd : dropped shift = 1) by (by rewrite Hs). replace (n - 1 + 1) with n in * by lia.
  rewrite !(u32_id (n - 1)) by lia. replace (n - 1 + 1) with n by lia. rewrite A1, !vget_ok by lia. cbn [mbind res_bind].
  rewrite !C1, C2, A2, A5, A6 by lia.
  assert (Ev : i32 (vat qe (n - 1) - vat qs (n - 1)) = valid (n - 1)) by (rewrite i32_id by lia; unfold EagleProofs.valid; lia).
  assert (Es : i32 (vat qs (n - 1) + i32 ((n - 1) * i32 (P - 1))) = start (n - 1)).
  { rewrite (i32_id (P - 1)), (i32_id ((n - 1) * (P - 1))), i32_id by nia. unfold EagleProofs.start. by rewrite Hd. }
  rewrite Ev, A7, A8, Es, (et_total _ _ _ _ _ _ _ HT), (i32_id D) by lia.
  replace (start (n - 1) + len (n - 1)) with (start n) by lia. rewrite (i32_id (start n)), i32_id by lia.
  destruct (Z.gtb_spec (D - start n) 0); [apply zero_tail_returns; [done|lia]|by apply returns_ok].
Qed.

(** The copies of Init, into buffers of the sizes that Init gives them. *)
Lemma words_align m : 0 <= m < 2 ^ 29 + 2 -> AlignUp (u32 (m * 4)) ONE_BLK_SIZE / 4 = align8 m.
Proof. intros Hm. unfold AlignUp, ONE_BLK_SIZE, align8. rewrite (u32_id (m * 4)), (u32_id (m * 4 + 32 - 1)), u32_id by ediv. ediv. Qed.

Lemma meta_returns dst l i m :
  0 < m < 2 ^ 29 + 2 -> 0 <= i < 5 -> Z.of_nat (length l) = m -> Z.of_nat (length dst) = align8 m ->
  returns (DataCopyIn dst (l ++ behind i) 0 m) (fun b => length b = length dst /\ forall r, 0 <= r < m -> vat b r = vat l r).
Proof.
  intros Hm Hi Hl Hd. specialize (Hbehind i Hi). assert (align8 m <= m + 7) by (unfold align8; ediv).
  eapply returns_mono; [apply DataCopyIn_returns; [lia|lia|lia|rewrite length_app; lia]|].
  intros b [L V]. split; [done|]. intros r Hr. rewrite V, Z.add_0_l by done. apply vat_app_l. lia.
Qed.

Lemma Init_returns s :
  InitBuffers n s -> OutOk s -> (forall j, 0 <= j < D -> rows_at (gmRows s) j = (0, 0, 0, 0)) ->
  (forall j, 0 <= j < T -> vat (gmOutHiddenStateMapping s) j = 0) ->
  returns (Init t (next ++ behind 2) (qs ++ behind 3) (qe ++ behind 4) 0 s) (Upto 0).
Proof.
  intros (B1 & B2 & B3 & B4 & B5 & B6 & B7 & B8 & B9 & B10) HO Hz Hh. pose proof n_range as Hn.
  unfold Init. rewrite my_requests_all, (proj2 (Z.gtb_lt n 0)), (u32_id (n + 1)), (i32_id (n + 1)), (i32_id n), (i32_id 0) by lia.
  rewrite words_align in B1, B2, B3 by lia.
  assert (Hge : forall m, m <= align8 m) by apply align8_ge.
  eapply returns_bind_mono; [apply (meta_returns _ qs 3); [lia|lia|apply HB|done]|]. intros lqs [L1 V1].
  eapply returns_bind_mono; [apply (meta_returns _ qe 4); [lia|lia|apply HB|done]|]. intros lqe [L2 V2].
  eapply returns_bind_mono; [apply (meta_returns _ next 2); [lia|lia|apply HB|done]|]. intros lnt [L3 V3]. apply returns_ok.
  assert (S0 : start 0 = 0) by (unfold EagleProofs.start; rewrite (bo_first _ _ _ _ _ _ _ _ _ HB); lia).
  split; [|destruct HO; by split|lia| |lia|lia|].
  - pose proof (Hge (n + 1)). pose proof (Hge n). split; cbn; try done.
    + split; [lia|]. intros r Hr. apply V1. lia.
    + split; [lia|done].
    + split; [lia|done].
  - rewrite S0. done.
  - rewrite (bo_first _ _ _ _ _ _ _ _ _ HB). done.
Qed.

Lemma kernel_returns s :
  shiftInputIds t = dropped shift ->
  InitBuffers n s -> OutOk s -> (forall j, 0 <= j < D -> rows_at (gmRows s) j = (0, 0, 0, 0)) ->
  (forall j, 0 <= j < T -> vat (gmOutHiddenStateMapping s) j = 0) ->
  returns (copy_and_expand_eagle_inputs t tok posm (next ++ behind 2) (qs ++ behind 3) (qe ++ behind 4) 1 0 s) (Upto n).
Proof.
  intros Hsh HI HO Hz Hh. unfold copy_and_expand_eagle_inputs. rewrite (proj1 Hcore). cbn [Z.geb Z.compare Z.eqb Pos.eqb].
  eapply returns_bind_mono; [by apply Init_returns|]. intros s' HU. rewrite Hsh.
  destruct (bool_dec shift true) as [E|E%not_true_is_false].
  - replace (dropped shift =? 0) with false by (by rewrite E). by apply core_true.
  - replace (dropped shift =? 0) with true by (by rewrite E). by apply requests_false.
Qed.
End Core.

(** ** A call *)

Section Call.
Context `{HA : AscendCopy} `{HAL : !AscendCopyLaws 8}.
Context (shift : bool) (ids positions next qs qe : list Z) (pad draft P n T D : Z).

(** A batch, memory behind the inputs, fresh buffers, tokens of 32 bits, and
    room for the slots. *)
Record CallOk (behind : Z -> list Z) (fresh : State) : Prop := {
  ca_batch : BatchOk shift ids positions next qs qe P n T;
  ca_behind : forall i, 0 <= i < 5 -> 7 <= Z.of_nat (length (behind i));
  ca_fresh : InitBuffers n fresh;
  ca_tokens : (- 2 ^ 31 <= pad < 2 ^ 31) /\ (- 2 ^ 31 <= draft < 2 ^ 31);
  ca_room : T + n * (P - dropped shift) <= D < 2 ^ 29;
  ca_tail : D - (T + n * (P - dropped shift)) <= MAX_PER_REQ
}.

(** What the reference says of the outputs. *)
Record Golden (rows : Rows) (nti hsm : list Z) : Prop := {
  go_rows_len : rows_len rows D;
  go_rows : forall r j, 0 <= r < n -> 0 <= j < len shift qs qe P r ->
    rows_at rows (start shift qs P r + j) = slot shift ids positions next qs qe pad draft P r j;
  go_rest : forall j, start shift qs P n <= j < D -> rows_at rows j = (0, 0, 0, 0);
  go_nti_len : Z.of_nat (length nti) = n * P;
  go_nti : forall r k, 0 <= r < n -> 0 <= k < P -> vat nti (r * P + k) = start shift qs P r + valid shift qs qe r + k;
  go_hsm_len : Z.of_nat (length hsm) = T;
  go_hsm : forall r j, 0 <= r < n -> 0 <= j < inputs qs r ->
    vat hsm (vat qs r + j) = if shift then start shift qs P r + j else 0
}.

Lemma zeros_length m : 0 <= m -> Z.of_nat (length (zeros m)) = m.
Proof. intros H. unfold zeros. rewrite length_replicate. lia. Qed.

Lemma vat_zero_tensor m j : vat (zeros m) j = 0.
Proof.
  unfold vat, zeros. destruct (replicate (Z.to_nat m) 0 !! Z.to_nat j) eqn:E; [|done].
  by apply lookup_replicate in E as [-> _].
Qed.

Lemma eagle_call_returns behind fresh :
  CallOk behind fresh ->
  returns (npu_copy_and_expand_eagle_inputs behind fresh ids positions next qs qe pad draft P shift D)
    (fun '(rows, nti, hsm) => Golden rows nti hsm).
Proof.
  intros [HB HN HF [Hp Hd] HR Ht]. pose proof (n_range _ _ _ _ _ _ _ _ _ HB) as Hn.
  pose proof (bo_slots _ _ _ _ _ _ _ _ _ HB) as HP. pose proof (bo_width _ _ _ _ _ _ _ _ _ HB) as HW.
  pose proof (dropped_range shift) as Hs. pose proof (bo_ids _ _ _ _ _ _ _ _ _ HB) as HI. pose proof (bo_qs _ _ _ _ _ _ _ _ _ HB) as HQ.
  assert (0 <= n * P < 2 ^ 29) by nia. assert (0 <= T < 2 ^ 29) by lia. assert (0 <= D) by nia.
  unfold npu_copy_and_expand_eagle_inputs, TilingFunc. cbn [ec_queryStartLocShape ec_paddingTokenId ec_parallelDraftingTokenId
    ec_numPaddingSlotsPerReq ec_shiftInputIds ec_totalInputTokens ec_outShape].
  rewrite HI, HQ, (proj2 (Z.gtb_lt (n + 1) 1)) by lia. replace (n + 1 - 1) with n by lia.
  rewrite (u32_id n), udiv_ok, umod_ok, Z.div_1_r, Z.mod_1_r by lia. cbn [mbind res_bind].
  rewrite (i32_id pad), (i32_id draft), (i32_id P), (i32_id T), (u32_id P), (u32_id T), (u32_id D) by lia.
  set (t := mkTiling _ _ _ _ _ _ _ _ _ _). set (s0 := _ <| gmOutHiddenStateMapping := _ |>).
  eapply (returns_bind_mono _ _ (fun s => Upto shift ids positions next qs qe pad draft P n T D n s)).
  - unfold for_range. cbn [Z.to_nat Pos.to_nat Pos.iter_op Nat.add for_loop].
    eapply returns_bind_mono; [|intros s' HU; by apply returns_ok].
    apply (kernel_returns shift ids positions next qs qe pad draft P n T D behind); try done.
    + split; cbn; [unfold rows_len; cbn|..]; rewrite !zeros_length by lia; done.
    + intros j Hj. unfold rows_at. cbn. by rewrite vat_zero_tensor.
    + intros j Hj. cbn. apply vat_zero_tensor.
  - intros s [U1 [O1 O2 O3] U3 U4 U5 U6 U7]. apply returns_ok. by split.
Qed.
End Call.

(** ** Concrete calls *)

Definition demo_behind (_ : Z) : list Z := zeros 7.
Definition demo_fresh : State :=
  let per_req := zeros 4096 in
  mkState (zeros 8) (zeros 8) (zeros 8) per_req (mkRows per_req per_req per_req per_req) (zeros 64) per_req (mkRows [] [] [] []) [] [].

(** Two requests of three and two tokens; the first has one rejected token. *)
Definition demo_ids : list Z := [10; 11; 12; 20; 21].
Definition demo_positions : list Z := [5; 6; 7; 3; 4].

Lemma demo_InitBuffers : InitBuffers 2 demo_fresh.
Proof. unfold InitBuffers, demo_fresh. cbn [qsBuf qeBuf ntBuf inputBuf rowBufs ntiBuf hsmBuf InputIds Positions IsRejected IsMasked].
  rewrite !zeros_length by lia. vm_compute. repeat split. Qed.

Lemma two_reqs r : 0 <= r < 2 -> r = 0 \/ r = 1.
Proof. lia. Qed.

Lemma demo_BatchOk shift : BatchOk shift demo_ids demo_positions [99; 98] [0; 3; 5] [1; 4] 3 2 5.
Proof.
  split; try done.
  - intros r Hr. destruct (two_reqs r Hr) as [-> | ->]; destruct shift; vm_compute; intuition congruence.
  - intros r Hr. destruct (two_reqs r Hr) as [-> | ->]; destruct shift; vm_compute; intuition congruence.
Qed.

Lemma eagle_demo_CallOk shift D :
  5 + 2 * (3 - dropped shift) <= D < 100 -> CallOk shift demo_ids demo_positions [99; 98] [0; 3; 5] [1; 4] 0 77 3 2 5 D demo_behind demo_fresh.
Proof.
  intros HD. pose proof (dropped_range shift). split; try lia.
  - apply demo_BatchOk.
  - intros i Hi. unfold demo_behind. rewrite zeros_length; lia.
  - apply demo_InitBuffers.
  - unfold MAX_PER_REQ. lia.
Qed.

(** ** Theorems *)

(** C3: A call of the operator returns what the reference says: for every request
    its accepted tokens, the sampled token, the tokens to draft and the rejected
    tokens, with positions and masks, zeros behind the last request, the indices
    of the sampled and of the drafted tokens, and the hidden-state mapping. *)
Theorem eagle_golden `{HA : AscendCopy} `{HAL : !AscendCopyLaws 8} shift ids positions next qs qe pad draft P n T D behind fresh
    (HC : CallOk shift ids positions next qs qe pad draft P n T D behind fresh) :
  returns (npu_copy_and_expand_eagle_inputs behind fresh ids positions next qs qe pad draft P shift D)
    (fun '(rows, nti, hsm) => Golden shift ids positions next qs qe pad draft P n T D rows nti hsm).
Proof. by apply eagle_call_returns. Qed.

Lemma eagle_golden_witness :
  returns (@npu_copy_and_expand_eagle_inputs SoftCopy demo_behind demo_fresh demo_ids demo_positions [99; 98] [0; 3; 5] [1; 4] 0 77 3 true 12)
    (fun '(rows, nti, hsm) => Golden true demo_ids demo_positions [99; 98] [0; 3; 5] [1; 4] 0 77 3 2 5 12 rows nti hsm).
Proof.
  apply (@eagle_golden SoftCopy (SoftCopy_laws 8) true demo_ids demo_positions [99; 98] [0; 3; 5] [1; 4] 0 77 3 2 5 12).
  apply eagle_demo_CallOk. cbn. lia.
Defined.

(** C28: The slots of the requests divide the output that shape inference
    allocates: every index belongs to exactly one slot of exactly one request. *)
Theorem eagle_slots_partition shift ids positions next qs qe P n T
    (HB : BatchOk shift ids positions next qs qe P n T) :
  let D := start shift qs P n in
  InferShape (Some [T]) (Some [n + 1]) P shift = Some [D; D; D; D; n * P; T] /\
  forall i, 0 <= i < D -> exists r j, (0 <= r < n /\ 0 <= j < len shift qs qe P r /\ i = start shift qs P r + j) /\
    forall r' j', 0 <= r' < n -> 0 <= j' < len shift qs qe P r' -> i = start shift qs P r' + j' -> r' = r /\ j' = j.
Proof.
  intros D. pose proof (n_range _ _ _ _ _ _ _ _ _ HB) as Hn. pose proof (bo_slots _ _ _ _ _ _ _ _ _ HB) as HP.
  pose proof (bo_width _ _ _ _ _ _ _ _ _ HB) as HW. pose proof (dropped_range shift) as Hs.
  pose proof (bo_ids _ _ _ _ _ _ _ _ _ HB) as HI.
  assert (ED : D = T + n * (P - dropped shift)) by (unfold D, start; by rewrite (bo_last _ _ _ _ _ _ _ _ _ HB)).
  assert (S0 : start shift qs P 0 = 0) by (unfold start; rewrite (bo_first _ _ _ _ _ _ _ _ _ HB); lia).
  pose proof (fun r => len_start shift qs qe P r) as HL.
  assert (HM : forall r r', 0 <= r < r' -> r' <= n -> start shift qs P r + len shift qs qe P r <= start shift qs P r').
  { intros r r' Hr Hr'. pose proof (start_mono _ _ _ _ _ _ _ _ _ (r + 1) r' HB ltac:(lia) ltac:(lia)). rewrite HL. lia. }
  split.
  - unfold InferShape. change (vat [T] 0) with T. change (vat [n + 1] 0) with (n + 1). replace (n + 1 - 1) with n by lia.
    fold (dropped shift). assert (0 <= n * P < 2 ^ 29) by nia. assert (0 <= (P - dropped shift) * n <= n * P) by nia.
    rewrite (i64_id n), (i64_id (P - dropped shift)), (i64_id ((P - dropped shift) * n)), (i64_id (n * P)), i64_id by lia.
    by replace (T + (P - dropped shift) * n) with D by lia.
  - intros i Hi.
    assert (Hex : forall m : nat, Z.of_nat m <= n -> i < start shift qs P (Z.of_nat m) ->
      exists r, 0 <= r < Z.of_nat m /\ start shift qs P r <= i < start shift qs P (r + 1)).
    { induction m as [|m IH]; intros Hm Hlt; [change (Z.of_nat 0) with 0 in Hlt; lia|].
      destruct (Z.lt_ge_cases i (start shift qs P (Z.of_nat m))) as [H|H].
      - destruct (IH ltac:(lia) H) as (r & Hr & ?). exists r. split; [lia|done].
      - exists (Z.of_nat m). split; [lia|]. by replace (Z.of_nat m + 1) with (Z.of_nat (S m)) by lia. }
    destruct (Hex (Z.to_nat n)) as (r & Hr & Hi'); [lia|rewrite Z2Nat.id by lia; lia|].
    exists r, (i - start shift qs P r). split; [rewrite HL; lia|]. intros r' j' Hr' Hj' E.
    assert (r' = r) as ->; [|lia]. destruct (Z.lt_trichotomy r r') as [H|[H|H]]; [|done|].
    + pose proof (HM r r' ltac:(lia) ltac:(lia)). rewrite HL in *. lia.
    + pose proof (HM r' r ltac:(lia) ltac:(lia)). lia.
Qed.

Lemma eagle_slots_partition_witness :
  InferShape (Some [5]) (Some [2 + 1]) 3 true = Some [9; 9; 9; 9; 6; 5] /\
  forall i, 0 <= i < 9 -> exists r j, (0 <= r < 2 /\ 0 <= j < len true [0; 3; 5] [1; 4] 3 r /\ i = start true [0; 3; 5] 3 r + j) /\
    forall r' j', 0 <= r' < 2 -> 0 <= j' < len true [0; 3; 5] [1; 4] 3 r' -> i = start true [0; 3; 5] 3 r' + j' -> r' = r /\ j' = j.
Proof. exact (eagle_slots_partition true demo_ids demo_positions [99; 98] [0; 3; 5] [1; 4] 3 2 5 (demo_BatchOk true)). Defined.

(** C27: The new-token indices of a call point to the slot of the sampled token and
    to the slots of the tokens to draft, which are masked, not rejected, and
    stand at the positions behind the accepted tokens. *)
Theorem eagle_new_tokens `{HA : AscendCopy} `{HAL : !AscendCopyLaws 8} shift ids positions next qs qe pad draft P n T D behind fresh
    (HC : CallOk shift ids positions next qs qe pad draft P n T D behind fresh) :
  returns (npu_copy_and_expand_eagle_inputs behind fresh ids positions next qs qe pad draft P shift D)
    (fun '(rows, nti, _) => forall r k, 0 <= r < n -> 0 <= k < P ->
       let i := vat nti (r * P + k) in
       let pos := i32 (vat positions (vat qs r) + (vat qe r - vat qs r + 1 - dropped shift + k)) in
       0 <= i < D /\ rows_at rows i = if k =? 0 then (vat next r, pos, 0, 0) else (draft, pos, 0, 1)).
Proof.
  eapply returns_mono; [by apply eagle_call_returns|]. intros [[rows nti] hsm] HG r k Hr Hk. destruct HC as [HB _ _ _ HR _].
  destruct (req_bounds _ _ _ _ _ _ _ _ _ r HB Hr) as (_ & _ & V0 & R0 & _ & _ & S0 & S1 & S2 & _).
  cbv zeta. rewrite (go_nti _ _ _ _ _ _ _ _ _ _ _ _ _ _ _ HG r k Hr Hk).
  assert (Hj : 0 <= valid shift qs qe r + k < len shift qs qe P r) by (unfold len; lia). split; [lia|].
  rewrite <- Z.add_assoc, (go_rows _ _ _ _ _ _ _ _ _ _ _ _ _ _ _ HG) by lia. unfold slot. cbv zeta.
  rewrite (proj2 (Z.ltb_ge _ (valid shift qs qe r))) by lia. destruct (Z.eqb_spec k 0) as [-> | Hk0].
  - by rewrite (proj2 (Z.eqb_eq _ (valid shift qs qe r))) by lia.
  - by rewrite (proj2 (Z.eqb_neq _ (valid shift qs qe r))), (proj2 (Z.ltb_lt _ (valid shift qs qe r + P))) by lia.
Qed.

Lemma eagle_new_tokens_witness :
  returns (@npu_copy_and_expand_eagle_inputs SoftCopy demo_behind demo_fresh demo_ids demo_positions [99; 98] [0; 3; 5] [1; 4] 0 77 3 false 11)
    (fun '(rows, nti, _) => forall r k, 0 <= r < 2 -> 0 <= k < 3 ->
       let i := vat nti (r * 3 + k) in
       let pos := i32 (vat demo_positions (vat [0; 3; 5] r) + (vat [1; 4] r - vat [0; 3; 5] r + 1 - dropped false + k)) in
       0 <= i < 11 /\ rows_at rows i = if k =? 0 then (vat [99; 98] r, pos, 0, 0) else (77, pos, 0, 1)).
Proof.
  apply (@eagle_new_tokens SoftCopy (SoftCopy_laws 8) false demo_ids demo_positions [99; 98] [0; 3; 5] [1; 4] 0 77 3 2 5 11 demo_behind demo_fresh).
  apply eagle_demo_CallOk. cbn. lia.
Defined.

(** C24: With shifted inputs the hidden-state mapping sends the hidden states of
    different input tokens to different slots, and the hidden state of every
    accepted token to the slot of the token that follows it: the next accepted
    token or, for the last one, the sampled token. *)
Theorem eagle_hidden_pairs `{HA : AscendCopy} `{HAL : !AscendCopyLaws 8} ids positions next qs qe pad draft P n T D behind fresh
    (HC : CallOk true ids positions next qs qe pad draft P n T D behind fresh) :
  returns (npu_copy_and_expand_eagle_inputs behind fresh ids positions next qs qe pad draft P true D)
    (fun '(rows, _, hsm) =>
       (forall r j r' j', 0 <= r < n -> 0 <= j < inputs qs r -> 0 <= r' < n -> 0 <= j' < inputs qs r' ->
          vat hsm (vat qs r + j) = vat hsm (vat qs r' + j') -> r = r' /\ j = j') /\
       (forall r i, 0 <= r < n -> vat qs r <= i < vat qe r -> vat (InputIds rows) (vat hsm i) = vat ids (i + 1)) /\
       forall r, 0 <= r < n -> vat (InputIds rows) (vat hsm (vat qe r)) = vat next r).
Proof.
  eapply returns_mono; [by apply eagle_call_returns|]. intros [[rows nti] hsm] HG. destruct HC as [HB _ _ _ HR _].
  pose proof (go_hsm _ _ _ _ _ _ _ _ _ _ _ _ _ _ _ HG) as Hh. cbv iota in Hh.
  pose proof (go_rows _ _ _ _ _ _ _ _ _ _ _ _ _ _ _ HG) as Hrows. pose proof (bo_slots _ _ _ _ _ _ _ _ _ HB) as HP.
  assert (HV : forall r, 0 <= r < n -> valid true qs qe r = vat qe r - vat qs r) by (intros; unfold valid; cbn; lia).
  assert (HI : forall r, 0 <= r < n -> 0 <= valid true qs qe r < inputs qs r /\ valid true qs qe r < len true qs qe P r /\
    inputs qs r <= len true qs qe P r).
  { intros r Hr. destruct (req_bounds _ _ _ _ _ _ _ _ _ r HB Hr) as (_ & _ & V0 & R0 & _ & I2 & _). rewrite HV in * by done.
    unfold len, inputs, rejected in *. rewrite HV by done. cbn in I2. lia. }
  assert (HM : forall r r', 0 <= r < r' -> r' <= n -> start true qs P r + len true qs qe P r <= start true qs P r').
  { intros r r' Hr Hr'. pose proof (start_mono _ _ _ _ _ _ _ _ _ (r + 1) r' HB ltac:(lia) ltac:(lia)). rewrite len_start. lia. }
  split; [|split].
  - intros r j r' j' Hr Hj Hr' Hj'. rewrite !Hh by done. intros E. pose proof (HI r Hr). pose proof (HI r' Hr').
    assert (r = r') as ->; [|split; [done|lia]]. destruct (Z.lt_trichotomy r r') as [H1|[H1|H1]]; [|done|].
    + pose proof (HM r r' ltac:(lia) ltac:(lia)). lia.
    + pose proof (HM r' r ltac:(lia) ltac:(lia)). lia.
  - intros r i Hr Hi. destruct (HI r Hr) as (H1 & H2 & H3). rewrite HV in * by done.
    replace i with (vat qs r + (i - vat qs r)) at 1 by lia. rewrite Hh by lia.
    specialize (Hrows r (i - vat qs r) Hr ltac:(lia)). unfold slot in Hrows. rewrite HV, (proj2 (Z.ltb_lt _ _)) in Hrows by lia.
    injection Hrows as Hrow _ _ _. rewrite Hrow. f_equal. cbn. lia.
  - intros r Hr. destruct (HI r Hr) as (H1 & H2 & H3). rewrite HV in * by done.
    replace (vat qe r) with (vat qs r + (vat qe r - vat qs r)) at 1 by lia. rewrite Hh by lia.
    specialize (Hrows r (vat qe r - vat qs r) Hr ltac:(lia)). unfold slot in Hrows. rewrite HV, Z.ltb_irrefl, Z.eqb_refl in Hrows by done.
    by injection Hrows as Hrow _ _ _.
Qed.

Lemma eagle_hidden_pairs_witness :
  returns (@npu_copy_and_expand_eagle_inputs SoftCopy demo_behind demo_fresh demo_ids demo_positions [99; 98] [0; 3; 5] [1; 4] 0 77 3 true 9)
    (fun '(rows, _, hsm) =>
       (forall r j r' j', 0 <= r < 2 -> 0 <= j < inputs [0; 3; 5] r -> 0 <= r' < 2 -> 0 <= j' < inputs [0; 3; 5] r' ->
          vat hsm (vat [0; 3; 5] r + j) = vat hsm (vat [0; 3; 5] r' + j') -> r = r' /\ j = j') /\
       (forall r i, 0 <= r < 2 -> vat [0; 3; 5] r <= i < vat [1; 4] r -> vat (InputIds rows) (vat hsm i) = vat demo_ids (i + 1)) /\
       forall r, 0 <= r < 2 -> vat (InputIds rows) (vat hsm (vat [1; 4] r)) = vat [99; 98] r).
Proof.
  apply (@eagle_hidden_pairs SoftCopy (SoftCopy_laws 8) demo_ids demo_positions [99; 98] [0; 3; 5] [1; 4] 0 77 3 2 5 9 demo_behind demo_fresh).
  apply eagle_demo_CallOk. cbn. lia.
Defined.

(** The buffers of a core hold 4096 tokens of a request, and nothing compares
    the requests with that: copying the tokens of a longer request leaves the
    buffer. *)
Theorem eagle_long_request_fault `{HA : AscendCopy} t tok posm r s queryStart nextQueryStart queryEnd
    (Hbuf : Z.of_nat (length (inputBuf s)) = MAX_PER_REQ)
    (Hqs : vget (qsBuf s) r = Ok queryStart) (Hnext : vget (qsBuf s) (u32 (r + 1)) = Ok nextQueryStart)
    (Hqe : vget (qeBuf s) r = Ok queryEnd)
    (Hlong : MAX_PER_REQ < nextQueryStart - queryStart < 2 ^ 30) :
  ProcessOneRequestShiftFalse t tok posm r r s = Fault OutOfBounds.
Proof.
  unfold MAX_PER_REQ in *. unfold ProcessOneRequestShiftFalse. rewrite Hqs, Hnext, Hqe. cbn [mbind res_bind].
  rewrite (i32_id (nextQueryStart - queryStart)), (proj2 (Z.gtb_lt (nextQueryStart - queryStart) 0)) by lia.
  set (n := nextQueryStart - queryStart) in *. pose proof (align8_ge n).
  assert (Ed : DataCopyIn (inputBuf s) tok queryStart n = Fault OutOfBounds); [|by rewrite Ed].
  unfold DataCopyIn, data_copy_in, in_tensor. rewrite copy_size, (proj2 (Z.leb_gt n 0)) by lia.
  rewrite (proj2 (Z.leb_gt (0 + align8 n) (Z.of_nat (length (inputBuf s))))) by lia. by rewrite andb_false_r.
Qed.

Lemma eagle_long_request_fault_witness :
  let s := demo_fresh <| qsBuf := [0; 4097; 0; 0; 0; 0; 0; 0] |> <| qeBuf := [4096; 0; 0; 0; 0; 0; 0; 0] |> in
  @ProcessOneRequestShiftFalse SoftCopy (mkTiling 1 1 1 0 0 77 3 4097 0 4100) [] [] 0 0 s = Fault OutOfBounds.
Proof.
  apply (@eagle_long_request_fault SoftCopy _ _ _ 0 _ 0 4097 4096);
    [apply (zeros_length 4096); lia|reflexivity|reflexivity|reflexivity|unfold MAX_PER_REQ; lia].
Defined.
End EagleTheorems.
