(* ===== verification/ReshapeKernel.v ===== *)
(** * Storing of sequences in a paged cache: reshape_and_cache_bnsd

    The tiling function and the kernel class of
    src/csrc/attention/reshape_and_cache_bnsd.  The keys of a batch, for every
    sequence head by head, go to the pages of a cache; the pieces of the
    sequences that lie in one page are dealt to the vector cores.  Tensors of
    bytes are lists. *)

From S2P Require Import Prelude Ascend.

Module Reshape.

(** ** Tiling *)

Record ReshapeAndCacheBNSDTilingData := mkTiling {
  numTokens : Z;
  headDim : Z;
  numBlocks : Z;
  numHeads : Z;
  blockSize : Z;
  batchSeqLen : Z;
  batch : Z;
  numCore : Z
}.

(** Tiling data, number of blocks and workspace.  The number of rows of the
    cache, which the source also computes, is not used. *)
Definition TilingFunc (keyShape keyCacheShape slotMappingShape seqLenShape : list Z) (coreNumAiv : Z)
    : ReshapeAndCacheBNSDTilingData * Z * Z :=
  let numCore := u32 coreNumAiv in
  (mkTiling (u32 (vat keyShape 0)) (u32 (vat keyShape 1)) (u32 (vat keyCacheShape 0)) (u32 (vat keyCacheShape 1))
     (u32 (vat keyCacheShape 2)) (u32 (vat slotMappingShape 0)) (u32 (vat seqLenShape 0)) numCore,
   numCore, 16 * 1024 * 1024).

(** ** Kernel *)

Definition ALIGN : Z := 32.
Definition CeilDiv (x y : Z) : Z := if y =? 0 then 0 else u32 (x + y - 1) / y.
Definition RoundUp (x y : Z) : Z := u32 (u32 (x + y - 1) / y * y).
Definition u16 (x : Z) : Z := x mod 2 ^ 16.

(** Bytes of the buffer. *)
Definition buffer_bytes (t : ReshapeAndCacheBNSDTilingData) : Z := RoundUp (u32 (blockSize t * headDim t)) ALIGN.

Section Kernel.
Context `{AscendCopy} (t : ReshapeAndCacheBNSDTilingData) (keyIn slotMapping seqLenGm : list Z).
Abbreviation blockSize_ := (blockSize t).
Abbreviation headNum_ := (numHeads t).
Abbreviation headDim_ := (headDim t).

(** Length of a sequence, its tokens in the first page, its number of pages. *)
Definition batch_blocks (batchIdx offsetInSlotmapping : Z) : res (Z * Z * Z) :=
  seqLen ← vget seqLenGm batchIdx;
  slotValue ← vget slotMapping offsetInSlotmapping;
  let seqLen := u32 seqLen in
  offsetInBlock ← umod (u32 slotValue) blockSize_;
  let leftTokenNum := u32 (blockSize_ - offsetInBlock) in
  let blockNumForCurrBatch :=
    if seqLen <? leftTokenNum then 1 else u32 (CeilDiv (u32 (seqLen - leftTokenNum)) blockSize_ + 1) in
  Ok (seqLen, leftTokenNum, blockNumForCurrBatch).

(** The number of pages of the batch. *)
Definition count_blocks : res (Z * Z) :=
  for_range (batch t) (fun batchIdx '(totalBlockNum, offsetInSlotmapping) =>
    '(seqLen, _, blockNumForCurrBatch) ← batch_blocks batchIdx offsetInSlotmapping;
    Ok (u32 (totalBlockNum + blockNumForCurrBatch), u32 (offsetInSlotmapping + seqLen))) (0, 0).

(** Where a core starts. *)
Record Start := mkStart { accuBlockNum : Z; startBatchIdx : Z; startTokenOffsetInBatch : Z; offsetInSlotmapping : Z }.

Definition find_start_step (startBlockOffset_ batchIdx : Z) (st : Start) : res (bool * Start) :=
  let '(mkStart accu startBatch startToken off) := st in
  '(seqLen, leftTokenNum, blockNumForCurrBatch) ← batch_blocks batchIdx off;
  let accu := u32 (accu + blockNumForCurrBatch) in
  if startBlockOffset_ =? 0 then Ok (false, mkStart accu startBatch startToken off)
  else if accu =? startBlockOffset_ then Ok (false, mkStart accu (u32 (batchIdx + 1)) 0 (u32 (off + seqLen)))
  else if accu >? startBlockOffset_ then
    let startToken :=
      u32 (u32 (u32 (startBlockOffset_ - u32 (u32 (accu - blockNumForCurrBatch) + 1)) * blockSize_) + leftTokenNum) in
    Ok (false, mkStart accu batchIdx startToken (u32 (off + startToken)))
  else Ok (true, mkStart accu startBatch startToken (u32 (off + seqLen))).

Definition find_start (startBlockOffset_ : Z) : res Start :=
  for_step 0 (batch t) 1 (find_start_step startBlockOffset_) (mkStart 0 0 0 0).

(** The state of the copying loop. *)
Record Copying := mkCopying { c_batchIdx : Z; c_startToken : Z; c_offset : Z; c_tmp : list Z; c_cache : list Z }.

(** Whole 32-byte blocks of the rows of every head. *)
Definition copy_heads (srcOffset dstOffset seqLen copyBlocks : Z) (tmp cache : list Z) : res (list Z * list Z) :=
  for_range headNum_ (fun headId '(tmp, cache) =>
    tmp ← data_copy_in tmp keyIn (srcOffset + u32 (u32 (headId * seqLen) * headDim_)) (u16 copyBlocks * 32);
    cache ← data_copy_out cache (dstOffset + u32 (u32 (headId * blockSize_) * headDim_)) tmp (u16 copyBlocks * 32);
    Ok (tmp, cache)) (tmp, cache).

(** The bytes behind them, one by one. *)
Definition copy_left (srcOffset dstOffset seqLen copyBlocks leftBytes : Z) (cache : list Z) : res (list Z) :=
  for_range headNum_ (fun headId cache =>
    for_range leftBytes (fun dimId cache =>
      cacheValue ← vget keyIn (srcOffset + u32 (u32 (headId * seqLen) * headDim_) + u32 (copyBlocks * ALIGN) + dimId);
      vset cache (dstOffset + u32 (u32 (headId * blockSize_) * headDim_) + u32 (copyBlocks * ALIGN) + dimId) cacheValue) cache) cache.

(** One page. *)
Definition copy_block (st : Copying) : res Copying :=
  let '(mkCopying batchIdx startToken off tmp cache) := st in
  seqLen ← vget seqLenGm batchIdx;
  slotValue ← vget slotMapping off;
  let seqLen := u32 seqLen in
  blockId ← udiv (u32 slotValue) blockSize_;
  slotId ← umod (u32 slotValue) blockSize_;
  let dstOffset := u32 (u32 (u32 (u32 (blockId * headNum_) * blockSize_) * headDim_) + u32 (slotId * headDim_)) in
  let srcOffset := u32 (u32 (u32 (u32 (off - startToken) * headNum_) * headDim_) + u32 (startToken * headDim_)) in
  if u32 (u32 (startToken + blockSize_) - slotId) >? seqLen then
    let currCopyTokenNum := u32 (seqLen - startToken) in
    let copyBlocks := CeilDiv (u32 (currCopyTokenNum * headDim_)) 32 in
    '(tmp, cache) ← copy_heads srcOffset dstOffset seqLen copyBlocks tmp cache;
    Ok (mkCopying (u32 (batchIdx + 1)) 0 (u32 (off + currCopyTokenNum)) tmp cache)
  else
    let currCopyTokenNum := u32 (blockSize_ - slotId) in
    let copyBlocks := u32 (currCopyTokenNum * headDim_) / ALIGN in
    let leftBytes := u32 (u32 (currCopyTokenNum * headDim_) - u32 (copyBlocks * ALIGN)) in
    '(tmp, cache) ← (if negb (copyBlocks =? 0) then copy_heads srcOffset dstOffset seqLen copyBlocks tmp cache else Ok (tmp, cache));
    let '(batchIdx, startToken) :=
      if u32 (currCopyTokenNum + startToken) =? seqLen then (u32 (batchIdx + 1), 0) else (batchIdx, u32 (startToken + currCopyTokenNum)) in
    cache ← (if leftBytes =? 0 then Ok cache else copy_left srcOffset dstOffset seqLen copyBlocks leftBytes cache);
    Ok (mkCopying batchIdx startToken (u32 (off + currCopyTokenNum)) tmp cache).

(** The pages of a core: the first and how many. *)
Definition core_blocks (totalBlockNum blockIdx_ : Z) : res (option (Z * Z)) :=
  let actualCoreNum := if totalBlockNum <=? numCore t then totalBlockNum else numCore t in
  blockNumPerCore ← udiv totalBlockNum actualCoreNum;
  let leftBlockNum := u32 (totalBlockNum - u32 (blockNumPerCore * actualCoreNum)) in
  let blockNum := if blockIdx_ <? leftBlockNum then u32 (blockNumPerCore + 1) else blockNumPerCore in
  let startBlockOffset_ :=
    if blockIdx_ <? leftBlockNum then u32 (u32 (blockNumPerCore * blockIdx_) + blockIdx_)
    else u32 (u32 (blockNumPerCore * blockIdx_) + leftBlockNum) in
  Ok (if blockIdx_ >=? actualCoreNum then None else Some (startBlockOffset_, blockNum)).

Definition Process (blockIdx_ : Z) (tmp cache : list Z) : res (list Z) :=
  '(totalBlockNum, _) ← count_blocks;
  share ← core_blocks totalBlockNum blockIdx_;
  match share with
  | None => Ok cache
  | Some (startBlockOffset_, blockNum) =>
      st ← find_start startBlockOffset_;
      c ← for_range blockNum (fun _ c => copy_block c)
            (mkCopying (startBatchIdx st) (startTokenOffsetInBatch st) (offsetInSlotmapping st) tmp cache);
      Ok (c_cache c)
  end.
End Kernel.
End Reshape.
