(* ===== verification/ReshapeProofs.v ===== *)
(** * The pieces of the sequences of a batch

    Every sequence is cut where its tokens change the page.  The kernel counts
    the pieces, finds the piece a core starts with and copies one piece per
    round; each piece of every head is one write to the cache. *)

From S2P Require Import Prelude Ascend Tensor ReshapeKernel.

Module ReshapeProofs.
Import Reshape.

(** ** Pieces *)

Section Pieces.
Context (bs nh hd B : Z) (slots lens : list Z).

Definition seq_len (b : Z) : Z := vat lens b.
(** Tokens before sequence [b]. *)
Definition tokens_before (b : Z) : Z := sumZ seq_len 0 b.
Definition slot_of (b i : Z) : Z := vat slots (tokens_before b + i).
(** Tokens of the sequence that fit in its first page. *)
Definition left (b : Z) : Z := bs - slot_of b 0 mod bs.
Definition pages (b : Z) : Z := if seq_len b <? left b then 1 else (seq_len b - left b + bs - 1) / bs + 1.
Definition pages_before (b : Z) : Z := sumZ pages 0 b.
(** First token and number of tokens of piece [k]. *)
Definition tok (b k : Z) : Z := if k =? 0 then 0 else left b + (k - 1) * bs.
Definition room (b k : Z) : Z := bs - slot_of b (tok b k) mod bs.
Definition count (b k : Z) : Z := Z.min (seq_len b - tok b k) (room b k).

(** Non-empty sequences whose tokens fill page after page. *)
Record SeqsOk : Prop := {
  so_dims : 0 < bs /\ 0 < nh /\ 0 < hd;
  so_batch : 0 < B /\ Z.of_nat (length lens) = B;
  so_len : forall b, 0 <= b < B -> 1 <= seq_len b;
  so_tokens : tokens_before B <= Z.of_nat (length slots);
  so_slots : forall i, 0 <= i < tokens_before B -> 0 <= vat slots i < 2 ^ 31;
  so_pages : forall b i, 0 <= b < B -> 0 <= i < seq_len b - 1 ->
    if slot_of b i mod bs =? bs - 1 then slot_of b (i + 1) mod bs = 0 else slot_of b (i + 1) = slot_of b i + 1;
  so_width : tokens_before B + bs < 2 ^ 31
}.
Context (HS : SeqsOk).

Lemma bs_pos : 0 < bs. Proof. apply HS. Qed.

Lemma left_range b : 1 <= left b <= bs.
Proof. unfold left. pose proof (Z.mod_pos_bound (slot_of b 0) bs bs_pos). lia. Qed.

(** The place of a token in its page. *)
Lemma slot_mod b i : 0 <= b < B -> 0 <= i < seq_len b -> slot_of b i mod bs = (slot_of b 0 + i) mod bs.
Proof.
  intros Hb Hi. pose proof bs_pos as H0.
  assert (G : forall n : nat, Z.of_nat n < seq_len b -> slot_of b (Z.of_nat n) mod bs = (slot_of b 0 + Z.of_nat n) mod bs).
  { induction n as [|n IH]; intros Hn; [by rewrite Z.add_0_r|]. specialize (IH ltac:(lia)).
    pose proof (so_pages HS b (Z.of_nat n) Hb ltac:(lia)) as Hp. replace (Z.of_nat (S n)) with (Z.of_nat n + 1) by lia.
    rewrite Z.add_assoc, <- (Zplus_mod_idemp_l (slot_of b 0 + Z.of_nat n)), <- IH.
    destruct (Z.eqb_spec (slot_of b (Z.of_nat n) mod bs) (bs - 1)) as [E|E].
    - rewrite Hp, E. replace (bs - 1 + 1) with bs by lia. by rewrite Z.mod_same by lia.
    - rewrite Hp. by rewrite Zplus_mod_idemp_l. }
  specialize (G (Z.to_nat i)). rewrite Z2Nat.id in G by lia. apply G. lia.
Qed.

Lemma tok_nonneg b k : 0 <= k -> 0 <= tok b k.
Proof. intros Hk. pose proof (left_range b). pose proof bs_pos. unfold tok. destruct (Z.eqb_spec k 0); nia. Qed.

(** A later piece starts at the start of a page. *)
Lemma tok_mod b k : 0 <= b < B -> 0 < k -> tok b k < seq_len b -> slot_of b (tok b k) mod bs = 0.
Proof.
  intros Hb Hk Hl. pose proof bs_pos. pose proof (tok_nonneg b k ltac:(lia)). rewrite slot_mod by lia.
  unfold tok. rewrite (proj2 (Z.eqb_neq k 0)) by lia. unfold left.
  pose proof (Z.div_mod (slot_of b 0) bs ltac:(lia)).
  replace (slot_of b 0 + (bs - slot_of b 0 mod bs + (k - 1) * bs)) with ((slot_of b 0 / bs + k) * bs) by lia.
  apply Z.mod_mul. lia.
Qed.

Lemma tok_next b k : 0 <= b < B -> 0 <= k -> tok b k < seq_len b -> tok b (k + 1) = tok b k + room b k.
Proof.
  intros Hb Hk Hl. unfold room. destruct (Z.eq_dec k 0) as [-> |].
  - change (tok b (0 + 1)) with (left b + (1 - 1) * bs). change (tok b 0) with 0. unfold left. lia.
  - rewrite tok_mod by lia. unfold tok. rewrite (proj2 (Z.eqb_neq k 0)), (proj2 (Z.eqb_neq (k + 1) 0)) by lia. lia.
Qed.

(** The pieces of a sequence are those that have a token. *)
Lemma pages_iff b k : 0 <= b < B -> 0 <= k -> k < pages b <-> tok b k < seq_len b.
Proof.
  intros Hb Hk. pose proof (left_range b). pose proof bs_pos. pose proof (so_len HS b Hb). unfold pages, tok.
  destruct (Z.eqb_spec k 0) as [-> |].
  - destruct (Z.ltb_spec (seq_len b) (left b)); [lia|]. pose proof (Z.div_pos (seq_len b - left b + bs - 1) bs). lia.
  - destruct (Z.ltb_spec (seq_len b) (left b)); [nia|].
    pose proof (Z.div_mod (seq_len b - left b + bs - 1) bs ltac:(lia)). pose proof (Z.mod_pos_bound (seq_len b - left b + bs - 1) bs ltac:(lia)).
    nia.
Qed.

Lemma pages_pos b : 0 <= b < B -> 1 <= pages b.
Proof. intros Hb. pose proof (proj2 (pages_iff b 0 Hb ltac:(lia))) as Hp. pose proof (so_len HS b Hb). cbn in Hp. lia. Qed.

Lemma pages_le b : 0 <= b < B -> pages b <= seq_len b.
Proof.
  intros Hb. pose proof (pages_pos b Hb) as H1. pose proof (proj1 (pages_iff b (pages b - 1) Hb ltac:(lia))) as Hp.
  pose proof (left_range b). pose proof bs_pos. pose proof (so_len HS b Hb). unfold tok in Hp.
  destruct (Z.eqb_spec (pages b - 1) 0); [lia|]. specialize (Hp ltac:(lia)). nia.
Qed.

(** The tokens of a piece are in consecutive slots of one page. *)
Lemma piece_slots b k i :
  0 <= b < B -> 0 <= k < pages b -> 0 <= i < count b k -> slot_of b (tok b k + i) = slot_of b (tok b k) + i.
Proof.
  intros Hb Hk Hi. pose proof bs_pos. pose proof (tok_nonneg b k ltac:(lia)). unfold count, room in Hi.
  assert (G : forall n : nat, Z.of_nat n < Z.min (seq_len b - tok b k) (bs - slot_of b (tok b k) mod bs) ->
    slot_of b (tok b k + Z.of_nat n) = slot_of b (tok b k) + Z.of_nat n).
  { induction n as [|n IH]; intros Hn; [by rewrite !Z.add_0_r|]. specialize (IH ltac:(lia)).
    pose proof (so_pages HS b (tok b k + Z.of_nat n) Hb ltac:(lia)) as Hp.
    replace (tok b k + Z.of_nat (S n)) with (tok b k + Z.of_nat n + 1) by lia. rewrite IH in Hp.
    pose proof (Z.mod_pos_bound (slot_of b (tok b k)) bs ltac:(lia)). pose proof (Z.div_mod (slot_of b (tok b k)) bs ltac:(lia)).
    assert (E : (slot_of b (tok b k) + Z.of_nat n) mod bs = slot_of b (tok b k) mod bs + Z.of_nat n).
    { symmetry. apply (Z.mod_unique _ _ (slot_of b (tok b k) / bs)); lia. }
    rewrite E, (proj2 (Z.eqb_neq _ (bs - 1))) in Hp by lia. lia. }
  specialize (G (Z.to_nat i)). rewrite Z2Nat.id in G by lia. apply G. lia.
Qed.

Lemma room_range b k : 1 <= room b k <= bs.
Proof. unfold room. pose proof (Z.mod_pos_bound (slot_of b (tok b k)) bs bs_pos). lia. Qed.

Lemma count_range b k : 0 <= b < B -> 0 <= k < pages b -> 1 <= count b k <= bs /\ tok b k + count b k <= seq_len b.
Proof.
  intros Hb Hk. pose proof (room_range b k). pose proof (proj1 (pages_iff b k Hb ltac:(lia)) ltac:(lia)). unfold count. lia.
Qed.

(** ** Order of the pieces *)

Lemma tokens_mono b b' : 0 <= b <= b' -> b' <= B -> tokens_before b <= tokens_before b'.
Proof.
  intros Hb Hb'. unfold tokens_before. rewrite (sumZ_split _ 0 b b') by lia.
  pose proof (sumZ_nonneg seq_len b b') as Hn. enough (0 <= sumZ seq_len b b') by lia. apply Hn. intros i Hi. pose proof (so_len HS i ltac:(lia)). lia.
Qed.

Lemma tokens_next b : 0 <= b -> tokens_before (b + 1) = tokens_before b + seq_len b.
Proof. intros Hb. apply sumZ_snoc. lia. Qed.

Lemma tokens_range b : 0 <= b <= B -> 0 <= tokens_before b <= tokens_before B.
Proof.
  intros Hb. pose proof (tokens_mono 0 b ltac:(lia) ltac:(lia)) as H0. pose proof (tokens_mono b B ltac:(lia) ltac:(lia)).
  unfold tokens_before at 1 in H0. rewrite sumZ_empty in H0 by lia. lia.
Qed.

Lemma pages_next b : 0 <= b -> pages_before (b + 1) = pages_before b + pages b.
Proof. intros Hb. apply sumZ_snoc. lia. Qed.

Lemma pages_mono b b' : 0 <= b <= b' -> b' <= B -> pages_before b <= pages_before b'.
Proof.
  intros Hb Hb'. unfold pages_before. rewrite (sumZ_split _ 0 b b') by lia.
  pose proof (sumZ_nonneg pages b b') as Hn. enough (0 <= sumZ pages b b') by lia. apply Hn. intros i Hi. pose proof (pages_pos i ltac:(lia)). lia.
Qed.

Lemma pages_before_le b : 0 <= b <= B -> b <= pages_before b <= tokens_before b.
Proof.
  intros Hb. assert (G : forall n : nat, Z.of_nat n <= B -> Z.of_nat n <= pages_before (Z.of_nat n) <= tokens_before (Z.of_nat n)).
  { induction n as [|n IH]; intros Hn; [done|]. replace (Z.of_nat (S n)) with (Z.of_nat n + 1) by lia.
    rewrite pages_next, tokens_next by lia. pose proof (pages_le (Z.of_nat n) ltac:(lia)). pose proof (pages_pos (Z.of_nat n) ltac:(lia)).
    specialize (IH ltac:(lia)). lia. }
  specialize (G (Z.to_nat b)). rewrite Z2Nat.id in G by lia. apply G. lia.
Qed.

(** Piece [g] of the batch is piece [k] of sequence [b]; behind the last piece
    comes the end of the batch. *)
Definition At (g b k : Z) : Prop :=
  g = pages_before b + k /\ 0 <= b <= B /\ (b < B -> 0 <= k < pages b) /\ (b = B -> k = 0).

Lemma At_next g b k : At g b k -> b < B -> if k + 1 <? pages b then At (g + 1) b (k + 1) else At (g + 1) (b + 1) 0.
Proof.
  intros (-> & Hb & Hk & _) Hlt. specialize (Hk Hlt). destruct (Z.ltb_spec (k + 1) (pages b)).
  - split; [lia|]. split; [lia|]. split; [lia|lia].
  - split; [rewrite pages_next by lia; lia|]. split; [lia|]. split; [|done]. intros Hb'. pose proof (pages_pos (b + 1) ltac:(lia)). lia.
Qed.

Lemma At_lt g b k : At g b k -> g < pages_before B -> b < B.
Proof. intros (-> & Hb & _ & He) Hg. destruct (Z.eq_dec b B) as [-> |]; [rewrite He in Hg by done|]; lia. Qed.

Lemma At_unique g b k b' k' : At g b k -> At g b' k' -> b < B -> b' < B -> b = b' /\ k = k'.
Proof.
  intros (E & Hb & Hk & _) (E' & Hb' & Hk' & _) H1 H2. specialize (Hk H1). specialize (Hk' H2).
  destruct (Z.lt_trichotomy b b') as [Hl|[Hl|Hl]]; [|subst; lia|].
  - pose proof (pages_mono (b + 1) b' ltac:(lia) ltac:(lia)). rewrite pages_next in * by lia. lia.
  - pose proof (pages_mono (b' + 1) b ltac:(lia) ltac:(lia)). rewrite pages_next in * by lia. lia.
Qed.

(** The piece with number [g]. *)
Fixpoint find_piece (n : nat) (b g : Z) : Z * Z :=
  match n with
  | O => (b, g)
  | S n => if g <? pages b then (b, g) else find_piece n (b + 1) (g - pages b)
  end.
Definition piece (g : Z) : Z * Z := find_piece (Z.to_nat B) 0 g.

Lemma piece_At g : 0 <= g < pages_before B -> At g (piece g).1 (piece g).2 /\ (piece g).1 < B.
Proof.
  intros Hg. unfold piece.
  assert (G : forall n b, 0 <= b -> b + Z.of_nat n = B -> forall g', 0 <= g' -> pages_before b + g' < pages_before B ->
    let p := find_piece n b g' in At (pages_before b + g') p.1 p.2 /\ p.1 < B).
  { induction n as [|n IH]; intros b Hb Hn g' Hg' Hl; cbn [find_piece].
    - replace b with B in Hl by lia. lia.
    - destruct (Z.ltb_spec g' (pages b)).
      + cbn. split; [|lia]. split; [done|]. split; [lia|]. split; [lia|lia].
      + specialize (IH (b + 1) ltac:(lia) ltac:(lia) (g' - pages b) ltac:(lia)). rewrite pages_next in IH by lia.
        replace (pages_before b + pages b + (g' - pages b)) with (pages_before b + g') in IH by lia. by apply IH. }
  destruct (so_batch HS) as [HB _]. specialize (G (Z.to_nat B) 0 ltac:(lia) ltac:(lia) g ltac:(lia)).
  assert (E : pages_before 0 = 0) by (apply sumZ_empty; lia). rewrite E, Z.add_0_l in G. apply G. lia.
Qed.

Lemma piece_eq g b k : At g b k -> b < B -> piece g = (b, k).
Proof.
  intros HA Hb. assert (Hg : 0 <= g < pages_before B).
  { destruct HA as (-> & Hb' & Hk & _). specialize (Hk Hb). pose proof (pages_mono (b + 1) B ltac:(lia) ltac:(lia)).
    rewrite pages_next in * by lia. pose proof (pages_before_le b ltac:(lia)). lia. }
  destruct (piece_At g Hg) as [HA' Hb']. destruct (At_unique _ _ _ _ _ HA HA' Hb Hb') as [-> ->]. by destruct (piece g).
Qed.
End Pieces.

(** ** The kernel *)

Lemma mul_grows a b : 0 <= a -> 0 < b -> 0 <= a <= a * b.
Proof. nia. Qed.

Section Kernel.
Context `{HA : AscendCopy} `{HAL : !AscendCopyLaws 32}.
Context (t : ReshapeAndCacheBNSDTilingData) (key slots lens : list Z).
Abbreviation bs := (blockSize t).
Abbreviation nh := (numHeads t).
Abbreviation hd := (headDim t).
Abbreviation B := (batch t).
Abbreviation seqs := (SeqsOk bs nh hd B slots lens).
Abbreviation seq_len := (seq_len lens).
Abbreviation tokens_before := (tokens_before lens).
Abbreviation slot_of := (slot_of slots lens).
Abbreviation left := (left bs slots lens).
Abbreviation pages := (pages bs slots lens).
Abbreviation pages_before := (pages_before bs slots lens).
Abbreviation tok := (tok bs slots lens).
Abbreviation room := (room bs slots lens).
Abbreviation count := (count bs slots lens).
Abbreviation At := (At bs B slots lens).
Abbreviation piece := (piece bs B slots lens).

(** Source and destination of a piece of one head, and its bytes: whole units of
    32 when the sequence ends before the page. *)
Definition src (b k h : Z) : Z := tokens_before b * nh * hd + tok b k * hd + h * seq_len b * hd.
Definition dst (b k h : Z) : Z :=
  slot_of b (tok b k) / bs * nh * bs * hd + slot_of b (tok b k) mod bs * hd + h * bs * hd.
Definition bytes (b k : Z) : Z :=
  if seq_len b - tok b k <? room b k then (count b k * hd + 31) / 32 * 32 else count b k * hd.

(** One write: piece and head. *)
Definition place (x : Z * Z) : Z := dst (piece x.1).1 (piece x.1).2 x.2.
Definition place_end (x : Z * Z) : Z := place x + bytes (piece x.1).1 (piece x.1).2.
Definition value (x : Z * Z) (i : Z) : Z := vat key (src (piece x.1).1 (piece x.1).2 x.2 + (i - place x)).
Definition heads (g : Z) : list (Z * Z) := (fun h => (g, h)) <$> seqZ 0 nh.

(** Sequences, and tensors that hold all pieces. *)
Record CallOk (cache : list Z) : Prop := {
  rc_seqs : seqs;
  rc_apart : apart place place_end (seqZ 0 (pages_before B) ≫= heads);
  rc_src : forall b k h, 0 <= b < B -> 0 <= k < pages b -> 0 <= h < nh -> src b k h + bytes b k <= Z.of_nat (length key);
  rc_dst : forall b k h, 0 <= b < B -> 0 <= k < pages b -> 0 <= h < nh -> dst b k h + bytes b k <= Z.of_nat (length cache);
  rc_width : Z.of_nat (length key) < 2 ^ 32 /\ Z.of_nat (length cache) < 2 ^ 32;
  rc_page : bs * hd <= 2 ^ 20
}.

Lemma CallOk_length cache cache' : length cache' = length cache -> CallOk cache -> CallOk cache'.
Proof. intros Hl [C1 C2 C3 C4 C5 C6]. split; rewrite ?Hl; done. Qed.

Section Call.
Context (HS : seqs).

Lemma slot_range b i : 0 <= b < B -> 0 <= i < seq_len b -> 0 <= slot_of b i < 2 ^ 31.
Proof.
  intros Hb Hi. apply (so_slots _ _ _ _ _ _ HS). pose proof (tokens_range _ _ _ _ _ _ HS b ltac:(lia)).
  pose proof (tokens_mono _ _ _ _ _ _ HS (b + 1) B ltac:(lia) ltac:(lia)). rewrite (tokens_next lens) in * by lia. lia.
Qed.

(** What a sequence looks like in 32 bits. *)
Lemma seq_facts b : 0 <= b < B ->
  0 <= tokens_before b /\ 1 <= seq_len b /\ tokens_before b + seq_len b + bs < 2 ^ 31 /\ 0 < bs /\
  tokens_before b + seq_len b <= Z.of_nat (length slots) /\ b < Z.of_nat (length lens).
Proof.
  intros Hb. pose proof (tokens_range _ _ _ _ _ _ HS b ltac:(lia)). pose proof (so_len _ _ _ _ _ _ HS b Hb).
  pose proof (tokens_mono _ _ _ _ _ _ HS (b + 1) B ltac:(lia) ltac:(lia)). rewrite (tokens_next lens) in * by lia.
  pose proof (so_width _ _ _ _ _ _ HS). pose proof (so_tokens _ _ _ _ _ _ HS). pose proof (so_batch _ _ _ _ _ _ HS).
  pose proof (so_dims _ _ _ _ _ _ HS). lia.
Qed.

Lemma batch_blocks_ok b :
  0 <= b < B -> batch_blocks t slots lens b (tokens_before b) = Ok (seq_len b, left b, pages b).
Proof.
  intros Hb. destruct (seq_facts b Hb) as (F1 & F2 & F3 & F4 & F5 & F6). pose proof (slot_range b 0 Hb ltac:(lia)) as Hs.
  unfold ReshapeProofs.slot_of in Hs. rewrite Z.add_0_r in Hs.
  unfold batch_blocks. rewrite !vget_ok by lia. cbn [mbind res_bind]. fold (seq_len b).
  rewrite umod_ok, (u32_id (seq_len b)), (u32_id (vat slots _)) by lia. cbn [mbind res_bind].
  assert (El : u32 (bs - vat slots (tokens_before b) mod bs) = left b).
  { unfold ReshapeProofs.left, ReshapeProofs.slot_of. rewrite Z.add_0_r. apply u32_id.
    pose proof (Z.mod_pos_bound (vat slots (tokens_before b)) bs F4). lia. }
  rewrite El. pose proof (left_range _ _ _ _ _ _ HS b) as Hl. do 2 f_equal. unfold ReshapeProofs.pages.
  destruct (Z.ltb_spec (seq_len b) (left b)); [done|]. unfold CeilDiv. rewrite (proj2 (Z.eqb_neq bs 0)) by lia.
  rewrite (u32_id (seq_len b - left b)), (u32_id (seq_len b - left b + bs - 1)) by lia. apply u32_id.
  pose proof (Z.div_pos (seq_len b - left b + bs - 1) bs ltac:(lia) F4).
  pose proof (Z.div_le_upper_bound (seq_len b - left b + bs - 1) bs (seq_len b - left b + bs - 1) F4 ltac:(nia)). lia.
Qed.

Lemma total_range b : 0 <= b <= B -> b <= pages_before b <= tokens_before b /\ tokens_before b < 2 ^ 31.
Proof.
  intros Hb. pose proof (pages_before_le _ _ _ _ _ _ HS b Hb). pose proof (tokens_range _ _ _ _ _ _ HS b Hb).
  pose proof (so_width _ _ _ _ _ _ HS). pose proof (so_dims _ _ _ _ _ _ HS). lia.
Qed.

Lemma count_blocks_ok : count_blocks t slots lens = Ok (pages_before B, tokens_before B).
Proof.
  assert (Hr : returns (count_blocks t slots lens) (fun r => r = (pages_before B, tokens_before B))).
  { destruct (so_batch _ _ _ _ _ _ HS) as [HB _]. unfold count_blocks.
    apply (for_range_returns (fun b r => r = (pages_before b, tokens_before b))); [lia|done|].
    intros b r Hb ->. rewrite batch_blocks_ok by lia. cbn [mbind res_bind]. apply returns_ok.
    pose proof (total_range (b + 1) ltac:(lia)) as Ht. rewrite pages_next, tokens_next in * by lia. by rewrite !u32_id by lia. }
  by destruct Hr as (r & -> & ->).
Qed.

(** The search for the first piece of a core. *)
Definition starts_at (g : Z) (st : Start) : Prop :=
  exists b k, At g b k /\ b < B /\ startBatchIdx st = b /\ startTokenOffsetInBatch st = tok b k /\
    offsetInSlotmapping st = tokens_before b + tok b k.

Lemma find_start_returns g : 0 <= g < pages_before B -> returns (find_start t slots lens g) (starts_at g).
Proof.
  intros Hg. destruct (so_batch _ _ _ _ _ _ HS) as [HB _]. unfold find_start.
  apply (for_step_returns (fun b st => 0 <= b /\ st = mkStart (pages_before b) 0 0 (tokens_before b) /\ pages_before b <= g /\
    (0 < b -> 0 < g /\ pages_before b < g))); [lia|split_and!; [lia|done|change (pages_before 0) with 0; lia|lia]| |].
  - intros b st Hb (_ & -> & Hle & Hlt). unfold find_start_step. rewrite batch_blocks_ok by lia. cbn [mbind res_bind].
    pose proof (total_range (b + 1) ltac:(lia)) as Ht. pose proof (total_range b ltac:(lia)) as Ht'.
    pose proof (pages_pos _ _ _ _ _ _ HS b ltac:(lia)) as Hp. destruct (seq_facts b ltac:(lia)) as (F1 & F2 & F3 & F4 & _).
    rewrite pages_next, tokens_next in Ht by lia. rewrite (u32_id (pages_before b + pages b)) by lia.
    destruct (Z.eqb_spec g 0) as [-> |Hg0].
    { apply returns_ok. assert (b = 0) as -> by lia. exists 0, 0. split; [|split; [lia|done]].
      split; [done|]. split; [lia|]. split; [lia|done]. }
    destruct (Z.eqb_spec (pages_before b + pages b) g) as [Eg|Eg].
    { apply returns_ok. rewrite !u32_id by lia. assert (b + 1 < B).
      { destruct (Z.eq_dec (b + 1) B) as [E|]; [|lia]. rewrite <- E, pages_next in Hg by lia. lia. }
      exists (b + 1), 0. cbn. rewrite Z.add_0_r, tokens_next by lia. split; [|done]. split; [rewrite pages_next by lia; lia|].
      split; [lia|]. split; [|lia]. intros _. pose proof (pages_pos _ _ _ _ _ _ HS (b + 1) ltac:(lia)). lia. }
    destruct (Z.gtb_spec (pages_before b + pages b) g) as [Hgt|Hgt].
    + set (k := g - pages_before b). assert (Hk : 0 < k < pages b).
      { unfold k. destruct (Z.eq_dec b 0) as [-> |]; [|specialize (Hlt ltac:(lia)); lia]. change (pages_before 0) with 0 in *. lia. }
      pose proof (left_range _ _ _ _ _ _ HS b) as Hl. pose proof (proj1 (pages_iff _ _ _ _ _ _ HS b k ltac:(lia) ltac:(lia)) ltac:(lia)) as Htok.
      assert (Et : tok b k = left b + (k - 1) * bs) by (unfold ReshapeProofs.tok; by rewrite (proj2 (Z.eqb_neq k 0)) by lia).
      assert (E : u32 (u32 (u32 (g - u32 (u32 (pages_before b + pages b - pages b) + 1)) * bs) + left b) = tok b k).
      { replace (pages_before b + pages b - pages b) with (pages_before b) by lia.
        rewrite (u32_id (pages_before b)), (u32_id (pages_before b + 1)), (u32_id (g - (pages_before b + 1))) by lia.
        replace (g - (pages_before b + 1)) with (k - 1) by (unfold k; lia). rewrite Et.
        rewrite (u32_id ((k - 1) * bs)), u32_id by nia. lia. }
      rewrite E. pose proof (tok_nonneg _ _ _ _ _ _ HS b k ltac:(lia)). rewrite u32_id by lia. apply returns_ok.
      exists b, k. split; [|split; [lia|done]]. split; [unfold k; lia|]. split; [lia|]. split; [lia|lia].
    + apply returns_ok. rewrite u32_id by lia. split; [lia|]. rewrite pages_next, tokens_next by lia. split; [done|]. lia.
  - intros b st [Hb|Hb] Hge (_ & -> & Hle & _); [|lia]. replace b with B in Hle by lia. lia.
Qed.

(** The bytes of a piece fit the buffer and 16 bits of 32-byte blocks. *)
Context (Hpage : bs * hd <= 2 ^ 20).

Lemma bytes_range b k : 0 <= b < B -> 0 <= k < pages b ->
  count b k * hd <= bytes b k <= buffer_bytes t /\ bytes b k < 2 ^ 20 + 32 /\ 0 < count b k * hd <= bs * hd /\
  (if seq_len b - tok b k <? room b k then bytes b k = CeilDiv (u32 (count b k * hd)) 32 * 32 else bytes b k = count b k * hd).
Proof.
  intros Hb Hk. pose proof (count_range _ _ _ _ _ _ HS b k Hb Hk) as Hc. destruct (so_dims _ _ _ _ _ _ HS) as (D1 & D2 & D3).
  assert (0 < count b k * hd <= bs * hd) by nia. unfold buffer_bytes, RoundUp, ALIGN, CeilDiv.
  rewrite (u32_id (bs * hd)), (u32_id (bs * hd + 32 - 1)), (u32_id ((bs * hd + 32 - 1) / 32 * 32)) by ediv. cbn [Z.eqb].
  rewrite (u32_id (count b k * hd)), (u32_id (count b k * hd + 32 - 1)) by lia.
  unfold bytes. destruct (_ <? _); repeat split; try lia; ediv.
Qed.

Section Memory.
Context (cache0 : list Z) (HC : CallOk cache0).

Lemma addresses b k h : 0 <= b < B -> 0 <= k < pages b -> 0 <= h < nh ->
  u32 (u32 (u32 (u32 (tokens_before b + tok b k - tok b k) * nh) * hd) + u32 (tok b k * hd)) = src b k 0 /\
  u32 (u32 (u32 (u32 (slot_of b (tok b k) / bs * nh) * bs) * hd) + u32 (slot_of b (tok b k) mod bs * hd)) = dst b k 0 /\
  src b k 0 + u32 (u32 (h * seq_len b) * hd) = src b k h /\ dst b k 0 + u32 (u32 (h * bs) * hd) = dst b k h /\
  0 <= src b k h /\ 0 <= dst b k h.
Proof.
  intros Hb Hk Hh. pose proof (rc_src _ HC b k h Hb Hk Hh) as S1. pose proof (rc_dst _ HC b k h Hb Hk Hh) as S2.
  destruct (rc_width _ HC) as [W1 W2]. destruct (bytes_range b k Hb Hk) as (Y1 & _ & Y2 & _).
  destruct (so_dims _ _ _ _ _ _ HS) as (D1 & D2 & D3). destruct (seq_facts b Hb) as (F1 & F2 & F3 & _).
  pose proof (tok_nonneg _ _ _ _ _ _ HS b k ltac:(lia)) as T0. pose proof (proj1 (pages_iff _ _ _ _ _ _ HS b k Hb ltac:(lia)) ltac:(lia)) as T1.
  destruct (slot_range b (tok b k) Hb ltac:(lia)) as [Z1 _]. pose proof (Z.div_pos _ bs Z1 D1) as Z2.
  pose proof (Z.mod_pos_bound (slot_of b (tok b k)) bs D1) as Z3.
  unfold src, dst in *. set (q := slot_of b (tok b k) / bs) in *. set (m := slot_of b (tok b k) mod bs) in *.
  set (tb := tokens_before b) in *. set (tk := tok b k) in *. set (L := seq_len b) in *. clearbody q m tb tk L.
  pose proof (mul_grows tb nh F1 D2). pose proof (mul_grows (tb * nh) hd ltac:(lia) D3). pose proof (mul_grows tk hd T0 D3).
  pose proof (mul_grows h L ltac:(lia) ltac:(lia)). pose proof (mul_grows (h * L) hd ltac:(lia) D3).
  pose proof (mul_grows q nh Z2 D2). pose proof (mul_grows (q * nh) bs ltac:(lia) D1). pose proof (mul_grows (q * nh * bs) hd ltac:(lia) D3).
  pose proof (mul_grows m hd ltac:(lia) D3). pose proof (mul_grows h bs ltac:(lia) D1). pose proof (mul_grows (h * bs) hd ltac:(lia) D3).
  replace (tb + tk - tk) with tb by lia.
  rewrite (u32_id tb), (u32_id (tb * nh)), (u32_id (tb * nh * hd)), (u32_id (tk * hd)), (u32_id (tb * nh * hd + tk * hd)) by lia.
  rewrite (u32_id (q * nh)), (u32_id (q * nh * bs)), (u32_id (q * nh * bs * hd)), (u32_id (m * hd)), (u32_id (q * nh * bs * hd + m * hd)) by lia.
  rewrite (u32_id (h * L)), (u32_id (h * L * hd)), (u32_id (h * bs)), (u32_id (h * bs * hd)) by lia. lia.
Qed.

Lemma elem_heads g x : x ∈ heads g <-> x.1 = g /\ 0 <= x.2 < nh.
Proof.
  unfold heads. rewrite list_elem_of_fmap. split.
  - intros (h & -> & Hh%elem_of_seqZ). cbn. lia.
  - intros [E Hh]. exists x.2. rewrite <- E, elem_of_seqZ. split; [by destruct x|lia].
Qed.

Lemma heads_apart g lo hi : 0 <= g < pages_before B ->
  (forall x, x ∈ heads g -> place x <= lo x /\ hi x <= place_end x) -> apart lo hi (heads g).
Proof.
  intros Hg Hp. apply (apart_part place place_end); [done|]. destruct (rc_apart _ HC) as [A1 A2 A3].
  assert (Hin : forall x, x ∈ heads g -> x ∈ (seqZ 0 (pages_before B) ≫= heads)).
  { intros x Hx. apply list_elem_of_bind. exists g. split; [done|apply elem_of_seqZ; lia]. }
  split.
  - apply NoDup_fmap_2; [by intros x y [= ->]|apply NoDup_seqZ].
  - intros x Hx. apply A2. auto.
  - intros x y i Hx Hy. apply A3; auto.
Qed.

Context (g b k : Z) (Hat : At g b k) (Hb : 0 <= b < B).

Lemma at_piece : piece g = (b, k) /\ 0 <= k < pages b /\ 0 <= g < pages_before B.
Proof.
  split; [apply piece_eq with (1 := HS); [done|lia]|]. destruct Hat as (-> & _ & Hk & _). specialize (Hk ltac:(lia)). split; [done|].
  pose proof (pages_mono _ _ _ _ _ _ HS (b + 1) B ltac:(lia) ltac:(lia)). rewrite pages_next in * by lia.
  pose proof (total_range b ltac:(lia)). lia.
Qed.

(** The blocks of 32 bytes of all heads. *)
Lemma copy_heads_returns cb tmp cache :
  0 <= cb -> cb * 32 <= bytes b k -> length cache = length cache0 -> Z.of_nat (length tmp) = buffer_bytes t ->
  returns (copy_heads t key (src b k 0) (dst b k 0) (seq_len b) cb tmp cache) (fun '(tmp', cache') =>
    length tmp' = length tmp /\ wrote place (fun x => place x + cb * 32) value (heads g) cache cache').
Proof.
  intros H0 Hcb Hl Ht. destruct at_piece as (Ep & Hk & Hg). destruct (bytes_range b k Hb Hk) as (Y1 & Y2 & Y3 & _).
  unfold copy_heads. rewrite for_range_run_list.
  rewrite <- (run_list_fmap (fun h => (g, h)) (fun x '(tmp, cache) =>
    tmp ← data_copy_in tmp key (src b k 0 + u32 (u32 (x.2 * seq_len b) * hd)) (u16 cb * 32);
    cache ← data_copy_out cache (dst b k 0 + u32 (u32 (x.2 * bs) * hd)) tmp (u16 cb * 32); Ok (tmp, cache))).
  eapply returns_mono; [apply (run_list_wrote_inv place (fun x => place x + cb * 32) value snd (fun s => length s.1 = length tmp))|].
  - apply heads_apart; [done|]. intros x Hx%elem_heads. destruct Hx as [E _]. unfold place_end. rewrite E, Ep. cbn. lia.
  - done.
  - intros x [tmp' cache'] Hx%elem_heads Hi Hc. cbn [fst snd] in *. destruct Hx as [Ex Hh].
    destruct (addresses b k x.2 Hb Hk Hh) as (_ & _ & A3 & A4 & A5 & A6). rewrite A3, A4.
    pose proof (rc_src _ HC b k x.2 Hb Hk Hh). pose proof (rc_dst _ HC b k x.2 Hb Hk Hh).
    unfold u16. rewrite (Z.mod_small cb) by lia. unfold data_copy_in, data_copy_out.
    rewrite !in_tensor_ok by lia. cbn [andb mbind res_bind]. rewrite !in_tensor_ok by (rewrite ?dci_length; lia). cbn [andb mbind res_bind].
    assert (Hm : (cb * 32) mod 32 = 0) by (apply Z.mod_mul; lia).
    assert (Epl : place x = dst b k x.2) by (unfold place; rewrite Ex, Ep; done).
    apply returns_ok. cbn [fst snd]. split; [rewrite dci_length; lia|]. apply wrote_one; rewrite Epl.
    + split; [apply dco_length|]. intros i Hi0 Ho. apply dco_other; lia.
    + intros i Hi'. replace i with (dst b k x.2 + (i - dst b k x.2)) at 1 by lia. unfold value. rewrite Epl, Ex, Ep. cbn [fst snd].
      rewrite dco_data, dci_data by lia. done.
  - intros [tmp' cache'] [Hi Hw]. done.
Qed.

(** The bytes behind them. *)
Lemma copy_left_returns cb lb cache :
  0 <= cb -> 0 <= lb -> cb * 32 + lb <= bytes b k -> length cache = length cache0 ->
  returns (copy_left t key (src b k 0) (dst b k 0) (seq_len b) cb lb cache)
    (wrote (fun x => place x + cb * 32) (fun x => place x + cb * 32 + lb) value (heads g) cache).
Proof.
  intros H0 Hlb Hcb Hl. destruct at_piece as (Ep & Hk & Hg). destruct (bytes_range b k Hb Hk) as (Y1 & Y2 & Y3 & _).
  unfold copy_left. rewrite for_range_run_list.
  rewrite <- (run_list_fmap (fun h => (g, h)) (fun x cache => for_range lb (fun dimId cache =>
    cacheValue ← vget key (src b k 0 + u32 (u32 (x.2 * seq_len b) * hd) + u32 (cb * ALIGN) + dimId);
    vset cache (dst b k 0 + u32 (u32 (x.2 * bs) * hd) + u32 (cb * ALIGN) + dimId) cacheValue) cache)).
  apply run_list_wrote.
  - apply heads_apart; [done|]. intros x Hx%elem_heads. destruct Hx as [E _]. unfold place_end. rewrite E, Ep. cbn. lia.
  - intros x cache' Hx%elem_heads Hc. destruct Hx as [Ex Hh].
    destruct (addresses b k x.2 Hb Hk Hh) as (_ & _ & A3 & A4 & A5 & A6). rewrite A3, A4.
    pose proof (rc_src _ HC b k x.2 Hb Hk Hh). pose proof (rc_dst _ HC b k x.2 Hb Hk Hh).
    unfold ALIGN. rewrite (u32_id (cb * 32)) by lia.
    assert (Epl : place x = dst b k x.2) by (unfold place; rewrite Ex, Ep; done).
    eapply returns_mono; [apply (fill_returns (dst b k x.2 + cb * 32) lb (fun j => vat key (src b k x.2 + cb * 32 + j))); [lia|lia|lia|]|].
    + intros j l' Hj Ho. rewrite vget_ok by lia. done.
    + intros l' [Ho Hv]. apply wrote_one; rewrite Epl; [done|]. intros i Hi.
      replace i with (dst b k x.2 + cb * 32 + (i - (dst b k x.2 + cb * 32))) at 1 by lia. rewrite Hv by lia.
      unfold value. rewrite Epl, Ex, Ep. cbn [fst snd]. f_equal. lia.
Qed.
End Memory.

(** ** A core *)

Definition copying_at (g : Z) (c : Copying) : Prop :=
  exists b k, At g b k /\ c_batchIdx c = b /\ c_startToken c = tok b k /\ c_offset c = tokens_before b + tok b k /\
    Z.of_nat (length (c_tmp c)) = buffer_bytes t.

(** Where the copying goes on. *)
Lemma next_piece g b k : At g b k -> b < B ->
  (seq_len b - tok b k <= room b k /\ At (g + 1) (b + 1) 0) \/
  (room b k < seq_len b - tok b k /\ At (g + 1) b (k + 1) /\ tok b (k + 1) = tok b k + room b k).
Proof.
  intros HAt Hb. pose proof (At_next _ _ _ _ _ _ HS _ _ _ HAt Hb) as Hn. destruct HAt as (_ & Hb' & Hk & _). specialize (Hk Hb).
  pose proof (proj1 (pages_iff _ _ _ _ _ _ HS b k ltac:(lia) ltac:(lia)) ltac:(lia)) as Ht.
  pose proof (tok_next _ _ _ _ _ _ HS b k ltac:(lia) ltac:(lia) Ht) as En.
  pose proof (pages_iff _ _ _ _ _ _ HS b (k + 1) ltac:(lia) ltac:(lia)) as Hi.
  destruct (Z.ltb_spec (k + 1) (pages b)) as [Hl|Hl]; [right|left]; (split; [|done || by split]).
  - apply Hi in Hl. lia.
  - destruct (Z.le_gt_cases (seq_len b - tok b k) (room b k)); [done|]. assert (k + 1 < pages b) by (apply Hi; lia). lia.
Qed.

Lemma copy_block_returns cache0 (HC : CallOk cache0) g c :
  copying_at g c -> g < pages_before B -> length (c_cache c) = length cache0 ->
  returns (copy_block t key slots lens c) (fun c' => copying_at (g + 1) c' /\
    wrote place place_end value (heads g) (c_cache c) (c_cache c')).
Proof.
  intros (b & k & HAt & E1 & E2 & E3 & Htmp) Hg Hl. destruct c as [bi st off tmp cache]. cbn [c_batchIdx c_startToken c_offset c_tmp c_cache] in E1, E2, E3, Htmp, Hl |- *. subst bi st off.
  pose proof (At_lt _ _ _ _ _ _ _ HAt Hg) as Hb. assert (Hb' : 0 <= b < B) by (destruct HAt as (_ & ? & _); lia).
  destruct (at_piece g b k HAt Hb') as (Ep & Hk & Hg'). pose proof (next_piece g b k HAt Hb) as Hnext.
  destruct (seq_facts b Hb') as (F1 & F2 & F3 & F4 & F5 & F6). destruct (bytes_range b k Hb' Hk) as (Y1 & Y2 & Y3 & Y4).
  pose proof (tok_nonneg _ _ _ _ _ _ HS b k ltac:(lia)) as T0. pose proof (proj1 (pages_iff _ _ _ _ _ _ HS b k Hb' ltac:(lia)) ltac:(lia)) as T1.
  destruct (slot_range b (tok b k) Hb' ltac:(lia)) as [Z1 Z2]. pose proof (room_range _ _ _ _ _ _ HS b k) as Hroom.
  pose proof (so_dims _ _ _ _ _ _ HS) as (D1 & D2 & D3).
  destruct (addresses cache0 HC b k 0 Hb' Hk ltac:(lia)) as (A1 & A2 & _). pose proof (count_range _ _ _ _ _ _ HS b k Hb' Hk) as Hcount.
  pose proof (total_range (b + 1) ltac:(lia)) as Htot.
  unfold copy_block. rewrite !vget_ok by lia. cbn [mbind res_bind]. fold (seq_len b). fold (slot_of b (tok b k)).
  rewrite udiv_ok, umod_ok, (u32_id (seq_len b)), !(u32_id (slot_of b (tok b k))) by lia. cbn [mbind res_bind].
  rewrite A1, A2, (u32_id (tok b k + bs)) by lia.
  assert (Er : u32 (tok b k + bs - slot_of b (tok b k) mod bs) = tok b k + room b k) by (unfold ReshapeProofs.room in *; rewrite u32_id by lia; lia).
  assert (Er' : u32 (bs - slot_of b (tok b k) mod bs) = room b k) by (unfold ReshapeProofs.room in *; rewrite u32_id by lia; lia).
  assert (Hend : forall cnt, cnt = seq_len b - tok b k -> u32 (tokens_before b + tok b k + cnt) = tokens_before (b + 1) + tok (b + 1) 0).
  { intros cnt ->. rewrite tokens_next by lia. change (tok (b + 1) 0) with 0. rewrite u32_id by lia. lia. }
  rewrite Er, Er'. destruct (Z.gtb_spec (tok b k + room b k) (seq_len b)) as [Hgt|Hle].
  - rewrite (proj2 (Z.ltb_lt (seq_len b - tok b k) (room b k))) in Y4 by lia.
    assert (Ec : count b k = seq_len b - tok b k) by (unfold ReshapeProofs.count; lia).
    rewrite (u32_id (seq_len b - tok b k)), <- Ec by lia.
    set (cb := CeilDiv _ 32) in *. assert (0 <= cb) by (unfold cb, CeilDiv; cbn [Z.eqb]; apply Z.div_pos; [apply u32_range|lia]). clearbody cb.
    eapply returns_bind_mono; [apply (copy_heads_returns cache0 HC g b k HAt Hb'); [lia|lia|done|done]|].
    intros [tmp' cache'] [Ht' Hw]. apply returns_ok. destruct Hnext as [[_ Hn]|[Hlt _]]; [|lia]. split.
    + exists (b + 1), 0. split; [done|]. cbn [c_batchIdx c_startToken c_offset c_tmp]. rewrite (u32_id (b + 1)), Hend by lia. split_and!; done || lia.
    + cbn [c_cache]. eapply wrote_hi; [|exact Hw]. intros x Hx%elem_heads. destruct Hx as [Ex _]. unfold place_end. rewrite Ex, Ep. cbn. lia.
  - rewrite (proj2 (Z.ltb_ge (seq_len b - tok b k) (room b k))) in Y4 by lia.
    assert (Ec : count b k = room b k) by (unfold ReshapeProofs.count; lia). rewrite Ec in *.
    rewrite (u32_id (room b k * hd)) by lia. unfold ALIGN. set (cb := room b k * hd / 32).
    assert (Hcb : 0 <= cb /\ 0 <= room b k * hd - cb * 32 < 32) by (unfold cb; ediv). clearbody cb.
    rewrite (u32_id (cb * 32)), (u32_id (room b k * hd - cb * 32)) by lia. set (lb := room b k * hd - cb * 32) in *.
    set (first := if negb (cb =? 0) then _ else _).
    assert (Hfirst : returns first (fun '(tmp', cache') => length tmp' = length tmp /\
      wrote place (fun x => place x + cb * 32) value (heads g) cache cache')).
    { unfold first. destruct (Z.eqb_spec cb 0) as [-> |]; [apply returns_ok; split; [done|]; apply wrote_empty; intros; lia|].
      apply (copy_heads_returns cache0 HC g b k HAt Hb'); [lia|lia|done|done]. }
    clearbody first. eapply returns_bind_mono; [exact Hfirst|]. intros [tmp' cache'] [Ht' Hw]. cbv beta iota.
    set (pos := if _ =? _ then _ else _).
    assert (Hpos : exists b' k', At (g + 1) b' k' /\ pos = (b', tok b' k') /\ u32 (tokens_before b + tok b k + room b k) = tokens_before b' + tok b' k').
    { unfold pos. rewrite (u32_id (room b k + tok b k)) by lia. destruct Hnext as [[Hlt Hn]|(Hlt & Hn & En)].
      - exists (b + 1), 0. rewrite (proj2 (Z.eqb_eq _ (seq_len b))) by lia. rewrite (u32_id (b + 1)) by lia.
        split; [done|]. split; [done|]. apply Hend. lia.
      - exists b, (k + 1). rewrite (proj2 (Z.eqb_neq _ (seq_len b))) by lia. rewrite En, !u32_id by lia. split; [done|]. split; [done|lia]. }
    destruct Hpos as (b' & k' & Hn & Epos & Eoff). rewrite Epos, Eoff. clearbody pos.
    set (rest := if lb =? 0 then _ else _).
    assert (Hrest : returns rest (wrote (fun x => place x + cb * 32) (fun x => place x + cb * 32 + lb) value (heads g) cache')).
    { unfold rest. destruct (Z.eqb_spec lb 0) as [-> |]; [apply returns_ok, wrote_empty; intros; lia|].
      apply (copy_left_returns cache0 HC g b k HAt Hb'); [lia|lia|lia|]. destruct Hw as [-> _]. done. }
    clearbody rest. eapply returns_bind_mono; [exact Hrest|]. intros cache'' Hw'. apply returns_ok. split.
    + exists b', k'. cbn [c_batchIdx c_startToken c_offset c_tmp]. split_and!; done || lia.
    + cbn [c_cache]. assert (Hpl : forall x, x ∈ heads g -> place_end x = place x + cb * 32 + lb).
      { intros x Hx%elem_heads. destruct Hx as [Ex _]. unfold place_end. rewrite Ex, Ep. cbn [fst snd]. lia. }
      eapply wrote_hi; [intros x Hx; symmetry; by apply Hpl|].
      eapply (wrote_join place (fun x => place x + cb * 32)); [intros; lia| |exact Hw|exact Hw'].
      apply (heads_apart cache0 HC); [done|]. intros x Hx. rewrite Hpl by done. lia.
Qed.
End Call.
End Kernel.
End ReshapeProofs.
