(* ===== verification/ReshapeTheorems.v ===== *)
(** * Theorems about reshape_and_cache_bnsd

    A call stores the key of every token and head in the slot that the slot
    mapping names, whatever the order of the cores. *)

From S2P Require Import Prelude Ascend Tensor ReshapeKernel ReshapeProofs.

Module ReshapeTheorems.
Import Reshape ReshapeProofs.

(** ** All cores *)

Section Launch.
Context `{HA : AscendCopy} `{HAL : !AscendCopyLaws 32}.
Context (t : ReshapeAndCacheBNSDTilingData) (key slots lens : list Z).
Abbreviation bs := (blockSize t).
Abbreviation nh := (numHeads t).
Abbreviation hd := (headDim t).
Abbreviation total := (pages_before bs slots lens (batch t)).
Abbreviation seqs := (SeqsOk bs nh hd (batch t) slots lens).
Abbreviation calls := (CallOk t key slots lens).
Abbreviation place := (place t slots lens).
Abbreviation place_end := (place_end t slots lens).
Abbreviation value := (value t key slots lens).

(** The cores of a call, in the order that [order] gives. *)
Definition launch (tmp : Z -> list Z) (order cache : list Z) : res (list Z) :=
  run_list (fun c => Process t key slots lens c (tmp c)) order cache.

Record LaunchOk (tmp : Z -> list Z) (order : list Z) : Prop := {
  rl_cores : 0 < numCore t < 2 ^ 31;
  rl_buffers : forall c, 0 <= c < numCore t -> Z.of_nat (length (tmp c)) = buffer_bytes t;
  rl_order : order ≡ₚ seqZ 0 (numCore t)
}.

Definition active : Z := Z.min total (numCore t).
Definition share (c : Z) : list Z :=
  if c <? active then seqZ (share_start (total / active) (total mod active) c) (share_len (total / active) (total mod active) c) else [].

Section Shares.
Context (HS : seqs) (Hcores : 0 < numCore t < 2 ^ 31).

Lemma row_total_pos : 0 < total < 2 ^ 31 /\ 0 < active.
Proof.
  destruct (so_batch _ _ _ _ _ _ HS) as [HB _]. pose proof (total_range t slots lens HS (batch t) ltac:(lia)). unfold active. lia.
Qed.

Lemma core_blocks_ok c : 0 <= c < numCore t ->
  core_blocks t total c = Ok (if c <? active
    then Some (share_start (total / active) (total mod active) c, share_len (total / active) (total mod active) c) else None).
Proof.
  intros Hc. destruct row_total_pos as [Ht Ha]. unfold core_blocks.
  replace (if total <=? numCore t then total else numCore t) with active by (unfold active; destruct (Z.leb_spec total (numCore t)); lia).
  assert (Hle : active <= total /\ active <= numCore t) by (unfold active; lia).
  rewrite udiv_ok by lia. cbn [mbind res_bind].
  pose proof (Z.div_mod total active ltac:(lia)) as Hdm. pose proof (Z.mod_pos_bound total active Ha) as Hm.
  pose proof (Z.div_pos total active ltac:(lia) Ha) as Hd. set (per := total / active) in *. set (rest := total mod active) in *.
  clearbody per rest. assert (Hpa : 0 <= per * active <= total) by lia.
  rewrite (u32_id (per * active)), (u32_id (total - per * active)) by lia. replace (total - per * active) with rest by lia.
  destruct (Z.geb_spec c active) as [Hge|Hlt]; [by rewrite (proj2 (Z.ltb_ge c active)) by lia|]. rewrite (proj2 (Z.ltb_lt c active)) by lia.
  assert (Hpc : 0 <= per * c <= per * active) by nia. unfold share_start, share_len. do 3 f_equal.
  - destruct (Z.ltb_spec c rest); rewrite (u32_id (per * c)), u32_id by lia; lia.
  - destruct (Z.ltb_spec c rest); [|done]. assert (per <= per * active) by nia. apply u32_id. lia.
Qed.

Lemma shares_all order : order ≡ₚ seqZ 0 (numCore t) -> (order ≫= share) ≡ₚ seqZ 0 total.
Proof.
  intros Ho. destruct row_total_pos as [Ht Ha]. assert (Hle : active <= total /\ active <= numCore t) by (unfold active; lia).
  rewrite Ho. replace (numCore t) with (active + (numCore t - active)) by lia. rewrite seqZ_app, bind_app by lia.
  assert (E1 : seqZ 0 active ≫= share = seqZ 0 active ≫= fun c => seqZ (share_start (total / active) (total mod active) c)
    (share_len (total / active) (total mod active) c)).
  { apply list_bind_ext_in. intros c Hc%elem_of_seqZ. unfold share. by rewrite (proj2 (Z.ltb_lt c active)) by lia. }
  assert (E2 : seqZ (0 + active) (numCore t - active) ≫= share = []).
  { apply bind_empty. intros c Hc%elem_of_seqZ. unfold share. by rewrite (proj2 (Z.ltb_ge c active)) by lia. }
  rewrite E1, E2, app_nil_r.
  rewrite (shares_partition _ active); [|apply Z.div_pos; lia|apply Z.mod_pos_bound; lia|done].
  pose proof (Z.div_mod total active ltac:(lia)). by replace (total / active * active + total mod active) with total by lia.
Qed.
End Shares.

(** Consecutive pieces. *)
Lemma items_apart cache g n : calls cache -> 0 <= g -> 0 <= n -> g + n <= total -> apart place place_end (seqZ g n ≫= heads t).
Proof.
  intros HC Hg Hn Hl. pose proof (rc_apart _ _ _ _ _ HC) as HA'.
  replace total with (g + (n + (total - g - n))) in HA' by lia.
  rewrite (seqZ_app 0 g), (seqZ_app (0 + g) n), !bind_app, Z.add_0_l in HA' by lia.
  by destruct (apart_app _ _ _ _ HA') as [_ [? _]%apart_app].
Qed.

(** A core writes the pieces of its share. *)
Lemma reshape_core_returns tmp cache c :
  calls cache -> 0 < numCore t < 2 ^ 31 -> 0 <= c < numCore t -> Z.of_nat (length tmp) = buffer_bytes t ->
  returns (Process t key slots lens c tmp cache) (wrote place place_end value (share c ≫= heads t) cache).
Proof.
  intros HC Hn Hc Htmp. pose proof (rc_seqs _ _ _ _ _ HC) as HS. destruct (row_total_pos HS Hn) as [Ht Ha].
  unfold Process. rewrite (count_blocks_ok t slots lens HS). cbn [mbind res_bind]. rewrite (core_blocks_ok HS Hn c Hc). cbn [mbind res_bind].
  unfold share. destruct (Z.ltb_spec c active) as [Hlt|]; [|apply returns_ok, wrote_nil].
  set (first := share_start _ _ c). set (n := share_len _ _ c).
  assert (Hf : 0 <= first /\ 0 < n /\ first + n <= total).
  { assert (Hle : active <= total) by (unfold active; lia). pose proof (Z.div_mod total active ltac:(lia)). pose proof (Z.mod_pos_bound total active Ha).
    pose proof (Z.div_le_lower_bound total active 1 Ha ltac:(lia)). unfold first, n, share_start, share_len. destruct (Z.ltb_spec c (total mod active)); nia. }
  eapply returns_bind_mono; [apply (find_start_returns t slots lens HS first); lia|]. intros st (b & k & HAt & Hb & E1 & E2 & E3).
  eapply returns_bind_mono.
  { apply (for_range_returns (fun i c => copying_at t slots lens (first + i) c /\ wrote place place_end value (seqZ first i ≫= heads t) cache (c_cache c))); [lia| |].
    - split; [|apply wrote_nil]. exists b, k. rewrite Z.add_0_r. cbn. done.
    - intros i cp Hi [Hat Hw]. eapply returns_mono; [apply (copy_block_returns t key slots lens HS (rc_page _ _ _ _ _ HC) cache HC (first + i)); [done|lia|apply Hw]|].
      intros cp' [Hat' Hw']. split; [by rewrite Z.add_assoc|].
      rewrite (seqZ_snoc first i), bind_app by lia. eapply wrote_app; [|exact Hw|]; [|by cbn; rewrite app_nil_r].
      rewrite <- (bind_app (heads t)), <- (seqZ_snoc first i) by lia. apply (items_apart cache); [done|lia..]. }
  intros cp [_ Hw]. by apply returns_ok.
Qed.

Lemma launch_wrote tmp order cache :
  calls cache -> LaunchOk tmp order ->
  returns (launch tmp order cache) (wrote place place_end value (seqZ 0 total ≫= heads t) cache).
Proof.
  intros HC [Hn Ht Ho]. pose proof (rc_seqs _ _ _ _ _ HC) as HS.
  assert (Hp : (order ≫= fun c => share c ≫= heads t) ≡ₚ seqZ 0 total ≫= heads t).
  { rewrite <- bind_assoc_list. by rewrite (shares_all HS Hn order Ho). }
  assert (Hin : forall c, c ∈ order -> 0 <= c < numCore t) by (intros c Hc; rewrite Ho in Hc; apply elem_of_seqZ in Hc; lia).
  eapply returns_mono; [apply (run_list_wrote_bind place place_end value (fun c => share c ≫= heads t))|].
  - eapply apart_perm; [symmetry; exact Hp|]. apply HC.
  - intros c cache' Hc%Hin _ Hl. apply reshape_core_returns; [|done|done|by apply Ht]. by apply (CallOk_length t key slots lens cache).
  - intros cache' Hw. by eapply wrote_perm.
Qed.

(** ** Tokens *)

(** The row of slot [s] for head [h]. *)
Definition slot_row (s h : Z) : Z := s / bs * nh * bs * hd + s mod bs * hd + h * bs * hd.
(** The key of token [i] of sequence [b] for head [h]. *)
Definition key_row (b i h : Z) : Z := tokens_before lens b * nh * hd + h * seq_len lens b * hd + i * hd.

Section Tokens.
Context (HS : seqs).

(** The piece of a token. *)
Lemma token_piece b i : 0 <= b < batch t -> 0 <= i < seq_len lens b ->
  exists k, 0 <= k < pages bs slots lens b /\ tok bs slots lens b k <= i < tok bs slots lens b k + count bs slots lens b k.
Proof.
  intros Hb Hi. destruct (so_dims _ _ _ _ _ _ HS) as (D1 & _). set (o := slot_of slots lens b 0 mod bs).
  pose proof (Z.mod_pos_bound (slot_of slots lens b 0) bs D1) as Ho. fold o in Ho.
  assert (El : left bs slots lens b = bs - o) by done.
  pose proof (Z.div_mod (o + i) bs ltac:(lia)) as Hdm. pose proof (Z.mod_pos_bound (o + i) bs D1) as Hm.
  pose proof (Z.div_pos (o + i) bs ltac:(lia) D1) as Hd. set (k := (o + i) / bs) in *. exists k.
  assert (Ht : tok bs slots lens b k <= i).
  { unfold tok. destruct (Z.eqb_spec k 0); [lia|]. rewrite El. nia. }
  assert (Hk : 0 <= k < pages bs slots lens b) by (split; [done|]; apply (pages_iff _ _ _ _ _ _ HS); lia). split; [done|]. split; [done|].
  unfold count. assert (i < tok bs slots lens b k + room bs slots lens b k); [|lia].
  destruct (Z.eq_dec k 0) as [E|E].
  - rewrite E. unfold room. change (tok bs slots lens b 0) with 0. fold o. nia.
  - unfold room. rewrite (tok_mod _ _ _ _ _ _ HS) by lia. unfold tok. rewrite (proj2 (Z.eqb_neq k 0)), El by lia. nia.
Qed.

(** Its row is part of the piece. *)
Lemma token_row b k i h : 0 <= b < batch t -> 0 <= k < pages bs slots lens b -> 0 <= i < count bs slots lens b k ->
  slot_row (slot_of slots lens b (tok bs slots lens b k + i)) h = dst t slots lens b k h + i * hd /\
  key_row b (tok bs slots lens b k + i) h = src t slots lens b k h + i * hd.
Proof.
  intros Hb Hk Hi. destruct (so_dims _ _ _ _ _ _ HS) as (D1 & _).
  rewrite (piece_slots _ _ _ _ _ _ HS b k i Hb Hk Hi). unfold slot_row, key_row, dst, src.
  set (s := slot_of slots lens b (tok bs slots lens b k)). unfold count, room in Hi. fold s in Hi.
  pose proof (Z.mod_pos_bound s bs D1). pose proof (Z.div_mod s bs ltac:(lia)).
  rewrite <- (Z.div_unique (s + i) bs (s / bs) (s mod bs + i)), <- (Z.mod_unique (s + i) bs (s / bs) (s mod bs + i)) by lia. lia.
Qed.
End Tokens.

(** Every token of every head is stored. *)
Lemma wrote_tokens cache cache' :
  calls cache -> wrote place place_end value (seqZ 0 total ≫= heads t) cache cache' ->
  forall b i h e, 0 <= b < batch t -> 0 <= i < seq_len lens b -> 0 <= h < nh -> 0 <= e < hd ->
    vat cache' (slot_row (slot_of slots lens b i) h + e) = vat key (key_row b i h + e).
Proof.
  intros HC (_ & Hv & _) b i h e Hb Hi Hh He. pose proof (rc_seqs _ _ _ _ _ HC) as HS.
  destruct (token_piece HS b i Hb Hi) as (k & Hk & Hik). set (T0 := tok bs slots lens b k) in *.
  destruct (token_row HS b k (i - T0) h Hb Hk ltac:(lia)) as [E1 E2]. fold T0 in E1, E2.
  replace (T0 + (i - T0)) with i in E1, E2 by lia. rewrite E1, E2.
  set (g := pages_before bs slots lens b + k).
  assert (HAt : At bs (batch t) slots lens g b k) by (split; [done|]; split; [lia|]; split; [done|lia]).
  destruct (at_piece t slots lens HS g b k HAt Hb) as (Ep & _ & Hg).
  destruct (bytes_range t slots lens HS (rc_page _ _ _ _ _ HC) b k Hb Hk) as (Y & _).
  assert (Epl : place (g, h) = dst t slots lens b k h) by (unfold ReshapeProofs.place; cbn [fst snd]; by rewrite Ep).
  rewrite (Hv (g, h)).
  - unfold ReshapeProofs.value. rewrite Epl. cbn [fst snd]. rewrite Ep. cbn [fst snd]. f_equal. lia.
  - apply list_elem_of_bind. exists g. split; [apply elem_heads; done|apply elem_of_seqZ; lia].
  - unfold ReshapeProofs.place_end. rewrite Epl. cbn [fst snd]. rewrite Ep. cbn [fst snd]. nia.
Qed.

(** ** Rows of whole 32-byte blocks *)

(** Different tokens have different slots, and the tensors hold the rows. *)
Record AlignedOk (cache : list Z) : Prop := {
  al_seqs : seqs;
  al_rows : hd mod 32 = 0;
  al_slots : forall b i b' i', 0 <= b < batch t -> 0 <= i < seq_len lens b -> 0 <= b' < batch t -> 0 <= i' < seq_len lens b' ->
    slot_of slots lens b i = slot_of slots lens b' i' -> b = b' /\ i = i';
  al_key : tokens_before lens (batch t) * nh * hd <= Z.of_nat (length key) < 2 ^ 32;
  al_cache : forall b i h, 0 <= b < batch t -> 0 <= i < seq_len lens b -> 0 <= h < nh ->
    slot_row (slot_of slots lens b i) h + hd <= Z.of_nat (length cache);
  al_width : Z.of_nat (length cache) < 2 ^ 32;
  al_page : bs * hd <= 2 ^ 20
}.

Lemma radix a r a' r' n : 0 <= r < n -> 0 <= r' < n -> a * n + r = a' * n + r' -> a = a' /\ r = r'.
Proof. intros Hr Hr' E. assert (a = a') by (destruct (Z.lt_trichotomy a a') as [|[|]]; nia). nia. Qed.

(** A byte belongs to one row. *)
Lemma slot_row_inj s h e s' h' e' : 0 < bs -> 0 <= h < nh -> 0 <= h' < nh -> 0 <= e < hd -> 0 <= e' < hd ->
  slot_row s h + e = slot_row s' h' + e' -> s = s' /\ h = h'.
Proof.
  intros Hbs Hh Hh' He He' E. unfold slot_row in E. pose proof (Z.mod_pos_bound s bs Hbs). pose proof (Z.mod_pos_bound s' bs Hbs).
  destruct (radix ((s / bs * nh + h) * bs + s mod bs) e ((s' / bs * nh + h') * bs + s' mod bs) e' hd He He') as [E1 _]; [lia|].
  apply radix in E1 as [E1 E2]; [|done|done]. apply radix in E1 as [E1 E3]; [|done|done].
  split; [|done]. pose proof (Z.div_mod s bs ltac:(lia)). pose proof (Z.div_mod s' bs ltac:(lia)). congruence.
Qed.

Lemma NoDup_pairs (gs : list Z) : NoDup gs -> NoDup (gs ≫= heads t).
Proof.
  induction gs as [|g gs IH]; intros Hnd; [apply NoDup_nil_2|]. apply list.NoDup_cons in Hnd as [Hg Hnd]. rewrite bind_cons.
  apply list.NoDup_app. split; [apply NoDup_fmap_2; [by intros x y [= ->]|apply NoDup_seqZ]|]. split; [|by apply IH].
  intros x Hx (g' & Hx' & Hg')%list_elem_of_bind. apply elem_heads in Hx as [<- _]. by apply elem_heads in Hx' as [<- _].
Qed.

Section Aligned.
Context (cache : list Z) (HAl : AlignedOk cache).

Lemma dst_nonneg b k h : 0 <= b < batch t -> 0 <= k < pages bs slots lens b -> 0 <= h < nh -> 0 <= dst t slots lens b k h.
Proof.
  intros Hb Hk Hh. pose proof (al_seqs _ HAl) as HS. destruct (so_dims _ _ _ _ _ _ HS) as (D1 & D2 & D3).
  pose proof (proj1 (pages_iff _ _ _ _ _ _ HS b k Hb ltac:(lia)) ltac:(lia)). pose proof (tok_nonneg _ _ _ _ _ _ HS b k ltac:(lia)).
  destruct (slot_range t slots lens HS b (tok bs slots lens b k) Hb ltac:(lia)) as [Hs _]. unfold dst.
  pose proof (Z.div_pos _ bs Hs D1) as Hq. pose proof (Z.mod_pos_bound (slot_of slots lens b (tok bs slots lens b k)) bs D1) as Hm.
  pose proof (mul_grows _ nh Hq D2). pose proof (mul_grows _ bs (proj1 (mul_grows _ nh Hq D2)) D1). 
  set (q := slot_of slots lens b (tok bs slots lens b k) / bs) in *. set (m := slot_of slots lens b (tok bs slots lens b k) mod bs) in *.
  assert (0 <= q * nh * bs * hd) by (apply Z.mul_nonneg_nonneg; nia). nia.
Qed.

Lemma key_row_end b i h : 0 <= b < batch t -> 0 <= h < nh -> 0 <= i < seq_len lens b ->
  key_row b i h + hd <= tokens_before lens (batch t) * nh * hd.
Proof.
  intros Hb Hh Hi. pose proof (al_seqs _ HAl) as HS. destruct (so_dims _ _ _ _ _ _ HS) as (D1 & D2 & D3).
  pose proof (tokens_mono _ _ _ _ _ _ HS (b + 1) (batch t) ltac:(lia) ltac:(lia)) as Hm. rewrite tokens_next in Hm by lia.
  unfold key_row. set (tb := tokens_before lens b) in *. set (L := seq_len lens b) in *. set (TB := tokens_before lens (batch t)) in *.
  assert (h * L + i + 1 <= nh * L) by nia. assert ((h * L + i + 1) * hd <= nh * L * hd) by nia.
  assert ((tb + L) * nh <= TB * nh) by nia. assert ((tb + L) * nh * hd <= TB * nh * hd) by nia. lia.
Qed.

Lemma piece_of_token b k k' j : 0 <= b < batch t -> 0 <= k < pages bs slots lens b -> 0 <= k' < pages bs slots lens b ->
  tok bs slots lens b k <= j < tok bs slots lens b k + count bs slots lens b k ->
  tok bs slots lens b k' <= j < tok bs slots lens b k' + count bs slots lens b k' -> k = k'.
Proof.
  intros Hb Hk Hk' Hj Hj'. pose proof (al_seqs _ HAl) as HS. destruct (so_dims _ _ _ _ _ _ HS) as (D1 & _).
  assert (G : forall k1 k2, 0 <= k1 < k2 -> k2 < pages bs slots lens b ->
    tok bs slots lens b k1 + count bs slots lens b k1 <= tok bs slots lens b k2).
  { intros k1 k2 H1 H2. pose proof (proj1 (pages_iff _ _ _ _ _ _ HS b k1 Hb ltac:(lia)) ltac:(lia)) as Ht.
    pose proof (tok_next _ _ _ _ _ _ HS b k1 Hb ltac:(lia) Ht) as En. unfold count.
    assert (tok bs slots lens b (k1 + 1) <= tok bs slots lens b k2); [|lia].
    unfold tok. rewrite (proj2 (Z.eqb_neq (k1 + 1) 0)), (proj2 (Z.eqb_neq k2 0)) by lia. nia. }
  destruct (Z.lt_trichotomy k k') as [Hl|[Hl|Hl]]; [|done|].
  - pose proof (G k k' ltac:(lia) ltac:(lia)). lia.
  - pose proof (G k' k ltac:(lia) ltac:(lia)). lia.
Qed.

Lemma aligned_bytes b k : 0 <= b < batch t -> 0 <= k < pages bs slots lens b ->
  bytes t slots lens b k = count bs slots lens b k * hd.
Proof.
  intros Hb Hk. pose proof (al_rows _ HAl) as Hr. unfold bytes. destruct (_ <? _); [|done].
  assert (Hm : (count bs slots lens b k * hd) mod 32 = 0) by (rewrite Z.mul_mod, Hr, Z.mul_0_r by lia; done).
  apply Z.mod_divide in Hm as [q ->]; [|lia]. ediv.
Qed.

(** A byte of a piece is a byte of the row of one of its tokens. *)
Lemma piece_byte b k h x : 0 <= b < batch t -> 0 <= k < pages bs slots lens b ->
  dst t slots lens b k h <= x < dst t slots lens b k h + bytes t slots lens b k ->
  exists i e, 0 <= i < seq_len lens b /\ tok bs slots lens b k <= i < tok bs slots lens b k + count bs slots lens b k /\
    0 <= e < hd /\ x = slot_row (slot_of slots lens b i) h + e.
Proof.
  intros Hb Hk Hx. pose proof (al_seqs _ HAl) as HS. rewrite (aligned_bytes b k Hb Hk) in Hx.
  destruct (so_dims _ _ _ _ _ _ HS) as (_ & _ & D3). set (y := x - dst t slots lens b k h) in *.
  pose proof (Z.div_mod y hd ltac:(lia)). pose proof (Z.mod_pos_bound y hd D3). pose proof (Z.div_pos y hd ltac:(lia) D3).
  pose proof (Z.div_lt_upper_bound y hd (count bs slots lens b k) D3 ltac:(lia)).
  pose proof (count_range _ _ _ _ _ _ HS b k Hb Hk). pose proof (tok_nonneg _ _ _ _ _ _ HS b k ltac:(lia)).
  exists (tok bs slots lens b k + y / hd), (y mod hd). destruct (token_row HS b k (y / hd) h Hb Hk ltac:(lia)) as [-> _].
  split_and!; try lia.
Qed.

Lemma aligned_CallOk : calls cache.
Proof.
  pose proof (al_seqs _ HAl) as HS. destruct (so_dims _ _ _ _ _ _ HS) as (D1 & D2 & D3).
  split; [done| | | |split; [apply (al_key _ HAl)|apply (al_width _ HAl)]|apply (al_page _ HAl)].
  - assert (Hin : forall x, x ∈ seqZ 0 total ≫= heads t -> 0 <= x.1 < total /\ 0 <= x.2 < nh).
    { intros x (g & Hx & Hg%elem_of_seqZ)%list_elem_of_bind. apply elem_heads in Hx as [-> Hh]. lia. }
    assert (Hp : forall x, x ∈ seqZ 0 total ≫= heads t -> let b := (piece bs (batch t) slots lens x.1).1 in
      let k := (piece bs (batch t) slots lens x.1).2 in 0 <= b < batch t /\ 0 <= k < pages bs slots lens b /\ At bs (batch t) slots lens x.1 b k).
    { intros x Hx%Hin b k. destruct (piece_At _ _ _ _ _ _ HS x.1 ltac:(lia)) as [HAt Hb]. fold b k in HAt, Hb.
      destruct HAt as (E & Hb' & Hk & He). split; [lia|]. split; [by apply Hk|]. done. }
    split.
    + apply NoDup_pairs, NoDup_seqZ.
    + intros x Hx. destruct (Hp x Hx) as (Hb & Hk & _). destruct (Hin x Hx) as [_ Hh]. unfold ReshapeProofs.place.
      by apply dst_nonneg.
    + intros x y i Hx Hy Hn Hi. destruct (Hp x Hx) as (Hb & Hk & Hat). destruct (Hp y Hy) as (Hb' & Hk' & Hat').
      destruct (Hin x Hx) as [_ Hh], (Hin y Hy) as [_ Hh']. unfold ReshapeProofs.place_end, ReshapeProofs.place in *.
      set (b := (piece _ _ _ _ x.1).1) in *. set (k := (piece _ _ _ _ x.1).2) in *.
      set (b' := (piece _ _ _ _ y.1).1) in *. set (k' := (piece _ _ _ _ y.1).2) in *. clearbody b k b' k'.
      destruct (Z.lt_ge_cases i (dst t slots lens b' k' y.2)) as [|Hge]; [by left|].
      destruct (Z.lt_ge_cases i (dst t slots lens b' k' y.2 + bytes t slots lens b' k')) as [Hlt|]; [|by right]. exfalso.
      destruct (piece_byte b k x.2 i Hb Hk Hi) as (j & e & Hj & Hjk & He & Ei).
      destruct (piece_byte b' k' y.2 i Hb' Hk' ltac:(lia)) as (j' & e' & Hj' & Hjk' & He' & Ei').
      rewrite Ei in Ei'. apply slot_row_inj in Ei' as [Es Eh]; [|done..].
      destruct (al_slots _ HAl b j b' j' Hb Hj Hb' Hj' Es) as [<- <-].
      assert (k = k') as <- by (by apply (piece_of_token b k k' j)).
      apply Hn. destruct x as [g h], y as [g' h']. cbn in *. destruct Hat as [-> _], Hat' as [-> _]. by subst.
  - intros b k h Hb Hk Hh. rewrite (aligned_bytes b k Hb Hk). pose proof (count_range _ _ _ _ _ _ HS b k Hb Hk) as Hc.
    destruct (token_row HS b k (count bs slots lens b k - 1) h Hb Hk ltac:(lia)) as [_ E].
    enough (key_row b (tok bs slots lens b k + (count bs slots lens b k - 1)) h + hd <= Z.of_nat (length key)) by lia.
    etransitivity; [|apply (al_key _ HAl)]. apply key_row_end; [done|done|]. pose proof (tok_nonneg _ _ _ _ _ _ HS b k ltac:(lia)). lia.
  - intros b k h Hb Hk Hh. rewrite (aligned_bytes b k Hb Hk). pose proof (count_range _ _ _ _ _ _ HS b k Hb Hk) as Hc.
    destruct (token_row HS b k (count bs slots lens b k - 1) h Hb Hk ltac:(lia)) as [E _].
    pose proof (tok_nonneg _ _ _ _ _ _ HS b k ltac:(lia)).
    pose proof (al_cache _ HAl b (tok bs slots lens b k + (count bs slots lens b k - 1)) h Hb ltac:(lia) Hh). lia.
Qed.
End Aligned.
End Launch.

(** ** Concrete calls *)

(** Two sequences of three and two tokens, pages of two slots, two heads. *)
Definition demo_tiling (dim : Z) : ReshapeAndCacheBNSDTilingData := mkTiling 5 dim 3 2 2 5 2 3.
Definition demo_slots : list Z := [3; 4; 5; 0; 1].
Definition demo_lens : list Z := [3; 2].

Lemma demo_tokens b i : 0 <= b < 2 -> 0 <= i < seq_len demo_lens b ->
  (b = 0 /\ (i = 0 \/ i = 1 \/ i = 2)) \/ (b = 1 /\ (i = 0 \/ i = 1)).
Proof.
  intros Hb Hi. assert (b = 0 \/ b = 1) as [-> | ->] by lia.
  - change (seq_len demo_lens 0) with 3 in Hi. lia.
  - change (seq_len demo_lens 1) with 2 in Hi. lia.
Qed.

Ltac by_tokens H :=
  destruct H as [[-> [-> | [-> | ->]]] | [-> [-> | ->]]]; vm_compute; intuition congruence.

Lemma demo_SeqsOk dim : 0 < dim -> SeqsOk 2 2 dim 2 demo_slots demo_lens.
Proof.
  intros Hd. split; try done.
  - intros b Hb. assert (b = 0 \/ b = 1) as [-> | ->] by lia; vm_compute; congruence.
  - change (tokens_before demo_lens 2) with 5. intros i Hi.
    assert (i = 0 \/ i = 1 \/ i = 2 \/ i = 3 \/ i = 4) as Hc by lia. repeat destruct Hc as [-> | Hc]; try subst i; vm_compute; intuition congruence.
  - intros b i Hb Hi. destruct (demo_tokens b i Hb ltac:(lia)) as [[-> [-> | [-> | ->]]] | [-> [-> | ->]]];
      change (seq_len demo_lens 0) with 3 in Hi; change (seq_len demo_lens 1) with 2 in Hi; try lia; reflexivity.
Qed.

Lemma demo_AlignedOk :
  AlignedOk (demo_tiling 32) (seqZ 0 320) demo_slots demo_lens (replicate 384 0).
Proof.
  split; try done.
  - by apply demo_SeqsOk.
  - intros b i b' i' Hb Hi Hb' Hi'.
    destruct (demo_tokens b i Hb Hi) as [[-> [-> | [-> | ->]]] | [-> [-> | ->]]],
      (demo_tokens b' i' Hb' Hi') as [[-> [-> | [-> | ->]]] | [-> [-> | ->]]]; done.
  - intros b i h Hb Hi Hh. rewrite length_replicate. cbn [demo_tiling numHeads] in Hh. assert (h = 0 \/ h = 1) as [-> | ->] by lia;
      by_tokens (demo_tokens b i Hb Hi).
Qed.

Lemma demo_LaunchOk32 : LaunchOk (demo_tiling 32) (fun _ => replicate 64 0) [2; 0; 1].
Proof.
  split; [done|done|]. cbn [demo_tiling numCore]. change (seqZ 0 3) with [0; 1; 2].
  apply (Permutation_cons_app [0; 1] [] 2). by rewrite app_nil_r.
Qed.

(** ** Theorems *)

(** C10: A call of reshape_and_cache_bnsd returns, in whatever order the cores run,
    if the pieces do not overlap: the key of every token of every sequence is,
    for every head, in the row of its slot, and bytes that belong to no piece
    are unchanged.  A piece of a sequence that ends before its page counts with
    the bytes up to the next multiple of 32. *)
Theorem reshape_tokens `{HA : AscendCopy} `{HAL : !AscendCopyLaws 32} t key slots lens tmp order cache
    (HC : CallOk t key slots lens cache) (HL : LaunchOk t tmp order) :
  returns (launch t key slots lens tmp order cache) (fun cache' =>
    length cache' = length cache /\
    (forall b i h e, 0 <= b < batch t -> 0 <= i < seq_len lens b -> 0 <= h < numHeads t -> 0 <= e < headDim t ->
       vat cache' (slot_row t (slot_of slots lens b i) h + e) = vat key (key_row t lens b i h + e)) /\
    forall p, 0 <= p ->
      (forall b k h, 0 <= b < batch t -> 0 <= k < pages (blockSize t) slots lens b -> 0 <= h < numHeads t ->
         p < dst t slots lens b k h \/ dst t slots lens b k h + bytes t slots lens b k <= p) ->
      vat cache' p = vat cache p).
Proof.
  eapply returns_mono; [by apply launch_wrote|]. intros cache' Hw. split; [apply Hw|]. split; [by apply (wrote_tokens t key slots lens cache)|].
  destruct Hw as (_ & _ & Ho). intros p Hp Hn. apply Ho; [done|].
  intros x (g & Hx & Hg%elem_of_seqZ)%list_elem_of_bind. apply elem_heads in Hx as [E Hh].
  destruct (piece_At _ _ _ _ _ _ (rc_seqs _ _ _ _ _ HC) g ltac:(lia)) as [HAt Hb]. unfold ReshapeProofs.place_end, ReshapeProofs.place.
  rewrite E. destruct HAt as (_ & Hb' & Hk & _). apply Hn; [lia|by apply Hk|done].
Qed.

Lemma reshape_tokens_witness :
  returns (@launch SoftCopy (demo_tiling 32) (seqZ 0 320) demo_slots demo_lens (fun _ => replicate 64 0) [2; 0; 1] (replicate 384 0)) (fun cache' =>
    length cache' = length (replicate 384 0) /\
    (forall b i h e, 0 <= b < 2 -> 0 <= i < seq_len demo_lens b -> 0 <= h < 2 -> 0 <= e < 32 ->
       vat cache' (slot_row (demo_tiling 32) (slot_of demo_slots demo_lens b i) h + e) = vat (seqZ 0 320) (key_row (demo_tiling 32) demo_lens b i h + e)) /\
    forall p, 0 <= p ->
      (forall b k h, 0 <= b < 2 -> 0 <= k < pages 2 demo_slots demo_lens b -> 0 <= h < 2 ->
         p < dst (demo_tiling 32) demo_slots demo_lens b k h \/
         dst (demo_tiling 32) demo_slots demo_lens b k h + bytes (demo_tiling 32) demo_slots demo_lens b k <= p) ->
      vat cache' p = vat (replicate 384 0) p).
Proof.
  exact (@reshape_tokens SoftCopy (SoftCopy_laws 32) (demo_tiling 32) _ _ _ _ _ _
    (aligned_CallOk (demo_tiling 32) _ _ _ _ demo_AlignedOk) demo_LaunchOk32).
Defined.

(** C29: When the rows are whole 32-byte blocks and different tokens have different
    slots, the pieces do not overlap, so that the call stores every token and
    leaves the rows of all other slots unchanged. *)
Theorem reshape_other_slots `{HA : AscendCopy} `{HAL : !AscendCopyLaws 32} t key slots lens tmp order cache
    (HC : AlignedOk t key slots lens cache) (HL : LaunchOk t tmp order) :
  returns (launch t key slots lens tmp order cache) (fun cache' =>
    (forall b i h e, 0 <= b < batch t -> 0 <= i < seq_len lens b -> 0 <= h < numHeads t -> 0 <= e < headDim t ->
       vat cache' (slot_row t (slot_of slots lens b i) h + e) = vat key (key_row t lens b i h + e)) /\
    forall s h e, 0 <= s -> 0 <= h < numHeads t -> 0 <= e < headDim t ->
      (forall b i, 0 <= b < batch t -> 0 <= i < seq_len lens b -> slot_of slots lens b i <> s) ->
      vat cache' (slot_row t s h + e) = vat cache (slot_row t s h + e)).
Proof.
  pose proof (aligned_CallOk t key slots lens cache HC) as HC'. eapply returns_mono; [by apply launch_wrote|].
  intros cache' Hw. split; [by apply (wrote_tokens t key slots lens cache)|]. destruct Hw as (_ & _ & Ho).
  destruct (so_dims _ _ _ _ _ _ (al_seqs _ _ _ _ _ HC)) as (D1 & D2 & D3).
  intros s h e Hs Hh He Hn. apply Ho.
  { unfold slot_row. pose proof (Z.div_pos s _ Hs D1). pose proof (Z.mod_pos_bound s _ D1).
    assert (0 <= s / blockSize t * numHeads t) by nia. assert (0 <= s / blockSize t * numHeads t * blockSize t) by nia.
    assert (0 <= s / blockSize t * numHeads t * blockSize t * headDim t) by (by apply Z.mul_nonneg_nonneg; [|lia]). nia. }
  intros x (g & Hx & Hg%elem_of_seqZ)%list_elem_of_bind. apply elem_heads in Hx as [E Hx].
  destruct (piece_At _ _ _ _ _ _ (al_seqs _ _ _ _ _ HC) g ltac:(lia)) as [(_ & Hb' & Hk & _) Hb]. unfold ReshapeProofs.place_end, ReshapeProofs.place.
  rewrite E. set (b := (piece _ _ _ _ g).1) in *. set (k := (piece _ _ _ _ g).2) in *.
  destruct (Z.lt_ge_cases (slot_row t s h + e) (dst t slots lens b k x.2)) as [|Hge]; [by left|].
  destruct (Z.lt_ge_cases (slot_row t s h + e) (dst t slots lens b k x.2 + bytes t slots lens b k)) as [Hlt|]; [|by right]. exfalso.
  destruct (piece_byte t key slots lens cache HC b k x.2 (slot_row t s h + e)) as (j & e' & Hj & _ & He' & Ej); [lia|by apply Hk|lia|].
  apply slot_row_inj in Ej as [Es _]; [|done..]. apply (Hn b j); [lia|done|done].
Qed.

Lemma reshape_other_slots_witness :
  returns (@launch SoftCopy (demo_tiling 32) (seqZ 0 320) demo_slots demo_lens (fun _ => replicate 64 0) [2; 0; 1] (replicate 384 0)) (fun cache' =>
    (forall b i h e, 0 <= b < 2 -> 0 <= i < seq_len demo_lens b -> 0 <= h < 2 -> 0 <= e < 32 ->
       vat cache' (slot_row (demo_tiling 32) (slot_of demo_slots demo_lens b i) h + e) = vat (seqZ 0 320) (key_row (demo_tiling 32) demo_lens b i h + e)) /\
    forall s h e, 0 <= s -> 0 <= h < 2 -> 0 <= e < 32 ->
      (forall b i, 0 <= b < 2 -> 0 <= i < seq_len demo_lens b -> slot_of demo_slots demo_lens b i <> s) ->
      vat cache' (slot_row (demo_tiling 32) s h + e) = vat (replicate 384 0) (slot_row (demo_tiling 32) s h + e)).
Proof. exact (@reshape_other_slots SoftCopy (SoftCopy_laws 32) (demo_tiling 32) _ _ _ _ _ _ demo_AlignedOk demo_LaunchOk32). Defined.

(** Rows of 8 bytes: storing one token in slot 2 of a page of four slots
    copies 32 bytes per head, and so overwrites the slots 0 and 1 of the next
    head, which the call does not name. *)
Theorem reshape_pad_overwrites :
  let t := mkTiling 1 8 1 2 4 1 1 1 in
  SeqsOk 4 2 8 1 [2] [1] /\
  exists cache', @Process SoftCopy t (seqZ 1 48) [2] [1] 0 (replicate 32 0) (replicate 96 99) = Ok cache' /\
    vat (replicate 96 99) (slot_row t 0 1) = 99 /\ vat cache' (slot_row t 0 1) = 17.
Proof.
  intros t. split.
  - split; try done.
    + intros b Hb. assert (b = 0) as -> by lia. vm_compute. congruence.
    + change (tokens_before [1] 1) with 1. intros i Hi. assert (i = 0) as -> by lia. vm_compute. intuition congruence.
    + intros b i Hb Hi. assert (b = 0) as -> by lia. change (seq_len [1] 0) with 1 in Hi. lia.
  - eexists. split; [vm_compute; reflexivity|]. split; reflexivity.
Qed.
End ReshapeTheorems.
