(* ===== verification/LoadKernel.v ===== *)
(** * Loading of indexer keys by slot: load_index_kv_cache

    Tiling class and kernel of src/csrc/attention/load_index_kv_cache.  A page of
    the cache holds the keys of its slots (128 bytes each) and behind them their
    scales (4 bytes each); the operator collects key and scale of the slots that
    a slot mapping names, and zeros for the slot -1.  Tensors are lists of bytes. *)

From S2P Require Import Prelude Ascend.

Module Load.

(** ** Tiling *)

Definition CeilDiv (x y : Z) : Z := if negb (y =? 0) then Z.quot (i64 (i64 (x + y) - 1)) y else x.

Record LoadIndexKvCacheTilingData := mkTiling {
  bn : Z;
  bs : Z;
  d : Z;
  n : Z;
  rowOfFormerBlock : Z;
  rowOfTailBlock : Z;
  blockStride : Z
}.

(** Platform (core count, or that of the compile info), shapes and attribute. *)
Record TilingContext := mkContext {
  lc_platformCores : option Z;
  lc_compileCores : option Z;
  lc_kvCacheShape : option (list Z);
  lc_slotMappingShape : option (list Z);
  lc_attrs : option (option Z)
}.

Definition WORKSPACE_SIZE : Z := 32.

Definition GetPlatformInfo (c : TilingContext) : option Z :=
  match lc_platformCores c with
  | None => match lc_compileCores c with None => None | Some coreNum => Some coreNum end
  | Some coreNum => Some coreNum
  end.

(** The stride, 0 if the attribute is absent. *)
Definition GetAttr (c : TilingContext) : option Z :=
  attrs ← lc_attrs c;
  Some (match attrs with Some s => s | None => 0 end).

(** Blocks, block size, head dimension, rows and stride. *)
Definition GetShapeAttrsInfoInner (c : TilingContext) : option (Z * Z * Z * Z * Z) :=
  kvCache ← lc_kvCacheShape c;
  if negb (Z.of_nat (length kvCache) =? 4) then None
  else
    slotMapping ← lc_slotMappingShape c;
    if negb (Z.of_nat (length slotMapping) =? 1) then None
    else
      stride ← GetAttr c;
      Some (vat kvCache 0, vat kvCache 1, vat kvCache 3, vat slotMapping 0, stride).

Definition CheckShapesAndAttrs (bs d blockStride : Z) : option Z :=
  let blockStride := if blockStride =? 0 then i64 (bs * d) else blockStride in
  if blockStride <? i64 (bs * d) then None else Some blockStride.

(** Tiling data and number of blocks. *)
Definition CalcOpTiling (coreNum bn bs d n blockStride : Z) : LoadIndexKvCacheTilingData * Z :=
  let rowOfFormerBlock := CeilDiv n (i64 coreNum) in
  let usedCoreNums := u64 (Z.min (CeilDiv n rowOfFormerBlock) (i64 coreNum)) in
  let rowOfTailBlock := i64 (u64 n - u64 (u64 (usedCoreNums - 1) * u64 rowOfFormerBlock)) in
  (mkTiling bn bs d n rowOfFormerBlock rowOfTailBlock blockStride, usedCoreNums).

(** Tiling data, number of blocks, workspace and tiling key. *)
Definition DoOpTiling (c : TilingContext) : option (LoadIndexKvCacheTilingData * Z * Z * Z) :=
  coreNum ← GetPlatformInfo c;
  '(bn, bs, d, n, stride) ← GetShapeAttrsInfoInner c;
  blockStride ← CheckShapesAndAttrs bs d stride;
  let '(t, usedCoreNums) := CalcOpTiling coreNum bn bs d n blockStride in
  Some (t, usedCoreNums, WORKSPACE_SIZE, 0).

(** ** AscendC *)

(** Transfers of bytes at an offset of the local tensor, the copy between local
    tensors, and the filling of a local tensor. *)
Class AscendBytes := {
  DataCopyPad_to : list Z -> Z -> list Z -> Z -> Z -> list Z;
  DataCopyPad_from : list Z -> Z -> list Z -> Z -> Z -> list Z;
  DataCopy_bytes : list Z -> list Z -> Z -> list Z;
  Duplicate : list Z -> Z -> Z -> Z -> list Z
}.

Definition align32 (n : Z) : Z := (n + 31) / 32 * 32.

Class AscendBytesLaws `{AscendBytes} : Prop := {
  to_length dst d src s n : length (DataCopyPad_to dst d src s n) = length dst;
  to_data dst d src s n i : 0 <= d -> d + n <= Z.of_nat (length dst) -> 0 <= i < n ->
    vat (DataCopyPad_to dst d src s n) (d + i) = vat src (s + i);
  to_other dst d src s n i : 0 <= d -> 0 <= i -> i < d \/ d + align32 n <= i -> vat (DataCopyPad_to dst d src s n) i = vat dst i;
  from_length dst d src s n : length (DataCopyPad_from dst d src s n) = length dst;
  from_data dst d src s n i : 0 <= d -> d + n <= Z.of_nat (length dst) -> 0 <= i < n ->
    vat (DataCopyPad_from dst d src s n) (d + i) = vat src (s + i);
  from_other dst d src s n i : 0 <= d -> 0 <= i -> i < d \/ d + n <= i -> vat (DataCopyPad_from dst d src s n) i = vat dst i;
  copy_length dst src n : length (DataCopy_bytes dst src n) = length dst;
  copy_data dst src n i : n mod 32 = 0 -> n <= Z.of_nat (length dst) -> 0 <= i < n -> vat (DataCopy_bytes dst src n) i = vat src i;
  dup_length dst d x n : length (Duplicate dst d x n) = length dst;
  dup_data dst d x n i : 0 <= d -> d + n <= Z.of_nat (length dst) -> 0 <= i < n -> vat (Duplicate dst d x n) (d + i) = x;
  dup_other dst d x n i : 0 <= d -> 0 <= i -> i < d -> vat (Duplicate dst d x n) i = vat dst i
}.

(** ** Kernel *)

Definition KV_LAST_DIM : Z := 128.
Definition KV_SCALE_LAST_DIM : Z := 4.
(** Bytes of a float. *)
Definition FLOAT : Z := 4.

Definition CeilDivK (a b : Z) : Z := if b =? 0 then a else Z.quot (i32 (i32 (a + b) - 1)) b.
(** [RoundUp<T>] for the cache type of the operator, which has one byte. *)
Definition RoundUp (num : Z) : Z := i32 (CeilDivK num 32 * 32).

Section Kernel.
Context `{AscendBytes}.

(** Transfers that leave a tensor are faults. *)
Definition CopyIn (dst : list Z) (d : Z) (src : list Z) (s len : Z) : res (list Z) :=
  if in_tensor dst d (align32 len) && in_tensor src s len then Ok (DataCopyPad_to dst d src s len) else Fault OutOfBounds.
Definition CopyOut (dst : list Z) (d : Z) (src : list Z) (s len : Z) : res (list Z) :=
  if in_tensor dst d len && in_tensor src s len then Ok (DataCopyPad_from dst d src s len) else Fault OutOfBounds.
Definition copy_local (dst src : list Z) (len : Z) : res (list Z) :=
  if in_tensor dst 0 len && in_tensor src 0 len then Ok (DataCopy_bytes dst src len) else Fault OutOfBounds.
Definition duplicate (dst : list Z) (d x len : Z) : res (list Z) :=
  if in_tensor dst d len then Ok (Duplicate dst d x len) else Fault OutOfBounds.

Context (t : LoadIndexKvCacheTilingData) (kvCacheGm slotMappingGm : list Z).

(** One row: its index in the slot mapping, its place in the keys and in the
    scales.  [alloc] gives the tensors of the two queues. *)
Definition load_row (alloc : Z -> list Z * list Z) (curSlotIdx kvOffset kvScaleOffset : Z) (out : list Z * list Z)
    : res (list Z * list Z) :=
  let '(kvGm, kvScaleGm) := out in
  slot ← vget slotMappingGm curSlotIdx;
  let '(kvCacheLocal, kvAndKvScaleLocal) := alloc curSlotIdx in
  kvAndKvScaleLocal ← (
    if slot =? -1 then
      l ← duplicate kvAndKvScaleLocal 0 0 KV_LAST_DIM;
      duplicate l KV_LAST_DIM 0 FLOAT
    else
      page ← sdiv slot (bs t);
      place ← smod slot (bs t);
      let kvCacheGmOffset := i64 (i64 (page * blockStride t) + i64 (place * KV_LAST_DIM)) in
      let kvCacheScaleGmOffset :=
        i64 (i64 (i64 (page * blockStride t) + i64 (bs t * KV_LAST_DIM)) + i64 (place * KV_SCALE_LAST_DIM)) in
      l ← CopyIn kvCacheLocal 0 kvCacheGm kvCacheGmOffset KV_LAST_DIM;
      l ← CopyIn l KV_LAST_DIM kvCacheGm kvCacheScaleGmOffset KV_SCALE_LAST_DIM;
      copy_local kvAndKvScaleLocal l (RoundUp (i32 (d t))));
  kvGm ← CopyOut kvGm kvOffset kvAndKvScaleLocal 0 KV_LAST_DIM;
  kvScaleGm ← CopyOut kvScaleGm (kvScaleOffset * FLOAT) kvAndKvScaleLocal KV_LAST_DIM FLOAT;
  Ok (kvGm, kvScaleGm).

Definition Process (alloc : Z -> list Z * list Z) (curBlockIdx blockNum : Z) (out : list Z * list Z) : res (list Z * list Z) :=
  let rowOuterLoop := if curBlockIdx =? blockNum - 1 then rowOfTailBlock t else rowOfFormerBlock t in
  let baseSlotMappingOffset := i64 (curBlockIdx * rowOfFormerBlock t) in
  let kvBaseOffset := i64 (i64 (curBlockIdx * rowOfFormerBlock t) * KV_LAST_DIM) in
  let kvScaleBaseOffset := i64 (curBlockIdx * rowOfFormerBlock t) in
  for_range rowOuterLoop (fun rowOuterIdx out =>
    load_row alloc (i64 (baseSlotMappingOffset + rowOuterIdx)) (i64 (kvBaseOffset + i64 (rowOuterIdx * KV_LAST_DIM)))
      (i64 (kvScaleBaseOffset + rowOuterIdx)) out) out.

(** The entry point. *)
Definition load_index_kv_cache (workspace userWs : bool) (tilingKey : Z) (alloc : Z -> list Z * list Z) (curBlockIdx blockNum : Z)
    (out : list Z * list Z) : res (list Z * list Z) :=
  if negb workspace then Ok out
  else if negb userWs then Ok out
  else if tilingKey =? 0 then Process alloc curBlockIdx blockNum out
  else Ok out.
End Kernel.

(** ** An implementation of the transfers *)

Definition SoftBytes : AscendBytes :=
  {| DataCopyPad_to := overwrite; DataCopyPad_from := overwrite;
     DataCopy_bytes dst src n := overwrite dst 0 src 0 n;
     Duplicate dst d x n := overwrite dst d (replicate (Z.to_nat n) x) 0 n |}.

Lemma SoftBytes_laws : @AscendBytesLaws SoftBytes.
Proof.
  split; cbn [DataCopyPad_to DataCopyPad_from DataCopy_bytes Duplicate SoftBytes]; intros;
    first [apply overwrite_length | by apply vat_overwrite_in | by apply (vat_overwrite_in dst 0) | by apply (overwrite_other _ _ _ _ _ n0) | idtac].
  - apply (overwrite_other _ _ _ _ _ (align32 n0)); [unfold align32; ediv|done|done].
  - rewrite vat_overwrite_in by done. unfold vat. rewrite lookup_replicate_2 by lia. done.
  - apply (overwrite_other _ _ _ _ _ n0); [done|done|by left].
Qed.
End Load.
