(* ===== verification/LoadTheorems.v ===== *)
(** * Loading of indexer keys by slot: what a call does

    A row, the rows of a core, all cores in any order; the theorems. *)

From S2P Require Import Prelude Ascend Tensor LoadKernel.

Module LoadTheorems.
Import Load.

(** ** Consecutive blocks *)

(** [nb] blocks of [per] rows, the last one shorter, divide [n] rows. *)
Lemma blocks_partition (order : list Z) nb per n :
  0 < per -> 0 < nb -> (nb - 1) * per <= n -> order ≡ₚ seqZ 0 nb ->
  (order ≫= fun c => seqZ (c * per) (if c =? nb - 1 then n - (nb - 1) * per else per)) ≡ₚ seqZ 0 n.
Proof.
  intros Hper Hnb Hn Hp. rewrite Hp. clear Hp.
  assert (IHk : forall k : nat, Z.of_nat k <= nb - 1 ->
    (seqZ 0 (Z.of_nat k) ≫= fun c => seqZ (c * per) (if c =? nb - 1 then n - (nb - 1) * per else per)) = seqZ 0 (Z.of_nat k * per)).
  { induction k as [|k IH]; intros Hk; [done|].
    replace (Z.of_nat (S k)) with (Z.of_nat k + 1) by lia. rewrite seqZ_app, bind_app, IH by lia.
    rewrite (seqZ_cons (0 + Z.of_nat k)), (seqZ_nil _ (Z.pred 1)), bind_cons, app_nil_r, Z.add_0_l by lia.
    rewrite (proj2 (Z.eqb_neq _ _)) by lia. by rewrite Z.mul_add_distr_r, Z.mul_1_l, seqZ_app by lia. }
  specialize (IHk (Z.to_nat (nb - 1))). rewrite Z2Nat.id in IHk by lia.
  replace nb with (nb - 1 + 1) at 1 by lia. rewrite seqZ_app, bind_app, IHk by lia.
  rewrite (seqZ_cons (0 + (nb - 1))), (seqZ_nil _ (Z.pred 1)), bind_cons, app_nil_r, Z.add_0_l, Z.eqb_refl by lia.
  rewrite <- seqZ_app by nia. by replace ((nb - 1) * per + (n - (nb - 1) * per)) with n by lia.
Qed.

Lemma returns_both {A} (m : res A) (P Q : A -> Prop) : returns m P -> returns m Q -> returns m (fun a => P a /\ Q a).
Proof. intros (a & -> & HP) (b & [= <-] & HQ). by exists a. Qed.

(** ** Rows *)

(** What a row of the outputs should hold: the key and the scale of the slot, or
    zeros. *)
Definition key_byte (t : LoadIndexKvCacheTilingData) (cache : list Z) (slot i : Z) : Z :=
  if slot =? -1 then 0 else vat cache (slot / bs t * blockStride t + slot mod bs t * KV_LAST_DIM + i).
Definition scale_byte (t : LoadIndexKvCacheTilingData) (cache : list Z) (slot i : Z) : Z :=
  if slot =? -1 then 0
  else vat cache (slot / bs t * blockStride t + bs t * KV_LAST_DIM + slot mod bs t * KV_SCALE_LAST_DIM + i).

(** A cache of [bn] pages and a slot mapping of [n] entries. *)
Record CacheOk (t : LoadIndexKvCacheTilingData) (cache slots : list Z) : Prop := {
  lk_dim : KV_LAST_DIM + KV_SCALE_LAST_DIM <= d t < 2 ^ 31 - 32;
  lk_page : 0 < bs t /\ bs t * d t <= blockStride t;
  lk_cache : bn t * blockStride t <= Z.of_nat (length cache) < 2 ^ 63;
  lk_slots : Z.of_nat (length slots) = n t;
  lk_rows : n t < 2 ^ 31;
  lk_slot : forall r, 0 <= r < n t -> vat slots r = -1 \/ 0 <= vat slots r < bn t * bs t
}.

(** The tensors of the queues. *)
Definition AllocOk (t : LoadIndexKvCacheTilingData) (alloc : Z -> list Z * list Z) : Prop :=
  forall r, Z.of_nat (length (alloc r).1) = RoundUp (i32 (d t)) /\ Z.of_nat (length (alloc r).2) = RoundUp (i32 (d t)).

Lemma RoundUp_spec x : 0 <= x < 2 ^ 31 - 32 -> RoundUp x = align32 x.
Proof.
  intros Hx. unfold RoundUp, CeilDivK, align32. cbn [Z.eqb]. rewrite !(i32_id (x + 32)), !(i32_id (x + 32 - 1)) by lia.
  rewrite Z.quot_div_nonneg by lia. replace (x + 32 - 1) with (x + 31) by lia. apply i32_id. ediv.
Qed.

Section Rows.
Context `{HA : AscendBytes} `{HAL : !AscendBytesLaws}.
Context (t : LoadIndexKvCacheTilingData) (cache slots : list Z) (alloc : Z -> list Z * list Z).
Context (HC : CacheOk t cache slots) (HQ : AllocOk t alloc).

(** The local tensor with key and scale. *)
Definition holds_row (l : list Z) (slot : Z) : Prop :=
  160 <= Z.of_nat (length l) /\
  (forall i, 0 <= i < KV_LAST_DIM -> vat l i = key_byte t cache slot i) /\
  forall i, 0 <= i < FLOAT -> vat l (KV_LAST_DIM + i) = scale_byte t cache slot i.

Lemma local_size : 160 <= RoundUp (i32 (d t)) /\ RoundUp (i32 (d t)) mod 32 = 0.
Proof.
  destruct (lk_dim _ _ _ HC). unfold KV_LAST_DIM, KV_SCALE_LAST_DIM in *. rewrite i32_id, RoundUp_spec by lia.
  unfold align32. split; [ediv|by apply Z.mod_mul].
Qed.

Lemma zero_row_returns (l : list Z) :
  160 <= Z.of_nat (length l) ->
  returns (l ← duplicate l 0 0 KV_LAST_DIM; duplicate l KV_LAST_DIM 0 FLOAT) (fun l' => holds_row l' (-1)).
Proof.
  intros Hl. unfold duplicate, KV_LAST_DIM, FLOAT. rewrite in_tensor_ok by lia. cbn [mbind res_bind].
  rewrite in_tensor_ok by (try rewrite dup_length; lia). apply returns_ok. split; [by rewrite !dup_length|]. split; intros i Hi.
  - unfold KV_LAST_DIM in *. rewrite dup_other by lia. apply (dup_data l 0 0 128 i); lia.
  - unfold KV_LAST_DIM, FLOAT in *. apply dup_data; rewrite ?dup_length; lia.
Qed.
(** Where the key and the scale of a slot lie. *)
Lemma slot_place slot :
  0 <= slot < bn t * bs t ->
  let page := slot / bs t * blockStride t in
  0 <= page /\ 0 <= slot mod bs t < bs t /\ page + bs t * 132 <= Z.of_nat (length cache) /\
  bs t * 132 < 2 ^ 63 /\ Z.of_nat (length cache) < 2 ^ 63.
Proof.
  intros Hs page. destruct (lk_dim _ _ _ HC) as [Hd _], (lk_page _ _ _ HC) as [Hb Hst], (lk_cache _ _ _ HC) as [Hlen Hmax].
  unfold KV_LAST_DIM, KV_SCALE_LAST_DIM in Hd. pose proof (Z.mod_pos_bound slot (bs t) Hb).
  assert (Hp : 0 <= slot / bs t < bn t) by (split; [apply Z.div_pos; lia|apply Z.div_lt_upper_bound; lia]).
  assert (H1 : bs t * 132 <= bs t * d t) by (apply Z.mul_le_mono_nonneg_l; lia).
  assert (H2 : (slot / bs t + 1) * blockStride t <= bn t * blockStride t) by (apply Z.mul_le_mono_nonneg_r; lia).
  assert (0 <= page) by (apply Z.mul_nonneg_nonneg; lia). unfold page in *. lia.
Qed.

Lemma slot_row_returns (l1 l2 : list Z) slot :
  0 <= slot < bn t * bs t -> Z.of_nat (length l1) = RoundUp (i32 (d t)) -> Z.of_nat (length l2) = RoundUp (i32 (d t)) ->
  returns (page ← sdiv slot (bs t);
    place ← smod slot (bs t);
    l ← CopyIn l1 0 cache (i64 (i64 (page * blockStride t) + i64 (place * KV_LAST_DIM))) KV_LAST_DIM;
    l ← CopyIn l KV_LAST_DIM cache
          (i64 (i64 (i64 (page * blockStride t) + i64 (bs t * KV_LAST_DIM)) + i64 (place * KV_SCALE_LAST_DIM))) KV_SCALE_LAST_DIM;
    copy_local l2 l (RoundUp (i32 (d t)))) (fun l => holds_row l slot).
Proof.
  intros Hs L1 L2. destruct (slot_place slot Hs) as (P1 & P2 & P3 & P4 & P5). destruct local_size as [Hr Hm].
  pose proof (proj1 (lk_page _ _ _ HC)). rewrite sdiv_ok, smod_ok by lia. cbn [mbind res_bind].
  rewrite Z.quot_div_nonneg, Z.rem_mod_nonneg by lia. unfold holds_row, key_byte, scale_byte.
  rewrite (proj2 (Z.eqb_neq slot (-1))) by lia.
  unfold CopyIn, copy_local, KV_LAST_DIM, KV_SCALE_LAST_DIM, FLOAT in *.
  set (page := slot / bs t * blockStride t) in *. set (place := slot mod bs t) in *.
  rewrite (i64_id page), (i64_id (place * 128)), (i64_id (bs t * 128)), (i64_id (place * 4)) by lia.
  rewrite (i64_id (page + place * 128)), (i64_id (page + bs t * 128)), (i64_id (page + bs t * 128 + place * 4)) by lia.
  change (align32 128) with 128. change (align32 4) with 32.
  rewrite !in_tensor_ok by lia. cbn [andb mbind res_bind].
  rewrite !in_tensor_ok by (try rewrite to_length; lia). cbn [andb mbind res_bind].
  rewrite !in_tensor_ok by (try rewrite !to_length; lia). cbn [andb].
  apply returns_ok. split; [rewrite copy_length; lia|]. split; intros i Hi; rewrite copy_data by (done || lia).
  - rewrite to_other by lia. apply (to_data l1 0 cache (page + place * 128) 128 i); lia.
  - apply to_data; rewrite ?to_length; lia.
Qed.

(** One row of the outputs. *)
Definition kv_lo (r : Z) : Z := r * KV_LAST_DIM.
Definition kv_hi (r : Z) : Z := r * KV_LAST_DIM + KV_LAST_DIM.
Definition kv_value (r i : Z) : Z := key_byte t cache (vat slots r) (i - r * KV_LAST_DIM).
Definition scale_lo (r : Z) : Z := r * FLOAT.
Definition scale_hi (r : Z) : Z := r * FLOAT + FLOAT.
Definition scale_value (r i : Z) : Z := scale_byte t cache (vat slots r) (i - r * FLOAT).

Lemma CopyOut_bytes dst o src s m (v : Z -> Z) :
  0 <= o -> 0 <= s -> 0 <= m -> o + m <= Z.of_nat (length dst) -> s + m <= Z.of_nat (length src) ->
  (forall i, 0 <= i < m -> vat src (s + i) = v i) ->
  returns (CopyOut dst o src s m) (fun l => outside o (o + m) dst l /\ forall i, o <= i < o + m -> vat l i = v (i - o)).
Proof.
  intros. unfold CopyOut. rewrite !in_tensor_ok by lia. apply returns_ok. split; [split; [apply from_length|]|].
  - intros i Hi Ho. by apply from_other.
  - intros i Hi. replace i with (o + (i - o)) at 1 by lia. rewrite from_data by lia. auto with lia.
Qed.

Lemma load_row_returns r out :
  0 <= r < n t -> Z.of_nat (length out.1) = n t * KV_LAST_DIM -> Z.of_nat (length out.2) = n t * FLOAT ->
  returns (load_row t cache slots alloc r (r * KV_LAST_DIM) r out) (fun out' =>
    wrote kv_lo kv_hi kv_value [r] out.1 out'.1 /\ wrote scale_lo scale_hi scale_value [r] out.2 out'.2).
Proof.
  intros Hr L1 L2. destruct out as [kv sc]. cbn [fst snd] in *. unfold load_row.
  rewrite vget_ok by (rewrite (lk_slots _ _ _ HC); lia). cbn [mbind res_bind].
  destruct (alloc r) as [a1 a2] eqn:Ea. destruct (HQ r) as [A1 A2]. rewrite Ea in A1, A2. cbn [fst snd] in A1, A2.
  eapply (returns_bind_mono _ _ (fun l => holds_row l (vat slots r))).
  { destruct (lk_slot _ _ _ HC r Hr) as [-> | Hs]; [apply zero_row_returns; destruct local_size; lia|].
    rewrite (proj2 (Z.eqb_neq _ (-1))) by lia. by apply slot_row_returns. }
  intros l (Hl & Hk & Hc). eapply returns_bind_mono.
  { apply (CopyOut_bytes kv (r * KV_LAST_DIM) l 0 KV_LAST_DIM (key_byte t cache (vat slots r))); unfold KV_LAST_DIM in *; try lia.
    intros i Hi. by apply Hk. }
  intros kv' [O1 V1]. eapply returns_bind_mono.
  { apply (CopyOut_bytes sc (r * FLOAT) l KV_LAST_DIM FLOAT (scale_byte t cache (vat slots r))); unfold KV_LAST_DIM, FLOAT in *; try lia.
    done. }
  intros sc' [O2 V2]. apply returns_ok. split; by apply wrote_one.
Qed.

(** ** All rows *)

Lemma rows_apart (w : Z) rs : 0 <= w -> NoDup rs -> (forall r, r ∈ rs -> 0 <= r) -> apart (fun r => r * w) (fun r => r * w + w) rs.
Proof.
  intros Hw Hn Hr. split; [done| |].
  - intros r Hx. specialize (Hr r Hx). nia.
  - intros x y i Hx Hy Hne Hi. destruct (Z.lt_gt_cases x y) as [[|] _]; [done|left; nia|right; nia].
Qed.

Lemma rows_wrote rs out :
  NoDup rs -> (forall r, r ∈ rs -> 0 <= r < n t) ->
  Z.of_nat (length out.1) = n t * KV_LAST_DIM -> Z.of_nat (length out.2) = n t * FLOAT ->
  returns (run_list (fun r => load_row t cache slots alloc r (r * KV_LAST_DIM) r) rs out) (fun out' =>
    wrote kv_lo kv_hi kv_value rs out.1 out'.1 /\ wrote scale_lo scale_hi scale_value rs out.2 out'.2).
Proof.
  intros Hn Hr L1 L2. apply returns_both.
  - eapply returns_mono; [apply (run_list_wrote_inv kv_lo kv_hi kv_value fst (fun o => Z.of_nat (length o.2) = n t * FLOAT)); [|done|]|by intros ? [_ ?]].
    + apply (rows_apart KV_LAST_DIM); [done|done|]. intros r Hx. specialize (Hr r Hx). lia.
    + intros r o Hx H2 H1. eapply returns_mono; [apply load_row_returns; [by apply Hr|congruence|done]|].
      intros o' [W1 W2]. split; [|done]. rewrite (proj1 W2). done.
  - eapply returns_mono; [apply (run_list_wrote_inv scale_lo scale_hi scale_value snd (fun o => Z.of_nat (length o.1) = n t * KV_LAST_DIM)); [|done|]|by intros ? [_ ?]].
    + apply (rows_apart FLOAT); [done|done|]. intros r Hx. specialize (Hr r Hx). lia.
    + intros r o Hx H2 H1. eapply returns_mono; [apply load_row_returns; [by apply Hr|done|congruence]|].
      intros o' [W1 W2]. split; [|done]. rewrite (proj1 W1). done.
Qed.
(** Rows, blocks and rest as the tiling class computes them. *)
Definition Tiled (nb : Z) : Prop :=
  if n t =? 0 then nb = 0
  else 0 < rowOfFormerBlock t /\ 0 < nb /\ (nb - 1) * rowOfFormerBlock t < n t /\
    rowOfTailBlock t = n t - (nb - 1) * rowOfFormerBlock t /\ rowOfTailBlock t <= rowOfFormerBlock t.

Lemma Process_rows c nb out :
  Tiled nb -> 0 <= c < nb ->
  Process t cache slots alloc c nb out =
  run_list (fun r => load_row t cache slots alloc r (r * KV_LAST_DIM) r)
    (seqZ (c * rowOfFormerBlock t) (if c =? nb - 1 then n t - (nb - 1) * rowOfFormerBlock t else rowOfFormerBlock t)) out.
Proof.
  unfold Tiled. destruct (n t =? 0); [lia|]. intros (H1 & H2 & H3 & H4 & H5) Hc. unfold Process.
  rewrite for_range_run_list, H4. set (m := if c =? nb - 1 then _ else _).
  assert (Hm : c * rowOfFormerBlock t + m <= n t) by (unfold m; destruct (Z.eqb_spec c (nb - 1)); nia).
  assert (Hs : seqZ (c * rowOfFormerBlock t) m = (fun j => c * rowOfFormerBlock t + j) <$> seqZ 0 m).
  { rewrite <- (Z.add_0_r (c * rowOfFormerBlock t)) at 1. symmetry. apply fmap_add_seqZ. }
  rewrite Hs, run_list_fmap. apply run_list_ext. intros j o Hj%elem_of_seqZ.
  pose proof (lk_rows _ _ _ HC). assert (0 <= c * rowOfFormerBlock t) by nia. unfold KV_LAST_DIM.
  rewrite (i64_id (c * _)), !(i64_id (_ + j)), (i64_id (_ * 128)), (i64_id (j * 128)) by lia.
  rewrite i64_id by lia. f_equal. lia.
Qed.
End Rows.

(** ** A call *)

Lemma CeilDiv_spec x y : 0 <= x < 2 ^ 31 -> 0 < y < 2 ^ 31 -> CeilDiv x y = (x + y - 1) / y.
Proof.
  intros Hx Hy. unfold CeilDiv. rewrite (proj2 (Z.eqb_neq y 0)) by lia. cbn [negb].
  rewrite (i64_id (x + y)), i64_id by lia. apply Z.quot_div_nonneg; lia.
Qed.

Lemma ceil_bounds x y : 0 < x -> 0 < y -> let q := (x + y - 1) / y in 0 < q /\ (q - 1) * y < x <= q * y.
Proof.
  intros Hx Hy q. pose proof (Z.div_mod (x + y - 1) y ltac:(lia)) as E. pose proof (Z.mod_pos_bound (x + y - 1) y Hy).
  fold q in E. nia.
Qed.

Lemma tiling_Tiled c t nb ws key cores :
  DoOpTiling c = Some (t, nb, ws, key) -> GetPlatformInfo c = Some cores -> 0 < cores < 2 ^ 31 -> 0 <= n t < 2 ^ 31 ->
  Tiled t nb /\ 0 <= nb <= cores /\ key = 0.
Proof.
  intros HT Hp Hc Hn. unfold DoOpTiling in HT. rewrite Hp in HT. cbn [mbind option_bind] in HT.
  destruct (GetShapeAttrsInfoInner c) as [[[[[bn bs] d] n] stride]|]; [|done]. cbn [mbind option_bind] in HT.
  destruct (CheckShapesAndAttrs bs d stride) as [blockStride|]; [|done]. cbn [mbind option_bind] in HT.
  unfold CalcOpTiling in HT. injection HT as <- <- <- <-. cbn [Load.n rowOfFormerBlock rowOfTailBlock] in *.
  unfold Tiled. cbn [Load.n rowOfFormerBlock rowOfTailBlock]. rewrite (i64_id cores), (CeilDiv_spec n cores) by lia.
  destruct (Z.eqb_spec n 0) as [->|].
  { rewrite (Z.div_small (0 + cores - 1)) by lia. unfold CeilDiv. cbn [negb Z.eqb].
    rewrite Z.min_l, (u64_id 0) by lia. split_and!; [done|lia|lia|done]. }
  destruct (ceil_bounds n cores) as (R1 & R2 & R3); [lia|lia|]. set (row := (n + cores - 1) / cores) in *.
  assert (row <= n) by nia. rewrite (CeilDiv_spec n row) by lia.
  destruct (ceil_bounds n row) as (U1 & U2 & U3); [lia|lia|]. set (used := (n + row - 1) / row) in *.
  assert (used <= cores) by nia. rewrite Z.min_l by lia. rewrite (u64_id used) by lia.
  rewrite (u64_id (used - 1)), (u64_id row), (u64_id n) by lia. assert (0 <= (used - 1) * row) by nia.
  rewrite (u64_id (_ * _)), i64_id by lia. split_and!; try lia; done.
Qed.

(** The blocks of a call, in the order [order]. *)
Definition launch `{AscendBytes} (t : LoadIndexKvCacheTilingData) (key nb : Z) (cache slots : list Z) (alloc : Z -> list Z * list Z)
    (order : list Z) (out : list Z * list Z) : res (list Z * list Z) :=
  run_list (fun c => load_index_kv_cache t cache slots true true key alloc c nb) order out.

(** An accepted call. *)
Record CallOk (c : TilingContext) (t : LoadIndexKvCacheTilingData) (nb key : Z) (cache slots : list Z)
    (alloc : Z -> list Z * list Z) (order : list Z) (out : list Z * list Z) : Prop := {
  ok_tiling : DoOpTiling c = Some (t, nb, WORKSPACE_SIZE, key);
  ok_cores : exists cores, GetPlatformInfo c = Some cores /\ 0 < cores < 2 ^ 31;
  ok_cache : CacheOk t cache slots;
  ok_alloc : AllocOk t alloc;
  ok_order : order ≡ₚ seqZ 0 nb;
  ok_kv : Z.of_nat (length out.1) = n t * KV_LAST_DIM;
  ok_scale : Z.of_nat (length out.2) = n t * FLOAT
}.

Lemma launch_rows `{AscendBytes} t nb cache slots alloc order out :
  CacheOk t cache slots -> Tiled t nb -> order ≡ₚ seqZ 0 nb ->
  launch t 0 nb cache slots alloc order out =
  run_list (fun r => load_row t cache slots alloc r (r * KV_LAST_DIM) r)
    (order ≫= fun c => seqZ (c * rowOfFormerBlock t) (if c =? nb - 1 then n t - (nb - 1) * rowOfFormerBlock t else rowOfFormerBlock t)) out.
Proof.
  intros HC HT Hp. assert (Hr : forall c, c ∈ order -> 0 <= c < nb) by (intros c; rewrite Hp, elem_of_seqZ; lia). clear Hp.
  unfold launch. revert out. induction order as [|c cs IH]; intros out; [done|]. cbn [run_list].
  rewrite bind_cons, run_list_app. change (load_index_kv_cache t cache slots true true 0 alloc c nb out) with (Process t cache slots alloc c nb out).
  rewrite Process_rows; [|done|done|apply Hr; by left].
  destruct (run_list _ _ out); [|done]. apply IH. intros c' Hc'. apply Hr. by right.
Qed.

Lemma rows_all t nb order : Tiled t nb -> order ≡ₚ seqZ 0 nb ->
  (order ≫= fun c => seqZ (c * rowOfFormerBlock t) (if c =? nb - 1 then n t - (nb - 1) * rowOfFormerBlock t else rowOfFormerBlock t))
    ≡ₚ seqZ 0 (n t).
Proof.
  unfold Tiled. destruct (Z.eqb_spec (n t) 0) as [->|].
  - intros -> Hp. by apply Permutation_nil_r in Hp as ->.
  - intros (H1 & H2 & H3 & _) Hp. apply blocks_partition; [done|done|lia|done].
Qed.

(** C15: A call of load_index_kv_cache that the tiling class accepts, on a cache
    whose last dimension holds key and scale (at least 132 bytes, which the tiling
    class does not check) and with slots that are -1 or in the cache, returns, in
    whatever order its blocks run: row r of the outputs holds the 128 bytes of
    the key and the 4 bytes of the scale of slot r of the mapping, from the page
    and the place that the slot names, and zeros for the slot -1. *)
Theorem load_rows `{HA : AscendBytes} `{HAL : !AscendBytesLaws} c t nb key cache slots alloc order out
    (HC : CallOk c t nb key cache slots alloc order out) :
  returns (launch t key nb cache slots alloc order out) (fun '(kv, scale) =>
    length kv = length out.1 /\ length scale = length out.2 /\
    forall r, 0 <= r < n t ->
      (forall i, 0 <= i < KV_LAST_DIM -> vat kv (r * KV_LAST_DIM + i) = key_byte t cache (vat slots r) i) /\
      forall i, 0 <= i < FLOAT -> vat scale (r * FLOAT + i) = scale_byte t cache (vat slots r) i).
Proof.
  destruct HC as [HT (cores & Hp & Hc) Hk Ha Ho L1 L2]. pose proof (lk_rows _ _ _ Hk). pose proof (lk_slots _ _ _ Hk).
  destruct (tiling_Tiled _ _ _ _ _ _ HT Hp Hc ltac:(lia)) as (HTi & _ & ->).
  rewrite launch_rows by done. pose proof (rows_all t nb order HTi Ho) as Hall.
  eapply returns_mono; [apply rows_wrote; [done|done| | |done|done]|].
  - rewrite Hall. apply NoDup_seqZ.
  - intros r. rewrite Hall, elem_of_seqZ. lia.
  - intros [kv sc] [(K1 & K2 & _) (S1 & S2 & _)]. split; [done|]. split; [done|]. intros r Hr.
    assert (Hin : r ∈ seqZ 0 (n t)) by (apply elem_of_seqZ; lia). rewrite <- Hall in Hin.
    unfold kv_lo, kv_hi, kv_value, scale_lo, scale_hi, scale_value in *. split; intros i Hi.
    + rewrite (K2 r) by (done || lia). f_equal. lia.
    + rewrite (S2 r) by (done || lia). f_equal. lia.
Qed.

(** Two pages of two slots, three rows on two cores: the last slot of the second
    page, none, the first slot of the first page. *)
Definition demo_context : TilingContext := mkContext (Some 2) None (Some [2; 2; 1; 132]) (Some [3]) (Some (Some 300)).
Definition demo_tiling : LoadIndexKvCacheTilingData := mkTiling 2 2 132 3 2 1 300.
Definition demo_alloc (_ : Z) : list Z * list Z := (replicate 160 7, replicate 160 9).

Lemma load_demo_CallOk :
  CallOk demo_context demo_tiling 2 0 (seqZ 0 600) [3; -1; 0] demo_alloc [1; 0] (replicate 384 5, replicate 12 6).
Proof.
  split; [by vm_compute|exists 2; split; [done|lia]| |done|apply perm_swap|done|done].
  split; cbn [demo_tiling bn bs d n blockStride]; unfold KV_LAST_DIM, KV_SCALE_LAST_DIM;
    [lia|lia|rewrite length_seqZ; lia|done|lia|].
  intros r Hr. assert (r = 0 \/ r = 1 \/ r = 2) as [-> | [-> | ->]] by lia; vm_compute; intuition congruence.
Qed.

Lemma load_rows_witness :
  returns (@launch SoftBytes demo_tiling 0 2 (seqZ 0 600) [3; -1; 0] demo_alloc [1; 0] (replicate 384 5, replicate 12 6))
    (fun '(kv, scale) => length kv = 384%nat /\ length scale = 12%nat /\
      forall r, 0 <= r < 3 ->
        (forall i, 0 <= i < 128 -> vat kv (r * 128 + i) = key_byte demo_tiling (seqZ 0 600) (vat [3; -1; 0] r) i) /\
        forall i, 0 <= i < 4 -> vat scale (r * 4 + i) = scale_byte demo_tiling (seqZ 0 600) (vat [3; -1; 0] r) i).
Proof. exact (@load_rows SoftBytes SoftBytes_laws _ _ _ _ _ _ _ _ _ load_demo_CallOk). Defined.

(** A cache whose last dimension is 128, without room for a scale, is accepted:
    the copy of the scale leaves the local tensor, which has 128 bytes. *)
Theorem load_small_dim_fault :
  let t := mkTiling 2 2 128 1 1 1 256 in
  DoOpTiling (mkContext (Some 1) None (Some [2; 2; 1; 128]) (Some [1]) (Some None)) = Some (t, 1, WORKSPACE_SIZE, 0) /\
  @launch SoftBytes t 0 1 (replicate 512 1) [0] (fun _ => (replicate 128 0, replicate 128 0)) [0] (replicate 128 0, replicate 4 0) =
    Fault OutOfBounds.
Proof. split; vm_compute; reflexivity. Qed.
End LoadTheorems.
