(* ===== verification/HostPool.v ===== *)
(** * Mapped host pools: the registry of kv_cache_block_gather

    src/csrc/kv_cache_block_gather_binding.cpp.  A pool of KV pages in host memory
    is registered with the ACL runtime, which gives it an address on the device;
    every registration call gets a handle, and a physical mapping lives as long as
    there is a handle for it.  The gather operator resolves its source through the
    registry.

    The code throws: a computation has a state that survives an exception.  What
    the ACL runtime answers to a call is given by an environment, a new one for
    every operation; the calls are recorded. *)

From stdpp Require Import gmap.
From S2P Require Import Prelude GatherKernel.

Module HostPool.

(** ** Data *)

Definition UINT64_MAX : Z := 2 ^ 64 - 1.
Definition ACL_SUCCESS : Z := 0.

Record HostMapping := mkMapping {
  mapping_id : Z;
  host_base : Z;
  size : Z;
  device_base : Z;
  m_device_id : Z;
  owned : bool;
  explicit_handle_count : Z
}.
#[global] Instance HostMapping_eta : Eta HostMapping := fun m =>
  mkMapping (mapping_id m) (host_base m) (size m) (device_base m) (m_device_id m) (owned m) (explicit_handle_count m).

(** Element types and tensors of Torch, as far as the code looks at them. *)
Inductive ScalarType := Float | Half | BFloat16 | Char | Int | OtherType (bytes : Z).
Inductive Device := CPU | NPU (index : Z) | OtherDevice.

#[global] Instance ScalarType_eq_dec : EqDecision ScalarType.
Proof. solve_decision. Defined.
#[global] Instance Device_eq_dec : EqDecision Device.
Proof. solve_decision. Defined.

Record Tensor := mkTensor {
  defined : bool;
  sizes : list Z;
  scalar_type : ScalarType;
  device : Device;
  is_contiguous : bool;
  data_ptr : Z
}.

Definition element_size (s : ScalarType) : Z :=
  match s with Float | Int => 4 | Half | BFloat16 => 2 | Char => 1 | OtherType b => b end.
Definition numel (t : Tensor) : Z := fold_left Z.mul (sizes t) 1.
Definition is_cpu (t : Tensor) : bool := bool_decide (device t = CPU).
Definition is_privateuseone (t : Tensor) : bool := match device t with NPU _ => true | _ => false end.
(** [static_cast<uint64_t>(numel * element_size)] *)
Definition tensor_bytes (t : Tensor) : Z := u64 (numel t * element_size (scalar_type t)).

Record HostMappingHandle := mkHandle {
  handle : Z;
  h_mapping_id : Z;
  requested_host_addr : Z;
  requested_bytes : Z;
  mapped_host_base : Z;
  mapped_bytes : Z;
  device_addr : Z;
  h_owned : bool;
  already_mapped : bool;
  active : bool;
  tensor_owner : Tensor;
  owner_pid : Z;
  h_device_id : Z
}.

Record HostRange := mkRange { host_addr : Z; aligned_addr : Z; offset : Z; register_size : Z }.

Record HostMappingCounters := mkCounters {
  register_call_count : Z;
  register_bytes_total : Z;
  register_bytes_current : Z;
  register_bytes_peak : Z;
  unregister_call_count : Z;
  borrowed_mapping_count : Z;
  explicit_register_call_count : Z;
  explicit_unregister_call_count : Z
}.
#[global] Instance HostMappingCounters_eta : Eta HostMappingCounters := fun c =>
  mkCounters (register_call_count c) (register_bytes_total c) (register_bytes_current c) (register_bytes_peak c)
    (unregister_call_count c) (borrowed_mapping_count c) (explicit_register_call_count c) (explicit_unregister_call_count c).

Record HostMappingRegistry := mkRegistry {
  pid : Z;
  mappings : list HostMapping;
  handles : gmap Z HostMappingHandle;
  next_mapping_id : Z;
  next_handle : Z;
  counters : HostMappingCounters
}.
#[global] Instance HostMappingRegistry_eta : Eta HostMappingRegistry := fun r =>
  mkRegistry (pid r) (mappings r) (handles r) (next_mapping_id r) (next_handle r) (counters r).

Definition new_HostMappingRegistry (process_id : Z) : HostMappingRegistry :=
  mkRegistry process_id [] ∅ 1 (Z.lor (Z.shiftl (Z.land process_id (2 ^ 31 - 1)) 32) 1) (mkCounters 0 0 0 0 0 0 0 0).

(** ** Environment, state and exceptions *)

(** Calls of the ACL runtime, with what it returned. *)
Inductive AclCall :=
  | HostRegister (base bytes ret ptr : Z)
  | HostUnregister (base ret : Z)
  | SynchronizeDevice (ret : Z).

(** The process and the answers of the runtime during one operation. *)
Record Env := mkEnv {
  getpid : Z;
  page_size_long : Z;
  aclrtGetDevice : Z * Z;
  aclrtHostGetDevicePointer : Z -> Z * Z;
  aclrtHostRegister : Z -> Z -> Z * Z;
  aclrtHostUnregister : Z -> Z;
  aclrtSynchronizeDevice : Z
}.

(** The checks that throw. *)
Inductive Check :=
  | AfterFork | InternalAssert | IdSpace | Alignment | SizeOverflow | NullPointer | EmptyPages | PageSize | AddressOverflow
  | GetDevice | OtherDeviceMapped | CachedOverflow | PartialOverlap | NotRegistered | RegisterFailed | HandleSpace
  | NoMapping | BadCount | OtherDeviceRelease | SynchronizeFailed | UnregisterFailed
  | Undefined | NotCpu | NotContiguous | NotNpu | DeviceMismatch | BadType | BadShape | BadAlignment | NoOpApi | WorkspaceFailed
  | EmptyPath | OtherLibrary | DlopenFailed.

Inductive outcome (A : Type) := Ret (a : A) | Throw (e : Check).
Arguments Ret {A} a.
Arguments Throw {A} e.

Record World := mkWorld { w_registry : option HostMappingRegistry; w_acl : list AclCall }.

Definition M (A : Type) : Type := World -> outcome A * World.
#[global] Instance M_ret : MRet M := fun A a w => (Ret a, w).
#[global] Instance M_bind : MBind M := fun A B f m w =>
  match m w with (Ret a, w') => f a w' | (Throw e, w') => (Throw e, w') end.

Definition TORCH_CHECK (cond : bool) (e : Check) : M unit := fun w => (if cond then Ret tt else Throw e, w).
Definition throw {A} (e : Check) : M A := fun w => (Throw e, w).
Definition put (r : HostMappingRegistry) : M unit := fun w => (Ret tt, mkWorld (Some r) (w_acl w)).
Definition acl (c : AclCall) : M unit := fun w => (Ret tt, mkWorld (w_registry w) (w_acl w ++ [c])).

(** ** Helpers *)

(** The registry is created by the first call. *)
Definition get_host_mapping_registry (e : Env) : M HostMappingRegistry := fun w =>
  let registry := default (new_HostMappingRegistry (getpid e)) (w_registry w) in
  (if pid registry =? getpid e then Ret registry else Throw AfterFork, mkWorld (Some registry) (w_acl w)).

Definition allocate_host_mapping_id_locked (e : Env) : M Z :=
  r ← get_host_mapping_registry e;
  let next_id := next_mapping_id r in
  _ ← TORCH_CHECK ((next_id >? 0) && (next_id <? UINT64_MAX)) IdSpace;
  _ ← put (r <| next_mapping_id := u64 (next_id + 1) |>);
  mret next_id.

Definition ensure_host_mapping_registry_process_locked (e : Env) : M unit :=
  r ← get_host_mapping_registry e;
  TORCH_CHECK (pid r =? getpid e) InternalAssert.

Definition round_up_u64 (value alignment : Z) : M Z :=
  _ ← TORCH_CHECK (alignment >? 0) Alignment;
  _ ← TORCH_CHECK (value <=? UINT64_MAX - (alignment - 1)) SizeOverflow;
  mret (u64 (u64 (value + alignment - 1) / alignment * alignment)).

Definition get_host_range (e : Env) (host_ptr bytes : Z) : M HostRange :=
  _ ← TORCH_CHECK (negb (host_ptr =? 0)) NullPointer;
  _ ← TORCH_CHECK (bytes >? 0) EmptyPages;
  _ ← TORCH_CHECK (page_size_long e >? 0) PageSize;
  let page_size := u64 (page_size_long e) in
  _ ← TORCH_CHECK (bytes <=? UINT64_MAX - host_ptr) AddressOverflow;
  let aligned_addr := u64 (host_ptr / page_size * page_size) in
  let offset := u64 (host_ptr - aligned_addr) in
  _ ← TORCH_CHECK (bytes <=? UINT64_MAX - offset) SizeOverflow;
  register_size ← round_up_u64 (u64 (offset + bytes)) page_size;
  mret (mkRange host_ptr aligned_addr offset register_size).

Definition get_current_host_mapping_device (e : Env) : M Z :=
  _ ← get_host_mapping_registry e;
  let '(ret, device_id) := aclrtGetDevice e in
  _ ← TORCH_CHECK ((ret =? ACL_SUCCESS) && (device_id >=? 0)) GetDevice;
  mret device_id.

(** The first mapping that contains the range, with its place in the vector. *)
Definition contains (addr bytes : Z) (m : HostMapping) : bool :=
  (addr >=? host_base m) && (u64 (addr + bytes) <=? u64 (host_base m + size m)).

Definition find_host_mapping_locked (ms : list HostMapping) (addr bytes device_id : Z) : M (option (nat * HostMapping)) :=
  let request_end := u64 (addr + bytes) in
  _ ← TORCH_CHECK (request_end >=? addr) AddressOverflow;
  match list_find (fun m => contains addr bytes m = true) ms with
  | Some (i, mapping) =>
      _ ← TORCH_CHECK (m_device_id mapping =? device_id) OtherDeviceMapped;
      mret (Some (i, mapping))
  | None => mret None
  end.

Fixpoint find_overlapping_host_mapping_locked (ms : list HostMapping) (addr bytes : Z) : M (option HostMapping) :=
  match ms with
  | [] => mret None
  | mapping :: ms =>
      let mapping_end := u64 (host_base mapping + size mapping) in
      _ ← TORCH_CHECK (mapping_end >=? host_base mapping) CachedOverflow;
      if (addr <? mapping_end) && (host_base mapping <? u64 (addr + bytes)) then mret (Some mapping)
      else find_overlapping_host_mapping_locked ms addr bytes
  end.

Definition check_no_partial_host_mapping_overlap_locked (ms : list HostMapping) (addr bytes : Z) : M unit :=
  overlap ← find_overlapping_host_mapping_locked ms addr bytes;
  TORCH_CHECK (bool_decide (overlap = None)) PartialOverlap.

Definition is_host_range_mapping_cached (e : Env) (range : HostRange) (bytes : Z) : M bool :=
  device_id ← get_current_host_mapping_device e;
  _ ← ensure_host_mapping_registry_process_locked e;
  r ← get_host_mapping_registry e;
  found ← find_host_mapping_locked (mappings r) (host_addr range) bytes device_id;
  mret (match found with Some _ => true | None => false end).

Definition get_mapped_host_device_ptr (e : Env) (host_ptr bytes : Z) : M Z :=
  range ← get_host_range e host_ptr bytes;
  device_id ← get_current_host_mapping_device e;
  _ ← ensure_host_mapping_registry_process_locked e;
  r ← get_host_mapping_registry e;
  found ← find_host_mapping_locked (mappings r) (host_addr range) bytes device_id;
  match found with
  | None => throw NotRegistered
  | Some (_, mapping) => mret (u64 (device_base mapping + u64 (host_addr range - host_base mapping)))
  end.

(** ** Registration *)

(** A mapping that is not in the registry yet: borrowed from the allocator, or
    registered here.  Returns its place in the vector and whether it is borrowed. *)
Definition new_mapping (e : Env) (host_ptr bytes device_id : Z) (range : HostRange) : M (nat * bool) :=
  let '(lookup_ret, borrowed_device_ptr) := aclrtHostGetDevicePointer e host_ptr in
  let already_mapped := (lookup_ret =? ACL_SUCCESS) && negb (borrowed_device_ptr =? 0) in
  mapping ← (
    if already_mapped then
      id ← allocate_host_mapping_id_locked e;
      r ← get_host_mapping_registry e;
      let c := counters r in
      _ ← put (r <| counters := c <| borrowed_mapping_count := u64 (borrowed_mapping_count c + 1) |> |>);
      mret (mkMapping id (host_addr range) bytes borrowed_device_ptr device_id false 0)
    else
      let '(register_ret, mapped_base) := aclrtHostRegister e (aligned_addr range) (register_size range) in
      _ ← acl (HostRegister (aligned_addr range) (register_size range) register_ret mapped_base);
      _ ← TORCH_CHECK (register_ret =? ACL_SUCCESS) RegisterFailed;
      id ← allocate_host_mapping_id_locked e;
      r ← get_host_mapping_registry e;
      let c := counters r in
      let current := u64 (register_bytes_current c + register_size range) in
      _ ← put (r <| counters := c <| register_call_count := u64 (register_call_count c + 1) |>
                                  <| register_bytes_total := u64 (register_bytes_total c + register_size range) |>
                                  <| register_bytes_current := current |>
                                  <| register_bytes_peak := Z.max (register_bytes_peak c) current |> |>);
      mret (mkMapping id (aligned_addr range) (register_size range) mapped_base device_id true 0));
  r ← get_host_mapping_registry e;
  _ ← put (r <| mappings := mappings r ++ [mapping] |>);
  mret (length (mappings r), already_mapped).

(** A handle for the mapping at place [i]. *)
Definition add_handle (e : Env) (src_pages : Tensor) (bytes device_id : Z) (range : HostRange) (i : nat) (borrowed : bool) : M Z :=
  r ← get_host_mapping_registry e;
  _ ← TORCH_CHECK ((next_handle r >? 0) && (next_handle r <? 2 ^ 63 - 1)) HandleSpace;
  let opaque_handle := next_handle r in
  match mappings r !! i with
  | None => throw InternalAssert
  | Some mapping =>
      let record := mkHandle opaque_handle (mapping_id mapping) (host_addr range) bytes (host_base mapping) (size mapping)
        (u64 (device_base mapping + u64 (host_addr range - host_base mapping))) (owned mapping) borrowed true src_pages (getpid e) device_id in
      _ ← put (r <| next_handle := i64 (opaque_handle + 1) |>
                 <| mappings := alter (fun m => m <| explicit_handle_count := u64 (explicit_handle_count m + 1) |>) i (mappings r) |>
                 <| handles := match handles r !! opaque_handle with
                               | Some _ => handles r
                               | None => <[opaque_handle := record]> (handles r)
                               end |>);
      mret opaque_handle
  end.

Definition register_explicit_mapped_host_range (e : Env) (src_pages : Tensor) : M Z :=
  let host_ptr := data_ptr src_pages in
  let bytes := tensor_bytes src_pages in
  range ← get_host_range e host_ptr bytes;
  device_id ← get_current_host_mapping_device e;
  _ ← ensure_host_mapping_registry_process_locked e;
  r ← get_host_mapping_registry e;
  let c := counters r in
  _ ← put (r <| counters := c <| explicit_register_call_count := u64 (explicit_register_call_count c + 1) |> |>);
  found ← find_host_mapping_locked (mappings r) (host_addr range) bytes device_id;
  '(i, borrowed) ← (
    match found with
    | None =>
        _ ← check_no_partial_host_mapping_overlap_locked (mappings r) (host_addr range) bytes;
        new_mapping e host_ptr bytes device_id range
    | Some (i, mapping) => mret (i, negb (owned mapping))
    end);
  add_handle e src_pages bytes device_id range i borrowed.

Definition register_kv_cache_block_gather_host_pool (e : Env) (src_pages : Tensor) : M Z :=
  _ ← TORCH_CHECK (defined src_pages) Undefined;
  _ ← TORCH_CHECK (numel src_pages >? 0) EmptyPages;
  _ ← TORCH_CHECK (is_cpu src_pages) NotCpu;
  _ ← TORCH_CHECK (is_contiguous src_pages) NotContiguous;
  register_explicit_mapped_host_range e src_pages.

(** ** Release *)

Definition find_host_mapping_by_id_locked (ms : list HostMapping) (id : Z) : option (nat * HostMapping) :=
  list_find (fun m => mapping_id m = id) ms.

Definition synchronize_before_host_mapping_release_locked (e : Env) : M unit :=
  _ ← acl (SynchronizeDevice (aclrtSynchronizeDevice e));
  TORCH_CHECK (aclrtSynchronizeDevice e =? ACL_SUCCESS) SynchronizeFailed.

(** The end of a release, which cannot fail. *)
Definition drop_handle (r : HostMappingRegistry) (opaque_handle : Z) (i : nat) (mapping : HostMapping) (remove_mapping : bool)
    : HostMappingRegistry :=
  let ms := alter (fun m => m <| explicit_handle_count := u64 (explicit_handle_count m - 1) |>) i (mappings r) in
  let c := counters r in
  let c := c <| explicit_unregister_call_count := u64 (explicit_unregister_call_count c + 1) |> in
  let c := if remove_mapping && owned mapping
           then c <| unregister_call_count := u64 (unregister_call_count c + 1) |>
                  <| register_bytes_current := u64 (register_bytes_current c - size mapping) |>
           else c in
  let ms := if remove_mapping then filter (fun m => mapping_id m <> mapping_id mapping) ms else ms in
  r <| mappings := ms |> <| counters := c |> <| handles := delete opaque_handle (handles r) |>.

Definition unregister_kv_cache_block_gather_host_pool (e : Env) (opaque_handle : Z) : M bool :=
  device_id ← get_current_host_mapping_device e;
  _ ← ensure_host_mapping_registry_process_locked e;
  r ← get_host_mapping_registry e;
  match handles r !! opaque_handle with
  | None => mret false
  | Some h =>
      if negb (active h) then mret false
      else
        match find_host_mapping_by_id_locked (mappings r) (h_mapping_id h) with
        | None => throw NoMapping
        | Some (i, mapping) =>
            _ ← TORCH_CHECK (explicit_handle_count mapping >? 0) BadCount;
            _ ← TORCH_CHECK (m_device_id mapping =? device_id) OtherDeviceRelease;
            let remove_mapping := explicit_handle_count mapping =? 1 in
            _ ← (if remove_mapping then synchronize_before_host_mapping_release_locked e else mret tt);
            _ ← (if remove_mapping && owned mapping then
                   let ret := aclrtHostUnregister e (host_base mapping) in
                   _ ← acl (HostUnregister (host_base mapping) ret);
                   TORCH_CHECK (ret =? ACL_SUCCESS) UnregisterFailed
                 else mret tt);
            _ ← put (drop_handle r opaque_handle i mapping remove_mapping);
            mret true
        end
  end.

(** ** Queries *)

Definition is_kv_cache_block_gather_host_mapping_cached (e : Env) (src_pages : Tensor) : M bool :=
  if negb (defined src_pages) || (numel src_pages =? 0) then mret false
  else if negb (is_cpu src_pages) || negb (is_contiguous src_pages) then mret false
  else
    range ← get_host_range e (data_ptr src_pages) (tensor_bytes src_pages);
    is_host_range_mapping_cached e range (tensor_bytes src_pages).

Definition b2z (b : bool) : Z := if b then 1 else 0.

Definition get_kv_cache_block_gather_host_mapping_stats (e : Env) : M (list (string * Z)) :=
  _ ← ensure_host_mapping_registry_process_locked e;
  r ← get_host_mapping_registry e;
  let c := counters r in
  let '(current_bytes, max_mapping_size, owned_mapping_count, borrowed_count) :=
    fold_left (fun '(cur, mx, o, b) m =>
      (u64 (cur + size m), (if size m >? mx then size m else mx), u64 (o + b2z (owned m)), u64 (b + b2z (negb (owned m)))))
      (mappings r) (0, 0, 0, 0) in
  mret [("mapping_count", Z.of_nat (length (mappings r)));
        ("mapped_bytes_current", i64 current_bytes);
        ("mapped_bytes_peak", i64 (register_bytes_peak c));
        ("mapped_bytes_max_region", i64 max_mapping_size);
        ("register_call_count", i64 (register_call_count c));
        ("register_bytes_total", i64 (register_bytes_total c));
        ("unregister_call_count", i64 (unregister_call_count c));
        ("owned_mapping_count", i64 owned_mapping_count);
        ("borrowed_mapping_count", i64 borrowed_count);
        ("borrowed_mapping_count_total", i64 (borrowed_mapping_count c));
        ("explicit_handle_count", Z.of_nat (base.size (filter (fun kv => active kv.2 = true) (handles r))));
        ("explicit_handle_storage_count", Z.of_nat (base.size (handles r)));
        ("explicit_register_call_count", i64 (explicit_register_call_count c));
        ("explicit_unregister_call_count", i64 (explicit_unregister_call_count c));
        ("registry_pid", pid r)]%string.

Definition inspect_kv_cache_block_gather_host_pool (e : Env) (opaque_handle : Z) : M (list (string * Z)) :=
  _ ← ensure_host_mapping_registry_process_locked e;
  r ← get_host_mapping_registry e;
  match handles r !! opaque_handle with
  | None => mret [("handle", opaque_handle); ("active", 0); ("known", 0)]%string
  | Some h =>
      mret [("handle", opaque_handle); ("known", 1); ("active", b2z (active h)); ("owned", b2z (h_owned h));
            ("already_mapped", b2z (already_mapped h)); ("mapping_id", i64 (h_mapping_id h));
            ("host_ptr", i64 (requested_host_addr h)); ("device_ptr", i64 (device_addr h));
            ("requested_bytes", i64 (requested_bytes h)); ("mapped_host_base", i64 (mapped_host_base h));
            ("mapped_bytes", i64 (mapped_bytes h)); ("owner_pid", owner_pid h); ("device_id", h_device_id h)]%string
  end.

(** ** The operator *)

Definition dim (t : Tensor) : Z := Z.of_nat (length (sizes t)).
Definition size0 (t : Tensor) : Z := vat (sizes t) 0.

Definition supported_type (s : ScalarType) : bool := match s with Float | Half | BFloat16 | Char => true | _ => false end.

Definition data_copy_block_bytes : Z := 32.

(** The checks up to the early return for an empty list of pages. *)
Definition check_ids (src_block_ids src_pages dst_block_ids out : Tensor) : M unit :=
  _ ← TORCH_CHECK (is_privateuseone src_block_ids) NotNpu;
  _ ← TORCH_CHECK (is_privateuseone dst_block_ids) NotNpu;
  _ ← TORCH_CHECK (is_privateuseone out) NotNpu;
  _ ← TORCH_CHECK (bool_decide (device src_block_ids = device out)) DeviceMismatch;
  _ ← TORCH_CHECK (bool_decide (device dst_block_ids = device out)) DeviceMismatch;
  _ ← TORCH_CHECK (is_cpu src_pages) NotCpu;
  _ ← TORCH_CHECK (bool_decide (scalar_type src_block_ids = Int)) BadType;
  _ ← TORCH_CHECK (bool_decide (scalar_type dst_block_ids = Int)) BadType;
  _ ← TORCH_CHECK ((dim src_block_ids =? 1) && (dim dst_block_ids =? 1)) BadShape;
  TORCH_CHECK (size0 src_block_ids =? size0 dst_block_ids) BadShape.

Definition check_pages (src_block_ids src_pages dst_block_ids out : Tensor) : M unit :=
  _ ← TORCH_CHECK (is_contiguous src_block_ids) NotContiguous;
  _ ← TORCH_CHECK (is_contiguous dst_block_ids) NotContiguous;
  _ ← TORCH_CHECK (is_contiguous src_pages) NotContiguous;
  _ ← TORCH_CHECK (is_contiguous out) NotContiguous;
  _ ← TORCH_CHECK ((dim src_pages >=? 1) && (dim out >=? 1)) BadShape;
  _ ← TORCH_CHECK (bool_decide (scalar_type src_pages = scalar_type out)) BadType;
  _ ← TORCH_CHECK (supported_type (scalar_type src_pages)) BadType;
  _ ← TORCH_CHECK (size0 out >? 0) BadShape;
  _ ← TORCH_CHECK (Z.rem (numel out) (size0 out) =? 0) BadShape;
  let elements_per_block := Z.quot (numel out) (size0 out) in
  let bytes_per_block := i64 (elements_per_block * element_size (scalar_type out)) in
  TORCH_CHECK (Z.rem bytes_per_block data_copy_block_bytes =? 0) BadAlignment.

(** The current device inside the guard. *)
Definition with_device (e : Env) (d : Device) : Env :=
  match d with
  | NPU i => mkEnv (getpid e) (page_size_long e) ((aclrtGetDevice e).1, i) (aclrtHostGetDevicePointer e) (aclrtHostRegister e)
               (aclrtHostUnregister e) (aclrtSynchronizeDevice e)
  | _ => e
  end.

(** What is enqueued: the address that stands for the source pages, and the
    launch.  [op_api] says whether the entry points of ACLNN are found,
    [get_workspace] is the one that asks the tiling function. *)
Definition kv_cache_block_gather (op_api : bool) (get_workspace : Tensor -> Tensor -> Tensor -> Tensor -> option Gather.Launch)
    (e : Env) (src_block_ids src_pages dst_block_ids out : Tensor) : M (option (Z * Gather.Launch)) :=
  _ ← check_ids src_block_ids src_pages dst_block_ids out;
  if size0 src_block_ids =? 0 then mret None
  else
    _ ← check_pages src_block_ids src_pages dst_block_ids out;
    mapped_src_pages ← get_mapped_host_device_ptr (with_device e (device out)) (data_ptr src_pages) (tensor_bytes src_pages);
    _ ← TORCH_CHECK op_api NoOpApi;
    match get_workspace src_block_ids src_pages dst_block_ids out with
    | None => throw WorkspaceFailed
    | Some launch => mret (Some (mapped_src_pages, launch))
    end.

(** ** The library of the operator *)

Record Loader := mkLoader { opapi_handler : option Z; opapi_path : string }.

Section Loading.
(** The dynamic linker, and the search in the libraries of the process. *)
Context (dlopen : string -> option Z) (dlsym : Z -> string -> bool) (GetOpApiFuncAddr : string -> bool).

Definition get_host_gather_opapi_func_addr (l : Loader) (api_name : string) : bool :=
  match opapi_handler l with
  | Some handler => dlsym handler api_name
  | None => GetOpApiFuncAddr api_name
  end.

Definition has_kv_cache_block_gather_runtime (l : Loader) : bool :=
  get_host_gather_opapi_func_addr l "aclnnKvCacheBlockGatherGetWorkspaceSize" &&
  get_host_gather_opapi_func_addr l "aclnnKvCacheBlockGather".

Definition load_kv_cache_block_gather_runtime (path : string) (l : Loader) : outcome bool * Loader :=
  if bool_decide (path = EmptyString) then (Throw EmptyPath, l)
  else
    match opapi_handler l with
    | Some _ => if bool_decide (opapi_path l = path) then (Ret true, l) else (Throw OtherLibrary, l)
    | None =>
        match dlopen path with
        | None => (Throw DlopenFailed, mkLoader None (opapi_path l))
        | Some handler =>
            let l := mkLoader (Some handler) path in
            (Ret (has_kv_cache_block_gather_runtime l), l)
        end
    end.
End Loading.
End HostPool.
