(* ===== verification/HostPoolProofs.v ===== *)
(** * Mapped host pools: the invariant of the registry

    A weakest-precondition calculus for the computations, the invariant, and its
    preservation by the changes that the operations make. *)

From stdpp Require Import gmap.
From S2P Require Import Prelude GatherKernel HostPool.

Module HostPoolProofs.
Import HostPool.

(** ** Computations that throw *)

Definition wp {A} (m : M A) (w : World) (Q : outcome A -> World -> Prop) : Prop := Q (m w).1 (m w).2.

Lemma wp_mono {A} (m : M A) w (P Q : outcome A -> World -> Prop) : wp m w P -> (forall o w', P o w' -> Q o w') -> wp m w Q.
Proof. unfold wp. auto. Qed.

Lemma wp_ret {A} (a : A) w (Q : outcome A -> World -> Prop) : Q (Ret a) w -> wp (mret a) w Q.
Proof. done. Qed.

Lemma wp_bind {A B} (m : M A) (f : A -> M B) w Q :
  wp m w (fun o w' => match o with Ret a => wp (f a) w' Q | Throw e => Q (Throw e) w' end) -> wp (m ≫= f) w Q.
Proof. unfold wp, mbind, M_bind. destruct (m w) as [[a|e] w']; done. Qed.

Lemma wp_check {B} c e (f : unit -> M B) w Q :
  (c = true -> wp (f tt) w Q) -> (c = false -> Q (Throw e) w) -> wp (TORCH_CHECK c e ≫= f) w Q.
Proof. unfold wp, mbind, M_bind, TORCH_CHECK. destruct c; auto. Qed.

Lemma wp_put {B} r (f : unit -> M B) w Q : wp (f tt) (mkWorld (Some r) (w_acl w)) Q -> wp (put r ≫= f) w Q.
Proof. done. Qed.

Lemma wp_acl {B} c (f : unit -> M B) w Q : wp (f tt) (mkWorld (w_registry w) (w_acl w ++ [c])) Q -> wp (acl c ≫= f) w Q.
Proof. done. Qed.

Lemma wp_registry {B} e r tr (f : HostMappingRegistry -> M B) Q :
  pid r = getpid e -> wp (f r) (mkWorld (Some r) tr) Q -> wp (get_host_mapping_registry e ≫= f) (mkWorld (Some r) tr) Q.
Proof.
  intros Hp HQ. apply wp_bind. unfold wp, get_host_mapping_registry. cbn.
  by rewrite (proj2 (Z.eqb_eq _ _) Hp).
Qed.

Lemma wp_ensure {B} e r tr (f : unit -> M B) Q :
  pid r = getpid e -> wp (f tt) (mkWorld (Some r) tr) Q ->
  wp (ensure_host_mapping_registry_process_locked e ≫= f) (mkWorld (Some r) tr) Q.
Proof.
  intros Hp HQ. apply wp_bind. unfold ensure_host_mapping_registry_process_locked. apply wp_registry; [done|].
  unfold wp, TORCH_CHECK. by rewrite (proj2 (Z.eqb_eq _ _) Hp).
Qed.

(** Entering an operation: the registry exists then; it belongs to this process,
    or the call throws. *)
Lemma wp_device {B} e w (f : Z -> M B) Q :
  let r := default (new_HostMappingRegistry (getpid e)) (w_registry w) in
  let w' := mkWorld (Some r) (w_acl w) in
  (forall x, x = AfterFork \/ x = GetDevice -> Q (Throw x) w') ->
  (pid r = getpid e -> (aclrtGetDevice e).1 = ACL_SUCCESS -> wp (f (aclrtGetDevice e).2) w' Q) ->
  wp (get_current_host_mapping_device e ≫= f) w Q.
Proof.
  intros r w' Ht Hr. unfold wp, mbind, M_bind, get_current_host_mapping_device, get_host_mapping_registry, mbind, M_bind, TORCH_CHECK, mret, M_ret.
  fold r w'. destruct (Z.eqb_spec (pid r) (getpid e)); [|apply Ht; auto].
  destruct (aclrtGetDevice e) as [ret d]. cbn [fst snd] in *. destruct (Z.eqb_spec ret ACL_SUCCESS); [|apply Ht; auto].
  destruct (d >=? 0); [|apply Ht; auto]. by apply Hr.
Qed.

(** ** Lists of mappings *)

Section Find.
Context {A : Type} (P : A -> Prop) `{!forall x, Decision (P x)}.

Lemma list_find_alter (f : A -> A) i l j x :
  (forall y, P (f y) <-> P y) -> list_find P l = Some (j, x) ->
  exists x', list_find P (alter f i l) = Some (j, x') /\ (x' = x \/ x' = f x).
Proof.
  intros HP. revert i j. induction l as [|y l IH]; intros i j; [done|]. cbn. destruct (decide (P y)) as [Hy|Hy].
  - intros [= <- <-]. destruct i; cbn.
    + rewrite decide_True by by apply HP. eauto.
    + rewrite decide_True by done. eauto.
  - destruct (list_find P l) as [[j' x']|] eqn:E; [|done]. intros [= <- <-].
    destruct i as [|i]; cbn.
    + rewrite decide_False by by rewrite HP. rewrite E. cbn. eauto.
    + rewrite decide_False by done. destruct (IH i j' eq_refl) as (x'' & -> & Hx). cbn. eauto.
Qed.

Lemma list_find_filter (Q : A -> Prop) `{!forall x, Decision (Q x)} l j x :
  list_find P l = Some (j, x) -> Q x -> exists j', list_find P (filter Q l) = Some (j', x).
Proof.
  intros Hf Hq. revert j Hf. induction l as [|y l IH]; intros j; [done|]. cbn [list_find]. destruct (decide (P y)) as [Hy|Hy].
  - intros [= <- <-]. rewrite filter_cons_True by done. cbn [list_find]. rewrite decide_True by done. eauto.
  - destruct (list_find P l) as [[j' x']|] eqn:E; [|done]. cbn [fmap option_fmap option_map prod_map fst snd]. intros [= <- <-]. destruct (IH j' eq_refl) as (k & Hk).
    destruct (decide (Q y)).
    + rewrite filter_cons_True by done. cbn [list_find]. rewrite decide_False, Hk by done. cbn. eauto.
    + rewrite filter_cons_False by done. eauto.
Qed.
End Find.

Lemma elem_of_alter {A} (f : A -> A) i (l : list A) x :
  x ∈ alter f i l -> exists k y, l !! k = Some y /\ ((k = i /\ x = f y) \/ (k <> i /\ x = y)).
Proof.
  intros [k Hk]%list_elem_of_lookup. destruct (decide (k = i)) as [->|].
  - rewrite list_lookup_alter_eq in Hk. destruct (l !! i) as [y|] eqn:E; [|done]. injection Hk as <-. exists i, y. auto.
  - rewrite list_lookup_alter_ne in Hk by done. exists k, x. auto.
Qed.

Lemma fmap_alter_same {A B} (g : A -> B) (f : A -> A) i (l : list A) : (forall x, g (f x) = g x) -> g <$> alter f i l = g <$> l.
Proof. intros Hg. revert i. induction l as [|x l IH]; intros [|i]; cbn; [done|done|by rewrite Hg|by rewrite IH]. Qed.

(** Bytes and ranges of the mappings that are registered here. *)
Definition owned_bytes (ms : list HostMapping) : Z := foldr (fun m s => (if owned m then size m else 0) + s) 0 ms.
Definition registration (m : HostMapping) : option (Z * Z * Z) :=
  if owned m then Some (host_base m, size m, device_base m) else None.

(** The registrations that a sequence of calls leaves. *)
Definition live_step (l : list (Z * Z * Z)) (c : AclCall) : list (Z * Z * Z) :=
  match c with
  | HostRegister base bytes ret ptr => if ret =? ACL_SUCCESS then l ++ [(base, bytes, ptr)] else l
  | HostUnregister base ret => if ret =? ACL_SUCCESS then filter (fun x => x.1.1 <> base) l else l
  | SynchronizeDevice _ => l
  end.
Definition live (tr : list AclCall) : list (Z * Z * Z) := fold_left live_step tr [].

(** Every unregistration comes right behind a successful synchronisation. *)
Definition fenced (tr : list AclCall) : Prop :=
  forall pre b ret post, tr = pre ++ HostUnregister b ret :: post -> exists pre', pre = pre' ++ [SynchronizeDevice ACL_SUCCESS].

Lemma live_snoc tr c : live (tr ++ [c]) = live_step (live tr) c.
Proof. apply fold_left_app. Qed.

Lemma fenced_snoc tr c : fenced tr -> (forall b ret, c <> HostUnregister b ret) -> fenced (tr ++ [c]).
Proof.
  intros Hf Hc pre b ret post E. destruct post as [|x post _] using rev_ind.
  - apply app_inj_tail in E as [_ ->]. by destruct (Hc b ret).
  - rewrite app_comm_cons, app_assoc in E. apply app_inj_tail in E as [-> _]. by apply (Hf pre b ret post).
Qed.

Lemma fenced_unregister tr b ret : fenced tr -> fenced (tr ++ [SynchronizeDevice ACL_SUCCESS; HostUnregister b ret]).
Proof.
  intros Hf pre b' ret' post E. change [SynchronizeDevice ACL_SUCCESS; HostUnregister b ret]
    with ([SynchronizeDevice ACL_SUCCESS] ++ [HostUnregister b ret]) in E. rewrite app_assoc in E.
  destruct post as [|x post _] using rev_ind.
  - apply app_inj_tail in E as [<- _]. eauto.
  - rewrite app_comm_cons, app_assoc in E. apply app_inj_tail in E as [E _].
    by apply (fenced_snoc tr (SynchronizeDevice ACL_SUCCESS) Hf ltac:(done) pre b' ret' post).
Qed.

(** ** The invariant *)

(** Fields of updated records. *)
Ltac fields := cbn [update_field pid mappings handles next_mapping_id next_handle counters] in *.

(** Handles of a mapping. *)
Definition leases (hs : gmap Z HostMappingHandle) (id : Z) : Z :=
  Z.of_nat (base.size (filter (fun kv => h_mapping_id kv.2 = id) hs)).

Definition inside (addr bytes : Z) (m : HostMapping) : Prop := host_base m <= addr /\ addr + bytes <= host_base m + size m.

(** The size of a page of the system. *)
Class PageBytes := page : Z.

Section Invariant.
Context `{PS : PageBytes}.

(** A handle records its mapping, and the device address of its request. *)
Record LeaseOf (h : Z) (H : HostMappingHandle) (m : HostMapping) : Prop := {
  le_handle : handle H = h;
  le_active : active H = true;
  le_id : h_mapping_id H = mapping_id m;
  le_request : 0 < requested_host_addr H /\ 0 < requested_bytes H /\ inside (requested_host_addr H) (requested_bytes H) m;
  le_tensor : requested_host_addr H = data_ptr (tensor_owner H) /\ requested_bytes H = tensor_bytes (tensor_owner H) /\
    requested_host_addr H + requested_bytes H + page <= 2 ^ 64;
  le_mapped : mapped_host_base H = host_base m /\ mapped_bytes H = size m;
  le_device_addr : device_addr H = u64 (device_base m + (requested_host_addr H - host_base m));
  le_owned : h_owned H = owned m;
  le_device : h_device_id H = m_device_id m
}.

Record MappingOk (r : HostMappingRegistry) (m : HostMapping) : Prop := {
  mo_range : 0 <= host_base m /\ 0 < size m /\ host_base m + size m < 2 ^ 64;
  mo_page : owned m = true -> host_base m mod page = 0 /\ size m mod page = 0;
  mo_id : 0 < mapping_id m < next_mapping_id r;
  mo_count : explicit_handle_count m = leases (handles r) (mapping_id m)
}.

Definition disjoint_range (m m' : HostMapping) : Prop := host_base m + size m <= host_base m' \/ host_base m' + size m' <= host_base m.

(** Identifiers are unique; registered ranges do not overlap; every handle has a
    mapping, the first one that contains its request; the counters and the calls
    of the runtime agree with the registry. *)
Record Core (r : HostMappingRegistry) (tr : list AclCall) : Prop := {
  co_next : 0 < next_mapping_id r <= UINT64_MAX /\ 0 < next_handle r < 2 ^ 63;
  co_ids : NoDup (mapping_id <$> mappings r);
  co_mapping : forall m, m ∈ mappings r -> MappingOk r m;
  co_disjoint : forall m m', m ∈ mappings r -> m' ∈ mappings r -> mapping_id m <> mapping_id m' ->
    owned m = true -> owned m' = true -> disjoint_range m m';
  co_handles : forall h H, handles r !! h = Some H -> h < next_handle r /\
    exists i m, list_find (fun m => contains (requested_host_addr H) (requested_bytes H) m = true) (mappings r) = Some (i, m) /\ LeaseOf h H m;
  co_size : Z.of_nat (base.size (handles r)) < next_handle r;
  co_bytes : register_bytes_current (counters r) = u64 (owned_bytes (mappings r));
  co_live : next_mapping_id r < UINT64_MAX -> live tr ≡ₚ omap registration (mappings r);
  co_fenced : fenced tr
}.

(** A mapping without handle: only when there are no handles left. *)
Definition Leased (r : HostMappingRegistry) : Prop :=
  forall m, m ∈ mappings r -> next_handle r < 2 ^ 63 - 1 -> 0 < explicit_handle_count m.

Definition Inv (r : HostMappingRegistry) (tr : list AclCall) : Prop := Core r tr /\ Leased r.

(** What the calls and the counters change apart from the pool. *)
Definition same_pool (r r' : HostMappingRegistry) : Prop :=
  pid r' = pid r /\ mappings r' = mappings r /\ handles r' = handles r /\ next_mapping_id r' = next_mapping_id r /\
  next_handle r' = next_handle r /\ register_bytes_current (counters r') = register_bytes_current (counters r).

Lemma same_pool_refl r : same_pool r r.
Proof. by repeat split. Qed.

Lemma Core_same r r' tr : same_pool r r' -> Core r tr -> Core r' tr.
Proof.
  destruct r as [p ms hs ni nh c], r' as [p' ms' hs' ni' nh' c']. unfold same_pool.
  cbn [pid mappings handles next_mapping_id next_handle counters]. intros (-> & -> & -> & -> & -> & E) [C1 C2 C3 C4 C5 C6 C7 C8 C9].
  split; cbn [pid mappings handles next_mapping_id next_handle counters] in *; try done; [|by rewrite E].
  intros m Hm. destruct (C3 m Hm) as [M1 M2 M3 M4]. by split.
Qed.

Lemma Inv_same r r' tr : same_pool r r' -> Inv r tr -> Inv r' tr.
Proof.
  intros Hs [HC HL]. split; [by eapply Core_same|]. destruct Hs as (_ & Hm & _ & _ & Hn & _).
  intros m. rewrite Hm, Hn. apply HL.
Qed.

Lemma new_handle_pos p : 0 < Z.lor (Z.shiftl (Z.land p (2 ^ 31 - 1)) 32) 1 < 2 ^ 63.
Proof.
  assert (Hl : 0 <= Z.land p (2 ^ 31 - 1) < 2 ^ 31).
  { change (2 ^ 31 - 1) with (Z.ones 31). rewrite Z.land_ones by lia. apply Z.mod_pos_bound. lia. }
  set (a := Z.land p (2 ^ 31 - 1)) in *. rewrite Z.shiftl_mul_pow2 by lia.
  assert (E : Z.land (a * 2 ^ 32) 1 = 0).
  { change 1 with (Z.ones 1). rewrite Z.land_ones by lia. replace (a * 2 ^ 32) with (a * 2 ^ 31 * 2 ^ 1) by lia. apply Z.mod_mul. lia. }
  pose proof (Z.add_lor_land (a * 2 ^ 32) 1). lia.
Qed.

Lemma Inv_new p : Inv (new_HostMappingRegistry p) [].
Proof.
  split; [|intros m Hm; by apply elem_of_nil in Hm]. pose proof (new_handle_pos p).
  split; cbn [new_HostMappingRegistry mappings handles next_mapping_id next_handle counters register_bytes_current]; unfold UINT64_MAX.
  - lia.
  - apply NoDup_nil_2.
  - intros m Hm. by apply elem_of_nil in Hm.
  - intros m m' Hm. by apply elem_of_nil in Hm.
  - intros h H0. by rewrite lookup_empty.
  - rewrite map_size_empty. lia.
  - done.
  - done.
  - intros pre b ret post E. by destruct pre.
Qed.

(** *** The calls of the runtime *)

Lemma Core_acl r tr c :
  Core r tr ->
  match c with
  | HostRegister _ _ ret _ => ret <> ACL_SUCCESS \/ next_mapping_id r = UINT64_MAX
  | HostUnregister _ _ => False
  | SynchronizeDevice _ => True
  end -> Core r (tr ++ [c]).
Proof.
  intros [C1 C2 C3 C4 C5 C6 C7 C8 C9] Hc. split; try done.
  - intros Hn. rewrite live_snoc. destruct c as [b s ret p|b ret|ret]; cbn; [|done|by apply C8].
    destruct (Z.eqb_spec ret ACL_SUCCESS); [|by apply C8]. destruct Hc; [done|lia].
  - apply fenced_snoc; [done|]. by intros b ret ->.
Qed.

(** *** A new mapping *)

Lemma leases_new hs id : (forall h H, hs !! h = Some H -> h_mapping_id H <> id) -> leases hs id = 0.
Proof.
  intros Hid. unfold leases.
  assert (E : filter (fun kv => h_mapping_id kv.2 = id) hs = ∅).
  { apply map_empty_filter. intros h H Hh. cbn. by apply (Hid h). }
  by rewrite E, map_size_empty.
Qed.

Lemma owned_bytes_app ms ms' : owned_bytes (ms ++ ms') = owned_bytes ms + owned_bytes ms'.
Proof. unfold owned_bytes. induction ms as [|m ms IH]; cbn; lia. Qed.

Definition with_mapping (r : HostMappingRegistry) (m : HostMapping) (c : HostMappingCounters) : HostMappingRegistry :=
  r <| next_mapping_id := u64 (next_mapping_id r + 1) |> <| counters := c |> <| mappings := mappings r ++ [m] |>.

(** A mapping that may join the registry. *)
Record NewMapping (r : HostMappingRegistry) (m : HostMapping) : Prop := {
  nm_id : mapping_id m = next_mapping_id r /\ next_mapping_id r < UINT64_MAX;
  nm_range : 0 <= host_base m /\ 0 < size m /\ host_base m + size m < 2 ^ 64;
  nm_page : owned m = true -> host_base m mod page = 0 /\ size m mod page = 0;
  nm_disjoint : owned m = true -> forall m', m' ∈ mappings r -> owned m' = true -> disjoint_range m m';
  nm_count : explicit_handle_count m = 0
}.

Definition pushed (tr : list AclCall) (m : HostMapping) : list AclCall :=
  if owned m then tr ++ [HostRegister (host_base m) (size m) ACL_SUCCESS (device_base m)] else tr.

Lemma elem_of_snoc {A} (l : list A) x y : x ∈ l ++ [y] -> x ∈ l \/ x = y.
Proof. intros [?|?%list_elem_of_singleton]%elem_of_app; auto. Qed.

Lemma handle_id_lt r tr h H : Core r tr -> handles r !! h = Some H -> h_mapping_id H < next_mapping_id r.
Proof.
  intros HC Hh. destruct (co_handles _ _ HC h H Hh) as (_ & i & m & Hf & HL). rewrite (le_id _ _ _ HL).
  apply list_find_Some in Hf as (Hl & _). destruct (co_mapping _ _ HC m); [by eapply list_elem_of_lookup_2|lia].
Qed.

Lemma Core_push r tr m c :
  Core r tr -> NewMapping r m ->
  register_bytes_current c = u64 (register_bytes_current (counters r) + (if owned m then size m else 0)) ->
  Core (with_mapping r m c) (pushed tr m).
Proof.
  intros HC [[I1 I2] N1 N2 N3 N4] Hb. pose proof HC as [C1 C2 C3 C4 C5 C6 C7 C8 C9].
  assert (Hu : u64 (next_mapping_id r + 1) = next_mapping_id r + 1) by (apply u64_id; unfold UINT64_MAX in *; lia).
  assert (Hid : forall m', m' ∈ mappings r -> mapping_id m' < mapping_id m) by (intros m' Hm'; destruct (C3 m' Hm'); lia).
  split; unfold with_mapping; fields.
  - rewrite Hu. unfold UINT64_MAX in *. lia.
  - rewrite fmap_app. apply list.NoDup_app. split; [done|]. split; [|apply list.NoDup_singleton].
    intros x (m' & -> & Hm')%list_elem_of_fmap Hx. apply list_elem_of_singleton in Hx. specialize (Hid m' Hm'). lia.
  - intros m' [Hm' | ->]%elem_of_snoc.
    + destruct (C3 m' Hm') as [M1 M2 M3 M4]. split; [done|done|fields; rewrite Hu; lia|done].
    + split; [done|done|fields; rewrite Hu; lia|]. rewrite N4. symmetry. apply leases_new. intros h H Hh.
      fields. pose proof (handle_id_lt _ _ _ _ HC Hh). lia.
  - intros m1 m2 [H1 | ->]%elem_of_snoc [H2 | ->]%elem_of_snoc Hn O1 O2; [by apply C4| | |done].
    + destruct (N3 O2 m1 H1 O1); [by right|by left].
    + by apply N3.
  - intros h H Hh. destruct (C5 h H Hh) as (Hlt & i & m' & Hf & HL). split; [done|]. exists i, m'. split; [|done].
    by apply list_find_app_l.
  - done.
  - rewrite owned_bytes_app, Hb, C7. unfold u64. cbn [owned_bytes foldr]. rewrite Zplus_mod_idemp_l. f_equal. lia.
  - intros Hn. rewrite Hu in Hn. rewrite omap_app. cbn. unfold pushed, registration. destruct (owned m).
    + rewrite live_snoc. cbn. rewrite C8 by lia. done.
    + rewrite app_nil_r. apply C8. lia.
  - unfold pushed. destruct (owned m); [|done]. apply fenced_snoc; [done|]. done.
Qed.

(** *** A new handle *)

Definition inc (m : HostMapping) : HostMapping := m <| explicit_handle_count := u64 (explicit_handle_count m + 1) |>.
Definition dec (m : HostMapping) : HostMapping := m <| explicit_handle_count := u64 (explicit_handle_count m - 1) |>.

Definition with_handle (r : HostMappingRegistry) (i : nat) (H : HostMappingHandle) : HostMappingRegistry :=
  r <| next_handle := i64 (next_handle r + 1) |> <| mappings := alter inc i (mappings r) |>
    <| handles := match handles r !! next_handle r with Some _ => handles r | None => <[next_handle r := H]> (handles r) end |>.

Lemma leases_range r tr id : Core r tr -> 0 <= leases (handles r) id < 2 ^ 63.
Proof.
  intros HC. pose proof (co_size _ _ HC). pose proof (co_next _ _ HC). unfold leases.
  pose proof (map_size_filter (fun kv => h_mapping_id kv.2 = id) (handles r)). lia.
Qed.

Lemma leases_insert hs h H id :
  hs !! h = None -> leases (<[h := H]> hs) id = leases hs id + (if decide (h_mapping_id H = id) then 1 else 0).
Proof.
  intros Hh. unfold leases. destruct (decide (h_mapping_id H = id)).
  - rewrite map_filter_insert_True by done. rewrite map_size_insert_None; [lia|]. apply map_lookup_filter_None_2. by left.
  - rewrite map_filter_insert_False by done. rewrite delete_id by done. lia.
Qed.

Lemma leases_delete hs h H id :
  hs !! h = Some H -> leases (delete h hs) id = leases hs id - (if decide (h_mapping_id H = id) then 1 else 0).
Proof.
  intros Hh. rewrite <- (insert_delete_id hs h H Hh) at 2. rewrite leases_insert by apply lookup_delete_eq. lia.
Qed.

(** The same objects, up to their counts. *)
Lemma alter_mapping (f : HostMapping -> HostMapping) i r m :
  (forall x, mapping_id (f x) = mapping_id x) -> NoDup (mapping_id <$> mappings r) -> mappings r !! i = Some m ->
  forall x, x ∈ alter f i (mappings r) -> exists y, y ∈ mappings r /\ ((mapping_id y = mapping_id m /\ y = m /\ x = f y) \/ (mapping_id y <> mapping_id m /\ x = y)).
Proof.
  intros Hf Hnd Hi x Hx. apply elem_of_alter in Hx as (k & y & Hy & Hx). exists y. split; [by eapply list_elem_of_lookup_2|].
  destruct Hx as [[-> ->] | [Hk ->]].
  - rewrite Hi in Hy. injection Hy as <-. by left.
  - right. split; [|done]. intros E. apply Hk. apply (NoDup_lookup _ _ _ (mapping_id m) Hnd).
    + rewrite list_lookup_fmap, Hy. cbn. by rewrite E.
    + by rewrite list_lookup_fmap, Hi.
Qed.

Lemma contains_count addr bytes m n : contains addr bytes (m <| explicit_handle_count := n |>) = contains addr bytes m.
Proof. done. Qed.

Lemma LeaseOf_count h H m n : LeaseOf h H m -> LeaseOf h H (m <| explicit_handle_count := n |>).
Proof. intros [L1 L2 L3 L4 L5 L6 L7 L8 L9]. by split. Qed.

Lemma find_count (f : HostMapping -> HostMapping) i ms addr bytes j m :
  (forall x, exists n, f x = x <| explicit_handle_count := n |>) ->
  list_find (fun m => contains addr bytes m = true) ms = Some (j, m) ->
  exists m', list_find (fun m => contains addr bytes m = true) (alter f i ms) = Some (j, m') /\
    exists n, m' = m <| explicit_handle_count := n |>.
Proof.
  intros Hf Hl. edestruct (list_find_alter (fun m => contains addr bytes m = true) f i ms j m) as (m' & Hm' & Hx); [|exact Hl|].
  - intros y. destruct (Hf y) as [n ->]. done.
  - exists m'. split; [done|]. destruct Hx as [-> | ->]; [|apply Hf]. exists (explicit_handle_count m). by destruct m.
Qed.

Lemma owned_bytes_count f i ms : (forall x, exists n, f x = x <| explicit_handle_count := n |>) -> owned_bytes (alter f i ms) = owned_bytes ms.
Proof.
  intros Hf. unfold owned_bytes. revert i. induction ms as [|m ms IH]; intros [|i]; cbn [alter list_alter foldr]; [done|done| |by rewrite IH].
  destruct (Hf m) as [n ->]. done.
Qed.

Lemma omap_count f i (ms : list HostMapping) : (forall x, exists n, f x = x <| explicit_handle_count := n |>) -> omap registration (alter f i ms) = omap registration ms.
Proof.
  intros Hf. revert i. induction ms as [|m ms IH]; intros [|i]; [done|done| |].
  - cbn. destruct (Hf m) as [n ->]. done.
  - cbn [alter list_alter]. cbn [omap list_omap]. change (list_alter f i ms) with (alter f i ms). by rewrite IH.
Qed.

Lemma inc_count m : exists n, inc m = m <| explicit_handle_count := n |>.
Proof. by eexists. Qed.
Lemma dec_count m : exists n, dec m = m <| explicit_handle_count := n |>.
Proof. by eexists. Qed.

Lemma no_next_handle r tr : Core r tr -> handles r !! next_handle r = None.
Proof.
  intros HC. destruct (handles r !! next_handle r) as [H|] eqn:E; [|done]. destruct (co_handles _ _ HC _ _ E). lia.
Qed.

Lemma Core_handle r tr i m H :
  Core r tr -> next_handle r < 2 ^ 63 - 1 ->
  list_find (fun m => contains (requested_host_addr H) (requested_bytes H) m = true) (mappings r) = Some (i, m) ->
  LeaseOf (next_handle r) H m -> Core (with_handle r i H) tr.
Proof.
  intros HC Hn Hf HL. pose proof HC as [C1 C2 C3 C4 C5 C6 C7 C8 C9]. pose proof (no_next_handle _ _ HC) as Hno.
  assert (Hnx : i64 (next_handle r + 1) = next_handle r + 1) by (apply i64_id; lia).
  pose proof Hf as (Hi & _)%list_find_Some.
  pose proof (alter_mapping inc i r m ltac:(done) C2 Hi) as Hal.
  split; unfold with_handle; fields; rewrite ?Hno, ?Hnx.
  - lia.
  - by rewrite fmap_alter_same.
  - intros x Hx. destruct (Hal x Hx) as (y & Hy & Hxy). destruct (C3 y Hy) as [M1 M2 M3 M4].
    pose proof (leases_range r tr (mapping_id y) HC).
    destruct Hxy as [(E & -> & ->) | [E ->]]; split; try done; fields.
    + cbn [inc update_field explicit_handle_count mapping_id]. rewrite M4, leases_insert, decide_True by (done || by rewrite (le_id _ _ _ HL)).
      apply u64_id. lia.
    + rewrite leases_insert, decide_False by (done || by rewrite (le_id _ _ _ HL)). lia.
  - intros x x' Hx Hx' Hne O1 O2. destruct (Hal x Hx) as (y & Hy & Ey), (Hal x' Hx') as (y' & Hy' & Ey').
    assert (E1 : exists n, x = y <| explicit_handle_count := n |>) by (destruct Ey as [(_ & _ & ->)|[_ ->]]; [apply inc_count|exists (explicit_handle_count y); by destruct y]).
    assert (E2 : exists n, x' = y' <| explicit_handle_count := n |>) by (destruct Ey' as [(_ & _ & ->)|[_ ->]]; [apply inc_count|exists (explicit_handle_count y'); by destruct y']).
    destruct E1 as [n ->], E2 as [n' ->]. by apply (C4 y y').
  - intros h H' Hh. apply lookup_insert_Some in Hh as [[<- <-] | [Hne Hh]].
    + split; [lia|]. destruct (find_count inc i _ _ _ _ _ inc_count Hf) as (m' & Hm' & n & ->). exists i. eexists. split; [exact Hm'|].
      by apply LeaseOf_count.
    + destruct (C5 h H' Hh) as (Hlt & j & m' & Hf' & HL'). split; [lia|].
      destruct (find_count inc i _ _ _ _ _ inc_count Hf') as (m'' & Hm'' & n & ->). exists j. eexists. split; [exact Hm''|]. by apply LeaseOf_count.
  - rewrite map_size_insert_None by done. lia.
  - rewrite owned_bytes_count by apply inc_count. done.
  - rewrite omap_count by apply inc_count. done.
  - done.
Qed.

(** *** A released handle *)

Definition released (tr : list AclCall) (m : HostMapping) (remove_mapping : bool) : list AclCall :=
  if remove_mapping
  then tr ++ SynchronizeDevice ACL_SUCCESS :: (if owned m then [HostUnregister (host_base m) ACL_SUCCESS] else [])
  else tr.

Lemma leases_pos (hs : gmap Z HostMappingHandle) h H : hs !! h = Some H -> 0 < leases hs (h_mapping_id H).
Proof.
  intros Hh. rewrite <- (insert_delete_id hs h H Hh), leases_insert, decide_True by (done || apply lookup_delete_eq).
  unfold leases. lia.
Qed.

Lemma filter_all_in {A} (P : A -> Prop) `{!forall x, Decision (P x)} (l : list A) : (forall x, x ∈ l -> P x) -> filter P l = l.
Proof.
  induction l as [|x l IH]; intros HP; [done|]. rewrite filter_cons_True by (apply HP; by left). rewrite IH; [done|].
  intros y Hy. apply HP. by right.
Qed.

(** Removing a mapping by its identifier removes it and nothing else. *)
Lemma filter_one (ms : list HostMapping) m :
  NoDup (mapping_id <$> ms) -> m ∈ ms ->
  ms ≡ₚ m :: filter (fun m' => mapping_id m' <> mapping_id m) ms.
Proof.
  induction ms as [|x ms IH]; intros Hnd Hm; [by apply elem_of_nil in Hm|]. rewrite fmap_cons in Hnd. apply list.NoDup_cons in Hnd as [Hx Hnd].
  apply elem_of_cons in Hm as [->|Hm].
  - rewrite filter_cons_False by (by intros []). rewrite filter_all_in; [done|].
    intros y Hy E. apply Hx. rewrite <- E. by apply list_elem_of_fmap_2.
  - rewrite filter_cons_True. { rewrite (IH Hnd Hm) at 1. apply perm_swap. }
    intros E. apply Hx. rewrite E. by apply list_elem_of_fmap_2.
Qed.

Lemma owned_bytes_perm (ms ms' : list HostMapping) : ms ≡ₚ ms' -> owned_bytes ms = owned_bytes ms'.
Proof. induction 1; cbn [owned_bytes foldr] in *; unfold owned_bytes in *; lia. Qed.

Lemma drop_elem r i m (rm : bool) x :
  NoDup (mapping_id <$> mappings r) -> mappings r !! i = Some m ->
  x ∈ (if rm then filter (fun m' => mapping_id m' <> mapping_id m) (alter dec i (mappings r)) else alter dec i (mappings r)) ->
  (rm = false /\ x = dec m) \/ (x ∈ mappings r /\ mapping_id x <> mapping_id m).
Proof.
  intros Hnd Hi Hx. assert (Hx' : x ∈ alter dec i (mappings r) /\ (rm = true -> mapping_id x <> mapping_id m)).
  { destruct rm; [|done]. apply list_elem_of_filter in Hx as [? ?]. done. }
  destruct Hx' as [Ha Hr]. destruct (alter_mapping dec i r m ltac:(done) Hnd Hi x Ha) as (y & Hy & [(E & -> & ->) | [E ->]]); [|by right].
  left. split; [|done]. destruct rm; [|done]. by destruct (Hr eq_refl).
Qed.

Lemma drop_perm r i m :
  NoDup (mapping_id <$> mappings r) -> mappings r !! i = Some m ->
  alter dec i (mappings r) ≡ₚ dec m :: filter (fun m' => mapping_id m' <> mapping_id m) (alter dec i (mappings r)).
Proof.
  intros Hnd Hi. apply (filter_one (alter dec i (mappings r)) (dec m)).
  - by rewrite fmap_alter_same.
  - apply list_elem_of_lookup. exists i. by rewrite list_lookup_alter_eq, Hi.
Qed.

Lemma drop_live r tr i m :
  Core r tr -> mappings r !! i = Some m -> next_mapping_id r < UINT64_MAX ->
  live (released tr m true) ≡ₚ omap registration (filter (fun m' => mapping_id m' <> mapping_id m) (alter dec i (mappings r))).
Proof.
  intros HC Hi Hn. pose proof HC as [C1 C2 C3 C4 C5 C6 C7 C8 C9].
  assert (Hl : live tr ≡ₚ omap registration (dec m :: filter (fun m' => mapping_id m' <> mapping_id m) (alter dec i (mappings r)))).
  { rewrite <- drop_perm by done. rewrite omap_count by apply dec_count. by apply C8. }
  unfold released. rewrite app_comm_cons || idtac. change (SynchronizeDevice ACL_SUCCESS :: ?x) with ([SynchronizeDevice ACL_SUCCESS] ++ x).
  assert (Hm : m ∈ mappings r) by (by eapply list_elem_of_lookup_2). pose proof (C3 m Hm) as [M1 M2 M3 M4].
  rewrite app_assoc. destruct (owned m) eqn:Ho.
  - rewrite live_snoc, live_snoc. cbn [live_step]. rewrite Z.eqb_refl, Hl. cbn [omap list_omap]. unfold registration at 1.
    cbn [dec update_field owned host_base size device_base]. rewrite Ho. rewrite filter_cons_False by (cbn; by intros []).
    apply Permutation_refl', filter_all_in. intros y (x & Hx & Hr)%list_elem_of_omap.
    apply list_elem_of_filter in Hx as [Hid Hx]. destruct (drop_elem r i m false x C2 Hi Hx) as [[_ ->]|[Hx' _]]; [by destruct Hid|].
    unfold registration in Hr. destruct (owned x) eqn:Ox; [|done]. injection Hr as <-. cbn.
    pose proof (mo_range _ _ (C3 x Hx')). destruct (C4 x m Hx' Hm Hid Ox Ho); lia.
  - rewrite app_nil_r, live_snoc. cbn [live_step]. rewrite Hl. cbn [omap list_omap]. unfold registration at 1.
    cbn [dec update_field owned]. by rewrite Ho.
Qed.

Lemma Core_drop r tr h H i m :
  Core r tr -> handles r !! h = Some H -> find_host_mapping_by_id_locked (mappings r) (h_mapping_id H) = Some (i, m) ->
  Core (drop_handle r h i m (explicit_handle_count m =? 1)) (released tr m (explicit_handle_count m =? 1)).
Proof.
  intros HC Hh Hf. pose proof HC as [C1 C2 C3 C4 C5 C6 C7 C8 C9].
  unfold find_host_mapping_by_id_locked in Hf. apply list_find_Some in Hf as (Hi & Hid & _).
  assert (Hm : m ∈ mappings r) by (by eapply list_elem_of_lookup_2). pose proof (C3 m Hm) as [M1 M2 M3 M4].
  pose proof (leases_range r tr (mapping_id m) HC) as Hlr. pose proof (leases_pos _ _ _ Hh) as Hpos. rewrite <- Hid in Hpos.
  set (rm := explicit_handle_count m =? 1). assert (Hrm : rm = true <-> leases (handles r) (mapping_id m) = 1) by (unfold rm; rewrite Z.eqb_eq, M4; done).
  pose proof (fun x => drop_elem r i m rm x C2 Hi) as Hel.
  assert (Hy : forall z, z ∈ (if rm then filter (fun m' => mapping_id m' <> mapping_id m) (alter dec i (mappings r)) else alter dec i (mappings r)) ->
    exists y n, y ∈ mappings r /\ z = y <| explicit_handle_count := n |>).
  { intros z Hz. destruct (Hel z Hz) as [[_ ->]|[Hz' _]]; [exists m; by eexists|exists z, (explicit_handle_count z); by destruct z]. }
  split; unfold drop_handle; fields.
  - done.
  - change (fun m0 => m0 <| explicit_handle_count := u64 (explicit_handle_count m0 - 1) |>) with dec.
    assert (Hnd : NoDup (mapping_id <$> alter dec i (mappings r))) by (by rewrite fmap_alter_same). destruct rm; [|done].
    eapply sublist_NoDup; [exact Hnd|]. apply fmap_sublist, sublist_filter.
  - intros x Hx. destruct (Hel x Hx) as [[Hr ->]|[Hx' Hne]].
    + split; try done. fields. cbn [dec update_field explicit_handle_count mapping_id]. rewrite (leases_delete _ _ _ _ Hh), decide_True, M4 by done.
      apply u64_id. lia.
    + destruct (C3 x Hx') as [X1 X2 X3 X4]. split; try done. fields. rewrite (leases_delete _ _ _ _ Hh), decide_False by congruence. lia.
  - intros x x' Hx Hx' Hne O1 O2.
    destruct (Hy x Hx) as (y & n & Hin & ->), (Hy x' Hx') as (y' & n' & Hin' & ->). by apply (C4 y y').
  - intros h' H' Hh'. apply lookup_delete_Some in Hh' as [Hne Hh']. destruct (C5 h' H' Hh') as (Hlt & j & m' & Hf' & HL'). split; [done|].
    destruct (find_count dec i _ _ _ _ _ dec_count Hf') as (m'' & Hm'' & n & ->). destruct rm; [|exists j; eexists; split; [exact Hm''|by apply LeaseOf_count]].
    edestruct (list_find_filter (fun m => contains (requested_host_addr H') (requested_bytes H') m = true)
      (fun m0 => mapping_id m0 <> mapping_id m) _ _ _ Hm'') as [j' Hj']; [|exists j'; eexists; split; [exact Hj'|by apply LeaseOf_count]].
    cbn [update_field mapping_id]. intros E. pose proof (leases_pos (delete h (handles r)) h' H') as Hp.
    rewrite lookup_delete_ne in Hp by done. specialize (Hp Hh'). rewrite (le_id _ _ _ HL'), E, (leases_delete _ _ _ _ Hh), decide_True in Hp by done.
    destruct Hrm as [Hrm _]. specialize (Hrm eq_refl). lia.
  - rewrite map_size_delete, Hh. lia.
  - destruct rm eqn:Er; cbn [andb].
    + pose proof (owned_bytes_perm _ _ (drop_perm r i m C2 Hi)) as Hb. rewrite owned_bytes_count in Hb by apply dec_count.
      unfold owned_bytes at 2 in Hb. cbn [foldr dec update_field owned size] in Hb. fold (owned_bytes (filter (fun m' => mapping_id m' <> mapping_id m) (alter dec i (mappings r)))) in Hb.
      change (fun m0 => m0 <| explicit_handle_count := u64 (explicit_handle_count m0 - 1) |>) with dec.
      destruct (owned m); cbn [update_field register_bytes_current]; rewrite C7, Hb; unfold u64; [|f_equal; lia].
      rewrite Zminus_mod_idemp_l. f_equal. lia.
    + cbn [update_field register_bytes_current]. rewrite owned_bytes_count by apply dec_count. done.
  - intros Hn. destruct rm; [by apply drop_live|]. cbn [released]. rewrite omap_count by apply dec_count. by apply C8.
  - unfold released. destruct rm; [|done]. destruct (owned m); [by apply fenced_unregister|]. by apply fenced_snoc.
Qed.

End Invariant.
End HostPoolProofs.
