(* ===== verification/HostPoolOps.v ===== *)
(** * Mapped host pools: what the operations can do

    The outcomes of a registration and of a release, exceptions included, as
    relations that the code refines; each outcome keeps the invariant. *)

From stdpp Require Import gmap.
From S2P Require Import Prelude GatherKernel HostPool HostPoolProofs.

Module HostPoolOps.
Import HostPool HostPoolProofs.

Section Operations.
Context `{PS : PageBytes}.

(** ** The operations *)

(** The page size of the system, and tensors that end before the last page of
    the address space. *)
Definition EnvOk (e : Env) : Prop := page_size_long e = page /\ 0 < page < 2 ^ 63.
Definition TensorOk (t : Tensor) : Prop := 0 <= data_ptr t /\ data_ptr t + tensor_bytes t + page <= 2 ^ 64.

Record RangeOk (addr bytes : Z) (g : HostRange) : Prop := {
  ra_addr : host_addr g = addr;
  ra_page : aligned_addr g mod page = 0 /\ register_size g mod page = 0;
  ra_inside : 0 <= aligned_addr g <= addr /\ addr + bytes <= aligned_addr g + register_size g;
  ra_tight : addr < aligned_addr g + page /\ aligned_addr g + register_size g < addr + bytes + page;
  ra_bytes : 0 < bytes;
  ra_nonnull : 0 < addr
}.

Lemma wp_range {B} e addr bytes (f : HostRange -> M B) w Q :
  EnvOk e -> 0 <= addr -> 0 <= bytes -> addr + bytes + page <= 2 ^ 64 ->
  (forall x, Q (Throw x) w) -> (forall g, RangeOk addr bytes g -> wp (f g) w Q) -> wp (get_host_range e addr bytes ≫= f) w Q.
Proof.
  intros [Hp Hpage] Ha Hb Hend Ht Hr. apply wp_bind. unfold get_host_range. rewrite Hp, (u64_id page) by lia.
  apply wp_check; [intros Hnz|intros _; apply Ht]. apply negb_true_iff, Z.eqb_neq in Hnz.
  apply wp_check; [intros Hb'|intros _; apply Ht]. apply wp_check; [intros _|intros _; apply Ht].
  apply wp_check; [intros _|intros _; apply Ht].
  assert (P0 : 0 < page) by lia. assert (P1 : page <> 0) by lia.
  pose proof (Z.mul_div_le addr page P0) as H1. pose proof (Z.mod_pos_bound addr page P0) as H2.
  pose proof (Z.div_mod addr page P1) as H3. pose proof (Z.div_pos addr page Ha P0).
  rewrite (Z.mul_comm page) in H1, H3. set (al := addr / page * page) in *.
  rewrite (u64_id al), (u64_id (addr - al)) by lia.
  apply wp_check; [intros _|intros _; apply Ht]. rewrite (u64_id (addr - al + bytes)) by lia.
  apply wp_bind. unfold round_up_u64. apply wp_check; [intros _|intros _; apply Ht]. apply wp_check; [intros _|intros _; apply Ht].
  apply wp_ret. cbn. apply Hr. set (v := addr - al + bytes). rewrite (u64_id (v + page - 1)) by (unfold v; lia).
  pose proof (Z.mul_div_le (v + page - 1) page P0) as V1. pose proof (Z.mod_pos_bound (v + page - 1) page P0) as V2.
  pose proof (Z.div_mod (v + page - 1) page P1) as V3. assert (0 <= (v + page - 1) / page) by (apply Z.div_pos; [unfold v; lia|lia]).
  rewrite (Z.mul_comm page) in V1, V3. assert (Hm : forall q, q * page mod page = 0) by (intros q; apply Z.mod_mul; lia).
  set (q := (v + page - 1) / page) in *. assert (0 <= q * page) by (apply Z.mul_nonneg_nonneg; lia).
  rewrite (u64_id (q * page)) by (unfold v in *; lia). split; cbn [host_addr aligned_addr register_size]; [done|split; apply Hm|unfold v in *; lia..].
Qed.

Lemma wp_find {B} ms addr bytes dev (f : option (nat * HostMapping) -> M B) w Q :
  (forall x, Q (Throw x) w) ->
  (list_find (fun m => contains addr bytes m = true) ms = None -> wp (f None) w Q) ->
  (forall i m, list_find (fun m => contains addr bytes m = true) ms = Some (i, m) -> m_device_id m = dev -> wp (f (Some (i, m))) w Q) ->
  wp (find_host_mapping_locked ms addr bytes dev ≫= f) w Q.
Proof.
  intros Ht Hn Hs. apply wp_bind. unfold find_host_mapping_locked. apply wp_check; [intros _|intros _; apply Ht].
  destruct (list_find _ ms) as [[i m]|] eqn:E; [|by apply Hn].
  apply wp_check; [intros Hd%Z.eqb_eq|intros _; apply Ht]. by apply Hs.
Qed.

Definition no_overlap (ms : list HostMapping) (addr bytes : Z) : Prop :=
  forall m, m ∈ ms -> u64 (host_base m + size m) <= addr \/ u64 (addr + bytes) <= host_base m.

Lemma wp_overlap {B} ms addr bytes (f : unit -> M B) w Q :
  (forall x, Q (Throw x) w) -> (no_overlap ms addr bytes -> wp (f tt) w Q) ->
  wp (check_no_partial_host_mapping_overlap_locked ms addr bytes ≫= f) w Q.
Proof.
  intros Ht Hn. apply wp_bind. unfold check_no_partial_host_mapping_overlap_locked. apply wp_bind.
  assert (H : wp (find_overlapping_host_mapping_locked ms addr bytes) w (fun o w' => w' = w /\ (o = Ret None -> no_overlap ms addr bytes))).
  { clear Ht Hn. induction ms as [|m ms IH]; [split; [done|]; intros _ m Hm; by apply elem_of_nil in Hm|].
    cbn [find_overlapping_host_mapping_locked]. apply wp_check; [intros _|done].
    destruct ((addr <? u64 (host_base m + size m)) && (host_base m <? u64 (addr + bytes))) eqn:E; [done|].
    eapply wp_mono; [exact IH|]. intros o w' [-> Ho]. split; [done|]. intros Hr. specialize (Ho Hr).
    intros m' [->|Hm']%elem_of_cons; [|by apply Ho]. apply andb_false_iff in E as [E|E]; apply Z.ltb_ge in E; auto. }
  eapply wp_mono; [exact H|]. intros [[m|]|x] w' [-> Ho]; [apply Ht| |apply Ht]. by apply Hn, Ho.
Qed.

Lemma wp_allocate {B} e r tr (f : Z -> M B) Q :
  pid r = getpid e -> Core r tr ->
  (next_mapping_id r = UINT64_MAX -> Q (Throw IdSpace) (mkWorld (Some r) tr)) ->
  (next_mapping_id r < UINT64_MAX -> wp (f (next_mapping_id r)) (mkWorld (Some (r <| next_mapping_id := u64 (next_mapping_id r + 1) |>)) tr) Q) ->
  wp (allocate_host_mapping_id_locked e ≫= f) (mkWorld (Some r) tr) Q.
Proof.
  intros Hp HC Ht Hr. pose proof (co_next _ _ HC) as [Hn _]. apply wp_bind. unfold allocate_host_mapping_id_locked. apply wp_registry; [done|].
  apply wp_check.
  - intros [_ E%Z.ltb_lt]%andb_true_iff. apply wp_put, wp_ret. by apply Hr.
  - intros [E|E%Z.ltb_ge]%andb_false_iff; [rewrite Z.gtb_ltb, Z.ltb_ge in E; lia|]. apply Ht. lia.
Qed.

(** *** Registration *)

(** The handle of a request. *)
Definition handle_for (e : Env) (t : Tensor) (h device_id : Z) (borrowed : bool) (m : HostMapping) : HostMappingHandle :=
  mkHandle h (mapping_id m) (data_ptr t) (tensor_bytes t) (host_base m) (size m)
    (u64 (device_base m + u64 (data_ptr t - host_base m))) (owned m) borrowed true t (getpid e) device_id.

(** What a registration can do: nothing, with a call that failed or (when there
    are no identifiers left) a registration that is lost; a mapping without
    handle, when there are no handles left; a handle for a mapping that exists;
    a handle for a new one. *)
Inductive Registers (e : Env) (t : Tensor) (r : HostMappingRegistry) (tr : list AclCall)
    : outcome Z -> HostMappingRegistry -> list AclCall -> Prop :=
  | reg_throw x r' : same_pool r r' -> Registers e t r tr (Throw x) r' tr
  | reg_refused x r' base bytes ret ptr :
      same_pool r r' -> ret <> ACL_SUCCESS \/ next_mapping_id r = UINT64_MAX ->
      Registers e t r tr (Throw x) r' (tr ++ [HostRegister base bytes ret ptr])
  | reg_no_handle r1 m c :
      same_pool r r1 -> NewMapping r1 m -> next_handle r = 2 ^ 63 - 1 ->
      register_bytes_current c = u64 (register_bytes_current (counters r1) + (if owned m then size m else 0)) ->
      Registers e t r tr (Throw HandleSpace) (with_mapping r1 m c) (pushed tr m)
  | reg_reuse r1 i m :
      same_pool r r1 -> next_handle r < 2 ^ 63 - 1 ->
      list_find (fun m => contains (data_ptr t) (tensor_bytes t) m = true) (mappings r) = Some (i, m) ->
      0 < tensor_bytes t -> 0 < data_ptr t -> m_device_id m = (aclrtGetDevice e).2 ->
      Registers e t r tr (Ret (next_handle r))
        (with_handle r1 i (handle_for e t (next_handle r) (aclrtGetDevice e).2 (negb (owned m)) m)) tr
  | reg_new r1 m c :
      same_pool r r1 -> NewMapping r1 m -> next_handle r < 2 ^ 63 - 1 ->
      register_bytes_current c = u64 (register_bytes_current (counters r1) + (if owned m then size m else 0)) ->
      list_find (fun m => contains (data_ptr t) (tensor_bytes t) m = true) (mappings r) = None ->
      inside (data_ptr t) (tensor_bytes t) m -> 0 < tensor_bytes t -> 0 < data_ptr t -> m_device_id m = (aclrtGetDevice e).2 ->
      Registers e t r tr (Ret (next_handle r))
        (with_handle (with_mapping r1 m c) (length (mappings r))
           (handle_for e t (next_handle r) (aclrtGetDevice e).2 (negb (owned m)) m)) (pushed tr m).

Lemma no_overlap_disjoint r tr addr bytes g m :
  Core r tr -> RangeOk addr bytes g -> addr + bytes < 2 ^ 64 -> no_overlap (mappings r) addr bytes -> 0 < page ->
  m ∈ mappings r -> owned m = true ->
  aligned_addr g + register_size g <= host_base m \/ host_base m + size m <= aligned_addr g.
Proof.
  intros HC [R1 [R2 R3] [R4 R5] [R6 R7] R8 R9] Hend Hno Hp Hm Ho. destruct (co_mapping _ _ HC m Hm) as [(M1 & M2 & M3) Mp _ _].
  destruct (Mp Ho) as [P1 P2]. specialize (Hno m Hm). rewrite !u64_id in Hno by lia.
  apply Z.mod_divide in R2 as [a Ea], R3 as [b Eb], P1 as [c Ec], P2 as [d' Ed]; try lia.
  destruct Hno as [Hno|Hno]; [right|left]; rewrite ?Ea, ?Eb, ?Ec, ?Ed in *.
  - assert (c + d' <= a); [|nia]. assert ((c + d') * page < (a + 1) * page) by nia.
    apply Z.mul_lt_mono_pos_r in H; lia.
  - assert (a + b <= c); [|nia]. assert ((a + b) * page < (c + 1) * page) by nia.
    apply Z.mul_lt_mono_pos_r in H; lia.
Qed.

Lemma wp_new_mapping {B} e addr bytes dev g r tr (f : nat * bool -> M B) Q :
  EnvOk e -> pid r = getpid e -> Core r tr -> RangeOk addr bytes g -> addr + bytes + page <= 2 ^ 64 -> no_overlap (mappings r) addr bytes ->
  (forall x, Q (Throw x) (mkWorld (Some r) tr)) ->
  (forall x base size ret ptr, ret <> ACL_SUCCESS \/ next_mapping_id r = UINT64_MAX ->
     Q (Throw x) (mkWorld (Some r) (tr ++ [HostRegister base size ret ptr]))) ->
  (forall m c, NewMapping r m -> register_bytes_current c = u64 (register_bytes_current (counters r) + (if owned m then size m else 0)) ->
     inside addr bytes m -> m_device_id m = dev ->
     wp (f (length (mappings r), negb (owned m))) (mkWorld (Some (with_mapping r m c)) (pushed tr m)) Q) ->
  wp (new_mapping e addr bytes dev g ≫= f) (mkWorld (Some r) tr) Q.
Proof.
  intros [Hpg Hpage] Hp HC HR Hend Hno Ht Hx Hm. pose proof HR as [R1 [R2 R3] [R4 R5] [R6 R7] R8 R9].
  apply wp_bind. unfold new_mapping. destruct (aclrtHostGetDevicePointer e addr) as [lret ptr]. apply wp_bind.
  destruct ((lret =? ACL_SUCCESS) && negb (ptr =? 0)).
  - apply wp_allocate; [done|done|intros _; apply Ht|]. intros Hn. apply wp_registry; [done|]. apply wp_put, wp_ret. cbn [w_acl].
    apply wp_registry; [done|]. apply wp_put, wp_ret. cbn [w_acl]. fields.
    apply (Hm (mkMapping (next_mapping_id r) (host_addr g) bytes ptr dev false 0)); cbn [owned]; [|rewrite Z.add_0_r; cbn; rewrite (co_bytes _ _ HC); unfold u64; by rewrite Zmod_mod| |done].
    + split; cbn [mapping_id host_base size owned explicit_handle_count]; try done. rewrite R1. lia.
    + unfold inside. cbn. lia.
  - destruct (aclrtHostRegister e (aligned_addr g) (register_size g)) as [rret base] eqn:Er. apply wp_acl. cbn [w_registry w_acl].
    apply wp_check; [intros ->%Z.eqb_eq|intros E%Z.eqb_neq; apply Hx; by left].
    destruct (decide (next_mapping_id r = UINT64_MAX)) as [Hmax|Hmax].
    { apply wp_allocate; [done|apply Core_acl; [done|by right]|intros _; apply Hx; by right|lia]. }
    assert (Hid : wp (allocate_host_mapping_id_locked e)
       (mkWorld (Some r) (tr ++ [HostRegister (aligned_addr g) (register_size g) ACL_SUCCESS base]))
       (fun o w' => o = Ret (next_mapping_id r) /\ w' = mkWorld (Some (r <| next_mapping_id := u64 (next_mapping_id r + 1) |>))
          (tr ++ [HostRegister (aligned_addr g) (register_size g) ACL_SUCCESS base]))).
    { unfold allocate_host_mapping_id_locked. apply wp_registry; [done|]. pose proof (co_next _ _ HC) as [Hn _].
      apply wp_check; [done|]. intros [E|E%Z.ltb_ge]%andb_false_iff; [rewrite Z.gtb_ltb, Z.ltb_ge in E|]; lia. }
    apply wp_bind. eapply wp_mono; [exact Hid|]. intros o w' [-> ->]. pose proof (co_next _ _ HC) as [Hn _].
    apply wp_registry; [done|]. apply wp_put, wp_ret. cbn [w_acl]. apply wp_registry; [done|]. apply wp_put, wp_ret. cbn [w_acl]. fields.
    apply (Hm (mkMapping (next_mapping_id r) (aligned_addr g) (register_size g) base dev true 0)); [| |unfold inside; cbn; lia|done].
    + split; cbn [mapping_id host_base size owned explicit_handle_count]; [split; [done|lia]|lia|done| |done].
      intros _ m' Hm' Ho'. unfold disjoint_range. cbn [host_base size]. apply (no_overlap_disjoint r tr addr bytes g m'); try done; lia.
    + done.
Qed.

Lemma wp_add_handle e t dev g i b m r tr Q :
  pid r = getpid e -> Core r tr -> mappings r !! i = Some m -> host_addr g = data_ptr t ->
  (next_handle r = 2 ^ 63 - 1 -> Q (Throw HandleSpace) (mkWorld (Some r) tr)) ->
  (next_handle r < 2 ^ 63 - 1 -> Q (Ret (next_handle r)) (mkWorld (Some (with_handle r i (handle_for e t (next_handle r) dev b m))) tr)) ->
  wp (add_handle e t (tensor_bytes t) dev g i b) (mkWorld (Some r) tr) Q.
Proof.
  intros Hp HC Hi Ha Ht Hr. unfold add_handle. pose proof (co_next _ _ HC) as [_ Hn]. apply wp_registry; [done|]. apply wp_check.
  - intros [_ E%Z.ltb_lt]%andb_true_iff. rewrite Hi, Ha. apply wp_put, wp_ret. by apply Hr.
  - intros [E|E%Z.ltb_ge]%andb_false_iff; [rewrite Z.gtb_ltb, Z.ltb_ge in E; lia|]. apply Ht. lia.
Qed.

Definition registry_of (e : Env) (w : World) : HostMappingRegistry := default (new_HostMappingRegistry (getpid e)) (w_registry w).

Lemma register_range_wp e t w :
  EnvOk e -> TensorOk t -> Core (registry_of e w) (w_acl w) ->
  wp (register_explicit_mapped_host_range e t) w (fun o w' =>
    (w' = w /\ exists x, o = Throw x) \/
    exists r' tr', w' = mkWorld (Some r') tr' /\ Registers e t (registry_of e w) (w_acl w) o r' tr').
Proof.
  intros He [T1 T2] HC. pose proof (Z.mod_pos_bound (numel t * element_size (scalar_type t)) (2 ^ 64) ltac:(lia)) as Hb.
  unfold register_explicit_mapped_host_range. apply wp_range; [done|done|apply Hb|done|eauto|]. intros g HR.
  pose proof (ra_bytes _ _ _ HR) as Hpos. pose proof (ra_nonnull _ _ _ HR) as Hnn. apply wp_device.
  { intros x _. right. do 2 eexists. split; [done|]. apply reg_throw, same_pool_refl. }
  intros Hp _. fold (registry_of e w) in Hp |- *. set (r := registry_of e w) in *. apply wp_ensure; [done|]. apply wp_registry; [done|].
  apply wp_put. cbn [w_acl]. set (r1 := r <| counters := _ |>).
  assert (Hs : same_pool r r1) by (by repeat split). pose proof (Core_same _ _ _ Hs HC) as HC1.
  rewrite (ra_addr _ _ _ HR). apply wp_find.
  - intros x. right. do 2 eexists. split; [done|]. by apply reg_throw.
  - intros Hf. apply wp_bind. apply wp_overlap; [intros x; right; do 2 eexists; split; [done|]; by apply reg_throw|]. intros Hno.
    assert (Hnm : wp (new_mapping e (data_ptr t) (tensor_bytes t) (aclrtGetDevice e).2 g ≫= fun '(i, b) =>
      add_handle e t (tensor_bytes t) (aclrtGetDevice e).2 g i b) (mkWorld (Some r1) (w_acl w)) (fun o w' =>
      exists r' tr', w' = mkWorld (Some r') tr' /\ Registers e t r (w_acl w) o r' tr')).
    { apply wp_new_mapping; try done.
      - intros x. do 2 eexists. split; [done|]. by apply reg_throw.
      - intros x b0 s0 ret p Hx. do 2 eexists. split; [done|]. by apply reg_refused.
      - intros m c HN Hc Hin Hd. pose proof (Core_push _ _ _ _ HC1 HN Hc) as HC2.
        apply (wp_add_handle e t _ g _ _ m); [done|done| |apply HR| |].
        + unfold with_mapping. fields. by rewrite lookup_app_r, Nat.sub_diag by lia.
        + intros Hmax. do 2 eexists. split; [done|]. by apply reg_no_handle.
        + assert (En : next_handle (with_mapping r1 m c) = next_handle r) by done. rewrite En.
          change (length (mappings r1)) with (length (mappings r)). intros Hlt. do 2 eexists. split; [done|]. by apply (reg_new _ _ _ _ r1 m c). }
    revert Hnm. unfold wp, mbind, M_bind. destruct (new_mapping _ _ _ _ _ _) as [[[i b]|x] w']; cbn; eauto.
  - intros i m Hf Hd. apply wp_bind, wp_ret. apply (wp_add_handle e t _ g _ _ m); [done|done| |apply HR| |].
    + by apply list_find_Some in Hf as (Hi & _).
    + intros Hmax. right. do 2 eexists. split; [done|]. by apply reg_throw.
    + assert (En : next_handle r1 = next_handle r) by done. rewrite En.
      intros Hlt. right. do 2 eexists. split; [done|]. by apply (reg_reuse _ _ _ _ r1 i m).
Qed.

Lemma contains_inside addr bytes m :
  0 <= addr -> 0 < bytes -> addr + bytes < 2 ^ 64 -> 0 <= host_base m -> 0 < size m -> host_base m + size m < 2 ^ 64 ->
  contains addr bytes m = true <-> inside addr bytes m.
Proof.
  intros. unfold contains, inside. rewrite !u64_id by lia. rewrite andb_true_iff, Z.geb_leb, !Z.leb_le. done.
Qed.

Lemma handle_for_lease e t h b m :
  0 < data_ptr t -> 0 < tensor_bytes t -> inside (data_ptr t) (tensor_bytes t) m -> 0 <= host_base m -> data_ptr t < 2 ^ 64 ->
  data_ptr t + tensor_bytes t + page <= 2 ^ 64 -> m_device_id m = (aclrtGetDevice e).2 -> LeaseOf h (handle_for e t h (aclrtGetDevice e).2 b m) m.
Proof.
  intros H1 H2 [H3 H4] H5 H6 H7 H8. split; cbn; try done. by rewrite (u64_id (data_ptr t - host_base m)) by lia.
Qed.

Lemma Leased_handle r i H : (forall m, m ∈ mappings r -> mappings r !! i <> Some m -> next_handle r < 2 ^ 63 - 1 -> 0 < explicit_handle_count m) ->
  (forall m, mappings r !! i = Some m -> 0 <= explicit_handle_count m < 2 ^ 63) ->
  NoDup (mappings r) -> 0 < next_handle r < 2 ^ 63 - 1 -> Leased (with_handle r i H).
Proof.
  intros Ho Hi Hnd Hn m Hm Hlt. unfold with_handle in *. fields. rewrite i64_id in Hlt by lia.
  apply elem_of_alter in Hm as (k & y & Hy & [[-> ->] | [Hk ->]]).
  - specialize (Hi y Hy). cbn. rewrite u64_id by lia. lia.
  - apply Ho; [by eapply list_elem_of_lookup_2| |lia]. intros E. apply Hk. by apply (NoDup_lookup _ _ _ y Hnd).
Qed.

Lemma Core_NoDup r tr : Core r tr -> NoDup (mappings r).
Proof. intros HC. eapply NoDup_fmap_1, (co_ids _ _ HC). Qed.

Lemma Registers_Inv e t r tr o r' tr' :
  Inv r tr -> EnvOk e -> TensorOk t -> Registers e t r tr o r' tr' -> Inv r' tr'.
Proof.
  intros [HC HL] [_ Hpage] [T1 T2] HR. pose proof (co_next _ _ HC) as [_ Hnh].
  destruct HR as [x r' Hs|x r' b s ret p Hs Hx|r1 m c Hs HN Hmax Hc|r1 i m Hs Hlt Hf Hpos Hnn Hd|r1 m c Hs HN Hlt Hc Hf Hin Hpos Hnn Hd].
  - by apply (Inv_same r).
  - apply (Inv_same r); [done|]. split; [by apply Core_acl|done].
  - destruct (Inv_same _ _ _ Hs (conj HC HL)) as [HC1 _]. split; [by apply Core_push|].
    intros m' _ Hlt. destruct Hs as (_ & _ & _ & _ & Hn & _). unfold with_mapping in Hlt. fields. lia.
  - destruct (Inv_same _ _ _ Hs (conj HC HL)) as [HC1 HL1]. destruct Hs as (_ & Hm & _ & _ & Hn & _).
    pose proof Hf as (Hi & Hcon & _)%list_find_Some. assert (Hel : m ∈ mappings r) by (by eapply list_elem_of_lookup_2).
    destruct (co_mapping _ _ HC m Hel) as [(M1 & M2 & M3) _ _ M5]. rewrite <- Hn, <- Hm in *.
    assert (Hin : inside (data_ptr t) (tensor_bytes t) m) by (apply contains_inside; [lia..|done]).
    split.
    + apply (Core_handle _ _ _ m); [done|done|done|]. apply handle_for_lease; try done; lia.
    + apply Leased_handle; [intros; by apply HL1| |by eapply Core_NoDup|lia].
      intros y Hy. rewrite Hi in Hy. injection Hy as <-. rewrite M5. by eapply leases_range.
  - destruct (Inv_same _ _ _ Hs (conj HC HL)) as [HC1 HL1]. destruct Hs as (_ & Hm & _ & _ & Hn & _).
    pose proof (Core_push _ _ _ _ HC1 HN Hc) as HC2. destruct HN as [[I1 I2] (N1 & N2 & N3) _ _ N4].
    assert (En : next_handle (with_mapping r1 m c) = next_handle r) by done.
    assert (Ht : (mappings (with_mapping r1 m c)) !! length (mappings r) = Some m).
    { unfold with_mapping. fields. rewrite Hm. by rewrite lookup_app_r, Nat.sub_diag by lia. }
    rewrite <- En. split.
    + apply (Core_handle _ _ _ m); [done|by rewrite En| |apply handle_for_lease; try done; destruct Hin; lia].
      unfold with_mapping. fields. rewrite Hm, list_find_app_r by done. cbn. rewrite decide_True by (apply contains_inside; [destruct Hin; lia..|done]). done.
    + apply Leased_handle; [| |by eapply Core_NoDup|lia].
      * intros y Hy Hne Hlt'. unfold with_mapping in Hy. fields. apply elem_of_snoc in Hy as [Hy| ->]; [apply HL1; [done|lia]|]. by rewrite Ht in Hne.
      * intros y Hy. rewrite Ht in Hy. injection Hy as <-. lia.
Qed.

(** *** Release *)

(** Why a release can throw. *)
Definition release_error (x : Check) : Prop := x ∈ [AfterFork; GetDevice; OtherDeviceRelease; SynchronizeFailed; UnregisterFailed].

(** What a release can do: nothing, for a handle that does not exist; nothing but
    calls of the runtime, the last of which failed; the release. *)
Inductive Releases (e : Env) (h : Z) (r : HostMappingRegistry) (tr : list AclCall)
    : outcome bool -> HostMappingRegistry -> list AclCall -> Prop :=
  | rel_unknown : handles r !! h = None -> Releases e h r tr (Ret false) r tr
  | rel_throw x : release_error x -> Releases e h r tr (Throw x) r tr
  | rel_not_idle ret : ret <> ACL_SUCCESS -> Releases e h r tr (Throw SynchronizeFailed) r (tr ++ [SynchronizeDevice ret])
  | rel_refused b ret : ret <> ACL_SUCCESS ->
      Releases e h r tr (Throw UnregisterFailed) r (tr ++ [SynchronizeDevice ACL_SUCCESS; HostUnregister b ret])
  | rel_done H i m :
      handles r !! h = Some H -> find_host_mapping_by_id_locked (mappings r) (h_mapping_id H) = Some (i, m) ->
      m_device_id m = (aclrtGetDevice e).2 ->
      Releases e h r tr (Ret true) (drop_handle r h i m (explicit_handle_count m =? 1)) (released tr m (explicit_handle_count m =? 1)).

Lemma lease_mapping r tr h H :
  Core r tr -> handles r !! h = Some H ->
  exists i m, find_host_mapping_by_id_locked (mappings r) (h_mapping_id H) = Some (i, m) /\ LeaseOf h H m /\ 0 < explicit_handle_count m.
Proof.
  intros HC Hh. destruct (co_handles _ _ HC h H Hh) as (_ & j & m & Hf & HL). apply list_find_Some in Hf as (Hj & _).
  assert (Hm : m ∈ mappings r) by (by eapply list_elem_of_lookup_2).
  destruct (list_find_elem_of (fun m' => mapping_id m' = h_mapping_id H) (mappings r) m Hm) as [[i m'] Hi]; [by rewrite (le_id _ _ _ HL)|].
  exists i, m'. split; [done|]. apply list_find_Some in Hi as (Hi & Hid & _).
  assert (i = j) as ->.
  { apply (NoDup_lookup _ _ _ (mapping_id m) (co_ids _ _ HC)); rewrite list_lookup_fmap, ?Hi, ?Hj; cbn; [|done]. by rewrite Hid, (le_id _ _ _ HL). }
  rewrite Hi in Hj. injection Hj as ->. split; [done|]. destruct (co_mapping _ _ HC m Hm) as [_ _ _ ->].
  rewrite Hid. by eapply leases_pos.
Qed.

Lemma unregister_wp e h w :
  Core (registry_of e w) (w_acl w) ->
  wp (unregister_kv_cache_block_gather_host_pool e h) w (fun o w' =>
    exists r' tr', w' = mkWorld (Some r') tr' /\ Releases e h (registry_of e w) (w_acl w) o r' tr').
Proof.
  intros HC. unfold unregister_kv_cache_block_gather_host_pool.
  assert (Hout : forall r' tr' o, Releases e h (registry_of e w) (w_acl w) o r' tr' ->
    exists r'' tr'', mkWorld (Some r') tr' = mkWorld (Some r'') tr'' /\ Releases e h (registry_of e w) (w_acl w) o r'' tr'') by eauto.
  apply wp_device; [intros x [-> | ->]; apply Hout, rel_throw; unfold release_error; set_solver|].
  intros Hp _. fold (registry_of e w) in Hp |- *. set (r := registry_of e w) in *. apply wp_ensure; [done|]. apply wp_registry; [done|].
  destruct (handles r !! h) as [H|] eqn:Hh; [|by apply Hout, rel_unknown].
  destruct (lease_mapping _ _ _ _ HC Hh) as (i & m & Hf & HL & Hc). rewrite (le_active _ _ _ HL), Hf. cbn [negb].
  apply wp_check; [intros _|intros E; rewrite Z.gtb_ltb, Z.ltb_ge in E; lia].
  apply wp_check; [intros Hd%Z.eqb_eq|intros _; apply Hout, rel_throw; unfold release_error; set_solver].
  pose proof (rel_done e h r (w_acl w) H i m Hh Hf Hd) as Hdone. revert Hdone. unfold released.
  destruct (explicit_handle_count m =? 1) eqn:E1; cbn [andb]; intros Hdone.
  - apply wp_bind. unfold synchronize_before_host_mapping_release_locked. apply wp_acl. cbn [w_registry w_acl].
    unfold TORCH_CHECK at 1. unfold wp at 1. cbn [fst snd]. destruct (Z.eqb_spec (aclrtSynchronizeDevice e) ACL_SUCCESS) as [Es|Es];
      [rewrite Es|by apply Hout, rel_not_idle].
    destruct (owned m).
    + apply wp_bind, wp_acl. cbn [w_registry w_acl]. rewrite <- app_assoc. unfold TORCH_CHECK, wp at 1. cbn [fst snd app].
      destruct (Z.eqb_spec (aclrtHostUnregister e (host_base m)) ACL_SUCCESS) as [Eu|Eu]; [rewrite Eu|by apply Hout, rel_refused].
      apply wp_put, wp_ret. by apply Hout.
    + apply wp_bind, wp_ret, wp_put, wp_ret. by apply Hout.
  - apply wp_bind, wp_ret, wp_bind, wp_ret, wp_put, wp_ret. by apply Hout.
Qed.

Lemma Core_refused r tr b ret : Core r tr -> ret <> ACL_SUCCESS -> Core r (tr ++ [SynchronizeDevice ACL_SUCCESS; HostUnregister b ret]).
Proof.
  intros [C1 C2 C3 C4 C5 C6 C7 C8 C9] Hr. split; try done; [|by apply fenced_unregister].
  intros Hn. change [SynchronizeDevice ACL_SUCCESS; HostUnregister b ret] with ([SynchronizeDevice ACL_SUCCESS] ++ [HostUnregister b ret]).
  rewrite app_assoc, !live_snoc. cbn. rewrite (proj2 (Z.eqb_neq _ _) Hr). by apply C8.
Qed.

Lemma Releases_Inv e h r tr o r' tr' : Inv r tr -> Releases e h r tr o r' tr' -> Inv r' tr'.
Proof.
  intros [HC HL] HR. destruct HR as [Hh|x Hx|ret Hr|b ret Hr|H i m Hh Hf Hd]; [done|done|split; [by apply Core_acl|done]|split; [by apply Core_refused|done]|].
  split; [by eapply Core_drop|]. pose proof Hf as (Hi & _)%list_find_Some. intros x Hx Hlt. unfold drop_handle in Hx, Hlt. fields.
  destruct (drop_elem r i m _ x (co_ids _ _ HC) Hi Hx) as [[E ->]|[Hx' _]]; [|by apply HL].
  destruct (co_mapping _ _ HC m) as [_ _ _ Mc]; [by eapply list_elem_of_lookup_2|]. pose proof (leases_range _ _ (mapping_id m) HC).
  assert (0 < explicit_handle_count m) by (apply HL; [by eapply list_elem_of_lookup_2|done]). apply Z.eqb_neq in E. cbn. rewrite u64_id by lia. lia.
Qed.
End Operations.
End HostPoolOps.
