(* ===== verification/HostPoolRun.v ===== *)
(** * Mapped host pools: histories of calls

    The calls of the module, the worlds that they reach, and what the registry
    promises there: the queries change nothing, the invariant holds, a request
    that is leased is resolved to its address on the device. *)

From stdpp Require Import gmap.
From S2P Require Import Prelude GatherKernel HostPool HostPoolProofs HostPoolOps.

Module HostPoolRun.
Import HostPool HostPoolProofs HostPoolOps.

(** ** Calls *)

Inductive Op :=
  | OpRegister (t : Tensor)
  | OpUnregister (h : Z)
  | OpCached (t : Tensor)
  | OpStats
  | OpInspect (h : Z)
  | OpGather (op_api : bool) (get_workspace : Tensor -> Tensor -> Tensor -> Tensor -> option Gather.Launch)
      (src_block_ids src_pages dst_block_ids out : Tensor).

Inductive result :=
  | RHandle (h : Z) | RReleased (b : bool) | RCached (b : bool) | RInfo (l : list (string * Z))
  | RGather (x : option (Z * Gather.Launch)).

Definition run (e : Env) (op : Op) : M result :=
  match op with
  | OpRegister t => h ← register_kv_cache_block_gather_host_pool e t; mret (RHandle h)
  | OpUnregister h => b ← unregister_kv_cache_block_gather_host_pool e h; mret (RReleased b)
  | OpCached t => b ← is_kv_cache_block_gather_host_mapping_cached e t; mret (RCached b)
  | OpStats => l ← get_kv_cache_block_gather_host_mapping_stats e; mret (RInfo l)
  | OpInspect h => l ← inspect_kv_cache_block_gather_host_pool e h; mret (RInfo l)
  | OpGather op_api gw a b c d => x ← kv_cache_block_gather op_api gw e a b c d; mret (RGather x)
  end.

(** ** Queries *)

(** A computation that changes nothing but that the registry exists afterwards. *)
Class Quiet {A} (e : Env) (m : M A) : Prop :=
  quiet : forall w, (m w).2 = w \/ (m w).2 = mkWorld (Some (registry_of e w)) (w_acl w).

#[global] Instance quiet_ret {A} e (a : A) : Quiet e (mret a).
Proof. by left. Qed.
#[global] Instance quiet_throw {A} e x : Quiet e (@throw A x).
Proof. by left. Qed.
#[global] Instance quiet_check e c x : Quiet e (TORCH_CHECK c x).
Proof. by left. Qed.
#[global] Instance quiet_registry e : Quiet e (get_host_mapping_registry e).
Proof. by right. Qed.
#[global] Instance quiet_bind {A B} e (m : M A) (f : A -> M B) : Quiet e m -> (forall a, Quiet e (f a)) -> Quiet e (m ≫= f).
Proof.
  intros Hm Hf w. unfold mbind, M_bind. specialize (Hm w). destruct (m w) as [[a|x] w1]; cbn [snd] in *; [|done].
  destruct Hm as [-> | ->]; [apply Hf|]. right. by destruct (Hf a (mkWorld (Some (registry_of e w)) (w_acl w))) as [-> | ->].
Qed.
#[global] Instance quiet_if {A} e (b : bool) (m m' : M A) : Quiet e m -> Quiet e m' -> Quiet e (if b then m else m').
Proof. by destruct b. Qed.
#[global] Instance quiet_option {A B} e (x : option A) (f : A -> M B) (m : M B) :
  (forall a, Quiet e (f a)) -> Quiet e m -> Quiet e (match x with Some a => f a | None => m end).
Proof. by destruct x. Qed.
#[global] Instance quiet_pair {A B C} e (x : A * B) (f : A -> B -> M C) :
  (forall a b, Quiet e (f a b)) -> Quiet e (let '(a, b) := x in f a b).
Proof. by destruct x. Qed.

Lemma quiet_env {A} e e' (m : M A) : getpid e = getpid e' -> Quiet e m -> Quiet e' m.
Proof. intros Hp Hm w. specialize (Hm w). unfold registry_of in *. by rewrite <- Hp. Qed.

#[global] Instance quiet_ensure e : Quiet e (ensure_host_mapping_registry_process_locked e).
Proof. unfold ensure_host_mapping_registry_process_locked. apply _. Qed.
#[global] Instance quiet_device e : Quiet e (get_current_host_mapping_device e).
Proof. unfold get_current_host_mapping_device. apply _. Qed.
#[global] Instance quiet_range e e' a b : Quiet e (get_host_range e' a b).
Proof. unfold get_host_range, round_up_u64. apply _. Qed.
#[global] Instance quiet_find e ms a b d : Quiet e (find_host_mapping_locked ms a b d).
Proof. unfold find_host_mapping_locked. apply _. Qed.
#[global] Instance quiet_mapped e a b : Quiet e (get_mapped_host_device_ptr e a b).
Proof. unfold get_mapped_host_device_ptr. apply _. Qed.

Definition query (op : Op) : bool := match op with OpRegister _ | OpUnregister _ => false | _ => true end.

Lemma with_device_pid e d : getpid (with_device e d) = getpid e.
Proof. by destruct d. Qed.

#[global] Instance quiet_gather e api gw a b c d : Quiet e (kv_cache_block_gather api gw e a b c d).
Proof.
  unfold kv_cache_block_gather, check_ids, check_pages.
  assert (Hq : Quiet e (get_mapped_host_device_ptr (with_device e (device d)) (data_ptr b) (tensor_bytes b)))
    by (eapply quiet_env; [apply with_device_pid|apply _]).
  apply _.
Qed.

Lemma query_quiet e op : query op = true -> Quiet e (run e op).
Proof.
  destruct op; intros Hq; try done; cbn [run];
    unfold is_kv_cache_block_gather_host_mapping_cached, is_host_range_mapping_cached, get_kv_cache_block_gather_host_mapping_stats,
      inspect_kv_cache_block_gather_host_pool; apply _.
Qed.

(** ** Histories *)

Section Histories.
Context `{PS : PageBytes}.

(** The tensors of a call lie in the address space. *)
Definition OpOk (op : Op) : Prop := match op with OpRegister t | OpCached t => TensorOk t | _ => True end.

Inductive reachable : World -> Prop :=
  | reach_init : reachable (mkWorld None [])
  | reach_step e op w : EnvOk e -> OpOk op -> reachable w -> reachable (run e op w).2.

Definition WorldOk (w : World) : Prop := match w_registry w with Some r => Inv r (w_acl w) | None => w_acl w = [] end.

Lemma WorldOk_registry e w : WorldOk w -> Inv (registry_of e w) (w_acl w).
Proof. unfold WorldOk, registry_of. destruct (w_registry w); cbn; [done|]. intros ->. apply Inv_new. Qed.

Lemma quiet_ok {A} e (m : M A) w : Quiet e m -> WorldOk w -> WorldOk (m w).2.
Proof. intros Hm Hw. destruct (Hm w) as [-> | ->]; [done|]. by apply (WorldOk_registry e w). Qed.

(** The module-level registration: the checks of the tensor come first. *)
Lemma register_wp e t w :
  EnvOk e -> TensorOk t -> Core (registry_of e w) (w_acl w) ->
  wp (register_kv_cache_block_gather_host_pool e t) w (fun o w' =>
    (w' = w /\ exists x, o = Throw x) \/
    exists r' tr', w' = mkWorld (Some r') tr' /\ Registers e t (registry_of e w) (w_acl w) o r' tr').
Proof.
  intros He Ht HC. unfold register_kv_cache_block_gather_host_pool.
  do 4 (apply wp_check; [intros _|intros _; left; eauto]). by apply register_range_wp.
Qed.

Lemma run_ok e op w : EnvOk e -> OpOk op -> WorldOk w -> WorldOk (run e op w).2.
Proof.
  intros He Ho Hw. destruct (query op) eqn:Hq; [by apply (quiet_ok e); [apply query_quiet|]|].
  pose proof (WorldOk_registry e w Hw) as HI. destruct op as [t|h| | | |]; try done; cbn [run].
  - change (wp (h ← register_kv_cache_block_gather_host_pool e t; mret (RHandle h)) w (fun _ => WorldOk)).
    apply wp_bind. eapply wp_mono; [by apply register_wp; [| |apply HI]|].
    intros o w' [[-> [x ->]]|(r' & tr' & -> & HR)]; [done|].
    assert (WorldOk (mkWorld (Some r') tr')) by (by eapply Registers_Inv). by destruct o.
  - change (wp (b ← unregister_kv_cache_block_gather_host_pool e h; mret (RReleased b)) w (fun _ => WorldOk)).
    apply wp_bind. eapply wp_mono; [by apply unregister_wp; apply HI|].
    intros o w' (r' & tr' & -> & HR). assert (WorldOk (mkWorld (Some r') tr')) by (by eapply Releases_Inv). by destruct o.
Qed.

Lemma reachable_ok w : reachable w -> WorldOk w.
Proof. induction 1; [done|by apply run_ok]. Qed.

(** ** Leases *)

Lemma range_ok e addr bytes w :
  EnvOk e -> 0 < addr -> 0 < bytes -> addr + bytes + page <= 2 ^ 64 ->
  exists g, get_host_range e addr bytes w = (Ret g, w) /\ host_addr g = addr.
Proof.
  intros [Hp Hpage] Ha Hb Hend. unfold get_host_range, round_up_u64, mbind, M_bind, TORCH_CHECK, mret, M_ret.
  assert (P0 : 0 < page) by lia. pose proof (Z.mul_div_le addr page P0) as H1. rewrite (Z.mul_comm page) in H1.
  assert (0 <= addr / page * page) by (apply Z.mul_nonneg_nonneg; [apply Z.div_pos; lia|lia]).
  rewrite Hp, (u64_id page), (u64_id (addr / page * page)) by lia. set (al := addr / page * page) in *.
  rewrite (u64_id (addr - al)), (u64_id (addr - al + bytes)) by lia.
  rewrite (proj2 (Z.eqb_neq addr 0)), !Z.gtb_ltb, (proj2 (Z.ltb_lt 0 bytes)), (proj2 (Z.ltb_lt 0 page)) by lia. cbn [negb].
  unfold UINT64_MAX. rewrite !(proj2 (Z.leb_le _ _)) by lia. by eexists.
Qed.

Lemma lease_found e r tr h H w :
  EnvOk e -> Core r tr -> handles r !! h = Some H ->
  exists i m, find_host_mapping_locked (mappings r) (requested_host_addr H) (requested_bytes H) (h_device_id H) w = (Ret (Some (i, m)), w) /\
    m ∈ mappings r /\ LeaseOf h H m.
Proof.
  intros [_ Hpage] HC Hh. destruct (co_handles _ _ HC h H Hh) as (_ & i & m & Hf & HL). exists i, m. pose proof HL as [L1 L2 L3 L4 L5 L6 L7 L8 L9].
  split; [|split; [apply list_find_Some in Hf as (Hi & _); by eapply list_elem_of_lookup_2|done]].
  unfold find_host_mapping_locked, mbind, M_bind, TORCH_CHECK, mret, M_ret. rewrite Hf, L9, Z.eqb_refl.
  rewrite Z.geb_leb, u64_id, (proj2 (Z.leb_le _ _)) by lia. done.
Qed.

(** The process and the device that a lease belongs to. *)
Record CalledBy (e : Env) (r : HostMappingRegistry) (H : HostMappingHandle) : Prop := {
  cb_env : EnvOk e;
  cb_pid : pid r = getpid e;
  cb_device : aclrtGetDevice e = (ACL_SUCCESS, h_device_id H) /\ 0 <= h_device_id H
}.

Lemma device_ok e r tr H : CalledBy e r H ->
  get_current_host_mapping_device e (mkWorld (Some r) tr) = (Ret (h_device_id H), mkWorld (Some r) tr).
Proof.
  intros [_ Hp [Hd Hd0]]. unfold get_current_host_mapping_device, get_host_mapping_registry, mbind, M_bind, TORCH_CHECK, mret, M_ret.
  cbn. rewrite Hp, Z.eqb_refl, Hd, Z.geb_leb, (proj2 (Z.leb_le _ _)) by lia. done.
Qed.

Lemma ensure_ok e r tr H : CalledBy e r H ->
  ensure_host_mapping_registry_process_locked e (mkWorld (Some r) tr) = (Ret tt, mkWorld (Some r) tr) /\
  get_host_mapping_registry e (mkWorld (Some r) tr) = (Ret r, mkWorld (Some r) tr).
Proof.
  intros [_ Hp _]. unfold ensure_host_mapping_registry_process_locked, get_host_mapping_registry, mbind, M_bind, TORCH_CHECK.
  cbn. by rewrite Hp, Z.eqb_refl, Hp, Z.eqb_refl.
Qed.

Lemma lease_resolved e r tr h H :
  Core r tr -> handles r !! h = Some H -> CalledBy e r H ->
  get_mapped_host_device_ptr e (requested_host_addr H) (requested_bytes H) (mkWorld (Some r) tr) =
  (Ret (device_addr H), mkWorld (Some r) tr).
Proof.
  intros HC Hh He. destruct (lease_found e r tr h H (mkWorld (Some r) tr) (cb_env _ _ _ He) HC Hh) as (i & m & Hf & Hm & HL).
  pose proof HL as [L1 L2 L3 (L4 & L4' & Lin) L5 L6 L7 L8 L9].
  destruct (range_ok e (requested_host_addr H) (requested_bytes H) (mkWorld (Some r) tr)) as (g & Hg & Ha); [apply He|lia..|].
  destruct (ensure_ok _ _ tr _ He) as [E1 E2]. destruct (co_mapping _ _ HC m Hm) as [M1 _ _ _]. destruct Lin.
  unfold get_mapped_host_device_ptr. unfold mbind, M_bind at 1. rewrite Hg. unfold M_bind at 1. rewrite (device_ok _ _ _ _ He).
  unfold M_bind at 1. rewrite E1. unfold M_bind at 1. rewrite E2. unfold M_bind at 1. rewrite Ha, Hf.
  unfold mret, M_ret. rewrite L7, (u64_id (requested_host_addr H - host_base m)) by lia. done.
Qed.
End Histories.
End HostPoolRun.
