(* ===== verification/HostPoolTheorems.v ===== *)
(** * Theorems about mapped host pools

    The invariant of the registry over all histories of calls; the pool as an
    abstract table of leases; leases that resolve; round trips and errors; the
    gather operator on a leased pool. *)

From stdpp Require Import gmap.
From S2P Require Import Prelude Ascend Tensor GatherKernel GatherTheorems HostPool HostPoolProofs HostPoolOps HostPoolRun.

Module HostPoolTheorems.
Import HostPool HostPoolProofs HostPoolOps HostPoolRun.

(** ** The abstract pool *)

(** Handles with the address, the bytes and the device of their request, and the
    next handle. *)
Record Pool := mkPool { leased : gmap Z (Z * Z * Z); issued : Z }.

Definition lease (H : HostMappingHandle) : Z * Z * Z := (requested_host_addr H, requested_bytes H, h_device_id H).
Definition pool_of (r : HostMappingRegistry) : Pool := mkPool (lease <$> handles r) (next_handle r).

(** A tensor that may be a pool. *)
Definition pool_tensor (t : Tensor) : Prop := defined t = true /\ numel t <> 0 /\ is_cpu t = true /\ is_contiguous t = true.

(** What a caller sees of a call. *)
Inductive pool_step (e : Env) (p : Pool) : Op -> outcome result -> Pool -> Prop :=
  | ps_throw op x : pool_step e p op (Throw x) p
  | ps_register t :
      leased p !! issued p = None -> 0 < issued p < 2 ^ 63 - 1 -> 0 < data_ptr t -> 0 < tensor_bytes t ->
      pool_step e p (OpRegister t) (Ret (RHandle (issued p)))
        (mkPool (<[issued p := (data_ptr t, tensor_bytes t, (aclrtGetDevice e).2)]> (leased p)) (issued p + 1))
  | ps_release h a b : leased p !! h = Some (a, b, (aclrtGetDevice e).2) ->
      pool_step e p (OpUnregister h) (Ret (RReleased true)) (mkPool (delete h (leased p)) (issued p))
  | ps_unknown h : leased p !! h = None -> pool_step e p (OpUnregister h) (Ret (RReleased false)) p
  | ps_cached t b :
      (forall h, leased p !! h = Some (data_ptr t, tensor_bytes t, (aclrtGetDevice e).2) -> pool_tensor t -> b = true) ->
      pool_step e p (OpCached t) (Ret (RCached b)) p
  | ps_stats l : ("explicit_handle_count"%string, Z.of_nat (base.size (leased p))) ∈ l -> pool_step e p OpStats (Ret (RInfo l)) p
  | ps_inspect h l :
      match leased p !! h with
      | Some (a, b, d) => ("known"%string, 1) ∈ l /\ ("host_ptr"%string, i64 a) ∈ l /\ ("requested_bytes"%string, i64 b) ∈ l /\
          ("device_id"%string, d) ∈ l
      | None => ("known"%string, 0) ∈ l
      end -> pool_step e p (OpInspect h) (Ret (RInfo l)) p
  | ps_gather api gw ids pages dst out x : pool_step e p (OpGather api gw ids pages dst out) (Ret (RGather x)) p.

Section Pool.
Context `{PS : PageBytes}.

Lemma pool_same r r' : same_pool r r' -> pool_of r' = pool_of r.
Proof. intros (_ & _ & E1 & _ & E2 & _). unfold pool_of. by rewrite E1, E2. Qed.

Lemma pool_mapping r m c : pool_of (with_mapping r m c) = pool_of r.
Proof. done. Qed.

Lemma pool_handle r tr i H :
  Core r tr -> next_handle r < 2 ^ 63 - 1 ->
  pool_of (with_handle r i H) = mkPool (<[next_handle r := lease H]> (leased (pool_of r))) (next_handle r + 1).
Proof.
  intros HC Hn. pose proof (co_next _ _ HC). unfold pool_of, with_handle. fields.
  by rewrite (no_next_handle _ _ HC), fmap_insert, i64_id by lia.
Qed.

Lemma Registers_step e t r tr o r' tr' :
  Core r tr -> EnvOk e -> Registers e t r tr o r' tr' ->
  pool_step e (pool_of r) (OpRegister t) (match o with Ret h => Ret (RHandle h) | Throw x => Throw x end) (pool_of r').
Proof.
  intros HC He HR. pose proof (co_next _ _ HC) as [_ Hn].
  assert (Hfree : leased (pool_of r) !! next_handle r = None) by (cbn; by rewrite lookup_fmap, (no_next_handle _ _ HC)).
  destruct HR as [x r' Hs|x r' b s ret p Hs Hx|r1 m c Hs HN Hmax Hc|r1 i m Hs Hlt Hf Hpos Hnn Hd|r1 m c Hs HN Hlt Hc Hf Hin Hpos Hnn Hd].
  - rewrite (pool_same _ _ Hs). constructor.
  - rewrite (pool_same _ _ Hs). constructor.
  - rewrite pool_mapping, (pool_same _ _ Hs). constructor.
  - pose proof (Core_same _ _ _ Hs HC) as HC1. assert (En : next_handle r1 = next_handle r) by apply Hs.
    rewrite (pool_handle _ _ _ _ HC1), (pool_same _ _ Hs), En by lia. apply ps_register; cbn [pool_of issued]; [done|lia|done|done].
  - pose proof (Core_push _ _ _ _ (Core_same _ _ _ Hs HC) HN Hc) as HC1.
    assert (En : next_handle (with_mapping r1 m c) = next_handle r) by (transitivity (next_handle r1); [done|apply Hs]).
    rewrite (pool_handle _ _ _ _ HC1), pool_mapping, (pool_same _ _ Hs), En by lia. apply ps_register; cbn [pool_of issued]; [done|lia|done|done].
Qed.

Lemma Releases_step e h r tr o r' tr' :
  Core r tr -> Releases e h r tr o r' tr' ->
  pool_step e (pool_of r) (OpUnregister h) (match o with Ret b => Ret (RReleased b) | Throw x => Throw x end) (pool_of r').
Proof.
  intros HC HR. destruct HR as [Hh|x Hx|ret Hr|b ret Hr|H i m Hh Hf Hd]; try constructor.
  - cbn. by rewrite lookup_fmap, Hh.
  - destruct (lease_mapping _ _ _ _ HC Hh) as (i' & m' & Hf' & HL & _). rewrite Hf in Hf'. injection Hf' as <- <-.
    replace (pool_of (drop_handle r h i m (explicit_handle_count m =? 1))) with (mkPool (delete h (leased (pool_of r))) (issued (pool_of r))).
    + apply (ps_release _ _ _ (requested_host_addr H) (requested_bytes H)). cbn. rewrite lookup_fmap, Hh. cbn. unfold lease. by rewrite (le_device _ _ _ HL), Hd.
    + unfold pool_of, drop_handle. fields. cbn. by rewrite fmap_delete.
Qed.

(** The registry of a world after a query. *)
Lemma quiet_registry_of {A} e (m : M A) w : Quiet e m -> registry_of e (m w).2 = registry_of e w.
Proof. intros Hm. by destruct (Hm w) as [-> | ->]. Qed.

Lemma wp_enter {B} e w (f : HostMappingRegistry -> M B) Q :
  let w' := mkWorld (Some (registry_of e w)) (w_acl w) in
  Q (Throw AfterFork) w' -> (pid (registry_of e w) = getpid e -> wp (f (registry_of e w)) w' Q) ->
  wp (ensure_host_mapping_registry_process_locked e ≫= fun _ => get_host_mapping_registry e ≫= f) w Q.
Proof.
  intros w' Ht Hr. unfold wp, ensure_host_mapping_registry_process_locked, get_host_mapping_registry, mbind, M_bind, TORCH_CHECK.
  fold (registry_of e w) w'. cbn [w_registry default from_option w_acl w'].
  destruct (Z.eqb_spec (pid (registry_of e w)) (getpid e)) as [E|E]; [|done]. rewrite (proj2 (Z.eqb_eq _ _) E). cbn.
  rewrite (proj2 (Z.eqb_eq _ _) E). by apply Hr.
Qed.

Lemma cached_step e t w :
  EnvOk e -> TensorOk t -> Core (registry_of e w) (w_acl w) ->
  wp (run e (OpCached t)) w (fun o _ => pool_step e (pool_of (registry_of e w)) (OpCached t) o (pool_of (registry_of e w))).
Proof.
  intros He [T1 T2] HC. pose proof (Z.mod_pos_bound (numel t * element_size (scalar_type t)) (2 ^ 64) ltac:(lia)) as Hb.
  cbn [run]. apply wp_bind. unfold is_kv_cache_block_gather_host_mapping_cached.
  destruct (negb (defined t) || (numel t =? 0)) eqn:E1.
  { apply wp_ret, wp_ret, ps_cached. intros h _ (D & N & _). rewrite D, (proj2 (Z.eqb_neq _ _) N) in E1. done. }
  destruct (negb (is_cpu t) || negb (is_contiguous t)) eqn:E2.
  { apply wp_ret, wp_ret, ps_cached. intros h _ (_ & _ & C & K). by rewrite C, K in E2. }
  apply wp_range; [done|done|apply Hb|done|intros x; constructor|]. intros g HR. unfold is_host_range_mapping_cached.
  apply wp_device; [intros x _; constructor|]. intros Hp _. fold (registry_of e w) in Hp |- *. apply wp_ensure; [done|].
  apply wp_registry; [done|]. rewrite (ra_addr _ _ _ HR). apply wp_find; [intros x; constructor| |intros i m _ _; by apply wp_ret, wp_ret, ps_cached].
  intros Hn. apply wp_ret, wp_ret, ps_cached. intros h Hl _. cbn in Hl. rewrite lookup_fmap in Hl.
  destruct (handles (registry_of e w) !! h) as [H|] eqn:Hh; [|done]. injection Hl as Ha Hy Hd.
  destruct (co_handles _ _ HC h H Hh) as (_ & i & m & Hf & _). by rewrite Ha, Hy, Hn in Hf.
Qed.

Lemma stats_step e w :
  Core (registry_of e w) (w_acl w) ->
  wp (run e OpStats) w (fun o _ => pool_step e (pool_of (registry_of e w)) OpStats o (pool_of (registry_of e w))).
Proof.
  intros HC. cbn [run]. apply wp_bind. unfold get_kv_cache_block_gather_host_mapping_stats. apply wp_enter; [constructor|]. intros _.
  destruct (fold_left _ _ _) as [[[cur mx] o] b]. apply wp_ret, wp_ret, ps_stats.
  replace (base.size (leased (pool_of (registry_of e w)))) with
    (base.size (filter (fun kv => active kv.2 = true) (handles (registry_of e w)))); [set_solver|].
  cbn. rewrite map_size_fmap, map_filter_id; [done|]. intros h H Hh.
  destruct (co_handles _ _ HC h H Hh) as (_ & i & m & _ & HL). apply HL.
Qed.

Lemma inspect_step e h w :
  wp (run e (OpInspect h)) w (fun o _ => pool_step e (pool_of (registry_of e w)) (OpInspect h) o (pool_of (registry_of e w))).
Proof.
  cbn [run]. apply wp_bind. unfold inspect_kv_cache_block_gather_host_pool. apply wp_enter; [constructor|]. intros _.
  destruct (handles (registry_of e w) !! h) as [H|] eqn:Hh; apply wp_ret, wp_ret, ps_inspect; cbn; rewrite lookup_fmap, Hh; cbn; set_solver.
Qed.

Lemma query_step e op w :
  EnvOk e -> OpOk op -> query op = true -> Core (registry_of e w) (w_acl w) ->
  pool_step e (pool_of (registry_of e w)) op (run e op w).1 (pool_of (registry_of e w)).
Proof.
  intros He Ho Hq HC. destruct op; try done.
  - by apply cached_step.
  - by apply stats_step.
  - by apply inspect_step.
  - cbn [run]. unfold mbind, M_bind. destruct (kv_cache_block_gather _ _ _ _ _ _ _ w) as [[x|x] w']; constructor.
Qed.
End Pool.

(** ** Releases that succeed *)

Lemma find_by_id_ok (ms : list HostMapping) i m :
  NoDup (mapping_id <$> ms) -> ms !! i = Some m -> find_host_mapping_by_id_locked ms (mapping_id m) = Some (i, m).
Proof.
  intros Hnd Hi. apply list_find_Some. split; [done|]. split; [done|]. intros j y Hj Hlt E.
  assert (j = i); [|lia]. apply (NoDup_lookup _ _ _ (mapping_id m) Hnd); rewrite list_lookup_fmap, ?Hj, ?Hi; cbn; by rewrite ?E.
Qed.

Lemma alter_id_at {A} (f : A -> A) (i : nat) (l : list A) x : l !! i = Some x -> f x = x -> alter f i l = l.
Proof.
  revert i. induction l as [|y l IH]; intros [|i] Hi Hf; cbn in *; [done..| |].
  - injection Hi as ->. by rewrite Hf.
  - f_equal. by apply IH.
Qed.

Lemma dec_inc m : 0 <= explicit_handle_count m < 2 ^ 63 -> dec (inc m) = m.
Proof.
  intros Hc. destruct m as [a b c d e f k]. unfold dec, inc, update_field. cbn in *. rewrite (u64_id (k + 1)) by lia.
  by rewrite Z.add_simpl_r, u64_id by lia.
Qed.

Section Release.
Context `{PS : PageBytes}.

(** The process and the device of the lease, and a runtime that does what it is
    asked to. *)
Record ReleasedBy (e : Env) (r : HostMappingRegistry) (H : HostMappingHandle) : Prop := {
  rb_call : CalledBy e r H;
  rb_idle : aclrtSynchronizeDevice e = ACL_SUCCESS;
  rb_unregister : forall base, aclrtHostUnregister e base = ACL_SUCCESS
}.

Lemma release_ok e r tr h H i m :
  Core r tr -> handles r !! h = Some H -> ReleasedBy e r H ->
  find_host_mapping_by_id_locked (mappings r) (h_mapping_id H) = Some (i, m) ->
  unregister_kv_cache_block_gather_host_pool e h (mkWorld (Some r) tr) =
  (Ret true, mkWorld (Some (drop_handle r h i m (explicit_handle_count m =? 1))) (released tr m (explicit_handle_count m =? 1))).
Proof.
  intros HC Hh [Hcb Hs Hu] Hf. destruct (lease_mapping _ _ _ _ HC Hh) as (i' & m' & Hf' & HL & Hpos). rewrite Hf in Hf'. injection Hf' as <- <-.
  destruct (ensure_ok _ _ tr _ Hcb) as [E1 E2]. unfold unregister_kv_cache_block_gather_host_pool, mbind.
  unfold M_bind at 1. rewrite (device_ok _ _ _ _ Hcb). unfold M_bind at 1. rewrite E1. unfold M_bind at 1. rewrite E2.
  rewrite Hh, (le_active _ _ _ HL), Hf. cbn [negb]. unfold M_bind, TORCH_CHECK, synchronize_before_host_mapping_release_locked, mbind, acl, put, mret, M_ret.
  rewrite Z.gtb_ltb, (proj2 (Z.ltb_lt _ _) Hpos), (le_device _ _ _ HL), Z.eqb_refl, Hs, Hu. unfold released, M_bind.
  destruct (explicit_handle_count m =? 1), (owned m); cbn; by rewrite <- ?app_assoc.
Qed.

(** Registering and releasing again, on the registry. *)
Lemma release_reuse e t r tr r1 i m b :
  Inv r tr -> same_pool r r1 -> next_handle r < 2 ^ 63 - 1 -> mappings r !! i = Some m ->
  let r2 := with_handle r1 i (handle_for e t (next_handle r) (aclrtGetDevice e).2 b m) in
  find_host_mapping_by_id_locked (mappings r2) (mapping_id m) = Some (i, inc m) /\
  (explicit_handle_count (inc m) =? 1) = false /\
  mappings (drop_handle r2 (next_handle r) i (inc m) false) = mappings r /\
  handles (drop_handle r2 (next_handle r) i (inc m) false) = handles r.
Proof.
  intros [HC HL] Hs Hn Hi r2. destruct Hs as (_ & Em & Eh & _ & En & _).
  assert (Hm : m ∈ mappings r) by (by eapply list_elem_of_lookup_2). pose proof (HL m Hm Hn) as Hpos.
  destruct (co_mapping _ _ HC m Hm) as [_ _ _ Mc]. pose proof (leases_range _ _ (mapping_id m) HC) as Hr. rewrite <- Mc in Hr.
  unfold r2, with_handle, drop_handle. fields. cbn [andb]. fields. rewrite Em, Eh, En, (no_next_handle _ _ HC).
  change (fun m0 => m0 <| explicit_handle_count := u64 (explicit_handle_count m0 - 1) |>) with dec.
  split; [|split; [|split]].
  - change (mapping_id m) with (mapping_id (inc m)). apply find_by_id_ok; [by rewrite fmap_alter_same; [apply HC|]|].
    by rewrite list_lookup_alter_eq, Hi.
  - apply Z.eqb_neq. cbn. rewrite u64_id by lia. lia.
  - rewrite list_alter_alter_eq. apply (alter_id_at _ _ _ m Hi). by apply dec_inc.
  - apply delete_insert_id. by apply (no_next_handle _ tr).
Qed.

Lemma release_new e t r tr r1 m c b :
  Inv r tr -> same_pool r r1 -> NewMapping r1 m -> next_handle r < 2 ^ 63 - 1 ->
  let i := length (mappings r) in
  let r2 := with_handle (with_mapping r1 m c) i (handle_for e t (next_handle r) (aclrtGetDevice e).2 b m) in
  find_host_mapping_by_id_locked (mappings r2) (mapping_id m) = Some (i, inc m) /\
  (explicit_handle_count (inc m) =? 1) = true /\
  mappings (drop_handle r2 (next_handle r) i (inc m) true) = mappings r /\
  handles (drop_handle r2 (next_handle r) i (inc m) true) = handles r.
Proof.
  intros [HC HL] Hs [[I1 I2] _ _ _ N4] Hn i r2. destruct Hs as (_ & Em & Eh & Ei & En & _).
  assert (Hid : forall y, y ∈ mappings r -> mapping_id y <> mapping_id m).
  { intros y Hy. destruct (co_mapping _ _ HC y Hy) as [_ _ Mi _]. rewrite I1, Ei. lia. }
  unfold r2, with_handle, with_mapping, drop_handle. fields. cbn [andb]. rewrite Em, Eh, En, (no_next_handle _ _ HC).
  change (fun m0 => m0 <| explicit_handle_count := u64 (explicit_handle_count m0 - 1) |>) with dec.
  assert (Ea : forall f : HostMapping -> HostMapping, forall x, alter f i (mappings r ++ [x]) = mappings r ++ [f x]).
  { intros f x. unfold i. rewrite <- (Nat.add_0_r (length (mappings r))), alter_app_r. done. }
  split; [|split; [|split]].
  - rewrite Ea. apply list_find_Some. split; [unfold i; by rewrite lookup_app_r, Nat.sub_diag by lia|]. split; [done|].
    intros j y Hj Hlt. unfold i in Hlt. rewrite lookup_app_l in Hj by lia. apply Hid. by eapply list_elem_of_lookup_2.
  - apply Z.eqb_eq. cbn. by rewrite N4.
  - rewrite !Ea, list.filter_app, filter_all_in by done. rewrite filter_cons_False by (cbn; by intros []). by rewrite filter_nil, app_nil_r.
  - apply delete_insert_id. by apply (no_next_handle _ tr).
Qed.
End Release.

(** ** Concrete calls *)

(** A process with pages of 4096 bytes, one device, and a runtime that maps what
    it is asked to; a pool of three pages of eight floats. *)
Definition demo_page : PageBytes := 4096.
Definition demo_env : Env := mkEnv 7 4096 (0, 0) (fun _ => (0, 0)) (fun base _ => (0, base + 2 ^ 40)) (fun _ => 0) 0.
Definition demo_pool : Tensor := mkTensor true [3; 8] Float CPU true 10000.
Definition other_pool : Tensor := mkTensor true [5; 16] Half CPU true 20000.
Definition demo_world : World := (run demo_env (OpRegister demo_pool) (mkWorld None [])).2.
Definition demo_registry : HostMappingRegistry := registry_of demo_env demo_world.
(** The first handle of process 7. *)
Definition demo_h : Z := 7 * 2 ^ 32 + 1.
Definition demo_handle : HostMappingHandle :=
  mkHandle demo_h 1 10000 96 8192 4096 (10000 + 2 ^ 40) true false true demo_pool 7 0.
(** A device that does not become idle. *)
Definition busy_env : Env := mkEnv 7 4096 (0, 0) (fun _ => (0, 0)) (fun base _ => (0, base + 2 ^ 40)) (fun _ => 0) 5.

Lemma demo_EnvOk : @EnvOk demo_page demo_env.
Proof. split; [done|]. unfold page, demo_page. lia. Defined.
Lemma busy_EnvOk : @EnvOk demo_page busy_env.
Proof. split; [done|]. unfold page, demo_page. lia. Defined.

Lemma demo_TensorOk : @TensorOk demo_page demo_pool.
Proof. split; [done|]. vm_compute. congruence. Defined.
Lemma other_TensorOk : @TensorOk demo_page other_pool.
Proof. split; [done|]. vm_compute. congruence. Defined.

Lemma demo_reachable : @reachable demo_page demo_world.
Proof. apply (reach_step demo_env (OpRegister demo_pool) (mkWorld None [])); [apply demo_EnvOk|apply demo_TensorOk|apply reach_init]. Defined.

Lemma demo_lease : handles demo_registry !! demo_h = Some demo_handle.
Proof. vm_compute. reflexivity. Defined.

Lemma demo_CalledBy : @CalledBy demo_page demo_env demo_registry demo_handle.
Proof. split; [apply demo_EnvOk|vm_compute; reflexivity|by split]. Defined.

(** ** Theorems *)

(** C9: In every world that calls of the module reach, whatever the runtime answers
    and whichever calls throw: the identifiers of the mappings are unique, the
    ranges registered here are page-aligned and do not overlap, every handle
    names the mapping that its request resolves to, a mapping counts its handles,
    the byte counter is the bytes registered, and what the runtime holds is what
    the registry lists. *)
Theorem pool_invariant `{PS : PageBytes} w r (Hw : reachable w) (Hr : w_registry w = Some r) : Inv r (w_acl w).
Proof. pose proof (reachable_ok w Hw) as Ho. unfold WorldOk in Ho. by rewrite Hr in Ho. Qed.

Lemma pool_invariant_witness : @Inv demo_page demo_registry (w_acl demo_world) /\ length (mappings demo_registry) = 1%nat.
Proof. split; [exact (@pool_invariant demo_page demo_world demo_registry demo_reachable eq_refl)|vm_compute; reflexivity]. Defined.

(** C8: The registry refines the abstract pool: a call that throws changes no
    lease; a registration adds one lease under a handle that was never issued
    before; a release by the device of the lease removes it and nothing else, and
    answers false for any other handle; the queries change nothing and report the
    leases. *)
Theorem pool_refines `{PS : PageBytes} e op w (Hw : reachable w) (He : EnvOk e) (Ho : OpOk op) :
  pool_step e (pool_of (registry_of e w)) op (run e op w).1 (pool_of (registry_of e (run e op w).2)).
Proof.
  destruct (WorldOk_registry e w (reachable_ok w Hw)) as [HC _]. destruct (query op) eqn:Hq.
  { rewrite (quiet_registry_of e (run e op)) by by apply query_quiet. by apply query_step. }
  destruct op as [t|h| | | |]; try done; cbn [run].
  - change (wp (h ← register_kv_cache_block_gather_host_pool e t; mret (RHandle h)) w
      (fun o w' => pool_step e (pool_of (registry_of e w)) (OpRegister t) o (pool_of (registry_of e w')))).
    apply wp_bind. eapply wp_mono; [by apply register_wp|]. intros o w' [[-> [x ->]]|(r' & tr' & -> & HR)]; [constructor|].
    pose proof (Registers_step _ _ _ _ _ _ _ HC He HR) as HS. by destruct o.
  - change (wp (b ← unregister_kv_cache_block_gather_host_pool e h; mret (RReleased b)) w
      (fun o w' => pool_step e (pool_of (registry_of e w)) (OpUnregister h) o (pool_of (registry_of e w')))).
    apply wp_bind. eapply wp_mono; [by apply unregister_wp|]. intros o w' (r' & tr' & -> & HR).
    pose proof (Releases_step _ _ _ _ _ _ _ HC HR) as HS. by destruct o.
Qed.

Lemma pool_refines_witness :
  pool_step demo_env (pool_of demo_registry) (OpUnregister demo_h) (run demo_env (OpUnregister demo_h) demo_world).1
    (pool_of (registry_of demo_env (run demo_env (OpUnregister demo_h) demo_world).2)) /\
  (run demo_env (OpUnregister demo_h) demo_world).1 = Ret (RReleased true).
Proof.
  split; [exact (@pool_refines demo_page demo_env (OpUnregister demo_h) demo_world demo_reachable demo_EnvOk I)|vm_compute; reflexivity].
Defined.

(** C7: As long as a handle is held, the operator resolves its pool: for the
    process and the device of the lease the tensor of the handle is found, at the
    address that the handle records, without changing anything; the range lies in
    the mapped one, and a range registered here is still registered with the
    runtime, at the base that the address is computed from. *)
Theorem pool_lease_resolves `{PS : PageBytes} w r h H e
    (Hw : reachable w) (Hr : w_registry w = Some r) (Hh : handles r !! h = Some H) (He : CalledBy e r H) :
  let addr := data_ptr (tensor_owner H) in
  let bytes := tensor_bytes (tensor_owner H) in
  get_mapped_host_device_ptr e addr bytes w = (Ret (device_addr H), w) /\
  mapped_host_base H <= addr /\ addr + bytes <= mapped_host_base H + mapped_bytes H /\
  (h_owned H = true -> next_mapping_id r < UINT64_MAX ->
   exists base, (mapped_host_base H, mapped_bytes H, base) ∈ live (w_acl w) /\ device_addr H = u64 (base + (addr - mapped_host_base H))).
Proof.
  destruct w as [wr tr]. cbn in Hr. subst wr. pose proof (reachable_ok _ Hw) as [HC _]. cbn [w_acl] in *.
  destruct (lease_found e r tr h H (mkWorld (Some r) tr) (cb_env _ _ _ He) HC Hh) as (i & m & _ & Hm & HL).
  pose proof HL as [L1 L2 L3 (L4 & L4' & Lin) (L5 & L5' & _) [L6 L6'] L7 L8 L9]. cbv zeta. rewrite <- L5, <- L5', L6, L6'.
  split; [by eapply lease_resolved|]. split; [apply Lin|]. split; [apply Lin|].
  intros Ho Hn. exists (device_base m). split; [|done]. rewrite (co_live _ _ HC Hn). apply list_elem_of_omap.
  exists m. split; [done|]. unfold registration. by rewrite <- L8, Ho.
Qed.

Lemma pool_lease_resolves_witness :
  get_mapped_host_device_ptr demo_env 10000 96 demo_world = (Ret (10000 + 2 ^ 40), demo_world) /\
  8192 <= 10000 /\ 10000 + 96 <= 8192 + 4096 /\
  (true = true -> next_mapping_id demo_registry < UINT64_MAX ->
   exists base, (8192, 4096, base) ∈ live (w_acl demo_world) /\ 10000 + 2 ^ 40 = u64 (base + (10000 - 8192))).
Proof.
  exact (@pool_lease_resolves demo_page demo_world demo_registry demo_h demo_handle demo_env demo_reachable eq_refl demo_lease demo_CalledBy).
Defined.

(** C25: A pool that is registered and released again leaves the registry as it
    was: the release succeeds, mappings and handles are those from before, and so
    are the registrations with the runtime. *)
Theorem pool_roundtrip `{PS : PageBytes} w r e t h w1 r1 H e'
    (Hw : reachable w) (Hr : w_registry w = Some r) (He : EnvOk e) (Ht : TensorOk t)
    (Hreg : register_kv_cache_block_gather_host_pool e t w = (Ret h, w1))
    (Hr1 : w_registry w1 = Some r1) (Hh : handles r1 !! h = Some H) (He' : ReleasedBy e' r1 H) :
  exists w2 r2, unregister_kv_cache_block_gather_host_pool e' h w1 = (Ret true, w2) /\ w_registry w2 = Some r2 /\
    mappings r2 = mappings r /\ handles r2 = handles r /\
    (next_mapping_id r2 < UINT64_MAX -> live (w_acl w2) ≡ₚ live (w_acl w)).
Proof.
  pose proof (reachable_ok _ Hw) as HI. unfold WorldOk in HI. rewrite Hr in HI.
  assert (Er : registry_of e w = r) by (unfold registry_of; by rewrite Hr).
  pose proof (register_wp e t w He Ht ltac:(rewrite Er; apply HI)) as HR. unfold wp in HR. rewrite Hreg, Er in HR. cbn [fst snd] in HR. clear Er.
  destruct HR as [[_ [x ?]]|(r1' & tr1 & -> & HR)]; [done|]. cbn in Hr1. injection Hr1 as ->.
  pose proof (Registers_Inv _ _ _ _ _ _ _ HI He Ht HR) as [HC1 HL1].
  assert (Hgo : forall i m, find_host_mapping_by_id_locked (mappings r1) (h_mapping_id H) = Some (i, m) ->
    mappings (drop_handle r1 h i m (explicit_handle_count m =? 1)) = mappings r ->
    handles (drop_handle r1 h i m (explicit_handle_count m =? 1)) = handles r ->
    exists w2 r2, unregister_kv_cache_block_gather_host_pool e' h (mkWorld (Some r1) tr1) = (Ret true, w2) /\ w_registry w2 = Some r2 /\
      mappings r2 = mappings r /\ handles r2 = handles r /\ (next_mapping_id r2 < UINT64_MAX -> live (w_acl w2) ≡ₚ live (w_acl w))).
  { intros i m Hf Em Eh. do 2 eexists. split; [by eapply release_ok|]. split; [done|]. split; [done|]. split; [done|]. intros Hn.
    pose proof (Core_drop _ _ _ _ _ _ HC1 Hh Hf) as HC2. cbn [w_acl].
    rewrite (co_live _ _ HC2 Hn), Em. symmetry. apply (co_live _ _ (proj1 HI)).
    assert (next_mapping_id r <= next_mapping_id r1); [|cbn in Hn; lia]. inversion HR as [| | |r0 j m0 Hs|r0 m0 c Hs HN]; subst; unfold with_handle, with_mapping; fields.
    - destruct Hs as (_ & _ & _ & -> & _). lia.
    - destruct (nm_id _ _ HN) as [_ Hm]. destruct Hs as (_ & _ & _ & E & _). rewrite E in *. pose proof (co_next _ _ (proj1 HI)).
      unfold UINT64_MAX in *. rewrite u64_id by lia. lia. }
  inversion HR as [| | |r0 i m Hs Hlt Hf Hpos Hnn Hd|r0 m c Hs HN Hlt Hc Hf Hin Hpos Hnn Hd]; subst.
  - apply list_find_Some in Hf as (Hi & _).
    destruct (release_reuse e t r _ r0 i m (negb (owned m)) HI Hs Hlt Hi) as (F1 & F2 & F3 & F4).
    apply (Hgo i (inc m)); rewrite ?F2; try done. rewrite <- F1. f_equal. revert Hh. unfold with_handle. fields.
    destruct Hs as (_ & _ & -> & _ & -> & _). rewrite (no_next_handle _ _ (proj1 HI)), lookup_insert_eq. by intros [= <-].
  - destruct (release_new e t r _ r0 m c (negb (owned m)) HI Hs HN Hlt) as (F1 & F2 & F3 & F4).
    apply (Hgo (length (mappings r)) (inc m)); rewrite ?F2; try done. rewrite <- F1. f_equal. revert Hh. unfold with_handle, with_mapping. fields.
    destruct Hs as (_ & _ & -> & _ & -> & _). rewrite (no_next_handle _ _ (proj1 HI)), lookup_insert_eq. by intros [= <-].
Qed.

Lemma pool_roundtrip_witness :
  exists w2 r2, unregister_kv_cache_block_gather_host_pool demo_env (demo_h + 1) (run demo_env (OpRegister other_pool) demo_world).2 = (Ret true, w2) /\
    w_registry w2 = Some r2 /\ mappings r2 = mappings demo_registry /\ handles r2 = handles demo_registry /\
    (next_mapping_id r2 < UINT64_MAX -> live (w_acl w2) ≡ₚ live (w_acl demo_world)).
Proof.
  refine (@pool_roundtrip demo_page demo_world demo_registry demo_env other_pool (demo_h + 1) _
    (registry_of demo_env (run demo_env (OpRegister other_pool) demo_world).2)
    (mkHandle (demo_h + 1) 2 20000 160 16384 4096 (20000 + 2 ^ 40) true false true other_pool 7 0) demo_env
    demo_reachable eq_refl demo_EnvOk other_TensorOk _ _ _ _).
  - vm_compute. reflexivity.
  - vm_compute. reflexivity.
  - vm_compute. reflexivity.
  - split; [split; [apply demo_EnvOk|vm_compute; reflexivity|by split]|done|done].
Defined.

(** C26: Calls that throw.  A release that throws does so for one of five reasons
    (never because the registry is inconsistent), and leaves the registry and the
    registrations with the runtime as they were, so that it can be repeated.  A
    registration that throws issues no handle, and leaves mappings and
    registrations as they were unless identifiers or handles have run out. *)
Theorem pool_errors_atomic `{PS : PageBytes} e w x w' (Hw : reachable w) (He : EnvOk e) :
  let r := registry_of e w in
  let r' := registry_of e w' in
  (forall h, unregister_kv_cache_block_gather_host_pool e h w = (Throw x, w') ->
     r' = r /\ live (w_acl w') = live (w_acl w) /\ x ∈ [AfterFork; GetDevice; OtherDeviceRelease; SynchronizeFailed; UnregisterFailed]) /\
  (forall t, TensorOk t -> register_kv_cache_block_gather_host_pool e t w = (Throw x, w') ->
     handles r' = handles r /\ next_handle r' = next_handle r /\
     (next_handle r < 2 ^ 63 - 1 -> mappings r' = mappings r) /\
     (next_handle r < 2 ^ 63 - 1 -> next_mapping_id r < UINT64_MAX -> live (w_acl w') = live (w_acl w))).
Proof.
  intros r r'. destruct (WorldOk_registry e w (reachable_ok w Hw)) as [HC _]. split.
  - intros h Hrun. pose proof (unregister_wp e h w HC) as HR. unfold wp in HR. rewrite Hrun in HR. cbn [fst snd] in HR.
    destruct HR as (r2 & tr2 & -> & HR). unfold r', r. cbn [w_acl registry_of w_registry default from_option].
    inversion HR as [|y Hx| ret Hret|b ret Hret|]; subst; (split; [done|]); (split; [|unfold release_error in *; set_solver]); [done|by rewrite live_snoc|].
    change [SynchronizeDevice ACL_SUCCESS; HostUnregister b ret] with ([SynchronizeDevice ACL_SUCCESS] ++ [HostUnregister b ret]).
    rewrite app_assoc, !live_snoc. cbn. by rewrite (proj2 (Z.eqb_neq _ _) Hret).
  - intros t Ht Hrun. pose proof (register_wp e t w He Ht HC) as HR. unfold wp in HR. rewrite Hrun in HR. cbn [fst snd] in HR.
    destruct HR as [[-> _]|(r2 & tr2 & -> & HR)]; [done|]. unfold r', r. cbn [w_acl registry_of w_registry default from_option].
    inversion HR as [y r3 Hs|y r3 b s ret p Hs Hx|r3 m c Hs HN Hmax Hc| |]; subst; destruct Hs as (_ & Em & Eh & _ & En & _).
    + done.
    + split; [done|]. split; [done|]. split; [done|]. intros _ Hid. rewrite live_snoc. cbn.
      destruct Hx as [Hx|Hx]; [by rewrite (proj2 (Z.eqb_neq _ _) Hx)|lia].
    + unfold with_mapping. fields. split; [done|]. split; [done|]. split; intros; lia.
Qed.

Lemma pool_errors_atomic_witness :
  let w' := (unregister_kv_cache_block_gather_host_pool busy_env demo_h demo_world).2 in
  registry_of busy_env w' = demo_registry /\ live (w_acl w') = live (w_acl demo_world) /\
  SynchronizeFailed ∈ [AfterFork; GetDevice; OtherDeviceRelease; SynchronizeFailed; UnregisterFailed].
Proof.
  intros w'. refine (proj1 (@pool_errors_atomic demo_page busy_env demo_world SynchronizeFailed w' demo_reachable busy_EnvOk) demo_h _).
  vm_compute. reflexivity.
Defined.

(** ** The operator on a leased pool *)

Section GatherCalls.
Import Gather GatherTheorems.

Definition dtype_of (s : ScalarType) : DataType :=
  match s with
  | Float => DT_FLOAT | Half => DT_FLOAT16 | BFloat16 => DT_BF16 | Char => DT_INT8 | Int => DT_INT32 | OtherType _ => DT_OTHER
  end.

(** The context in which ACLNN asks for the tiling of four tensors. *)
Definition context_of (cores : Z) (ids pages dst out : Tensor) : TilingContext :=
  mkContext (Some cores) (Some (dtype_of (scalar_type ids))) (Some (dtype_of (scalar_type pages))) (Some (dtype_of (scalar_type dst)))
    (Some (dtype_of (scalar_type out))) (Some (sizes ids)) (Some (sizes pages)) (Some (sizes dst)) (Some (sizes out)) (Some tt) (Some tt).

(** A shape with positive dimensions whose elements can be counted. *)
Definition ShapeOk (t : Tensor) : Prop := Forall (fun d => 0 < d) (sizes t) /\ numel t * element_size (scalar_type t) < 2 ^ 63.

(** The contract of the operator: [n] pairs of pages of [c] elements. *)
Record GatherCall (ids pages dst out : Tensor) (dev n c : Z) : Prop := {
  gc_device : device ids = NPU dev /\ device dst = NPU dev /\ device out = NPU dev /\ device pages = CPU;
  gc_ids : scalar_type ids = Int /\ scalar_type dst = Int /\ sizes ids = [n] /\ sizes dst = [n] /\ 0 < n;
  gc_contiguous : is_contiguous ids = true /\ is_contiguous dst = true /\ is_contiguous pages = true /\ is_contiguous out = true;
  gc_type : scalar_type pages = scalar_type out /\ supported_type (scalar_type out) = true;
  gc_shapes : ShapeOk pages /\ ShapeOk out /\ sizes pages <> [] /\ sizes out <> [];
  gc_out : numel out = c * size0 out;
  gc_block : c * element_size (scalar_type out) mod 32 = 0;
  gc_pages : numel pages mod c = 0
}.

Lemma fold_mul_acc l a : fold_left Z.mul l a = a * fold_left Z.mul l 1.
Proof.
  revert a. induction l as [|d l IH]; intros a; cbn [fold_left]; [lia|]. rewrite IH, (IH (1 * d)). lia.
Qed.

Lemma numel_pos l : Forall (fun d => 0 < d) l -> 0 < fold_left Z.mul l 1.
Proof. induction 1 as [|d l Hd Hl IH]; cbn [fold_left]; [lia|]. rewrite fold_mul_acc. nia. Qed.

Lemma element_count_numel l : Forall (fun d => 0 < d) l -> fold_left Z.mul l 1 < 2 ^ 63 -> element_count l = fold_left Z.mul l 1.
Proof.
  unfold element_count. assert (Hg : forall a, 0 < a -> Forall (fun d => 0 < d) l -> fold_left Z.mul l a < 2 ^ 63 ->
    fold_left (fun e d => i64 (e * d)) l a = fold_left Z.mul l a); [|apply Hg; lia].
  induction l as [|d l IH]; intros a Ha Hl Hb; [done|]. apply list.Forall_cons in Hl as [Hd Hl]. cbn [fold_left] in *.
  pose proof (numel_pos l Hl). rewrite fold_mul_acc in Hb. rewrite i64_id by nia. apply IH; [nia|done|]. by rewrite fold_mul_acc.
Qed.

Lemma supported_size s : supported_type s = true ->
  IsSupportedPayloadDtype (dtype_of s) = true /\ 1 <= element_size s /\ element_size s * GetDataCopyAlignmentElems (dtype_of s) = 32.
Proof. destruct s; done. Qed.

Lemma shape_numel t : ShapeOk t -> supported_type (scalar_type t) = true -> 0 < numel t < 2 ^ 63 /\ element_count (sizes t) = numel t.
Proof.
  intros [Hf Hb] Hs. destruct (supported_size _ Hs) as (_ & H1 & _). pose proof (numel_pos _ Hf) as Hp. fold (numel t) in Hp.
  assert (numel t < 2 ^ 63) by nia. split; [lia|]. by apply element_count_numel.
Qed.

Lemma size0_pos t : ShapeOk t -> sizes t <> [] -> 0 < size0 t.
Proof. intros [Hf _] Hn. unfold size0. destruct (sizes t) as [|d l]; [done|]. by apply list.Forall_cons in Hf as [Hd _]. Qed.

Lemma GatherCall_accepts cores ids pages dst out dev n c :
  GatherCall ids pages dst out dev n c -> 0 < cores ->
  Accepts (context_of cores ids pages dst out) cores (dtype_of (scalar_type out)) n c (sizes pages) (sizes out)
    (mkLaunch (mkTiling n c (Z.min DEFAULT_TILE_ELEMS c)) (u32 (Z.min cores n)) (GetTilingKeyByDtype (dtype_of (scalar_type out))) WS_SYS_SIZE).
Proof.
  intros [_ (I1 & I2 & I3 & I4 & I5) _ [T1 T2] (S1 & S2 & S3 & S4) Ho Hb Hp] Hc. destruct (supported_size _ T2) as (D1 & D2 & D3).
  destruct (shape_numel pages S1) as [P1 P2]; [by rewrite T1|]. destruct (shape_numel out S2 T2) as [O1 O2].
  pose proof (size0_pos _ S2 S4) as Hz. assert (Hc0 : 0 < c) by nia.
  split; cbn; rewrite ?I1, ?I2, ?I3, ?I4, ?T1; try done.
  - split; [done|lia].
  - change (GetDim (sizes out) 0) with (size0 out). rewrite O2. lia.
  - split; [done|]. set (d := dtype_of (scalar_type out)) in *. pose proof (align_pos d). set (s := element_size (scalar_type out)) in *.
    apply Z.mod_divide in Hb as [q Hq]; [|done]. apply Z.mod_divide; [lia|]. exists q. rewrite <- D3 in Hq. nia.
  - rewrite P2. split; [|done]. destruct (Z.le_gt_cases c (numel pages)); [done|]. rewrite Z.mod_small in Hp; lia.
Qed.

Lemma check_ids_ok ids pages dst out dev n c w : GatherCall ids pages dst out dev n c -> check_ids ids pages dst out w = (Ret tt, w).
Proof.
  intros [(D1 & D2 & D3 & D4) (I1 & I2 & I3 & I4 & I5) _ _ _ _ _ _].
  unfold check_ids, is_privateuseone, is_cpu, dim, size0, mbind, M_bind, TORCH_CHECK.
  rewrite D1, D2, D3, D4, I1, I2, I3, I4, !(bool_decide_true (_ = _)) by reflexivity. change (Z.of_nat (length [n])) with 1. by rewrite !Z.eqb_refl.
Qed.

Lemma check_pages_ok ids pages dst out dev n c w : GatherCall ids pages dst out dev n c -> check_pages ids pages dst out w = (Ret tt, w).
Proof.
  intros [_ _ (C1 & C2 & C3 & C4) [T1 T2] (S1 & S2 & S3 & S4) Ho Hb Hp]. destruct (supported_size _ T2) as (D1 & D2 & D3).
  destruct (shape_numel out S2 T2) as [O1 _]. pose proof (size0_pos _ S2 S4) as Hz. assert (Hc0 : 0 < c) by nia.
  assert (Hd : forall t, sizes t <> [] -> (dim t >=? 1) = true).
  { intros t Ht. unfold dim. destruct (sizes t); [done|]. apply Z.geb_le. cbn [length]. lia. }
  unfold check_pages, mbind, M_bind, TORCH_CHECK. rewrite C1, C2, C3, C4, !Hd, T1, T2, bool_decide_true, Z.gtb_ltb, (proj2 (Z.ltb_lt _ _) Hz) by done.
  cbn [andb]. rewrite Ho, Z.rem_mul, Z.quot_mul by lia. cbn [Z.eqb]. destruct S2 as [_ S2]. rewrite Ho in S2.
  rewrite i64_id by nia. unfold data_copy_block_bytes. rewrite (proj2 (rem_mod_0 _ 32 ltac:(lia)) Hb). done.
Qed.

Lemma gather_call_ok `{PS : PageBytes} e r tr h H ids pages dst out dev n c gw la :
  Core r tr -> handles r !! h = Some H -> CalledBy (with_device e (device out)) r H ->
  data_ptr pages = requested_host_addr H -> tensor_bytes pages = requested_bytes H ->
  GatherCall ids pages dst out dev n c -> gw ids pages dst out = Some la ->
  HostPool.kv_cache_block_gather true gw e ids pages dst out (mkWorld (Some r) tr) = (Ret (Some (device_addr H, la)), mkWorld (Some r) tr).
Proof.
  intros HC Hh He Ha Hb HG Hgw. unfold HostPool.kv_cache_block_gather, mbind. unfold M_bind at 1. rewrite (check_ids_ok _ _ _ _ dev n c) by done.
  destruct (gc_ids _ _ _ _ _ _ _ HG) as (_ & _ & Hs & _ & Hn). unfold size0 at 1. rewrite Hs. change (vat [n] 0) with n.
  rewrite (proj2 (Z.eqb_neq n 0)) by lia. unfold M_bind at 1. rewrite (check_pages_ok _ _ _ _ dev n c) by done.
  unfold M_bind at 1. rewrite Ha, Hb, (lease_resolved _ _ _ h) by done. unfold M_bind, TORCH_CHECK, mret, M_ret. by rewrite Hgw.
Qed.
End GatherCalls.

(** C6: The operator on a leased pool, from the binding to the kernel.  A call that
    meets the contract, by the process and the device of the lease, passes all
    checks of the binding and of the tiling function and enqueues a launch that
    reads the pool at the address recorded in the handle; the launch returns, in
    whatever order its blocks run, with every named page of the pool in the page
    of the output that it is paired with and the other pages unchanged. *)
Theorem gather_call_pages `{PS : PageBytes} `{HA : AscendCopy} w r h H e ids pages dst out dev n c cores gw
    `{HAL : !AscendCopyLaws (Gather.GetDataCopyAlignmentElems (dtype_of (scalar_type out)))}
    (Hw : reachable w) (Hr : w_registry w = Some r) (Hh : handles r !! h = Some H) (He : CalledBy (with_device e (device out)) r H)
    (Hp : data_ptr pages = requested_host_addr H /\ tensor_bytes pages = requested_bytes H)
    (HG : GatherCall ids pages dst out dev n c) (Hc : c < 2 ^ 31) (Hcores : 0 < cores < 2 ^ 32)
    (Hgw : gw ids pages dst out = Gather.KvCacheBlockGatherTilingFunc (context_of cores ids pages dst out)) :
  exists la, Gather.KvCacheBlockGatherTilingFunc (context_of cores ids pages dst out) = Some la /\
  kv_cache_block_gather true gw e ids pages dst out w = (Ret (Some (device_addr H, la)), w) /\
  forall alloc order srcIds dstIds src o,
    (forall p k, Z.of_nat (length (alloc p k).1) = Gather.tileElems (Gather.la_tiling la) /\
       Z.of_nat (length (alloc p k).2) = Gather.tileElems (Gather.la_tiling la)) ->
    (forall k, order k ≡ₚ seqZ 0 k) -> GatherTheorems.PagesOk (Gather.la_tiling la) srcIds dstIds src o ->
    returns (GatherTheorems.launch la srcIds dstIds src alloc order o) (fun o' =>
      length o' = length o /\
      (forall i, 0 <= i < n -> page_eq c o' (vat dstIds i) src (vat srcIds i)) /\
      forall p, 0 <= p -> (forall i, 0 <= i < n -> vat dstIds i <> p) -> page_eq c o' p o p).
Proof.
  destruct w as [wr tr]. cbn in Hr. subst wr. pose proof (reachable_ok _ Hw) as [HC _]. cbn [w_acl] in *.
  pose proof (GatherTheorems.tiling_accepts _ _ _ _ _ _ _ _ (GatherCall_accepts cores _ _ _ _ _ _ _ HG (proj1 Hcores))) as Ha.
  eexists. split; [exact Ha|]. split; [eapply (gather_call_ok e r tr h H ids pages dst out dev n c gw); try done; [apply Hp|apply Hp|by rewrite Hgw]|].
  intros alloc order srcIds dstIds src o Hal Hord HP.
  apply (GatherTheorems.launch_returns (dtype_of (scalar_type out)) (context_of cores ids pages dst out)); [|cbn; by rewrite (proj1 (gc_type _ _ _ _ _ _ _ HG))|done].
  split; [done| |done|done|done]. intros k [= <-]. lia.
Qed.

Definition demo_ids : Tensor := mkTensor true [2] Int (NPU 0) true 50000.
Definition demo_out : Tensor := mkTensor true [4; 2; 4] Float (NPU 0) true 60000.
Definition demo_tiling (ids pages dst out : Tensor) : option Gather.Launch :=
  Gather.KvCacheBlockGatherTilingFunc (context_of 40 ids pages dst out).

Lemma demo_GatherCall : GatherCall demo_ids demo_pool demo_ids demo_out 0 2 8.
Proof. split; try done. split; [|split; [|done]]; (split; [repeat constructor|vm_compute; reflexivity]). Defined.

Lemma gather_call_pages_witness :
  exists la, Gather.KvCacheBlockGatherTilingFunc (context_of 40 demo_ids demo_pool demo_ids demo_out) = Some la /\
  kv_cache_block_gather true demo_tiling demo_env demo_ids demo_pool demo_ids demo_out demo_world = (Ret (Some (10000 + 2 ^ 40, la)), demo_world) /\
  returns (@GatherTheorems.launch SoftCopy la [2; 0] [1; 3] (seqZ 100 24) GatherTheorems.demo_tensors (fun n => rev (seqZ 0 n)) (replicate 32 0))
    (fun o' => length o' = 32%nat /\ (forall i, 0 <= i < 2 -> page_eq 8 o' (vat [1; 3] i) (seqZ 100 24) (vat [2; 0] i)) /\
      forall p, 0 <= p -> (forall i, 0 <= i < 2 -> vat [1; 3] i <> p) -> page_eq 8 o' p (replicate 32 0) p).
Proof.
  destruct (@gather_call_pages demo_page SoftCopy demo_world demo_registry demo_h demo_handle demo_env demo_ids demo_pool demo_ids demo_out
    0 2 8 40 demo_tiling (SoftCopy_laws _) demo_reachable eq_refl demo_lease demo_CalledBy (conj eq_refl eq_refl) demo_GatherCall
    ltac:(lia) ltac:(lia) eq_refl) as (la & Ha & Hc & Hl).
  exists la. split; [exact Ha|]. split; [exact Hc|].
  assert (El : la = GatherTheorems.demo_launch) by (vm_compute in Ha; injection Ha as <-; reflexivity). subst la.
  refine (Hl GatherTheorems.demo_tensors (fun n => rev (seqZ 0 n)) [2; 0] [1; 3] (seqZ 100 24) (replicate 32 0) _ _ GatherTheorems.demo_PagesOk).
  - intros p k. split; reflexivity.
  - intros k. apply Permutation_sym, Permutation_rev.
Defined.

(** ** Observations *)

(** A library without the entry points: the first load says so, a second load of
    the same path answers true. *)
Lemma load_again_true dlopen dlsym find path handler :
  path <> EmptyString -> dlopen path = Some handler -> dlsym handler "aclnnKvCacheBlockGather"%string = false ->
  let '(o, l) := load_kv_cache_block_gather_runtime dlopen dlsym find path (mkLoader None EmptyString) in
  o = Ret false /\ has_kv_cache_block_gather_runtime dlsym find l = false /\
  load_kv_cache_block_gather_runtime dlopen dlsym find path l = (Ret true, l).
Proof.
  intros Hp Hd Hs. unfold load_kv_cache_block_gather_runtime, has_kv_cache_block_gather_runtime, get_host_gather_opapi_func_addr.
  rewrite bool_decide_false by done. cbn [opapi_handler]. rewrite Hd. cbn [opapi_handler opapi_path]. rewrite Hs, andb_false_r, bool_decide_true by done. done.
Qed.

(** A borrowed mapping counts among the mapped bytes, but not among their peak. *)
Definition lending_env : Env := mkEnv 7 4096 (0, 0) (fun addr => (0, addr + 2 ^ 41)) (fun base _ => (0, base + 2 ^ 40)) (fun _ => 0) 0.

Lemma peak_below_current :
  exists l, (get_kv_cache_block_gather_host_mapping_stats lending_env (run lending_env (OpRegister demo_pool) (mkWorld None [])).2).1 = Ret l /\
    ("mapped_bytes_current"%string, 96) ∈ l /\ ("mapped_bytes_peak"%string, 0) ∈ l.
Proof. eexists. split; [vm_compute; reflexivity|]. set_solver. Qed.

(** The check for overlaps looks at the request, not at the pages that are
    registered for it: a registration here can cover a borrowed range. *)
Definition near_pool : Tensor := mkTensor true [1; 8] Float CPU true 10200.

Lemma borrowed_covered :
  exists m m', mappings (registry_of demo_env (run demo_env (OpRegister near_pool) (run lending_env (OpRegister demo_pool) (mkWorld None [])).2).2) = [m; m'] /\
    owned m = false /\ owned m' = true /\ host_base m' <= host_base m /\ host_base m + size m <= host_base m' + size m'.
Proof. do 2 eexists. split; [vm_compute; reflexivity|]. cbn. lia. Qed.

(** When the identifiers have run out, the registration with the runtime is lost. *)
Definition full_registry : HostMappingRegistry := (new_HostMappingRegistry 7) <| next_mapping_id := UINT64_MAX |>.

Lemma registration_lost :
  exists w', register_kv_cache_block_gather_host_pool demo_env demo_pool (mkWorld (Some full_registry) []) = (Throw IdSpace, w') /\
    live (w_acl w') = [(8192, 4096, 8192 + 2 ^ 40)] /\ mappings (registry_of demo_env w') = [].
Proof. eexists. split; [vm_compute; reflexivity|]. split; vm_compute; reflexivity. Qed.
End HostPoolTheorems.
